(** * paprika sync: incremental recipe mirror, mark-and-sweep purge, subtree pruner

    A shallow embedding of [cmd/paprika/sync.go] and [cmd/paprika/paths.go]
    (package main of github.com/TylerHendrickson/paprika) together with the
    parts of the Go runtime they rest on: a directory tree standing for the
    local disk, [path/filepath.WalkDir], [time.Time] with the RFC3339Nano
    layout, and the remote API client as an oracle. *)

From Stdlib Require Import ZArith List String Ascii Bool Lia.
From Stdlib Require Import Sorting.Sorted.
Import ListNotations.
Open Scope string_scope.
Open Scope list_scope.

(* ================================================================== *)
(** * Go errors *)
(* ================================================================== *)

(** The [error] values the program produces or passes on.  The first six are
    the syscall errors package [os] reports; [ErrWrap] is
    [fmt.Errorf("<what> %q: %w", path, err)]; [SkipDir] is the sentinel
    [filepath.SkipDir]. *)
Inductive error : Type :=
| ENOENT | ENOTDIR | EISDIR | EACCES | EEXIST | ENOTEMPTY
| EOF
| ErrJSON
| ErrTimeParse
| ErrAPI (msg : string)
| ErrCanceled
| ErrUIDMismatch (fetched requested : string)
| ErrWrap (what : string) (where_ : list string) (cause : error)
| ErrAtLeastOneWorker
| ErrSyncCompletedWithErrors
| SkipDir.

Definition is_nil (e : option error) : bool :=
  match e with None => true | Some _ => false end.

(* ================================================================== *)
(** * The local disk *)
(* ================================================================== *)

Module FS.

(** A directory tree.  A directory carries one permission bit: whether
    entries may be added to it or removed from it (the owner's write bit). *)
#[warnings="-register-all"] Inductive node : Type :=
| File (body : string)
| Dir (writable : bool) (entries : list (string * node)).

(** A path is the list of its components below the root of the tree.
    [filepath.Join] is list concatenation: components are taken to be plain
    names (no separator, no dot or dot-dot). *)
Definition path := list string.

Definition entries := list (string * node).

Definition is_dir (n : node) : bool :=
  match n with Dir _ _ => true | File _ => false end.

Fixpoint lookup_entry (name : string) (es : entries) : option node :=
  match es with
  | [] => None
  | (n, c) :: rest => if n =? name then Some c else lookup_entry name rest
  end.

Fixpoint replace_entry (name : string) (c : node) (es : entries) : entries :=
  match es with
  | [] => []
  | (n, c0) :: rest =>
      if n =? name then (name, c) :: rest
      else (n, c0) :: replace_entry name c rest
  end.

(** A new entry goes to its place in byte-wise name order, the order
    [os.ReadDir] lists. *)
Fixpoint insert_entry (name : string) (c : node) (es : entries) : entries :=
  match es with
  | [] => [(name, c)]
  | (n, c0) :: rest =>
      if String.ltb name n then (name, c) :: es
      else (n, c0) :: insert_entry name c rest
  end.

Definition set_entry (name : string) (c : node) (es : entries) : entries :=
  match lookup_entry name es with
  | Some _ => replace_entry name c es
  | None => insert_entry name c es
  end.

Definition del_entry (name : string) (es : entries) : entries :=
  filter (fun e => negb (fst e =? name)) es.

Fixpoint lookup (p : path) (n : node) : option node :=
  match p with
  | [] => Some n
  | x :: p' =>
      match n with
      | File _ => None
      | Dir _ es =>
          match lookup_entry x es with
          | Some c => lookup p' c
          | None => None
          end
      end
  end.

(** [filepath.Dir] and [filepath.Base]; the root of the tree plays the part
    of the separator-only path. *)
Definition dirname (p : path) : path := removelast p.
Definition basename (p : path) : string := last p "/".

(** Run [f] on the directory at [p]; a failure on the way down leaves the
    tree as it was. *)
Fixpoint at_dir (p : path)
    (f : bool -> entries -> entries * option error)
    (n : node) : node * option error :=
  match n with
  | File _ => (n, Some ENOTDIR)
  | Dir w es =>
      match p with
      | [] => let (es', err) := f w es in (Dir w es', err)
      | x :: p' =>
          match lookup_entry x es with
          | None => (n, Some ENOENT)
          | Some c =>
              let (c', err) := at_dir p' f c in
              (Dir w (set_entry x c' es), err)
          end
      end
  end.

(** [os.Create] followed by writing [body]: the file is made or truncated. *)
Definition create_in (name body : string) (w : bool) (es : entries)
  : entries * option error :=
  match lookup_entry name es with
  | Some (Dir _ _) => (es, Some EISDIR)
  | Some (File _) => (set_entry name (File body) es, None)
  | None => if w then (set_entry name (File body) es, None)
            else (es, Some EACCES)
  end.

Definition write_file (p : path) (body : string) (n : node)
  : node * option error :=
  match p with
  | [] => (n, Some EISDIR)
  | _ => at_dir (dirname p) (create_in (basename p) body) n
  end.

(** [os.OpenFile(p, O_CREATE|O_EXCL|O_WRONLY, 0666)] followed by writing
    [body]. *)
Definition create_excl_in (name body : string) (w : bool) (es : entries)
  : entries * option error :=
  match lookup_entry name es with
  | Some _ => (es, Some EEXIST)
  | None => if w then (set_entry name (File body) es, None)
            else (es, Some EACCES)
  end.

Definition create_excl (p : path) (body : string) (n : node)
  : node * option error :=
  match p with
  | [] => (n, Some EEXIST)
  | _ => at_dir (dirname p) (create_excl_in (basename p) body) n
  end.

(** [os.Remove]: unlinks a file or an empty directory. *)
Definition remove_in (name : string) (w : bool) (es : entries)
  : entries * option error :=
  match lookup_entry name es with
  | None => (es, Some ENOENT)
  | Some c =>
      if negb w then (es, Some EACCES)
      else match c with
           | Dir _ (_ :: _) => (es, Some ENOTEMPTY)
           | _ => (del_entry name es, None)
           end
  end.

Definition remove (p : path) (n : node) : node * option error :=
  match p with
  | [] => (n, Some EACCES)
  | _ => at_dir (dirname p) (remove_in (basename p)) n
  end.

(** [os.RemoveAll] removes everything it can and reports an error when
    something is left.  [strip n] is what is left of the inside of [n]:
    below a writable directory every file and every emptied directory goes;
    a directory that is not writable keeps its entries (their insides are
    stripped all the same). *)
Definition unlinkable (n : node) : bool :=
  match n with
  | File _ => true
  | Dir _ [] => true
  | Dir _ (_ :: _) => false
  end.

Fixpoint strip (n : node) : node :=
  match n with
  | File b => File b
  | Dir w es =>
      let es' := map (fun e => (fst e, strip (snd e))) es in
      Dir w (if w then filter (fun e => negb (unlinkable (snd e))) es'
             else es')
  end.

Definition remove_all_in (name : string) (w : bool) (es : entries)
  : entries * option error :=
  match lookup_entry name es with
  | None => (es, None)
  | Some c =>
      let c' := strip c in
      if w && unlinkable c' then (del_entry name es, None)
      else (set_entry name c' es, Some EACCES)
  end.

Definition remove_all (p : path) (n : node) : node * option error :=
  match p with
  | [] => (n, Some EACCES)
  | _ =>
      match lookup (dirname p) n with
      | Some (Dir _ _) => at_dir (dirname p) (remove_all_in (basename p)) n
      | Some (File _) => (n, Some ENOTDIR)
      | None => (n, None)
      end
  end.

(** [os.MkdirAll(p, os.ModePerm)]. *)
Fixpoint mkdir_all (p : path) (n : node) : node * option error :=
  match n with
  | File _ => (n, Some ENOTDIR)
  | Dir w es =>
      match p with
      | [] => (n, None)
      | x :: p' =>
          match lookup_entry x es with
          | Some c =>
              let (c', err) := mkdir_all p' c in
              (Dir w (set_entry x c' es), err)
          | None =>
              if w then
                let (c', err) := mkdir_all p' (Dir true []) in
                (Dir w (set_entry x c' es), err)
              else (n, Some EACCES)
          end
      end
  end.

(** [os.Open] followed by reading the whole file.  Opening a directory
    succeeds; reading from it fails. *)
Definition open (p : path) (n : node) : node + error :=
  match lookup p n with
  | Some c => inl c
  | None => inr ENOENT
  end.

Definition read_all (h : node) : string + error :=
  match h with
  | File b => inl b
  | Dir _ _ => inr EISDIR
  end.

(** [fs.DirEntry]: a name and whether it is a directory. *)
Record DirEntry : Type := { Name : string; IsDir : bool }.

Fixpoint insert_sorted (d : DirEntry) (l : list DirEntry) : list DirEntry :=
  match l with
  | [] => [d]
  | d' :: rest =>
      if String.leb (Name d) (Name d') then d :: l
      else d' :: insert_sorted d rest
  end.

Definition sort_entries (l : list DirEntry) : list DirEntry :=
  fold_right insert_sorted [] l.

(** [os.ReadDir]: the entries of a directory, sorted by file name. *)
Definition read_dir (p : path) (n : node) : list DirEntry + error :=
  match lookup p n with
  | Some (Dir _ es) =>
      inl (sort_entries
             (map (fun e => {| Name := fst e; IsDir := is_dir (snd e) |}) es))
  | Some (File _) => inr ENOTDIR
  | None => inr ENOENT
  end.

(** The tree with the subtree at [p] replaced. *)
Fixpoint put (p : path) (new : node) (n : node) : node :=
  match p with
  | [] => new
  | x :: p' =>
      match n with
      | File _ => n
      | Dir w es =>
          match lookup_entry x es with
          | Some c => Dir w (set_entry x (put p' new c) es)
          | None => n
          end
      end
  end.

(** Height of the tree: a bound on how deep a walk can go. *)
Fixpoint height (n : node) : nat :=
  match n with
  | File _ => 0
  | Dir _ es => S (fold_right (fun e h => Nat.max (height (snd e)) h) 0 es)
  end.

End FS.

(* ================================================================== *)
(** * Package time *)
(* ================================================================== *)

Module time.

Open Scope Z_scope.

(** [time.Duration] is an int64 count of nanoseconds. *)
Definition Duration := Z.
Definition Nanosecond : Duration := 1.
Definition Second : Duration := 1000000000.
Definition Minute : Duration := 60 * Second.
Definition Hour : Duration := 60 * Minute.

Definition min_int64 : Z := - 2 ^ 63.
Definition max_int64 : Z := 2 ^ 63 - 1.

(** Unary minus on an int64 wraps at the least value. *)
Definition neg (d : Duration) : Duration :=
  if d =? min_int64 then min_int64 else - d.

(** A [time.Time] is an instant, held as nanoseconds since the Unix epoch,
    and the offset (seconds east of UTC) its location has at that instant.
    Go keeps seconds in an int64 counted from year 1, which covers every
    instant the program can meet, so the instant is an unbounded [Z] here;
    the monotonic reading is not modelled (it never takes part in a
    comparison with a parsed time). *)
Record Time : Type := { unixNano : Z; offset : Z }.

Definition Add (t : Time) (d : Duration) : Time :=
  {| unixNano := unixNano t + d; offset := offset t |}.

Definition After (t u : Time) : bool := unixNano u <? unixNano t.
Definition Equal (t u : Time) : bool := unixNano t =? unixNano u.
Definition Sub (t u : Time) : Z := unixNano t - unixNano u.

(** ** The proleptic Gregorian calendar *)

Definition isLeap (year : Z) : bool :=
  (year mod 4 =? 0) && (negb (year mod 100 =? 0) || (year mod 400 =? 0)).

Definition daysIn (m year : Z) : Z :=
  if m =? 2 then (if isLeap year then 29 else 28)
  else 30 + Z.land (m + Z.shiftr m 3) 1.

(** Days from 1970-01-01 to the given civil date. *)
Definition days_from_civil (year month day : Z) : Z :=
  let y := if month <=? 2 then year - 1 else year in
  let era := y / 400 in
  let yoe := y - era * 400 in
  let mp := if 2 <? month then month - 3 else month + 9 in
  let doy := (153 * mp + 2) / 5 + day - 1 in
  let doe := yoe * 365 + yoe / 4 - yoe / 100 + doy in
  era * 146097 + doe - 719468.

(** The civil date of a day number (days since 1970-01-01). *)
Definition civil_from_days (z : Z) : Z * Z * Z :=
  let z := z + 719468 in
  let era := z / 146097 in
  let doe := z - era * 146097 in
  let yoe := (doe - doe / 1460 + doe / 36524 - doe / 146096) / 365 in
  let doy := doe - (365 * yoe + yoe / 4 - yoe / 100) in
  let mp := (5 * doy + 2) / 153 in
  let d := doy - (153 * mp + 2) / 5 + 1 in
  let m := if mp <? 10 then mp + 3 else mp - 9 in
  (if m <=? 2 then yoe + era * 400 + 1 else yoe + era * 400, m, d).

(** [time.Date(year, month, day, hour, min, sec, nsec, time.UTC)] for fields
    that are in range (Go normalises fields that are not). *)
Definition Date (year month day hour min sec nsec : Z) : Time :=
  {| unixNano :=
       (days_from_civil year month day * 86400
        + hour * 3600 + min * 60 + sec) * 1000000000 + nsec;
     offset := 0 |}.

(** ** Formatting *)

Definition digit (d : Z) : ascii := ascii_of_N (48 + Z.to_N d).

Fixpoint utoa_aux (fuel : nat) (u : Z) (acc : string) : string :=
  match fuel with
  | O => acc
  | S f =>
      let acc' := String (digit (u mod 10)) acc in
      if u <? 10 then acc' else utoa_aux f (u / 10) acc'
  end.

(** Decimal digits of [u >= 0], no leading zeros. *)
Definition utoa (u : Z) : string :=
  utoa_aux (S (Z.to_nat (Z.log2 u))) u "".

(** The [width] low decimal digits of [u], most significant first. *)
Fixpoint fixedDigits (width : nat) (u : Z) : string :=
  match width with
  | O => ""
  | S w => (fixedDigits w (u / 10) ++ String (digit (u mod 10)) "")%string
  end.

(** [appendInt(b, x, width)]: what it appends, the decimal digits of [x]
    padded with zeros to at least [width] digits. *)
Definition appendInt (x : Z) (width : nat) : string :=
  let u := Z.abs x in
  let sign := if x <? 0 then "-" else "" in
  let digits :=
    if (0 <? Z.of_nat width) && (u <? 10 ^ Z.of_nat width)
    then fixedDigits width u
    else utoa u in
  (sign ++ digits)%string.

Fixpoint trim_zeros_rev (l : list ascii) : list ascii :=
  match l with
  | c :: rest => if Ascii.eqb c "0" then trim_zeros_rev rest else l
  | [] => []
  end.

(** [appendNano] for the [.999999999] field: nothing for zero, otherwise
    the nine digits with trailing zeros cut. *)
Definition appendNano (nanosec : Z) : string :=
  if nanosec =? 0 then ""
  else
    String "."
      (string_of_list_ascii
         (rev (trim_zeros_rev
                 (rev (list_ascii_of_string (appendInt nanosec 9)))))).

Definition RFC3339Nano : string := "2006-01-02T15:04:05.999999999Z07:00".

(** The zone of [appendFormatRFC3339]: [Z] for UTC, otherwise sign, hours
    and minutes. *)
Definition formatZone (offset : Z) : string :=
  if offset =? 0 then "Z"
  else
    let zone := Z.quot offset 60 in
    let sign := if zone <? 0 then "-" else "+" in
    (sign ++ appendInt (Z.abs zone / 60) 2 ++ ":"
          ++ appendInt (Z.abs zone mod 60) 2)%string.

(** [t.Format(time.RFC3339Nano)]. *)
Definition formatRFC3339Nano (t : Time) : string :=
  let abs := unixNano t / 1000000000 + offset t in
  let '(year, month, day) := civil_from_days (abs / 86400) in
  let secs := abs mod 86400 in
  let hour := secs / 3600 in
  let min := secs mod 3600 / 60 in
  let sec := secs mod 60 in
  (appendInt year 4 ++ "-" ++ appendInt month 2 ++ "-" ++ appendInt day 2
   ++ "T" ++ appendInt hour 2 ++ ":" ++ appendInt min 2 ++ ":"
   ++ appendInt sec 2
   ++ appendNano (unixNano t mod 1000000000)
   ++ formatZone (offset t))%string.

(** ** Parsing *)

Definition isDigit (c : ascii) : bool :=
  let n := Z.of_N (N_of_ascii c) in (48 <=? n) && (n <=? 57).

Definition digit_val (c : ascii) : Z := Z.of_N (N_of_ascii c) - 48.

(** The [parseUint] closure of [parseRFC3339]: decimal digits only and the
    value within [lo, hi]. *)
Definition parseUint (s : string) (lo hi : Z) : option Z :=
  let cs := list_ascii_of_string s in
  if forallb isDigit cs then
    let x := fold_left (fun acc c => acc * 10 + digit_val c) cs 0 in
    if (lo <=? x) && (x <=? hi) then Some x else None
  else None.

Fixpoint span_digits (s : string) : string * string :=
  match s with
  | String c rest =>
      if isDigit c then let (ds, r) := span_digits rest in (String c ds, r)
      else ("", s)
  | EmptyString => ("", "")
  end.

(** [parseNanoseconds]: at most nine digits count; missing digits scale. *)
Definition parseNanoseconds (digits : string) : Z :=
  let ds := substring 0 9 digits in
  fold_left (fun acc c => acc * 10 + digit_val c) (list_ascii_of_string ds) 0
  * 10 ^ (9 - Z.of_nat (String.length ds)).

Definition parseZone (s : string) : option Z :=
  if (s =? "Z")%string then Some 0
  else if negb (String.length s =? 6)%nat then None
  else
    match parseUint (substring 1 2 s) 0 23,
          parseUint (substring 4 2 s) 0 59 with
    | Some hr, Some mm =>
        let sign := substring 0 1 s in
        if (((sign =? "-") || (sign =? "+")) && (substring 3 1 s =? ":"))
             %string
        then
          let zoneOffset := (hr * 60 + mm) * 60 in
          Some (if (sign =? "-")%string then - zoneOffset else zoneOffset)
        else None
    | _, _ => None
    end.

(** The fractional second of [parseRFC3339]: a period and at least one
    digit, or nothing. *)
Definition parseFraction (rest : string) : Z * string :=
  match rest with
  | String "." (String c r) =>
      if isDigit c then
        let (ds, r') := span_digits (String c r) in
        (parseNanoseconds ds, r')
      else (0, rest)
  | _ => (0, rest)
  end.

(** [parseRFC3339], the strict parser [time.Parse] runs for this layout. *)
Definition parseRFC3339 (s : string) : option Time :=
  if (String.length s <? 19)%nat then None
  else
    match parseUint (substring 0 4 s) 0 9999,
          parseUint (substring 5 2 s) 1 12 with
    | Some year, Some month =>
        match parseUint (substring 8 2 s) 1 (daysIn month year),
              parseUint (substring 11 2 s) 0 23,
              parseUint (substring 14 2 s) 0 59,
              parseUint (substring 17 2 s) 0 59 with
        | Some day, Some hour, Some min, Some sec =>
            if ((substring 4 1 s =? "-") && (substring 7 1 s =? "-")
                && (substring 10 1 s =? "T") && (substring 13 1 s =? ":")
                && (substring 16 1 s =? ":"))%string
            then
              let '(nsec, rest) :=
                parseFraction (substring 19 (String.length s - 19) s) in
              match parseZone rest with
              | Some zoneOffset =>
                  let t := Date year month day hour min sec nsec in
                  Some {| unixNano := unixNano t - zoneOffset * 1000000000;
                          offset := zoneOffset |}
              | None => None
              end
            else None
        | _, _, _, _ => None
        end
    | _, _ => None
    end.

(** [time.Parse(layout, value)].  The program parses with one layout only.
    Go runs the strict parser first and, on a value it rejects, its general
    layout parser, which takes a few values more (an hour of one digit, a
    comma before the fraction); here such a value is reported as an error.
    What is stated of a parse that fails is therefore stated of values both
    parsers reject: those that do not begin with a digit. *)
Definition Parse (layout value : string) : Time + error :=
  if (layout =? RFC3339Nano)%string then
    match parseRFC3339 value with
    | Some t => inl t
    | None => inr ErrTimeParse
    end
  else inr ErrTimeParse.

(** [t.Format(layout)] for the same layout. *)
Definition Format (t : Time) (layout : string) : string :=
  if (layout =? RFC3339Nano)%string then formatRFC3339Nano t else layout.

End time.

(* ================================================================== *)
(** * Package paprika: records, client, JSON *)
(* ================================================================== *)

Module paprika.

(** Modelled from the spec: the record types of package paprika
    ([RecipeItem], [Recipe], [Category]), whose declarations are not among
    the sources.  A reference is [{uid, hash}]; a recipe carries its uid,
    its own hash and further fields (one stands for them); a category is
    [{uid, name}]. *)
Module RecipeItem.
Record t : Type := mk { UID : string; Hash : string }.
End RecipeItem.

Module Recipe.
Record t : Type := mk { UID : string; Hash : string; Name : string }.
End Recipe.

Module Category.
Record t : Type := mk { UID : string; Name : string }.
End Category.

(** The remote API as the program sees it: what each call of [*Client]
    returns, a value together with an error or nil. *)
Module Client.
Record t : Type := mk {
  Recipes : list RecipeItem.t * option error;
  Recipe : string -> Recipe.t * option error;
  Categories : list Category.t * option error
}.
End Client.

End paprika.

(** [encoding/json] at the types the program stores and loads.  Decoding a
    stored recipe into a [RecipeItem] keeps its uid and hash. *)
Class JSON : Type := {
  encode_recipe : paprika.Recipe.t -> string;
  encode_index : list paprika.RecipeItem.t -> string;
  encode_categories : list paprika.Category.t -> string;
  decode_item : string -> option paprika.RecipeItem.t;
  decode_index : string -> option (list paprika.RecipeItem.t)
}.

(* ================================================================== *)
(** * The world the program runs in *)
(* ================================================================== *)

(** Requests sent to the API, latest first. *)
Inductive request : Type :=
| GET_recipes
| GET_recipe (uid : string)
| GET_categories.

Record World : Type := { disk : FS.node; requests : list request }.

(** Ways a Go process stops without returning: a run-time panic,
    [os.Exit], all goroutines blocked.  [OutOfFuel] is the bound of a
    recursive walk running out, which the tree height rules out. *)
Inductive crash : Type :=
| Panic
| Exit (code : Z)
| Deadlock
| OutOfFuel.

Inductive outcome (A : Type) : Type :=
| Returned (a : A)
| Crashed (c : crash).
Arguments Returned {A} a.
Arguments Crashed {A} c.

Definition M (A : Type) : Type := World -> World * outcome A.

Definition ret {A} (a : A) : M A := fun w => (w, Returned a).

Definition bind {A B} (m : M A) (k : A -> M B) : M B :=
  fun w =>
    match m w with
    | (w', Returned a) => k a w'
    | (w', Crashed c) => (w', Crashed c)
    end.

Definition stop {A} (c : crash) : M A := fun w => (w, Crashed c).

Declare Scope go_scope.
Delimit Scope go_scope with go.
Notation "x <- m ;; k" := (bind m (fun x => k))
  (at level 61, m at next level, right associativity) : go_scope.
Notation "' pat <- m ;; k" := (bind m (fun x => match x with pat => k end))
  (at level 61, pat pattern, m at next level, right associativity) : go_scope.
Open Scope go_scope.

(** Reading the disk, and running a file-system call on it. *)
Definition reads {A} (f : FS.node -> A) : M A :=
  fun w => (w, Returned (f (disk w))).

Definition syscall (f : FS.node -> FS.node * option error) : M (option error) :=
  fun w =>
    let (d, err) := f (disk w) in
    ({| disk := d; requests := requests w |}, Returned err).

Definition send {A} (r : request) (answer : A) : M A :=
  fun w => ({| disk := disk w; requests := r :: requests w |}, Returned answer).

(** A [context.Context]: cancelled or not, for the whole run. *)
Definition Context := bool.
Definition ctx_Err (ctx : Context) : option error :=
  if ctx then Some ErrCanceled else None.

(** [s[:n]] on a string: panics when [n] exceeds the length. *)
Definition slice_to (s : string) (n : nat) : M string :=
  if (n <=? String.length s)%nat then ret (substring 0 n s) else stop Panic.

(** [f.Read(buf)] with [len(buf) = n] on a freshly opened file. *)
Definition file_Read (f : FS.node) (n : nat) : string + error :=
  match f with
  | FS.Dir _ _ => inr EISDIR
  | FS.File body =>
      if (n =? 0)%nat then inl ""
      else if body =? "" then inr EOF
      else inl (substring 0 n body)
  end.

Definition os_IsExist (e : error) : bool :=
  match e with EEXIST | ENOTEMPTY => true | _ => false end.

(* ================================================================== *)
(** * cmd/paprika/paths.go *)
(* ================================================================== *)

(** The three environment variables [os.LookupEnv] is asked for. *)
Record Env : Type := {
  PAPRIKA_RECIPES_ROOT : option FS.path;
  PAPRIKA_RECIPES_INDEX : option FS.path;
  PAPRIKA_CATEGORIES_INDEX : option FS.path
}.

Definition filenameRecipeJSON : string := "recipe.json".
Definition filenameRecipeDeleteMarker : string := ".delete-marker".
Definition filenameRecipesIndex : string := "recipes-index.json".
Definition filenameCategoriesIndex : string := "categories-index.json".

Section Paths.

Variable env : Env.

Definition pathToRecipesDir (basePath : FS.path) : FS.path :=
  match PAPRIKA_RECIPES_ROOT env with
  | Some path => path
  | None => basePath ++ ["recipes"]
  end.

(** [filepath.Join] cleans the path it builds: the three components below
    the root are the ones written here when the uid holds no separator and
    does not begin with two periods. *)
Definition pathToRecipeDir (basePath : FS.path) (uid : string) : M FS.path :=
  let root := pathToRecipesDir basePath in
  a <- slice_to uid 2 ;;
  b <- slice_to uid 3 ;;
  ret (root ++ [a; b; uid]).

Definition pathToRecipeJSONFile (basePath : FS.path) (uid : string)
  : M FS.path :=
  d <- pathToRecipeDir basePath uid ;;
  ret (d ++ [filenameRecipeJSON]).

Definition pathToRecipeDeleteMarkerFile (basePath : FS.path) (uid : string)
  : M FS.path :=
  d <- pathToRecipeDir basePath uid ;;
  ret (d ++ [filenameRecipeDeleteMarker]).

Definition pathToRecipesIndexFile (basePath : FS.path) : FS.path :=
  match PAPRIKA_RECIPES_INDEX env with
  | Some path => path
  | None => basePath ++ [filenameRecipesIndex]
  end.

Definition pathToCategoriesIndexFile (basePath : FS.path) : FS.path :=
  match PAPRIKA_CATEGORIES_INDEX env with
  | Some path => path
  | None => basePath ++ [filenameCategoriesIndex]
  end.

End Paths.

(* ================================================================== *)
(** * path/filepath.WalkDir *)
(* ================================================================== *)

Definition WalkDirFunc : Type :=
  FS.path -> option FS.DirEntry -> option error -> M (option error).

(** [walkDir]: [fuel] bounds the depth of the descent. *)
Fixpoint walkDir (fuel : nat) (path : FS.path) (d : FS.DirEntry)
    (walkDirFn : WalkDirFunc) : M (option error) :=
  match fuel with
  | O => stop OutOfFuel
  | S fuel' =>
      err <- walkDirFn path (Some d) None ;;
      if negb (is_nil err) || negb (FS.IsDir d) then
        match err with
        | Some SkipDir => ret (if FS.IsDir d then None else err)
        | _ => ret err
        end
      else
        r <- reads (FS.read_dir path) ;;
        match r with
        | inr e =>
            err <- walkDirFn path (Some d) (Some e) ;;
            match err with
            | Some SkipDir => ret None
            | _ => ret err
            end
        | inl dirs =>
            (fix range (dirs : list FS.DirEntry) : M (option error) :=
               match dirs with
               | [] => ret None
               | d1 :: rest =>
                   err <- walkDir fuel' (path ++ [FS.Name d1]) d1 walkDirFn ;;
                   match err with
                   | None => range rest
                   | Some SkipDir => ret None
                   | Some e => ret (Some e)
                   end
               end) dirs
        end
  end.

(** [filepath.WalkDir]; [os.Lstat] of the root is a lookup. *)
Definition WalkDir (root : FS.path) (fn : WalkDirFunc) : M (option error) :=
  info <- reads (FS.lookup root) ;;
  err <- match info with
         | None => fn root None (Some ENOENT)
         | Some n =>
             h <- reads FS.height ;;
             walkDir (S h) root
               {| FS.Name := FS.basename root; FS.IsDir := FS.is_dir n |} fn
         end ;;
  match err with
  | Some SkipDir => ret None
  | _ => ret err
  end.

(* ================================================================== *)
(** * cmd/paprika/sync.go *)
(* ================================================================== *)

Definition NumWorkers := Z.

Definition NumWorkers_Validate (i : NumWorkers) : option error :=
  if (i <=? 0)%Z then Some ErrAtLeastOneWorker else None.

Record SyncCMD : Type := {
  IncludeRecipes : bool;
  PurgeAfter : time.Duration;
  IncludeCategories : bool;
  DownloadConcurrency : NumWorkers
}.

Record CLI : Type := { DataDir : FS.path }.

Section Sync.

Context {json : JSON}.
Variable env : Env.

Definition saveAsJSON (body : string) (path : FS.path) : M (option error) :=
  err <- syscall (FS.mkdir_all (FS.dirname path)) ;;
  match err with
  | Some e => ret (Some e)
  | None => syscall (FS.write_file path body)
  end.

(** [json.NewDecoder(f).Decode(&v)]: a failed read is a failed decode. *)
Definition decode_from {A} (dec : string -> option A) (f : FS.node)
  : A + error :=
  match FS.read_all f with
  | inr e => inr e
  | inl body =>
      match dec body with
      | Some v => inl v
      | None => inr ErrJSON
      end
  end.

Definition shouldSaveRecipe (path : FS.path) (hash : string)
  : M (bool * bool) :=
  r <- reads (FS.open path) ;;
  match r with
  | inr _ => ret (true, false)
  | inl f =>
      match decode_from decode_item f with
      | inr _ => ret (true, true)
      | inl extantItem =>
          if paprika.RecipeItem.Hash extantItem =? hash
          then ret (false, true)
          else ret (true, true)
      end
  end.

Definition UpsertRecipe (cli : CLI) (c : paprika.Client.t)
    (ref : paprika.RecipeItem.t) : M (bool * option error) :=
  recipePath <- pathToRecipeJSONFile env (DataDir cli)
                  (paprika.RecipeItem.UID ref) ;;
  '(doUpdate, exists_) <-
    shouldSaveRecipe recipePath (paprika.RecipeItem.Hash ref) ;;
  if negb doUpdate then ret (false, None)
  else
    '(recipe, err) <-
      send (GET_recipe (paprika.RecipeItem.UID ref))
           (paprika.Client.Recipe c (paprika.RecipeItem.UID ref)) ;;
    match err with
    | Some e => ret (false, Some e)
    | None =>
        (* a hash that differs from the reference is logged, nothing more *)
        if negb (paprika.Recipe.UID recipe =? paprika.RecipeItem.UID ref)
        then
          ret (false,
               Some (ErrUIDMismatch (paprika.Recipe.UID recipe)
                                    (paprika.RecipeItem.UID ref)))
        else
          err <- saveAsJSON (encode_recipe recipe) recipePath ;;
          match err with
          | Some e => ret (false, Some e)
          | None => ret (true, None)
          end
    end.

(** [log.Fatal().Err(err).Msg(...)]: zerolog ends the process with
    [os.Exit(1)] when the message is sent. *)
Definition log_Fatal {A} : M A := stop (Exit 1).

Definition SaveCategoriesIndex (cli : CLI) (c : paprika.Client.t)
  : M (option error) :=
  '(categories, err) <- send GET_categories (paprika.Client.Categories c) ;;
  match err with
  | Some e =>
      _ <- @log_Fatal unit ;;
      ret (Some e)
  | None =>
      let path := pathToCategoriesIndexFile env (DataDir cli) in
      saveAsJSON (encode_categories categories) path
  end.

Definition SaveRecipesIndex (cli : CLI) (c : paprika.Client.t)
  : M (list paprika.RecipeItem.t * option error) :=
  '(recipesIndex, err) <- send GET_recipes (paprika.Client.Recipes c) ;;
  match err with
  | Some e => ret (recipesIndex, Some e)
  | None =>
      let path := pathToRecipesIndexFile env (DataDir cli) in
      err <- saveAsJSON (encode_index recipesIndex) path ;;
      ret (recipesIndex, err)
  end.

(** readTimestampMarker reads the file at path and returns the decoded
    timestamp marker. *)
Definition readTimestampMarker (path : FS.path) (layout : string)
  : M (time.Time + error) :=
  r <- reads (FS.open path) ;;
  match r with
  | inr e => ret (inr e)
  | inl f =>
      match file_Read f (String.length layout) with
      | inr e => ret (inr e)
      | inl buf => ret (time.Parse layout buf)
      end
  end.

Definition indexed (uid : string) (indexedUIDs : list string) : bool :=
  existsb (String.eqb uid) indexedUIDs.

(** The function [PurgeUnreferencedRecipes] hands to [filepath.WalkDir]. *)
Definition purgeWalkFn (cmd : SyncCMD) (ctx : Context) (dataDir : FS.path)
    (cutoff : time.Time) (nowStamp : string) (indexedUIDs : list string)
  : WalkDirFunc :=
  fun path d err =>
    match err with
    | Some e => ret (Some e)
    | None =>
    if negb (is_nil (ctx_Err ctx)) then ret err
    else
    match d with
    | None => stop Panic
    | Some d =>
    (* Skip all that is not a recipe or deletion marker file *)
    if FS.IsDir d then ret None
    else
    let currentFileName := FS.Name d in
    if negb (currentFileName =? filenameRecipeJSON)
       && negb (currentFileName =? filenameRecipeDeleteMarker)
    then ret None
    else
    let dir := FS.dirname path in
    let uid := FS.basename dir in
    (* Check if recipe is present in index *)
    if indexed uid indexedUIDs then
      if currentFileName =? filenameRecipeDeleteMarker then
        err <- syscall (FS.remove path) ;;
        match err with
        | Some e => ret (Some e)
        | None => ret (Some SkipDir)
        end
      else ret None
    else
    (* Directory pertains to an unindexed recipe *)
    decision <-
      (if (PurgeAfter cmd =? 0)%Z then ret (inl true)
       else if currentFileName =? filenameRecipeDeleteMarker then
         r <- readTimestampMarker path time.RFC3339Nano ;;
         match r with
         | inr e => ret (inr (Some e))
         | inl marker =>
             if time.After marker cutoff then ret (inr (Some SkipDir))
             else ret (inl true)
         end
       else ret (inl false)) ;;
    match decision with
    | inr early => ret early
    | inl doPurge =>
    if doPurge : bool then
      (* the error of os.RemoveAll is logged and not returned *)
      _ <- syscall (FS.remove_all dir) ;;
      ret (Some SkipDir)
    else if currentFileName =? filenameRecipeJSON then
      (* Create marker file if one does not already exist *)
      markerPath <- pathToRecipeDeleteMarkerFile env dataDir uid ;;
      err <- syscall (FS.create_excl markerPath nowStamp) ;;
      match err with
      | Some e => if os_IsExist e then ret None else ret (Some e)
      | None => ret (Some SkipDir)
      end
    else ret None
    end
    end
    end.

Definition PurgeUnreferencedRecipes (cmd : SyncCMD) (ctx : Context)
    (dataDir : FS.path) (now : time.Time) : M (option error) :=
  let cutoff := time.Add now (time.neg (PurgeAfter cmd)) in
  let nowStamp := time.Format now time.RFC3339Nano in
  r <- reads (FS.open (pathToRecipesIndexFile env dataDir)) ;;
  match r with
  | inr e => ret (Some e)
  | inl indexFile =>
      match decode_from decode_index indexFile with
      | inr e => ret (Some e)
      | inl index =>
          let indexedUIDs := map paprika.RecipeItem.UID index in
          let recipesDataRoot := pathToRecipesDir env dataDir in
          WalkDir recipesDataRoot
            (purgeWalkFn cmd ctx dataDir cutoff nowStamp indexedUIDs)
      end
  end.

End Sync.

(* ================================================================== *)
(** * PruneFilelessSubtrees *)
(* ================================================================== *)

(** [pruneDir] reads and changes nothing outside the directory it is given,
    so the state it threads is the subtree at [dir]: [os.ReadDir(dir)] is
    the entry list of the node, [os.RemoveAll(p)] for a child [p] acts on
    that list, and what a recursive call leaves of a child is put back in
    its place. *)
Section Prune.

Variable ctx : Context.

Fixpoint remove_each (dir : FS.path) (names : list string) (w : bool)
    (cur : FS.entries) : FS.entries * option error :=
  match names with
  | [] => (cur, None)
  | name :: rest =>
      match ctx_Err ctx with
      | Some e => (cur, Some e)
      | None =>
          let (cur', err) := FS.remove_all_in name w cur in
          match err with
          | Some e => (cur', Some (ErrWrap "remove" (dir ++ [name]) e))
          | None => remove_each dir rest w cur'
          end
      end
  end.

Fixpoint pruneDir (dir : FS.path) (n : FS.node) {struct n}
  : FS.node * (bool * option error) :=
  match ctx_Err ctx with
  | Some e => (n, (false, Some e))
  | None =>
  match n with
  | FS.File _ => (n, (false, Some (ErrWrap "read dir" dir ENOTDIR)))
  | FS.Dir w entries =>
      let '(cur, hasOnlyDirs, emptyChildren, err) :=
        (fix range (es cur : FS.entries) (hasOnlyDirs : bool)
             (emptyChildren : list string) {struct es}
           : FS.entries * bool * list string * option error :=
           match es with
           | [] => (cur, hasOnlyDirs, emptyChildren, None)
           | (name, c) :: rest =>
               match ctx_Err ctx with
               | Some e => (cur, hasOnlyDirs, emptyChildren, Some e)
               | None =>
               match c with
               | FS.File _ => range rest cur false emptyChildren
               | FS.Dir _ _ =>
                   let '(c', (childHasOnlyDirs, err)) :=
                     pruneDir (dir ++ [name]) c in
                   let cur' := FS.set_entry name c' cur in
                   match err with
                   | Some e => (cur', hasOnlyDirs, emptyChildren, Some e)
                   | None =>
                       if childHasOnlyDirs
                       then range rest cur' hasOnlyDirs
                                  (emptyChildren ++ [name])
                       else range rest cur' false emptyChildren
                   end
               end
               end
           end) entries entries true [] in
      match err with
      | Some e => (FS.Dir w cur, (false, Some e))
      | None =>
          if negb hasOnlyDirs then
            (* This dir cannot be entirely removed, so remove any fileless
               children now. *)
            let (cur', err) := remove_each dir emptyChildren w cur in
            match err with
            | Some e => (FS.Dir w cur', (false, Some e))
            | None => (FS.Dir w cur', (hasOnlyDirs, None))
            end
          else (FS.Dir w cur, (hasOnlyDirs, None))
      end
  end
  end.

(** The body of [PruneFilelessSubtrees] on the node of the root. *)
Definition pruneRoot (root : FS.path) (n : FS.node)
  : FS.node * option error :=
  match n with
  | FS.File _ => (n, Some (ErrWrap "read root" root ENOTDIR))
  | FS.Dir w entries =>
      let (cur, err) :=
        (fix range (es cur : FS.entries) {struct es}
           : FS.entries * option error :=
           match es with
           | [] => (cur, None)
           | (name, c) :: rest =>
               if negb (FS.is_dir c) then range rest cur
               else
                 let '(c', (childHasOnlyDirs, err)) :=
                   pruneDir (root ++ [name]) c in
                 let cur' := FS.set_entry name c' cur in
                 match err with
                 | Some e => (cur', Some e)
                 | None =>
                     if childHasOnlyDirs then
                       match ctx_Err ctx with
                       | Some e => (cur', Some e)
                       | None =>
                           let (cur'', err) :=
                             FS.remove_all_in name w cur' in
                           match err with
                           | Some e =>
                               (cur'',
                                Some (ErrWrap "remove" (root ++ [name]) e))
                           | None => range rest cur''
                           end
                       end
                     else range rest cur'
                 end
           end) entries entries in
      (FS.Dir w cur, err)
  end.

(** PruneFilelessSubtrees removes subdirectories under the given root
    directory tree that themselves consist of only directories,
    recursively.  root itself is never removed. *)
Definition PruneFilelessSubtrees (root : FS.path) : M (option error) :=
  fun w =>
    match FS.lookup root (disk w) with
    | None => (w, Returned (Some (ErrWrap "read root" root ENOENT)))
    | Some n =>
        let (n', err) := pruneRoot root n in
        ({| disk := FS.put root n' (disk w); requests := requests w |},
         Returned err)
    end.

End Prune.

(* ================================================================== *)
(** * SyncCMD.Run *)
(* ================================================================== *)

(** The goroutines of one run are laid out in one order: the recipes branch
    runs the index fetch and then the queued references one after another
    (the workers touch disjoint files, and the error flag and the counter
    only accumulate); the categories task runs after [k] steps of the
    recipes branch, for a [k] the scheduler picks. *)
Section Run.

Context {json : JSON}.
Variable env : Env.
Variables (cmd : SyncCMD) (ctx : Context) (cli : CLI) (pc : paprika.Client.t).

(** The state shared by the goroutines: [exitWithErrors] and
    [savedRecipesCount]. *)
Definition shared : Type := (bool * Z)%type.

Definition workItem (ref : paprika.RecipeItem.t) (st : shared) : M shared :=
  '(saved, err) <- UpsertRecipe env cli pc ref ;;
  ret (fst st || negb (is_nil err),
       if saved : bool then (snd st + 1)%Z else snd st).

Fixpoint drain (queue : list paprika.RecipeItem.t) (st : shared) : M shared :=
  match queue with
  | [] => ret st
  | ref :: rest => st' <- workItem ref st ;; drain rest st'
  end.

Definition categoriesTask (st : shared) : M shared :=
  if IncludeCategories cmd then
    err <- SaveCategoriesIndex env cli pc ;;
    ret (fst st || negb (is_nil err), snd st)
  else ret st.

(** The workers take nothing when the context is cancelled (each returns at
    its first check) or when there are none; the producer then blocks for
    good once the queue is full. *)
Definition idle : bool := ctx || (DownloadConcurrency cmd =? 0)%Z.

Definition producerBlocks (items : list paprika.RecipeItem.t) : bool :=
  idle && (DownloadConcurrency cmd <? Z.of_nat (List.length items))%Z.

(** Everything up to and including [wg.Wait()]. *)
Definition syncPhase (k : nat) : M shared :=
  let st0 : shared := (false, 0%Z) in
  if negb (IncludeRecipes cmd) then categoriesTask st0
  else if (DownloadConcurrency cmd <? 0)%Z then stop Panic
  else
    st1 <- match k with O => categoriesTask st0 | S _ => ret st0 end ;;
    '(recipeIndexItems, err) <- SaveRecipesIndex env cli pc ;;
    let st2 : shared := (fst st1 || negb (is_nil err), snd st1) in
    let taken := if idle then [] else recipeIndexItems in
    st3 <- drain (firstn (pred k) taken) st2 ;;
    st4 <- match k with O => ret st3 | S _ => categoriesTask st3 end ;;
    st5 <- drain (skipn (pred k) taken) st4 ;;
    if producerBlocks recipeIndexItems then stop Deadlock else ret st5.

(** The purge and prune block of [Run]; [now] is [time.Now()]. *)
Definition purgePhase (now : time.Time) (exitWithErrors : bool) : M bool :=
  if negb exitWithErrors && (0 <=? PurgeAfter cmd)%Z then
    err <- PurgeUnreferencedRecipes env cmd ctx (DataDir cli) now ;;
    match err with
    | Some _ => ret true
    | None =>
        let pruneRoot := pathToRecipesDir env (DataDir cli) in
        err <- PruneFilelessSubtrees ctx pruneRoot ;;
        ret (negb (is_nil err))
    end
  else ret exitWithErrors.

Definition Run (k : nat) (now : time.Time) : M (option error) :=
  st <- syncPhase k ;;
  exitWithErrors <- purgePhase now (fst st) ;;
  if exitWithErrors : bool then ret (Some ErrSyncCompletedWithErrors)
  else ret None.

End Run.

(* ================================================================== *)
(** * A concrete codec and test fixtures *)
(* ================================================================== *)

(** A codec for the examples: flat JSON objects whose values are strings
    without escapes, written the way [json.Encoder] lays them out (one
    line, no spaces).  The theorems below hold for any codec. *)
Module FlatJSON.

Definition dq : string := String (ascii_of_nat 34) "".
Definition nl : string := String (ascii_of_nat 10) "".

Definition quoted (s : string) : string := dq ++ s ++ dq.
Definition field (k v : string) : string := quoted k ++ ":" ++ quoted v.

Definition enc_item (it : paprika.RecipeItem.t) : string :=
  "{" ++ field "uid" (paprika.RecipeItem.UID it) ++ ","
      ++ field "hash" (paprika.RecipeItem.Hash it) ++ "}".

Definition enc_recipe (r : paprika.Recipe.t) : string :=
  "{" ++ field "uid" (paprika.Recipe.UID r) ++ ","
      ++ field "hash" (paprika.Recipe.Hash r) ++ ","
      ++ field "name" (paprika.Recipe.Name r) ++ "}" ++ nl.

Definition enc_category (c : paprika.Category.t) : string :=
  "{" ++ field "uid" (paprika.Category.UID c) ++ ","
      ++ field "name" (paprika.Category.Name c) ++ "}".

Definition enc_index (l : list paprika.RecipeItem.t) : string :=
  "[" ++ String.concat "," (map enc_item l) ++ "]" ++ nl.

Definition enc_categories (l : list paprika.Category.t) : string :=
  "[" ++ String.concat "," (map enc_category l) ++ "]" ++ nl.

(** The text cut at every double quote: punctuation and string contents
    alternate. *)
Fixpoint split (s : string) : list string :=
  match s with
  | EmptyString => [""]
  | String c rest =>
      match split rest with
      | [] => []
      | tok :: toks =>
          if String c "" =? dq then "" :: tok :: toks
          else String c tok :: toks
      end
  end.

Fixpoint get (k : string) (fs : list (string * string)) : string :=
  match fs with
  | [] => ""
  | (k', v) :: rest => if k' =? k then v else get k rest
  end.

Definition item_of (fs : list (string * string)) : paprika.RecipeItem.t :=
  paprika.RecipeItem.mk (get "uid" fs) (get "hash" fs).

Definition closes (close tok : string) : bool :=
  (tok =? close) || (tok =? close ++ nl).

Fixpoint objects (toks : list string) (cur : list (string * string))
    (done : list paprika.RecipeItem.t) : option (list paprika.RecipeItem.t) :=
  match toks with
  | k :: colon :: v :: sep :: rest =>
      if negb (colon =? ":") then None
      else if sep =? "," then objects rest (cur ++ [(k, v)]) done
      else if sep =? "},{" then
        objects rest [] (done ++ [item_of (cur ++ [(k, v)])])
      else
        match rest with
        | [] => Some (done ++ [item_of (cur ++ [(k, v)])])
        | _ :: _ => None
        end
  | _ => None
  end.

Definition dec_item (body : string) : option paprika.RecipeItem.t :=
  match split body with
  | [tok] => if closes "{}" tok then Some (item_of []) else None
  | open :: toks =>
      if negb (open =? "{") then None
      else if negb (closes "}" (last toks "")) then None
      else
        match objects toks [] [] with
        | Some [it] => Some it
        | _ => None
        end
  | [] => None
  end.

Definition dec_index (body : string) : option (list paprika.RecipeItem.t) :=
  match split body with
  | [tok] => if closes "[]" tok then Some [] else None
  | open :: toks =>
      if negb (open =? "[{") then None
      else if negb (closes "}]" (last toks "")) then None
      else objects toks [] []
  | [] => None
  end.

Definition codec : JSON :=
  {| encode_recipe := enc_recipe;
     encode_index := enc_index;
     encode_categories := enc_categories;
     decode_item := dec_item;
     decode_index := dec_index |}.

End FlatJSON.

(** Fixtures in the manner of the repository's tests: a data directory
    ["data"] on an otherwise empty disk, files put in place with
    [os.MkdirAll] and [os.WriteFile]. *)
Module Fixture.

Definition noenv : Env :=
  {| PAPRIKA_RECIPES_ROOT := None;
     PAPRIKA_RECIPES_INDEX := None;
     PAPRIKA_CATEGORIES_INDEX := None |}.

Definition dataDir : FS.path := ["data"].
Definition cli : CLI := {| DataDir := dataDir |}.

Definition emptyDisk : FS.node := FS.Dir true [("data", FS.Dir true [])].

Definition WriteFile (p : FS.path) (body : string) (d : FS.node) : FS.node :=
  fst (FS.write_file p body (fst (FS.mkdir_all (FS.dirname p) d))).

Definition recipeDir (uid : string) : FS.path :=
  dataDir ++ ["recipes"; substring 0 2 uid; substring 0 3 uid; uid].

Definition world (d : FS.node) : World := {| disk := d; requests := [] |}.

Definition now : time.Time := time.Date 2024 1 2 15 4 5 0.
Definition day : time.Duration := (24 * time.Hour)%Z.

Definition item (uid hash : string) : paprika.RecipeItem.t :=
  paprika.RecipeItem.mk uid hash.

(** The server of the repository's run test: the record of [vwxyz] carries
    a hash that is not the hash of its index entry. *)
Definition kitchen : paprika.Client.t :=
  paprika.Client.mk
    ([item "abcde" "h1"; item "vwxyz" "h2"], None)
    (fun uid =>
       if uid =? "abcde" then (paprika.Recipe.mk "abcde" "h1" "First", None)
       else if uid =? "vwxyz"
       then (paprika.Recipe.mk "vwxyz" "new-hash" "Second", None)
       else (paprika.Recipe.mk "" "" "", Some (ErrAPI "404 page not found")))
    ([paprika.Category.mk "cat1" "Lunch"], None).

(** A server whose records carry the hashes of the index. *)
Definition pantry : paprika.Client.t :=
  paprika.Client.mk
    ([item "abcde" "h1"; item "fghij" "h2"], None)
    (fun uid =>
       if uid =? "abcde" then (paprika.Recipe.mk "abcde" "h1" "First", None)
       else if uid =? "fghij"
       then (paprika.Recipe.mk "fghij" "h2" "Second", None)
       else (paprika.Recipe.mk "" "" "", Some (ErrAPI "404 page not found")))
    ([paprika.Category.mk "cat1" "Lunch"], None).

(** A server that answers every recipe request with the record [other]. *)
Definition misrouted : paprika.Client.t :=
  paprika.Client.mk
    ([item "badid" "h1"], None)
    (fun _ => (paprika.Recipe.mk "other" "h1" "", None))
    ([], None).

(** The pantry with the categories call failing. *)
Definition pantry_without_categories : paprika.Client.t :=
  paprika.Client.mk
    (paprika.Client.Recipes pantry)
    (paprika.Client.Recipe pantry)
    ([], Some (ErrAPI "500 Internal Server Error")).

Definition sync (purgeAfter : time.Duration) : SyncCMD :=
  {| IncludeRecipes := true;
     PurgeAfter := purgeAfter;
     IncludeCategories := true;
     DownloadConcurrency := 10%Z |}.

Definition index_of (l : list paprika.RecipeItem.t) (d : FS.node) : FS.node :=
  WriteFile (dataDir ++ [filenameRecipesIndex]) (FlatJSON.enc_index l) d.

Definition recipe_of (uid hash : string) (d : FS.node) : FS.node :=
  WriteFile (recipeDir uid ++ [filenameRecipeJSON])
    (FlatJSON.enc_recipe (paprika.Recipe.mk uid hash "")) d.

Definition marker_of (uid : string) (t : time.Time) (d : FS.node) : FS.node :=
  WriteFile (recipeDir uid ++ [filenameRecipeDeleteMarker])
    (time.Format t time.RFC3339Nano) d.

(** The recipe [old11], gone from the index [keep1], marked at [t]. *)
Definition marked (t : time.Time) : FS.node :=
  marker_of "old11" t
    (recipe_of "old11" "old" (index_of [item "keep1" "h1"] emptyDisk)).

(** The recipe [keepm], back in the index, with a marker left. *)
Definition reappeared : FS.node :=
  marker_of "keepm" (time.Add now (- time.Hour)%Z)
    (recipe_of "keepm" "h1" (index_of [item "keepm" "h1"] emptyDisk)).

(** The tree of the pruning test. *)
Definition scaffold : FS.node :=
  fst (FS.mkdir_all ["data"; "remove"; "empty"; "nested"]
         (WriteFile ["data"; "keep"; "child"; "file.txt"] "data" emptyDisk)).

(** The directory at [p] with its write permission taken away. *)
Definition protect (p : FS.path) (d : FS.node) : FS.node :=
  match FS.lookup p d with
  | Some (FS.Dir _ es) => FS.put p (FS.Dir false es) d
  | _ => d
  end.

(** The recipe [old11], gone from the index, in a directory that does not
    let its entries be removed. *)
Definition locked : FS.node :=
  protect (recipeDir "old11")
    (recipe_of "old11" "old" (index_of [] emptyDisk)).

(** The entries of the directory at [p]. *)
Definition entries_at (p : FS.path) (d : FS.node) : FS.entries :=
  match FS.lookup p d with
  | Some (FS.Dir _ es) => es
  | _ => []
  end.

Definition recipeFile (uid : string) : FS.path :=
  recipeDir uid ++ [filenameRecipeJSON].

(** The recipe [abcde] stored with the hash [h3]. *)
Definition stored : FS.node := recipe_of "abcde" "h3" emptyDisk.

(** A recipe file that is not JSON. *)
Definition corrupt : FS.node :=
  WriteFile (recipeDir "abcde" ++ [filenameRecipeJSON]) "{not-json" emptyDisk.

(** A server with nothing in its index. *)
Definition bare : paprika.Client.t :=
  paprika.Client.mk ([], None)
    (fun _ => (paprika.Recipe.mk "" "" "", Some (ErrAPI "404 page not found")))
    ([], None).

(** The recipe [old11] marked two days ago. *)
Definition stale : FS.node := marked (time.Add now (- 2 * day)%Z).


End Fixture.
(* ================================================================== *)
(** * Auxiliary definitions for the statements and proofs *)
(* ================================================================== *)

Module Aux.

Definition name_le (a b : FS.DirEntry) : Prop :=
  String.leb (FS.Name a) (FS.Name b) = true.

Definition dirent (e : string * FS.node) : FS.DirEntry :=
  {| FS.Name := fst e; FS.IsDir := FS.is_dir (snd e) |}.

(** The loop of [walkDir] over the entries of a directory. *)
Definition walkRange (fuel : nat) (path : FS.path) (walkDirFn : WalkDirFunc)
  : list FS.DirEntry -> M (option error) :=
  fix range (dirs : list FS.DirEntry) : M (option error) :=
    match dirs with
    | [] => ret None
    | d1 :: rest =>
        err <- walkDir fuel (path ++ [FS.Name d1]) d1 walkDirFn ;;
        match err with
        | None => range rest
        | Some SkipDir => ret None
        | Some e => ret (Some e)
        end
    end.

(** An entry the walk passes without any effect. *)
Definition inert (path : FS.path) (fn : WalkDirFunc) (w : World)
    (d : FS.DirEntry) : Prop :=
  FS.IsDir d = false /\
  fn (path ++ [FS.Name d]) (Some d) None w = (w, Returned None).

(** A directory that holds plain files only, as a recipe directory does. *)
Definition all_files (es : FS.entries) : bool :=
  forallb (fun e => negb (FS.is_dir (snd e))) es.

(** A directory is fileless if every entry in it is itself a directory and
    every one of those is, recursively, fileless. *)
Fixpoint fileless (n : FS.node) : bool :=
  match n with
  | FS.File _ => false
  | FS.Dir _ es => forallb (fun e => fileless (snd e)) es
  end.

(** What pruning is to leave of a directory that is not fileless: its
    fileless children are gone, the others are pruned in turn. *)
Fixpoint pruned (n : FS.node) : FS.node :=
  match n with
  | FS.File b => FS.File b
  | FS.Dir w es =>
      if forallb (fun e => fileless (snd e)) es then FS.Dir w es
      else
        FS.Dir w
          ((fix go (es : FS.entries) : FS.entries :=
              match es with
              | [] => []
              | (x, c) :: rest =>
                  if fileless c then go rest else (x, pruned c) :: go rest
              end) es)
  end.

Fixpoint prune_entries (es : FS.entries) : FS.entries :=
  match es with
  | [] => []
  | (x, c) :: rest =>
      if fileless c then prune_entries rest
      else (x, pruned c) :: prune_entries rest
  end.

Definition fl (e : string * FS.node) : bool := fileless (snd e).
Definition pr (e : string * FS.node) : string * FS.node :=
  (fst e, pruned (snd e)).

(** Well-formed trees: no name twice in a directory. *)
Fixpoint distinct (l : list string) : bool :=
  match l with
  | [] => true
  | x :: rest => negb (existsb (String.eqb x) rest) && distinct rest
  end.

Fixpoint unique_names (n : FS.node) : bool :=
  match n with
  | FS.File _ => true
  | FS.Dir _ es =>
      distinct (map fst es) && forallb (fun e => unique_names (snd e)) es
  end.

(** Every directory of the tree may be written to. *)
Fixpoint all_writable (n : FS.node) : bool :=
  match n with
  | FS.File _ => true
  | FS.Dir w es => w && forallb (fun e => all_writable (snd e)) es
  end.

(** The loop of [pruneDir] over the entries it has read. *)
Definition pruneRange (ctx : Context) (dir : FS.path)
  : FS.entries -> FS.entries -> bool -> list string ->
    FS.entries * bool * list string * option error :=
  fix range (es cur : FS.entries) (hasOnlyDirs : bool)
      (emptyChildren : list string) {struct es}
    : FS.entries * bool * list string * option error :=
    match es with
    | [] => (cur, hasOnlyDirs, emptyChildren, None)
    | (name, c) :: rest =>
        match ctx_Err ctx with
        | Some e => (cur, hasOnlyDirs, emptyChildren, Some e)
        | None =>
        match c with
        | FS.File _ => range rest cur false emptyChildren
        | FS.Dir _ _ =>
            let '(c', (childHasOnlyDirs, err)) :=
              pruneDir ctx (dir ++ [name]) c in
            let cur' := FS.set_entry name c' cur in
            match err with
            | Some e => (cur', hasOnlyDirs, emptyChildren, Some e)
            | None =>
                if childHasOnlyDirs
                then range rest cur' hasOnlyDirs (emptyChildren ++ [name])
                else range rest cur' false emptyChildren
            end
        end
        end
    end.

(** The loop of [PruneFilelessSubtrees] over the entries of the root. *)
Definition pruneRootRange (ctx : Context) (root : FS.path) (w : bool)
  : FS.entries -> FS.entries -> FS.entries * option error :=
  fix range (es cur : FS.entries) {struct es} : FS.entries * option error :=
    match es with
    | [] => (cur, None)
    | (name, c) :: rest =>
        if negb (FS.is_dir c) then range rest cur
        else
          let '(c', (childHasOnlyDirs, err)) :=
            pruneDir ctx (root ++ [name]) c in
          let cur' := FS.set_entry name c' cur in
          match err with
          | Some e => (cur', Some e)
          | None =>
              if childHasOnlyDirs then
                match ctx_Err ctx with
                | Some e => (cur', Some e)
                | None =>
                    let (cur'', err) := FS.remove_all_in name w cur' in
                    match err with
                    | Some e =>
                        (cur'', Some (ErrWrap "remove" (root ++ [name]) e))
                    | None => range rest cur''
                    end
                end
              else range rest cur'
          end
    end.

(** A child on which [pruneDir] does what [pruned] says. *)
Definition child_ok (e : string * FS.node) : Prop :=
  FS.is_dir (snd e) = true ->
  forall dir,
    pruneDir false dir (snd e) = (pruned (snd e), (fileless (snd e), None)).

(** The path of the recipe file of [uid], for a uid of three bytes or
    more. *)
Definition recipeFile (env : Env) (basePath : FS.path) (uid : string)
  : FS.path :=
  pathToRecipesDir env basePath
    ++ [substring 0 2 uid; substring 0 3 uid; uid] ++ [filenameRecipeJSON].

(** The decision of [shouldSaveRecipe] as a function of the disk. *)
Definition decision {json : JSON} (path : FS.path) (hash : string)
    (d : FS.node) : bool * bool :=
  match FS.lookup path d with
  | None => (true, false)
  | Some f =>
      match decode_from decode_item f with
      | inr _ => (true, true)
      | inl extantItem =>
          if paprika.RecipeItem.Hash extantItem =? hash then (false, true)
          else (true, true)
      end
  end.

(** The local recipe file of [ref] holds a record whose hash is the hash of
    the reference. *)
Definition stored_hash_matches {json : JSON} (env : Env) (cli : CLI)
    (w : World) (ref : paprika.RecipeItem.t) : Prop :=
  (3 <= String.length (paprika.RecipeItem.UID ref))%nat /\
  exists body item,
    FS.lookup (recipeFile env (DataDir cli) (paprika.RecipeItem.UID ref))
      (disk w) = Some (FS.File body) /\
    decode_item body = Some item /\
    paprika.RecipeItem.Hash item = paprika.RecipeItem.Hash ref.

(** The record the server returns for the uid of [ref] carries the hash of
    the reference, and its stored form decodes to its uid and hash. *)
Definition faithful {json : JSON} (c : paprika.Client.t)
    (ref : paprika.RecipeItem.t) : Prop :=
  let recipe := fst (paprika.Client.Recipe c (paprika.RecipeItem.UID ref)) in
  paprika.Recipe.Hash recipe = paprika.RecipeItem.Hash ref /\
  decode_item (encode_recipe recipe)
  = Some (paprika.RecipeItem.mk (paprika.Recipe.UID recipe)
                                (paprika.Recipe.Hash recipe)).

(** The world after one more request. *)
Definition with_request (w : World) (r : request) : World :=
  {| disk := disk w; requests := r :: requests w |}.

(** The number a string of decimal digits stands for. *)
Definition value (cs : list ascii) : Z :=
  fold_left (fun acc c => (acc * 10 + time.digit_val c)%Z) cs 0%Z.

(** The calendar inside one era of 146097 days: the year of the era, the
    month and the day of a day number of the era, and back. *)
Definition civil_of_doe (doe : Z) : Z * Z * Z :=
  (let yoe := (doe - doe / 1460 + doe / 36524 - doe / 146096) / 365 in
   let doy := doe - (365 * yoe + yoe / 4 - yoe / 100) in
   let mp := (5 * doy + 2) / 153 in
   let d := doy - (153 * mp + 2) / 5 + 1 in
   let m := if mp <? 10 then mp + 3 else mp - 9 in
   (yoe, m, d))%Z.

Definition doe_of_civil (yoe m d : Z) : Z :=
  (let mp := if 2 <? m then m - 3 else m + 9 in
   yoe * 365 + yoe / 4 - yoe / 100 + ((153 * mp + 2) / 5 + d - 1))%Z.

Definition doe_ok (doe : Z) : bool :=
  (let '(yoe, m, d) := civil_of_doe doe in
   (0 <=? yoe) && (yoe <? 400) && (1 <=? m) && (m <=? 12) && (1 <=? d)
   && (d <=? time.daysIn m (if m <=? 2 then yoe + 1 else yoe))
   && (doe_of_civil yoe m d =? doe))%Z.

Fixpoint all_from (n : nat) (z : Z) (p : Z -> bool) : bool :=
  match n with
  | O => true
  | S k => p z && all_from k (z + 1)%Z p
  end.

(** A time the RFC3339 layout can express: a four-digit year (0 to 9999) in
    its own zone, and a zone offset of whole minutes short of a day. *)
Definition expressible (t : time.Time) : Prop :=
  (let abs := time.unixNano t / 1000000000 + time.offset t in
   let y := fst (fst (time.civil_from_days (abs / 86400))) in
   0 <= y <= 9999 /\
   time.offset t mod 60 = 0 /\
   - 86400 < time.offset t < 86400)%Z.

(** A text that can follow the digits of a fraction: it starts with
    neither a digit nor a period. *)
Definition starts_zone (zone : string) : Prop :=
  match zone with
  | String c _ => time.isDigit c = false /\ c <> "."%char
  | EmptyString => False
  end.

Definition trim (l : list ascii) : list ascii :=
  rev (time.trim_zeros_rev (rev l)).

(** The world with another disk. *)
Definition with_disk (w : World) (d : FS.node) : World :=
  {| disk := d; requests := requests w |}.

End Aux.

(* ================================================================== *)
(** * Further definitions: the layout of the store *)
(* ================================================================== *)

Module Store.

(** The two file names the purge pass looks for. *)
Definition marker_or_recipe (name : string) : bool :=
  (name =? filenameRecipeJSON) || (name =? filenameRecipeDeleteMarker).

(** No file with one of those names lies less than [k] levels below [n]:
    with [k = 3] and [n] the recipes root, none lies in the root or in a
    shard directory. *)
Fixpoint clean_above (k : nat) (n : FS.node) : bool :=
  match k, n with
  | S k', FS.Dir _ es =>
      forallb (fun e =>
                 match snd e with
                 | FS.File _ => negb (marker_or_recipe (fst e))
                 | FS.Dir _ _ => clean_above k' (snd e)
                 end) es
  | _, _ => true
  end.

(** The recipes root is laid out the way [pathToRecipeDir] lays it out:
    recipe files and markers sit three levels down or deeper. *)
Definition sharded (root : FS.path) (d : FS.node) : bool :=
  match FS.lookup root d with
  | Some n => clean_above 3 n
  | None => true
  end.

(** [saveAsJSON] can write to [p]: what exists on the way is a directory,
    the first directory missing can be made, and what lies at [p] is a
    file or, in a directory that takes new entries, nothing. *)
Fixpoint writable_to (p : FS.path) (n : FS.node) : bool :=
  match p, n with
  | [], _ => false
  | _ :: _, FS.File _ => false
  | x :: p', FS.Dir w es =>
      match FS.lookup_entry x es with
      | None => w
      | Some c =>
          match p' with
          | [] => negb (FS.is_dir c)
          | _ :: _ => writable_to p' c
          end
      end
  end.

(** What a purge pass keeps true of the world while the file [frel] below
    [root] is to stay as it is: the root is laid out in shards and the file
    is there with its body. *)
Definition Inv (root frel : FS.path) (body : string) (w : World) : Prop :=
  exists n,
    FS.lookup root (disk w) = Some n /\
    clean_above 3 n = true /\
    FS.lookup frel n = Some (FS.File body).

(** What is true of every path and entry the walk hands to its function:
    the path lies at or below the root and ends in the name of the entry,
    an entry within the shard levels is no recipe file and no marker, and
    the path is no entry of the file that is to stay. *)
Definition Rel (root frel : FS.path) (path : FS.path) (d : FS.DirEntry)
  : Prop :=
  exists q,
    path = root ++ q /\
    (q = [] -> FS.IsDir d = true) /\
    (q <> [] -> FS.basename path = FS.Name d) /\
    ((List.length q <= 3)%nat -> FS.IsDir d = false ->
     marker_or_recipe (FS.Name d) = false) /\
    FS.dirname path <> root ++ frel.

(** The recipe of [ref] is in the store: its file is there and holds either
    the record the server has for the uid or a record that carries the hash
    of the reference. *)
Definition backed_up {json : JSON} (env : Env) (cli : CLI)
    (c : paprika.Client.t) (w : World) (ref : paprika.RecipeItem.t) : Prop :=
  let uid := paprika.RecipeItem.UID ref in
  (3 <= String.length uid)%nat /\
  exists body,
    FS.lookup (Aux.recipeFile env (DataDir cli) uid) (disk w)
    = Some (FS.File body) /\
    (body = encode_recipe (fst (paprika.Client.Recipe c uid)) \/
     exists item,
       decode_item body = Some item /\
       paprika.RecipeItem.Hash item = paprika.RecipeItem.Hash ref).

(** Every file of [n] is in [n'], with what it holds. *)
Definition keeps_files (n n' : FS.node) : Prop :=
  forall p body,
    FS.lookup p n = Some (FS.File body) -> FS.lookup p n' = Some (FS.File body).

(** No path leads to a file in [n]. *)
Definition no_file (n : FS.node) : Prop :=
  forall p body, FS.lookup p n <> Some (FS.File body).

(** What [pruneDir] owes its caller: the files are kept, and a directory
    reported as fileless holds none. *)
Definition safe_result (n : FS.node) (r : FS.node * (bool * option error))
  : Prop :=
  keeps_files n (fst r) /\ (fst (snd r) = true -> no_file (fst r)).

(** [w'] has every file [w] has outside the directory [root], and has sent
    the requests [w] has sent. *)
Definition kept_outside (root : FS.path) (w w' : World) : Prop :=
  requests w' = requests w /\
  forall q body,
    (forall p, q <> root ++ p) ->
    FS.lookup q (disk w) = Some (FS.File body) ->
    FS.lookup q (disk w') = Some (FS.File body).

(** A path of the walk over [root]: it lies below [root], and strictly so
    when the entry is no directory. *)
Definition below (root path : FS.path) (d : FS.DirEntry) : Prop :=
  exists p, path = root ++ p /\ (FS.IsDir d = false -> p <> []).

(** The layout of [sharded], by paths: no path of at most three components
    below [root] that ends in one of the two names leads to a file. *)
Definition tidy (root : FS.path) (d : FS.node) : Prop :=
  forall q name body,
    (List.length q <= 2)%nat -> marker_or_recipe name = true ->
    FS.lookup (root ++ q ++ [name]) d <> Some (FS.File body).

(** A path at which a write keeps the layout. *)
Definition deep_or_plain (root path : FS.path) : Prop :=
  forall q name,
    (List.length q <= 2)%nat -> marker_or_recipe name = true ->
    path <> root ++ q ++ [name].

(** A request a run over the index [items] may send. *)
Definition expected_request (items : list paprika.RecipeItem.t) (r : request)
  : Prop :=
  r = GET_recipes \/ r = GET_categories \/
  exists ref, In ref items /\ r = GET_recipe (paprika.RecipeItem.UID ref).

(** [w'] has sent the requests [l] since [w], the last one first. *)
Definition sent (w w' : World) (l : list request) : Prop :=
  requests w' = l ++ requests w.

(** A uid that is one path component wherever [pathToRecipeDir] joins it or
    its first bytes to a path: it holds no separator and does not begin
    with two periods, so [filepath.Join] leaves the three components as
    they are. *)
Definition plain_uid (uid : string) : bool :=
  negb (existsb (Ascii.eqb "/"%char) (list_ascii_of_string uid))
  && negb (String.prefix ".." uid).

(** Every name in the tree is one path component: wherever the program
    joins the name of a recipe directory to a path, the path it gets is
    the path of that name. *)
Fixpoint plain_names (n : FS.node) : bool :=
  match n with
  | FS.File _ => true
  | FS.Dir _ es =>
      forallb (fun e => plain_uid (fst e) && plain_names (snd e)) es
  end.

(** A marker [time.Parse] takes under no reading of the layout: it is
    empty, or its first byte is no decimal digit, where the layout asks for
    the year. *)
Definition undated (body : string) : bool :=
  match body with
  | EmptyString => true
  | String c _ => negb (time.isDigit c)
  end.

(** What a purge pass keeps true of the world, whatever it meets: no
    directory holds a name twice, the recipes root is laid out in shards,
    and the directory above the recipe directory at [drel] is a directory
    with the permission [wp]. *)
Definition Kept (root drel : FS.path) (wp : bool) (w : World) : Prop :=
  Aux.unique_names (disk w) = true /\
  (exists n, FS.lookup root (disk w) = Some n /\ clean_above 3 n = true) /\
  (exists pes,
     FS.lookup (FS.dirname (root ++ drel)) (disk w) = Some (FS.Dir wp pes)).

(** What a purge pass keeps true of the world while it is away from the
    recipe directory at [drel]: [s] is what lies there. *)
Definition Around (root drel : FS.path) (wp : bool) (s : option FS.node)
    (w : World) : Prop :=
  Kept root drel wp w /\ FS.lookup (root ++ drel) (disk w) = s.

(** What lies at a recipe directory cannot be changed from another
    directory of the same name: nothing lies there, or the name is in the
    index, or a marker is there already. *)
Definition shielded (idx : list string) (drel : FS.path)
    (s : option FS.node) : Prop :=
  s = None \/
  indexed (FS.basename drel) idx = true \/
  exists wd es c,
    s = Some (FS.Dir wd es) /\
    FS.lookup_entry filenameRecipeDeleteMarker es = Some c.

(** A path and entry of the walk over [root]. *)
Definition Walked (root : FS.path) (path : FS.path) (d : FS.DirEntry)
  : Prop :=
  exists q,
    path = root ++ q /\
    (q = [] -> FS.IsDir d = true) /\
    (q <> [] -> FS.basename path = FS.Name d) /\
    ((List.length q <= 3)%nat -> FS.IsDir d = false ->
     marker_or_recipe (FS.Name d) = false).

(** A path and entry of the walk that lies neither on the way to the
    directory at [drel] nor at it nor in it. *)
Definition Apart (root drel : FS.path) (path : FS.path) (d : FS.DirEntry)
  : Prop :=
  exists q,
    path = root ++ q /\
    q <> [] /\ FS.basename path = FS.Name d /\
    ((List.length q <= 3)%nat -> FS.IsDir d = false ->
     marker_or_recipe (FS.Name d) = false) /\
    (forall t, q <> drel ++ t) /\ (forall t, drel <> q ++ t).


(** ** The errors of a sync phase *)

Section Errors.

Context {json : JSON}.
Variables (env : Env) (cmd : SyncCMD) (ctx : Context) (cli : CLI).
Variable pc : paprika.Client.t.

Definition errs (o : option error) : list error :=
  match o with
  | Some e => [e]
  | None => []
  end.

(** The errors [UpsertRecipe] returns for the references of [queue], taken
    one after another from the world [w], and the world they leave. *)
Fixpoint upsert_errors (queue : list paprika.RecipeItem.t) (w : World)
  : World * list error :=
  match queue with
  | [] => (w, [])
  | ref :: rest =>
      match UpsertRecipe env cli pc ref w with
      | (w1, Returned (_, err)) =>
          let (w2, l) := upsert_errors rest w1 in (w2, errs err ++ l)
      | (w1, Crashed _) => (w1, [])
      end
  end.

(** The error [SaveCategoriesIndex] returns, when categories are asked
    for. *)
Definition categories_errors (w : World) : World * list error :=
  if IncludeCategories cmd then
    match SaveCategoriesIndex env cli pc w with
    | (w1, Returned err) => (w1, errs err)
    | (w1, Crashed _) => (w1, [])
    end
  else (w, []).

(** Every error a step of the sync phase returns, in the order of the
    schedule [k]: the errors of [SaveCategoriesIndex], of
    [SaveRecipesIndex] and of each [UpsertRecipe]. *)
Definition sync_errors (k : nat) (w : World) : list error :=
  if negb (IncludeRecipes cmd) then snd (categories_errors w)
  else
    let (w0, l0) :=
      match k with
      | O => categories_errors w
      | S _ => (w, [])
      end in
    match SaveRecipesIndex env cli pc w0 with
    | (w1, Returned (items, err)) =>
        let taken := if idle cmd ctx then [] else items in
        let (w2, l2) := upsert_errors (firstn (pred k) taken) w1 in
        let (w3, l3) :=
          match k with
          | O => (w2, [])
          | S _ => categories_errors w2
          end in
        let (w4, l4) := upsert_errors (skipn (pred k) taken) w3 in
        l0 ++ errs err ++ l2 ++ l3 ++ l4
    | (_, Crashed _) => l0
    end.

(** Whether there is an error in a list. *)
Definition failed (l : list error) : bool :=
  match l with
  | [] => false
  | _ :: _ => true
  end.

End Errors.

End Store.
(* ================================================================== *)
(** * cmd/version.go *)
(* ================================================================== *)

Module version.

(** The four package variables [-ldflags] can set. *)
Record BuildVars : Type := {
  BuildVersion : string;
  BuildCommit : string;
  BuildDate : string;
  BuildDirty : string
}.

(** The values the variables have without [-ldflags]. *)
Definition unset : BuildVars :=
  {| BuildVersion := "dev"; BuildCommit := ""; BuildDate := "";
     BuildDirty := "" |}.

(** [debug.BuildSetting]. *)
Record BuildSetting : Type := { Key : string; Value : string }.

(** What [readBuildInfo()] returns: the settings of the build information
    when there is any ([debug.ReadBuildInfo] hands back a nil pointer only
    together with [ok = false]). *)
Definition BuildInfo : Type := option (list BuildSetting).

(** One round of the loop over [bi.Settings]. *)
Definition applySetting (b : BuildVars) (s : BuildSetting) : BuildVars :=
  if Key s =? "vcs.revision" then
    if BuildCommit b =? "" then
      {| BuildVersion := BuildVersion b; BuildCommit := Value s;
         BuildDate := BuildDate b; BuildDirty := BuildDirty b |}
    else b
  else if Key s =? "vcs.time" then
    if BuildDate b =? "" then
      {| BuildVersion := BuildVersion b; BuildCommit := BuildCommit b;
         BuildDate := Value s; BuildDirty := BuildDirty b |}
    else b
  else if Key s =? "vcs.modified" then
    if BuildDirty b =? "" then
      {| BuildVersion := BuildVersion b; BuildCommit := BuildCommit b;
         BuildDate := BuildDate b; BuildDirty := Value s |}
    else b
  else b.

(** enrichBuildInfo sets build variables from debug.BuildInfo if not
    provided via ldflags. *)
Definition enrichBuildInfo (readBuildInfo : BuildInfo) (b : BuildVars)
  : BuildVars :=
  if negb (BuildVersion b =? "dev") && negb (BuildCommit b =? "")
     && negb (BuildDate b =? "")
  then b
  else
    match readBuildInfo with
    | Some settings => fold_left applySetting settings b
    | None => b
    end.

Definition versionStringShort (b : BuildVars) : string := BuildVersion b.

(** [versionStringFull]: the variables as it leaves them, and the text. *)
Definition versionStringFull (readBuildInfo : BuildInfo) (b : BuildVars)
  : BuildVars * string :=
  let b := enrichBuildInfo readBuildInfo b in
  let out := BuildVersion b in
  let parts : list string := [] in
  let parts :=
    if negb (BuildCommit b =? "") then parts ++ [BuildCommit b] else parts in
  let parts :=
    if negb (BuildDate b =? "") then parts ++ [BuildDate b] else parts in
  let out :=
    if (0 <? List.length parts)%nat
    then (out ++ " (" ++ String.concat ", " parts ++ ")")%string
    else out in
  let out :=
    if BuildDirty b =? "true" then (out ++ " [dirty]")%string else out in
  (b, out).

End version.

(* ================================================================== *)
(** * Further test cases *)
(* ================================================================== *)

Module Cases.

(** A server whose index holds a uid of two bytes. *)
Definition terse : paprika.Client.t :=
  paprika.Client.mk
    ([Fixture.item "abcde" "h1"; Fixture.item "ab" "h2"], None)
    (paprika.Client.Recipe Fixture.pantry)
    ([], None).

(** A server that cannot be reached: every call fails. *)
Definition offline : paprika.Client.t :=
  paprika.Client.mk
    ([], Some (ErrAPI "connection refused"))
    (fun _ => (paprika.Recipe.mk "" "" "", Some (ErrAPI "connection refused")))
    ([], Some (ErrAPI "connection refused")).

(** The command with a worker count of its own. *)
Definition sync_with (workers : NumWorkers) : SyncCMD :=
  {| IncludeRecipes := true;
     PurgeAfter := (-1)%Z;
     IncludeCategories := false;
     DownloadConcurrency := workers |}.

(** The command that only purges. *)
Definition purge_only (purgeAfter : time.Duration) : SyncCMD :=
  {| IncludeRecipes := false;
     PurgeAfter := purgeAfter;
     IncludeCategories := false;
     DownloadConcurrency := 10%Z |}.

(** The recipe [old11], gone from the index [keep1], with a marker that
    holds a note and no time. *)
Definition smudged : FS.node :=
  Fixture.WriteFile
    (Fixture.recipeDir "old11" ++ [filenameRecipeDeleteMarker]) "purge me"
    (Fixture.recipe_of "old11" "old"
       (Fixture.index_of [Fixture.item "keep1" "h1"] Fixture.emptyDisk)).

(** A line feed, and two markers that end in one: the time of the tests,
    and a time with nine digits of fraction in a zone one hour east. *)
Definition line_feed : string := String (ascii_of_nat 10) "".

Definition precise : time.Time :=
  {| time.unixNano := (time.unixNano Fixture.now + 123456789)%Z;
     time.offset := 3600%Z |}.

Definition stamp_and_line_feed : string :=
  (time.Format Fixture.now time.RFC3339Nano ++ line_feed)%string.

Definition long_stamp_and_line_feed : string :=
  (time.Format precise time.RFC3339Nano ++ line_feed)%string.

(** The recipe [keepm], back in the index with its marker left, next to
    the directory of a recipe [aaaaa] that is not in the index and whose
    marker holds a note. *)
Definition blocked : FS.node :=
  Fixture.WriteFile
    (Fixture.recipeDir "aaaaa" ++ [filenameRecipeDeleteMarker]) "purge me"
    Fixture.reappeared.

(** The tree of the pruning test with a data directory that does not let
    its entries be removed. *)
Definition guarded : FS.node := Fixture.protect ["data"] Fixture.scaffold.

End Cases.

(* ================================================================== *)
(** * Facts about the disk *)
(* ================================================================== *)

Module FSFacts.
Import FS.

Lemma string_compare_refl s : String.compare s s = Eq.
Proof.
  induction s as [|a s IH]; simpl; auto.
  unfold Ascii.compare. rewrite N.compare_refl. exact IH.
Qed.

Lemma string_leb_refl s : String.leb s s = true.
Proof. unfold String.leb. now rewrite string_compare_refl. Qed.

Lemma string_compare_not_gt_trans a : forall b c,
  String.compare a b <> Gt -> String.compare b c <> Gt ->
  String.compare a c <> Gt.
Proof.
  induction a as [|x a IH]; intros [|y b] [|z c]; simpl; try congruence.
  unfold Ascii.compare.
  destruct (N.compare_spec (N_of_ascii x) (N_of_ascii y)) as [Hxy|Hxy|Hxy];
  destruct (N.compare_spec (N_of_ascii y) (N_of_ascii z)) as [Hyz|Hyz|Hyz];
  destruct (N.compare_spec (N_of_ascii x) (N_of_ascii z)) as [Hxz|Hxz|Hxz];
    try congruence; try lia; intros; eauto.
Qed.

Lemma string_leb_trans a b c :
  String.leb a b = true -> String.leb b c = true -> String.leb a c = true.
Proof.
  unfold String.leb. intros H1 H2.
  pose proof (@string_compare_not_gt_trans a b c) as T.
  destruct (String.compare a b); destruct (String.compare b c);
    destruct (String.compare a c); try discriminate; auto;
    exfalso; apply T; congruence.
Qed.

Lemma lookup_entry_replace_eq x c es :
  lookup_entry x es <> None ->
  lookup_entry x (replace_entry x c es) = Some c.
Proof.
  induction es as [|[n c0] es IH]; simpl; [congruence|].
  destruct (n =? x) eqn:E; simpl.
  - now rewrite String.eqb_refl.
  - rewrite E. auto.
Qed.

Lemma lookup_entry_insert_eq x c es :
  lookup_entry x es = None ->
  lookup_entry x (insert_entry x c es) = Some c.
Proof.
  induction es as [|[n c0] es IH]; simpl.
  - now rewrite String.eqb_refl.
  - destruct (n =? x) eqn:E; [congruence|]. intros H.
    destruct (x <? n); simpl.
    + now rewrite String.eqb_refl.
    + rewrite E. auto.
Qed.

Lemma lookup_entry_set_eq x c es :
  lookup_entry x (set_entry x c es) = Some c.
Proof.
  unfold set_entry. destruct (lookup_entry x es) eqn:E.
  - apply lookup_entry_replace_eq. congruence.
  - now apply lookup_entry_insert_eq.
Qed.

Lemma lookup_entry_set_ne x y c es :
  x <> y -> lookup_entry y (set_entry x c es) = lookup_entry y es.
Proof.
  intros Hne. unfold set_entry.
  assert (Hxy : (x =? y) = false) by now apply String.eqb_neq.
  destruct (lookup_entry x es) as [c1|] eqn:E; clear E.
  - induction es as [|[n c0] es IH]; simpl; auto.
    destruct (n =? x) eqn:E1; simpl.
    + apply String.eqb_eq in E1. subst n. now rewrite Hxy.
    + destruct (n =? y); auto.
  - induction es as [|[n c0] es IH]; simpl.
    + now rewrite Hxy.
    + destruct (x <? n); simpl.
      * now rewrite Hxy.
      * destruct (n =? y); auto.
Qed.

Lemma lookup_entry_del_eq x es : lookup_entry x (del_entry x es) = None.
Proof.
  induction es as [|[n c0] es IH]; simpl; auto.
  destruct (n =? x) eqn:E; simpl; auto. now rewrite E.
Qed.

Lemma lookup_entry_del_ne x y es :
  x <> y -> lookup_entry y (del_entry x es) = lookup_entry y es.
Proof.
  intros Hne. induction es as [|[n c0] es IH]; simpl; auto.
  destruct (n =? x) eqn:E; simpl.
  - apply String.eqb_eq in E. subst n.
    assert ((x =? y) = false) as -> by now apply String.eqb_neq. auto.
  - destruct (n =? y); auto.
Qed.

Lemma lookup_app p : forall q n,
  lookup (p ++ q) n =
  match lookup p n with Some c => lookup q c | None => None end.
Proof.
  induction p as [|x p IH]; intros q n; simpl; auto.
  destruct n as [b|w es]; auto.
  destruct (lookup_entry x es); auto.
Qed.

Lemma dirname_snoc (p : path) x : dirname (p ++ [x]) = p.
Proof. apply removelast_last. Qed.

Lemma basename_snoc (p : path) x : basename (p ++ [x]) = x.
Proof. apply last_last. Qed.

Lemma at_dir_lookup p f : forall n w es,
  lookup p n = Some (Dir w es) ->
  lookup p (fst (at_dir p f n)) = Some (Dir w (fst (f w es))) /\
  snd (at_dir p f n) = snd (f w es).
Proof.
  induction p as [|x p IH]; intros n w es H; simpl in *.
  - inversion H; subst. destruct (f w es); simpl; auto.
  - destruct n as [b|w0 es0]; [discriminate|].
    destruct (lookup_entry x es0) as [c|] eqn:E; [|discriminate].
    destruct (IH c w es H) as [H1 H2].
    destruct (at_dir p f c) as [c' err]; simpl in *.
    rewrite lookup_entry_set_eq. auto.
Qed.

End FSFacts.

Module ListingFacts.
Import FS FSFacts Aux.

Lemma In_insert_sorted x d l : In x (insert_sorted d l) <-> x = d \/ In x l.
Proof.
  induction l as [|d' l IH]; simpl.
  - intuition.
  - destruct (Name d <=? Name d'); simpl; rewrite ?IH; intuition.
Qed.

Lemma In_sort_entries x l : In x (sort_entries l) <-> In x l.
Proof.
  induction l as [|d l IH]; simpl; [tauto|].
  rewrite In_insert_sorted, IH. intuition.
Qed.

Lemma insert_sorted_sorted d l :
  StronglySorted name_le l -> StronglySorted name_le (insert_sorted d l).
Proof.
  induction 1 as [|d' l Hs IH Hall]; simpl.
  - constructor; constructor.
  - destruct (Name d <=? Name d') eqn:E.
    + constructor.
      * constructor; assumption.
      * constructor; [exact E|].
        rewrite Forall_forall in *. intros y Hy.
        eapply string_leb_trans; [exact E|]. apply Hall, Hy.
    + constructor; [exact IH|].
      rewrite Forall_forall in *. intros y Hy.
      apply In_insert_sorted in Hy. destruct Hy as [->|Hy]; [|auto].
      destruct (String.leb_total (Name d) (Name d')) as [H|H]; congruence.
Qed.

Lemma sort_entries_sorted l : StronglySorted name_le (sort_entries l).
Proof.
  induction l; simpl; [constructor|]. now apply insert_sorted_sorted.
Qed.

(** A sorted listing with an entry called [m], cut at the first one. *)
Lemma sorted_first_named m l :
  StronglySorted name_le l ->
  (exists d, In d l /\ Name d = m) ->
  exists pre d post,
    l = pre ++ d :: post /\ Name d = m /\
    Forall (fun p => Name p <> m /\ String.leb (Name p) m = true) pre.
Proof.
  induction 1 as [|x l Hs IH Hall]; intros [d [Hin Hd]]; [destruct Hin|].
  destruct (String.eqb_spec (Name x) m) as [E|E].
  - exists [], x, l. repeat split; auto.
  - destruct Hin as [->|Hin]; [congruence|].
    destruct IH as (pre & d' & post & -> & Hd' & Hpre); [eauto|].
    exists (x :: pre), d', post. repeat split; auto.
    constructor; auto. split; auto.
    rewrite Forall_forall in Hall. rewrite <- Hd'.
    apply Hall. apply in_or_app. right. now left.
Qed.

Lemma read_dir_eq p n w es :
  lookup p n = Some (Dir w es) ->
  read_dir p n = inl (sort_entries (map dirent es)).
Proof. unfold read_dir. now intros ->. Qed.

Lemma lookup_entry_In x es c :
  lookup_entry x es = Some c -> In (x, c) es.
Proof.
  induction es as [|[n c0] es IH]; simpl; [discriminate|].
  destruct (String.eqb_spec n x) as [->|]; [intros [= ->]; now left|auto].
Qed.

Lemma lookup_entry_None x es :
  lookup_entry x es = None -> forall e, In e es -> fst e <> x.
Proof.
  induction es as [|[n c0] es IH]; simpl; [tauto|].
  destruct (String.eqb_spec n x) as [->|Hne]; [discriminate|].
  intros H e [<-|Hin]; simpl; auto.
Qed.

End ListingFacts.

Module WalkFacts.
Import FS FSFacts Aux ListingFacts.

Lemma walkDir_S fuel path d fn :
  walkDir (S fuel) path d fn =
  (err <- fn path (Some d) None ;;
   if negb (is_nil err) || negb (IsDir d) then
     match err with
     | Some SkipDir => ret (if IsDir d then None else err)
     | _ => ret err
     end
   else
     r <- reads (read_dir path) ;;
     match r with
     | inr e =>
         err <- fn path (Some d) (Some e) ;;
         match err with
         | Some SkipDir => ret None
         | _ => ret err
         end
     | inl dirs => walkRange fuel path fn dirs
     end).
Proof. reflexivity. Qed.

Lemma walkDir_file fuel path d fn w :
  IsDir d = false ->
  walkDir (S fuel) path d fn w = fn path (Some d) None w.
Proof.
  intros Hd. rewrite walkDir_S. unfold bind.
  destruct (fn path (Some d) None w) as [w' [err|c]]; [|reflexivity].
  rewrite Hd, orb_true_r. destruct err as [[]|]; reflexivity.
Qed.

Lemma walkDir_dir fuel path d fn w wd es :
  fn path (Some d) None w = (w, Returned None) ->
  IsDir d = true ->
  lookup path (disk w) = Some (Dir wd es) ->
  walkDir (S fuel) path d fn w =
  walkRange fuel path fn (sort_entries (map dirent es)) w.
Proof.
  intros Hfn Hd Hl. rewrite walkDir_S. unfold bind at 1. rewrite Hfn.
  cbn [is_nil negb orb]. rewrite Hd. cbn [negb].
  unfold bind, reads. now rewrite (read_dir_eq _ _ _ _ Hl).
Qed.

Lemma walkRange_cons fuel path fn d rest w :
  walkRange fuel path fn (d :: rest) w =
  match walkDir fuel (path ++ [Name d]) d fn w with
  | (w', Returned None) => walkRange fuel path fn rest w'
  | (w', Returned (Some SkipDir)) => (w', Returned None)
  | (w', Returned (Some e)) => (w', Returned (Some e))
  | (w', Crashed c) => (w', Crashed c)
  end.
Proof.
  cbn [walkRange]. unfold bind.
  destruct (walkDir fuel (path ++ [Name d]) d fn w) as [w' [[[]|]|c]];
    reflexivity.
Qed.

Lemma walkRange_inert_prefix fuel path fn w pre rest :
  Forall (inert path fn w) pre ->
  walkRange (S fuel) path fn (pre ++ rest) w =
  walkRange (S fuel) path fn rest w.
Proof.
  induction 1 as [|d pre [Hd Hfn] _ IH]; [reflexivity|].
  cbn [app]. rewrite walkRange_cons, walkDir_file, Hfn by exact Hd. exact IH.
Qed.

Lemma walkRange_inert_all fuel path fn w l :
  Forall (inert path fn w) l ->
  walkRange (S fuel) path fn l w = (w, Returned None).
Proof.
  intros H. rewrite <- (app_nil_r l).
  now rewrite walkRange_inert_prefix.
Qed.

Lemma walkRange_skip fuel path fn w w' d rest :
  IsDir d = false ->
  fn (path ++ [Name d]) (Some d) None w = (w', Returned (Some SkipDir)) ->
  walkRange (S fuel) path fn (d :: rest) w = (w', Returned None).
Proof.
  intros Hd Hfn. now rewrite walkRange_cons, walkDir_file, Hfn.
Qed.

Lemma walkRange_fail fuel path fn w w' d rest e :
  IsDir d = false -> e <> SkipDir ->
  fn (path ++ [Name d]) (Some d) None w = (w', Returned (Some e)) ->
  walkRange (S fuel) path fn (d :: rest) w = (w', Returned (Some e)).
Proof.
  intros Hd He Hfn. rewrite walkRange_cons, walkDir_file, Hfn by exact Hd.
  destruct e; congruence.
Qed.

End WalkFacts.

Module PurgeFacts.
Import FS FSFacts Aux ListingFacts WalkFacts.

Lemma marker_is_not_json :
  (filenameRecipeDeleteMarker =? filenameRecipeJSON) = false.
Proof. reflexivity. Qed.

Lemma json_is_not_marker :
  (filenameRecipeJSON =? filenameRecipeDeleteMarker) = false.
Proof. reflexivity. Qed.

Section Callback.

Variables (env : Env) (cmd : SyncCMD) (dataDir : FS.path).
Variables (cutoff : time.Time) (nowStamp : string) (idx : list string).

Let fn := purgeWalkFn env cmd false dataDir cutoff nowStamp idx.

Lemma purgeFn_dir path d w :
  IsDir d = true -> fn path (Some d) None w = (w, Returned None).
Proof. intros H. unfold fn, purgeWalkFn. cbn. now rewrite H. Qed.

Lemma purgeFn_other path d w :
  IsDir d = false ->
  Name d <> filenameRecipeJSON -> Name d <> filenameRecipeDeleteMarker ->
  fn path (Some d) None w = (w, Returned None).
Proof.
  intros H H1 H2. unfold fn, purgeWalkFn. cbn [ctx_Err is_nil negb].
  rewrite H.
  apply String.eqb_neq in H1, H2. now rewrite H1, H2.
Qed.

Lemma purgeFn_indexed_json path d w :
  IsDir d = false -> Name d = filenameRecipeJSON ->
  indexed (basename (dirname path)) idx = true ->
  fn path (Some d) None w = (w, Returned None).
Proof.
  intros H H1 H2. unfold fn, purgeWalkFn. cbn [ctx_Err is_nil negb].
  rewrite H, H1, H2, String.eqb_refl, json_is_not_marker. reflexivity.
Qed.

Lemma purgeFn_indexed_marker path d w :
  IsDir d = false -> Name d = filenameRecipeDeleteMarker ->
  indexed (basename (dirname path)) idx = true ->
  fn path (Some d) None w =
  (with_disk w (fst (FS.remove path (disk w))),
   Returned (match snd (FS.remove path (disk w)) with
             | Some e => Some e
             | None => Some SkipDir
             end)).
Proof.
  intros H H1 H2. unfold fn, purgeWalkFn. cbn [ctx_Err is_nil negb].
  rewrite H, H1, H2, String.eqb_refl, marker_is_not_json.
  cbn [negb andb]. unfold bind, syscall, with_disk.
  destruct (FS.remove path (disk w)) as [d' [e|]]; reflexivity.
Qed.

Lemma purgeFn_unindexed_marker path d w t :
  PurgeAfter cmd <> 0%Z ->
  IsDir d = false -> Name d = filenameRecipeDeleteMarker ->
  indexed (basename (dirname path)) idx = false ->
  readTimestampMarker path time.RFC3339Nano w = (w, Returned (inl t)) ->
  fn path (Some d) None w =
  if time.After t cutoff then (w, Returned (Some SkipDir))
  else (with_disk w (fst (FS.remove_all (dirname path) (disk w))),
        Returned (Some SkipDir)).
Proof.
  intros H0 H H1 H2 Hr. unfold fn, purgeWalkFn. cbn [ctx_Err is_nil negb].
  rewrite H, H1, H2, String.eqb_refl, marker_is_not_json.
  cbn [negb andb]. apply Z.eqb_neq in H0. rewrite H0.
  unfold bind at 1. unfold bind at 1. rewrite Hr.
  destruct (time.After t cutoff); [reflexivity|].
  unfold bind, ret, syscall, with_disk.
  destruct (FS.remove_all (dirname path) (disk w)); reflexivity.
Qed.

Lemma purgeFn_immediate path d w :
  PurgeAfter cmd = 0%Z ->
  IsDir d = false ->
  Name d = filenameRecipeDeleteMarker \/ Name d = filenameRecipeJSON ->
  indexed (basename (dirname path)) idx = false ->
  fn path (Some d) None w =
  (with_disk w (fst (FS.remove_all (dirname path) (disk w))),
   Returned (Some SkipDir)).
Proof.
  intros H0 H H1 H2. unfold fn, purgeWalkFn. cbn [ctx_Err is_nil negb].
  rewrite H, H2, H0.
  assert (E : negb (Name d =? filenameRecipeJSON)
              && negb (Name d =? filenameRecipeDeleteMarker) = false).
  { destruct H1 as [-> | ->]; reflexivity. }
  rewrite E. cbn [Z.eqb]. unfold bind, ret, syscall, with_disk.
  destruct (FS.remove_all (dirname path) (disk w)); reflexivity.
Qed.

End Callback.

End PurgeFacts.

Module FSFacts2.
Import FS FSFacts Aux ListingFacts.

Lemma path_split (p : path) : p <> [] -> p = dirname p ++ [basename p].
Proof. intros H. unfold dirname, basename. now apply app_removelast_last. Qed.

Lemma lookup_child (p : path) x n w es :
  lookup p n = Some (Dir w es) ->
  lookup (p ++ [x]) n = lookup_entry x es.
Proof.
  intros H. rewrite lookup_app, H. simpl.
  destruct (lookup_entry x es); reflexivity.
Qed.

Lemma at_dir_put p f : forall n w es,
  lookup p n = Some (Dir w es) ->
  fst (at_dir p f n) = put p (Dir w (fst (f w es))) n.
Proof.
  induction p as [|x p IH]; intros n w es H; simpl in *.
  - inversion H; subst. destruct (f w es); reflexivity.
  - destruct n as [b|w0 es0]; [discriminate|].
    destruct (lookup_entry x es0) as [c|] eqn:E; [|discriminate].
    specialize (IH c w es H).
    destruct (at_dir p f c) as [c' err]; simpl in *. now rewrite IH.
Qed.

Lemma all_files_lookup es x c :
  all_files es = true -> lookup_entry x es = Some c -> exists b, c = File b.
Proof.
  intros Ha Hl. apply lookup_entry_In in Hl.
  unfold all_files in Ha. rewrite forallb_forall in Ha.
  specialize (Ha _ Hl). destruct c; simpl in Ha; [eauto|discriminate].
Qed.

Lemma strip_all_files es :
  all_files es = true ->
  filter (fun e => negb (unlinkable (snd e)))
         (map (fun e => (fst e, strip (snd e))) es) = [].
Proof.
  induction es as [|[n c] es IH]; simpl; auto.
  destruct c; simpl; [auto|discriminate].
Qed.

(** Removing a writable directory of plain files from a writable parent
    succeeds and leaves nothing at its path. *)
Lemma remove_all_files_dir (dir : path) n es pes :
  dir <> [] ->
  lookup dir n = Some (Dir true es) ->
  all_files es = true ->
  lookup (dirname dir) n = Some (Dir true pes) ->
  snd (remove_all dir n) = None /\ lookup dir (fst (remove_all dir n)) = None.
Proof.
  intros Hne Hd Ha Hp. unfold remove_all.
  destruct dir as [|x0 dir0] eqn:Edir; [congruence|]. rewrite <- Edir in *.
  rewrite Hp.
  destruct (at_dir_lookup (dirname dir) (remove_all_in (basename dir)) _ _ _ Hp)
    as [H1 H2].
  assert (Hc : lookup_entry (basename dir) pes = Some (Dir true es)).
  { rewrite <- (lookup_child _ (basename dir) _ _ _ Hp), <- path_split; auto. }
  assert (Hr : remove_all_in (basename dir) true pes
               = (del_entry (basename dir) pes, None)).
  { unfold remove_all_in. rewrite Hc. cbn [strip].
    now rewrite strip_all_files. }
  rewrite Hr in *. split; [exact H2|].
  rewrite (path_split dir) at 1 by (rewrite Edir; discriminate).
  rewrite (lookup_child _ _ _ _ _ H1). apply lookup_entry_del_eq.
Qed.

(** Unlinking a file from a writable directory. *)
Lemma remove_file (dir : path) x n es b :
  lookup dir n = Some (Dir true es) ->
  lookup_entry x es = Some (File b) ->
  remove (dir ++ [x]) n = (put dir (Dir true (del_entry x es)) n, None).
Proof.
  intros Hd Hx. unfold remove.
  destruct (dir ++ [x]) eqn:E; [now destruct dir|]. rewrite <- E.
  rewrite dirname_snoc, basename_snoc.
  pose proof (at_dir_put dir (remove_in x) _ _ _ Hd) as H1.
  destruct (at_dir_lookup dir (remove_in x) _ _ _ Hd) as [_ H2].
  assert (Hr : remove_in x true es = (del_entry x es, None)).
  { unfold remove_in. now rewrite Hx. }
  rewrite Hr in H1, H2.
  destruct (at_dir dir (remove_in x) n) as [n1 o1].
  cbn [fst snd] in H1, H2. now subst.
Qed.

Lemma lookup_put_same p c : forall n n0,
  lookup p n = Some n0 -> lookup p (put p c n) = Some c.
Proof.
  induction p as [|x p IH]; intros n n0 H; simpl in *; auto.
  destruct n as [b|w es]; [discriminate|].
  destruct (lookup_entry x es) as [c0|] eqn:E; [|discriminate].
  simpl. rewrite lookup_entry_set_eq. eauto.
Qed.

Lemma del_entry_absent x es : lookup_entry x es = None -> del_entry x es = es.
Proof.
  induction es as [|[n c] es IH]; simpl; auto.
  destruct (n =? x) eqn:E; [discriminate|]. simpl. intros H. now rewrite IH.
Qed.

Lemma replace_entry_same x c es :
  lookup_entry x es = Some c -> replace_entry x c es = es.
Proof.
  induction es as [|[n c0] es IH]; simpl; auto.
  destruct (String.eqb_spec n x) as [->|Hne].
  - now intros [= ->].
  - intros H. now rewrite IH.
Qed.

Lemma put_same p : forall n c, lookup p n = Some c -> put p c n = n.
Proof.
  induction p as [|x p IH]; intros n c H; simpl in *.
  - congruence.
  - destruct n as [b|w es]; [discriminate|].
    destruct (lookup_entry x es) as [c0|] eqn:E; [|discriminate].
    rewrite (IH _ _ H). unfold set_entry. rewrite E.
    now rewrite replace_entry_same.
Qed.

End FSFacts2.

Module PurgeDirectory.
Import FS FSFacts Aux ListingFacts WalkFacts PurgeFacts FSFacts2.

Lemma listing_files es d :
  all_files es = true -> In d (sort_entries (map dirent es)) -> IsDir d = false.
Proof.
  intros Ha Hin. apply (proj1 (In_sort_entries _ _)) in Hin.
  apply (proj1 (in_map_iff _ _ _)) in Hin.
  destruct Hin as [e [<- He]]. unfold all_files in Ha.
  rewrite forallb_forall in Ha. specialize (Ha _ He).
  simpl. now destruct (is_dir (snd e)).
Qed.

(** The listing of a recipe directory that holds a marker, cut at the
    marker: what comes before is neither the marker nor the recipe file. *)
Lemma listing_cut es :
  all_files es = true ->
  lookup_entry filenameRecipeDeleteMarker es <> None ->
  exists pre d post,
    sort_entries (map dirent es) = pre ++ d :: post /\
    Name d = filenameRecipeDeleteMarker /\ IsDir d = false /\
    Forall (fun p => IsDir p = false /\
                     Name p <> filenameRecipeJSON /\
                     Name p <> filenameRecipeDeleteMarker) pre.
Proof.
  intros Ha Hm.
  destruct (lookup_entry filenameRecipeDeleteMarker es) as [c|] eqn:E;
    [clear Hm|congruence].
  apply lookup_entry_In in E.
  destruct (sorted_first_named filenameRecipeDeleteMarker
              (sort_entries (map dirent es)) (sort_entries_sorted _))
    as (pre & d & post & Hl & Hd & Hpre).
  { exists (dirent (filenameRecipeDeleteMarker, c)). split; [|reflexivity].
    apply In_sort_entries. now apply in_map. }
  exists pre, d, post. repeat split; auto.
  - apply (listing_files es); auto. rewrite Hl. apply in_or_app. right. now left.
  - rewrite Forall_forall in *. intros p Hp. destruct (Hpre p Hp) as [H1 H2].
    repeat split; auto.
    + apply (listing_files es); auto. rewrite Hl. apply in_or_app. now left.
    + intros Hj. rewrite Hj in H2. discriminate H2.
Qed.

Lemma after_cutoff (now t : time.Time) (d : time.Duration) :
  (0 < d)%Z ->
  time.After t (time.Add now (time.neg d)) = (time.Sub now t <? d)%Z.
Proof.
  intros Hd. unfold time.After, time.Add, time.neg, time.Sub. cbn [time.unixNano].
  assert ((d =? time.min_int64)%Z = false) as ->.
  { apply Z.eqb_neq. unfold time.min_int64. lia. }
  destruct (Z.ltb_spec (time.unixNano now + - d) (time.unixNano t));
  destruct (Z.ltb_spec (time.unixNano now - time.unixNano t) d); auto; lia.
Qed.

(** What the walk does in the directory of an indexed recipe. *)
Lemma purge_indexed_walk
    (env : Env) (cmd : SyncCMD) (dataDir : FS.path)
    (cutoff : time.Time) (nowStamp : string) (idx : list string) (w : World)
    (dir : FS.path) (es : FS.entries) (fuel : nat) :
  indexed (FS.basename dir) idx = true ->
  FS.lookup dir (disk w) = Some (FS.Dir true es) ->
  all_files es = true ->
  walkDir (S (S fuel)) dir
    {| FS.Name := FS.basename dir; FS.IsDir := true |}
    (purgeWalkFn env cmd false dataDir cutoff nowStamp idx) w
  = (with_disk w
       (FS.put dir (FS.Dir true (FS.del_entry filenameRecipeDeleteMarker es))
          (disk w)),
     Returned None).
Proof.
  intros Hidx Hdir Hfiles.
  set (fn := purgeWalkFn env cmd false dataDir cutoff nowStamp idx).
  assert (Hroot : fn dir (Some {| Name := basename dir; IsDir := true |})
                     None w = (w, Returned None))
    by (apply purgeFn_dir; reflexivity).
  rewrite (walkDir_dir _ _ _ _ _ true es Hroot eq_refl Hdir).
  destruct (lookup_entry filenameRecipeDeleteMarker es) as [c|] eqn:Em.
  - destruct (listing_cut es Hfiles) as (pre & d & post & -> & Hd & Hf & Hpre);
      [congruence|].
    rewrite walkRange_inert_prefix.
    2:{ eapply Forall_impl; [|exact Hpre]. intros p (Hp1 & Hp2 & Hp3).
        split; [exact Hp1|]. now apply purgeFn_other. }
    destruct (all_files_lookup es _ _ Hfiles Em) as [b ->].
    eapply walkRange_skip; [exact Hf|].
    unfold fn. rewrite purgeFn_indexed_marker; auto.
    2:{ now rewrite dirname_snoc. }
    rewrite Hd, (remove_file dir _ (disk w) es b Hdir Em). reflexivity.
  - rewrite (del_entry_absent _ _ Em), (put_same _ _ _ Hdir).
    unfold with_disk. destruct w as [dk rq]; cbn [disk requests].
    apply walkRange_inert_all. rewrite Forall_forall. intros p Hp.
    assert (Hpf : IsDir p = false) by (eapply listing_files; eauto).
    split; [exact Hpf|].
    assert (Hpm : Name p <> filenameRecipeDeleteMarker).
    { apply (proj1 (In_sort_entries _ _)) in Hp.
      apply (proj1 (in_map_iff _ _ _)) in Hp. destruct Hp as [e [<- He]].
      exact (lookup_entry_None _ _ Em e He). }
    destruct (String.eqb_spec (Name p) filenameRecipeJSON) as [Hj|Hj].
    + apply purgeFn_indexed_json; auto. now rewrite dirname_snoc.
    + now apply purgeFn_other.
Qed.

End PurgeDirectory.

Module PruneFacts.
Import FS FSFacts Aux ListingFacts FSFacts2.

Lemma node_ind2 (P : node -> Prop)
    (HF : forall b, P (File b))
    (HD : forall w es, Forall (fun e => P (snd e)) es -> P (Dir w es)) :
  forall n, P n.
Proof.
  fix IH 1. intros [b|w es]; [apply HF|apply HD].
  induction es as [|e es IHes]; constructor; [apply IH|exact IHes].
Qed.

Lemma pruneDir_Dir dir w entries :
  pruneDir false dir (Dir w entries) =
  let '(cur, hasOnlyDirs, emptyChildren, err) :=
    pruneRange false dir entries entries true [] in
  match err with
  | Some e => (Dir w cur, (false, Some e))
  | None =>
      if negb hasOnlyDirs then
        let (cur', err) := remove_each false dir emptyChildren w cur in
        match err with
        | Some e => (Dir w cur', (false, Some e))
        | None => (Dir w cur', (hasOnlyDirs, None))
        end
      else (Dir w cur, (hasOnlyDirs, None))
  end.
Proof. reflexivity. Qed.

Lemma pruneRoot_Dir root w entries :
  pruneRoot false root (Dir w entries) =
  let (cur, err) := pruneRootRange false root w entries entries in
  (Dir w cur, err).
Proof. reflexivity. Qed.


Lemma pruned_fileless n : fileless n = true -> pruned n = n.
Proof.
  destruct n as [b|w es]; simpl; [discriminate|]. now intros ->.
Qed.

Lemma pruned_Dir w es :
  fileless (Dir w es) = false -> pruned (Dir w es) = Dir w (prune_entries es).
Proof.
  simpl. intros ->. reflexivity.
Qed.

Lemma prune_entries_app l1 l2 :
  prune_entries (l1 ++ l2) = prune_entries l1 ++ prune_entries l2.
Proof.
  induction l1 as [|[x c] l1 IH]; [reflexivity|].
  cbn [app prune_entries]. destruct (fileless c); [exact IH|].
  now rewrite IH.
Qed.

Lemma prune_entries_filter es :
  prune_entries es = map pr (filter (fun e => negb (fl e)) es).
Proof.
  induction es as [|[x c] es IH]; [reflexivity|].
  cbn [prune_entries filter]. unfold fl at 1. cbn [snd].
  destruct (fileless c); cbn [negb]; [exact IH|]. cbn [map]. now rewrite IH.
Qed.

Lemma prune_entries_names es x :
  In x (map fst (prune_entries es)) -> In x (map fst es).
Proof.
  induction es as [|[y c] es IH]; [auto|].
  cbn [prune_entries]. destruct (fileless c); cbn [map fst In]; intuition.
Qed.

Lemma strip_fileless n :
  fileless n = true -> all_writable n = true -> unlinkable (strip n) = true.
Proof.
  induction n as [b|w es IH] using node_ind2; [discriminate|].
  cbn [fileless all_writable strip]. intros Hf Hw.
  apply andb_prop in Hw. destruct Hw as [-> Hw].
  assert (E : filter (fun e => negb (unlinkable (snd e)))
                (map (fun e => (fst e, strip (snd e))) es) = []).
  { induction es as [|[x c] es IHes]; [reflexivity|].
    cbn [forallb snd] in Hf, Hw. apply andb_prop in Hf, Hw.
    destruct Hf as [Hf1 Hf2], Hw as [Hw1 Hw2].
    inversion IH as [|? ? Hc Hrest]; subst.
    cbn [snd] in Hc. cbn [map filter fst snd].
    rewrite (Hc Hf1 Hw1). cbn [negb]. auto. }
  now rewrite E.
Qed.

Lemma distinct_NoDup l : distinct l = true <-> NoDup l.
Proof.
  induction l as [|x l IH]; simpl.
  - split; [constructor|auto].
  - rewrite andb_true_iff, negb_true_iff, IH. split.
    + intros [H1 H2]. constructor; [|exact H2]. intros Hin.
      assert (existsb (String.eqb x) l = true); [|congruence].
      apply existsb_exists. exists x. split; [exact Hin|apply String.eqb_refl].
    + intros H. inversion H as [|? ? Hx Hl]; subst. split; [|exact Hl].
      destruct (existsb (String.eqb x) l) eqn:E; [|reflexivity].
      apply existsb_exists in E. destruct E as [y [Hy Hxy]].
      apply String.eqb_eq in Hxy. now subst.
Qed.

Lemma lookup_entry_absent x es :
  ~ In x (map fst es) -> lookup_entry x es = None.
Proof.
  induction es as [|[n c] es IH]; [reflexivity|]. cbn [map fst In lookup_entry].
  intros H. destruct (String.eqb_spec n x) as [->|Hne]; [tauto|].
  apply IH. tauto.
Qed.

Lemma lookup_entry_mid x c pre rest :
  ~ In x (map fst pre) -> lookup_entry x (pre ++ (x, c) :: rest) = Some c.
Proof.
  induction pre as [|[n c0] pre IH]; cbn [map fst In app lookup_entry].
  - now rewrite String.eqb_refl.
  - intros H. destruct (String.eqb_spec n x) as [->|Hne]; [tauto|].
    apply IH. tauto.
Qed.

Lemma set_entry_mid x c c' pre rest :
  ~ In x (map fst pre) ->
  set_entry x c' (pre ++ (x, c) :: rest) = pre ++ (x, c') :: rest.
Proof.
  intros H. unfold set_entry. rewrite (lookup_entry_mid x c pre rest H).
  induction pre as [|[n c0] pre IH]; cbn [map fst In app replace_entry] in *.
  - now rewrite String.eqb_refl.
  - destruct (String.eqb_spec n x) as [->|Hne]; [tauto|].
    rewrite IH; tauto.
Qed.

Lemma del_entry_none x es : ~ In x (map fst es) -> del_entry x es = es.
Proof.
  intros H. apply del_entry_absent. now apply lookup_entry_absent.
Qed.

Lemma del_entry_mid x c pre rest :
  ~ In x (map fst pre) -> ~ In x (map fst rest) ->
  del_entry x (pre ++ (x, c) :: rest) = pre ++ rest.
Proof.
  intros H1 H2. unfold del_entry. rewrite filter_app. cbn [filter fst].
  rewrite String.eqb_refl. cbn [negb].
  fold (del_entry x pre). fold (del_entry x rest).
  now rewrite !del_entry_none.
Qed.

End PruneFacts.

Module PruneCorrect.
Import FS FSFacts Aux ListingFacts FSFacts2 PruneFacts.

Lemma map_fst_pr l : map fst (map pr l) = map fst l.
Proof. rewrite map_map. reflexivity. Qed.

Lemma pruneRange_spec dir todo : forall done h ec,
  Forall child_ok todo ->
  NoDup (map fst (done ++ todo)) ->
  pruneRange false dir todo (map pr done ++ todo) h ec =
  (map pr done ++ map pr todo,
   h && forallb fl todo,
   ec ++ map fst (filter fl todo),
   None).
Proof.
  induction todo as [|[x c] rest IH]; intros done h ec Hok Hnd.
  - cbn. now rewrite andb_true_r, !app_nil_r.
  - inversion Hok as [|? ? Hc Hrest]; subst.
    assert (Hx : ~ In x (map fst (map pr done))).
    { rewrite map_fst_pr. rewrite map_app in Hnd. cbn [map fst] in Hnd.
      apply NoDup_remove_2 in Hnd. intros Hin. apply Hnd.
      apply in_or_app. now left. }
    assert (Hnd' : NoDup (map fst ((done ++ [(x, c)]) ++ rest)))
      by now rewrite <- app_assoc.
    assert (IH' : forall h' ec',
      pruneRange false dir rest (map pr done ++ pr (x, c) :: rest) h' ec' =
      (map pr done ++ pr (x, c) :: map pr rest,
       h' && forallb fl rest, ec' ++ map fst (filter fl rest), None)).
    { intros h' ec'. specialize (IH (done ++ [(x, c)]) h' ec' Hrest Hnd').
      rewrite map_app, <- !app_assoc in IH. exact IH. }
    clear IH. cbn [pruneRange ctx_Err map filter forallb].
    destruct c as [b|w es].
    + change (pr (x, File b)) with (x, File b) in *.
      change (fl (x, File b)) with false.
      rewrite (IH' false ec). cbn [andb]. now rewrite andb_false_r.
    + unfold child_ok in Hc. cbn [snd] in Hc.
      rewrite (Hc eq_refl (dir ++ [x])).
      rewrite (set_entry_mid x (Dir w es) _ _ rest Hx).
      change (pr (x, Dir w es)) with (x, pruned (Dir w es)) in *.
      change (fl (x, Dir w es)) with (fileless (Dir w es)).
      destruct (fileless (Dir w es)) eqn:Ef.
      * rewrite (IH' h (ec ++ [x])).
        cbn [map fst andb]. now rewrite <- app_assoc.
      * rewrite (IH' false ec).
        cbn [andb]. now rewrite andb_false_r.
Qed.

Lemma filter_all {A} (l : list A) : filter (fun _ => true) l = l.
Proof. induction l; simpl; congruence. Qed.

Lemma filter_filter {A} (f g : A -> bool) l :
  filter f (filter g l) = filter (fun x => g x && f x) l.
Proof.
  induction l as [|a l IH]; [reflexivity|]. cbn [filter].
  destruct (g a); cbn [filter andb]; [destruct (f a)|]; now rewrite IH.
Qed.

Lemma remove_each_spec dir names : forall cur,
  (forall x c, In x names -> lookup_entry x cur = Some c ->
               unlinkable (strip c) = true) ->
  remove_each false dir names true cur =
  (filter (fun e => negb (existsb (String.eqb (fst e)) names)) cur, None).
Proof.
  induction names as [|x names IH]; intros cur Hu.
  - cbn. now rewrite filter_all.
  - cbn [remove_each ctx_Err].
    assert (Hr : remove_all_in x true cur = (del_entry x cur, None)).
    { unfold remove_all_in. destruct (lookup_entry x cur) as [c|] eqn:E.
      - rewrite (Hu x c (or_introl eq_refl) E). reflexivity.
      - now rewrite del_entry_absent. }
    rewrite Hr, IH.
    + unfold del_entry. rewrite filter_filter. f_equal.
      apply filter_ext. intros e. cbn [existsb]. now rewrite negb_orb.
    + intros y c Hy Hl. destruct (String.eqb_spec x y) as [->|Hne].
      * now rewrite lookup_entry_del_eq in Hl.
      * rewrite lookup_entry_del_ne in Hl by exact Hne.
        apply (Hu y c); [now right|exact Hl].
Qed.

Lemma NoDup_fst_inj (l : entries) x c c' :
  NoDup (map fst l) -> In (x, c) l -> In (x, c') l -> c = c'.
Proof.
  induction l as [|[y d] l IH]; cbn [map fst In]; [tauto|].
  intros Hnd. inversion Hnd as [|? ? Hy Hl]; subst.
  intros [E1|H1] [E2|H2].
  - congruence.
  - inversion E1; subst. exfalso. apply Hy.
    change x with (fst (x, c')). now apply in_map.
  - inversion E2; subst. exfalso. apply Hy.
    change x with (fst (x, c)). now apply in_map.
  - now apply IH.
Qed.

Lemma fileless_names (es : entries) x c :
  NoDup (map fst es) -> In (x, c) es ->
  existsb (String.eqb x) (map fst (filter fl es)) = fileless c.
Proof.
  intros Hnd Hin. destruct (fileless c) eqn:Ef.
  - apply existsb_exists. exists x. split; [|apply String.eqb_refl].
    change x with (fst (x, c)). apply in_map. apply filter_In.
    split; [exact Hin|exact Ef].
  - destruct (existsb (String.eqb x) (map fst (filter fl es))) eqn:E;
      [|reflexivity].
    apply existsb_exists in E. destruct E as [y [Hy Hxy]].
    apply String.eqb_eq in Hxy. subst y.
    apply (proj1 (in_map_iff _ _ _)) in Hy. destruct Hy as [[y c'] [Hy1 Hy2]].
    cbn [fst] in Hy1. subst y. apply filter_In in Hy2.
    destruct Hy2 as [Hy2 Hy3]. unfold fl in Hy3. cbn [snd] in Hy3.
    rewrite (NoDup_fst_inj es x c c' Hnd Hin Hy2) in Ef. congruence.
Qed.

Lemma Forall_forallb {A} (f : A -> bool) (P : A -> Prop) l :
  forallb f l = true -> (forall a, In a l -> f a = true -> P a) -> Forall P l.
Proof.
  intros H HP. rewrite forallb_forall in H. apply Forall_forall.
  intros a Ha. apply HP; auto.
Qed.

End PruneCorrect.

Module PruneCorrect2.
Import FS FSFacts Aux ListingFacts FSFacts2 PruneFacts PruneCorrect.

Lemma forallb_In {A} (f : A -> bool) l a :
  forallb f l = true -> In a l -> f a = true.
Proof. intros H. rewrite forallb_forall in H. auto. Qed.

Lemma lookup_entry_pr x es :
  lookup_entry x (map pr es) = option_map pruned (lookup_entry x es).
Proof.
  induction es as [|[n c] es IH]; [reflexivity|].
  cbn [map pr fst snd lookup_entry]. unfold pr at 1. cbn [fst snd lookup_entry].
  destruct (n =? x); [reflexivity|exact IH].
Qed.

Lemma filter_map_comm {A B} (f : A -> B) (p : B -> bool) l :
  filter p (map f l) = map f (filter (fun a => p (f a)) l).
Proof.
  induction l as [|a l IH]; [reflexivity|]. cbn [map filter].
  destruct (p (f a)); cbn [map]; now rewrite IH.
Qed.

Lemma prune_by_names es :
  NoDup (map fst es) ->
  filter
    (fun e => negb (existsb (String.eqb (fst e)) (map fst (filter fl es))))
    (map pr es) = prune_entries es.
Proof.
  intros Hnd. rewrite prune_entries_filter, filter_map_comm. f_equal.
  apply filter_ext_in. intros [x c] He. cbn [pr fst].
  now rewrite (fileless_names es x c Hnd He).
Qed.

Lemma pruneDir_correct n :
  unique_names n = true -> all_writable n = true -> child_ok ("", n).
Proof.
  induction n as [b|w es IH] using node_ind2; unfold child_ok; cbn [snd];
    [discriminate|].
  intros Hu Hw _ dir. cbn [unique_names all_writable] in Hu, Hw.
  apply andb_prop in Hu, Hw. destruct Hu as [Hnd Hu], Hw as [-> Hw].
  apply distinct_NoDup in Hnd.
  assert (Hok : Forall child_ok es).
  { rewrite Forall_forall in *. intros e He.
    exact (IH e He (forallb_In _ _ _ Hu He) (forallb_In _ _ _ Hw He)). }
  rewrite pruneDir_Dir.
  pose proof (pruneRange_spec dir es [] true [] Hok Hnd) as Hr.
  cbn [map app andb] in Hr. rewrite Hr.
  change (forallb fl es) with (fileless (Dir true es)).
  destruct (fileless (Dir true es)) eqn:Ef; cbn [negb].
  - (* fileless: nothing is removed here, and the children are unchanged *)
    rewrite (pruned_fileless _ Ef). f_equal. f_equal.
    rewrite <- (map_id es) at 2. apply map_ext_in. intros [x c] He.
    unfold pr. cbn [fst snd]. f_equal. apply pruned_fileless.
    cbn [fileless] in Ef. exact (forallb_In _ _ _ Ef He).
  - rewrite remove_each_spec.
    + now rewrite (pruned_Dir _ _ Ef), prune_by_names.
    + intros x c Hx Hl. rewrite lookup_entry_pr in Hl.
      destruct (lookup_entry x es) as [c0|] eqn:E; [|discriminate].
      cbn [option_map] in Hl. injection Hl as <-.
      apply lookup_entry_In in E.
      pose proof (fileless_names es x c0 Hnd E) as Hf.
      assert (Hfl : fileless c0 = true).
      { rewrite <- Hf. apply existsb_exists. exists x.
        split; [exact Hx|apply String.eqb_refl]. }
      rewrite (pruned_fileless _ Hfl). apply strip_fileless; [exact Hfl|].
      exact (forallb_In _ _ _ Hw E).
Qed.

(** [pruneDir] on a directory of a well-formed, writable tree. *)
Lemma pruneDir_spec dir w es :
  unique_names (Dir w es) = true -> all_writable (Dir w es) = true ->
  pruneDir false dir (Dir w es)
  = (pruned (Dir w es), (fileless (Dir w es), None)).
Proof.
  intros Hu Hw. exact (pruneDir_correct (Dir w es) Hu Hw eq_refl dir).
Qed.

Lemma pruneRootRange_spec root todo : forall done,
  Forall child_ok todo ->
  forallb (fun e => all_writable (snd e)) todo = true ->
  NoDup (map fst (done ++ todo)) ->
  pruneRootRange false root true todo (prune_entries done ++ todo) =
  (prune_entries done ++ prune_entries todo, None).
Proof.
  induction todo as [|[x c] rest IH]; intros done Hok Hw Hnd.
  - reflexivity.
  - inversion Hok as [|? ? Hc Hrest]; subst.
    cbn [forallb snd] in Hw. apply andb_prop in Hw. destruct Hw as [Hwc Hw].
    rewrite map_app in Hnd. cbn [map fst] in Hnd.
    pose proof (NoDup_remove_2 _ _ _ Hnd) as Hx.
    assert (Hx1 : ~ In x (map fst (prune_entries done))).
    { intros Hin. apply Hx, in_or_app. left.
      now apply prune_entries_names. }
    assert (Hx2 : ~ In x (map fst rest)).
    { intros Hin. apply Hx, in_or_app. now right. }
    assert (Hnd' : NoDup (map fst ((done ++ [(x, c)]) ++ rest))).
    { rewrite <- app_assoc, map_app. exact Hnd. }
    specialize (IH (done ++ [(x, c)]) Hrest Hw Hnd').
    rewrite prune_entries_app, <- !app_assoc in IH.
    cbn [pruneRootRange prune_entries]. destruct c as [b|w es].
    + cbn [is_dir negb]. cbn [prune_entries fileless pruned app] in IH.
      exact IH.
    + cbn [is_dir negb]. unfold child_ok in Hc. cbn [snd] in Hc.
      rewrite (Hc eq_refl (root ++ [x])).
      rewrite (set_entry_mid x (Dir w es) _ _ rest Hx1).
      cbn [prune_entries] in IH.
      destruct (fileless (Dir w es)) eqn:Ef.
      * cbn [ctx_Err]. unfold remove_all_in.
        rewrite (lookup_entry_mid x _ _ rest Hx1).
        rewrite (pruned_fileless _ Ef).
        rewrite (strip_fileless _ Ef Hwc). cbn [andb].
        rewrite (del_entry_mid x _ _ rest Hx1 Hx2). exact IH.
      * exact IH.
Qed.

Lemma pruneRoot_spec root es :
  unique_names (Dir true es) = true -> all_writable (Dir true es) = true ->
  pruneRoot false root (Dir true es) = (Dir true (prune_entries es), None).
Proof.
  intros Hu Hw. cbn [unique_names all_writable andb] in Hu, Hw.
  apply andb_prop in Hu. destruct Hu as [Hnd Hu].
  apply distinct_NoDup in Hnd.
  rewrite pruneRoot_Dir.
  assert (Hok : Forall child_ok es).
  { apply Forall_forall. intros e He.
    exact (pruneDir_correct (snd e) (forallb_In _ _ _ Hu He)
             (forallb_In _ _ _ Hw He)). }
  pose proof (pruneRootRange_spec root es [] Hok Hw Hnd) as Hr.
  cbn [prune_entries app] in Hr. now rewrite Hr.
Qed.


End PruneCorrect2.

Module PrunePaths.
Import FS FSFacts Aux ListingFacts FSFacts2 PruneFacts PruneCorrect PruneCorrect2.


Lemma lookup_prune_entries es x c :
  NoDup (map fst es) -> lookup_entry x es = Some c ->
  lookup_entry x (prune_entries es)
  = if fileless c then None else Some (pruned c).
Proof.
  induction es as [|[n c0] es IH]; [discriminate|].
  cbn [map fst lookup_entry prune_entries]. intros Hnd.
  inversion Hnd as [|? ? Hn Hes]; subst.
  destruct (String.eqb_spec n x) as [->|Hne].
  - intros [= ->]. destruct (fileless c).
    + apply lookup_entry_absent. intros Hin. apply Hn.
      now apply prune_entries_names.
    + cbn [lookup_entry]. now rewrite String.eqb_refl.
  - intros Hl. destruct (fileless c0); [now apply IH|].
    cbn [lookup_entry]. apply String.eqb_neq in Hne. rewrite Hne.
    now apply IH.
Qed.

Lemma fileless_lookup p : forall n d,
  fileless n = true -> lookup p n = Some d -> fileless d = true.
Proof.
  induction p as [|x p IH]; intros n d Hf Hl; cbn [lookup] in Hl.
  - congruence.
  - destruct n as [b|w es]; [discriminate|].
    destruct (lookup_entry x es) as [c|] eqn:E; [|discriminate].
    apply (IH c d); [|exact Hl]. cbn [fileless] in Hf.
    exact (forallb_In _ _ _ Hf (lookup_entry_In _ _ _ E)).
Qed.

Lemma lookup_pruned_below p : forall w es d,
  unique_names (Dir w es) = true -> p <> [] ->
  lookup p (Dir w es) = Some d ->
  lookup p (Dir w (prune_entries es))
  = if fileless d then None else Some (pruned d).
Proof.
  induction p as [|x p IH]; intros w es d Hu Hp Hl; [congruence|].
  cbn [lookup] in *. cbn [unique_names] in Hu. apply andb_prop in Hu.
  destruct Hu as [Hnd Hu]. apply distinct_NoDup in Hnd.
  destruct (lookup_entry x es) as [c|] eqn:E; [|discriminate].
  rewrite (lookup_prune_entries es x c Hnd E).
  destruct (fileless c) eqn:Ef.
  - now rewrite (fileless_lookup p c d Ef Hl).
  - destruct p as [|y p'].
    + cbn [lookup] in *. injection Hl as <-. now rewrite Ef.
    + destruct c as [b|w' es']; [discriminate|].
      rewrite (pruned_Dir _ _ Ef). apply IH; [|discriminate|exact Hl].
      exact (forallb_In _ _ _ Hu (lookup_entry_In _ _ _ E)).
Qed.

End PrunePaths.

Module SyncFacts.
Import FS FSFacts Aux FSFacts2.

Lemma at_dir_ok p f : forall n,
  snd (at_dir p f n) = None ->
  exists w es, lookup p n = Some (Dir w es) /\ snd (f w es) = None.
Proof.
  induction p as [|x p IH]; intros [b|w es]; cbn [at_dir lookup snd];
    try discriminate.
  - destruct (f w es) as [es' err] eqn:E. cbn [snd]. intros ->.
    exists w, es. now rewrite E.
  - destruct (lookup_entry x es) as [c|]; [|discriminate].
    specialize (IH c). destruct (at_dir p f c) as [c' err]. cbn [snd] in *.
    exact IH.
Qed.

(** A write that succeeds leaves the file with the body written. *)
Lemma write_file_ok p body n :
  snd (write_file p body n) = None ->
  lookup p (fst (write_file p body n)) = Some (File body).
Proof.
  unfold write_file. destruct p as [|x0 p0] eqn:Ep; [discriminate|].
  rewrite <- Ep. assert (Hp : p <> []) by (rewrite Ep; discriminate).
  intros Hok. destruct (at_dir_ok _ _ _ Hok) as (w & es & Hl & Hf).
  destruct (at_dir_lookup _ (create_in (basename p) body) _ _ _ Hl) as [H1 _].
  rewrite (path_split p Hp) at 1. rewrite (lookup_child _ _ _ _ _ H1).
  unfold create_in in *.
  destruct (lookup_entry (basename p) es) as [[b|w' es']|]; cbn [fst snd] in *.
  - apply lookup_entry_set_eq.
  - discriminate.
  - destruct w; cbn [fst snd] in *; [apply lookup_entry_set_eq|discriminate].
Qed.

Section Sync.

Context {json : JSON}.
Variable env : Env.

Lemma saveAsJSON_returns body path w :
  exists d err,
    saveAsJSON body path w = (with_disk w d, Returned err) /\
    (err = None -> lookup path d = Some (File body)).
Proof.
  unfold saveAsJSON, bind, syscall.
  destruct (mkdir_all (dirname path) (disk w)) as [d1 [e|]] eqn:E1.
  - exists d1, (Some e). split; [reflexivity|discriminate].
  - cbn [disk].
    destruct (write_file path body d1) as [d2 err] eqn:E2.
    exists d2, err. split; [reflexivity|]. intros ->.
    pose proof (write_file_ok path body d1) as H. rewrite E2 in H. now apply H.
Qed.

Lemma pathToRecipeJSONFile_ok basePath uid w :
  (3 <= String.length uid)%nat ->
  pathToRecipeJSONFile env basePath uid w
  = (w, Returned (recipeFile env basePath uid)).
Proof.
  intros H. unfold pathToRecipeJSONFile, pathToRecipeDir, slice_to, bind, ret.
  assert ((2 <=? String.length uid)%nat = true) as -> by (apply Nat.leb_le; lia).
  assert ((3 <=? String.length uid)%nat = true) as -> by (apply Nat.leb_le; lia).
  unfold recipeFile. now rewrite <- app_assoc.
Qed.

Lemma pathToRecipeJSONFile_panics basePath uid w :
  (String.length uid < 3)%nat ->
  pathToRecipeJSONFile env basePath uid w = (w, Crashed Panic).
Proof.
  intros H. unfold pathToRecipeJSONFile, pathToRecipeDir, slice_to, bind, ret.
  destruct (2 <=? String.length uid)%nat eqn:E2; [|reflexivity].
  assert ((3 <=? String.length uid)%nat = false) as ->
    by (apply Nat.leb_gt; lia).
  reflexivity.
Qed.

Lemma shouldSaveRecipe_decision path hash w :
  shouldSaveRecipe path hash w = (w, Returned (decision path hash (disk w))).
Proof.
  unfold shouldSaveRecipe, decision, bind, reads, FS.open.
  destruct (lookup path (disk w)) as [f|]; [|reflexivity].
  destruct (decode_from decode_item f) as [it|e]; [|reflexivity].
  destruct (paprika.RecipeItem.Hash it =? hash); reflexivity.
Qed.

End Sync.

End SyncFacts.

Module UpsertFacts.
Import FS FSFacts Aux FSFacts2 SyncFacts.
Section Upsert.

Context {json : JSON}.
Variables (env : Env) (cli : CLI) (c : paprika.Client.t).

(** [UpsertRecipe] for a uid of at least three bytes, case by case. *)
Lemma UpsertRecipe_cases (ref : paprika.RecipeItem.t) (w : World) :
  (3 <= String.length (paprika.RecipeItem.UID ref))%nat ->
  UpsertRecipe env cli c ref w =
  let uid := paprika.RecipeItem.UID ref in
  let path := recipeFile env (DataDir cli) uid in
  if negb (fst (decision path (paprika.RecipeItem.Hash ref) (disk w)))
  then (w, Returned (false, None))
  else
    let w1 := with_request w (GET_recipe uid) in
    match paprika.Client.Recipe c uid with
    | (_, Some e) => (w1, Returned (false, Some e))
    | (recipe, None) =>
        if negb (paprika.Recipe.UID recipe =? uid)
        then (w1, Returned
                    (false, Some (ErrUIDMismatch (paprika.Recipe.UID recipe)
                                                 uid)))
        else
          match saveAsJSON (encode_recipe recipe) path w1 with
          | (w2, Returned None) => (w2, Returned (true, None))
          | (w2, Returned (Some e)) => (w2, Returned (false, Some e))
          | (w2, Crashed cr) => (w2, Crashed cr)
          end
    end.
Proof.
  intros Hlen. unfold UpsertRecipe. unfold bind at 1.
  rewrite (pathToRecipeJSONFile_ok env _ _ w Hlen).
  unfold bind at 1. rewrite shouldSaveRecipe_decision. cbv zeta.
  destruct (decision _ _ (disk w)) as [doUpdate ex]. cbn [fst].
  destruct doUpdate; [|reflexivity]. cbn [negb].
  unfold bind at 1. unfold send. fold (with_request w (GET_recipe (paprika.RecipeItem.UID ref))).
  destruct (paprika.Client.Recipe c (paprika.RecipeItem.UID ref))
    as [recipe [e|]]; [reflexivity|].
  destruct (negb (paprika.Recipe.UID recipe =? paprika.RecipeItem.UID ref));
    [reflexivity|].
  unfold bind.
  destruct (saveAsJSON _ _ _) as [w2 [[e|]|cr]]; reflexivity.
Qed.

End Upsert.
End UpsertFacts.

Module FrameFacts.
Import FS FSFacts Aux FSFacts2 SyncFacts UpsertFacts.

(** [os.MkdirAll] leaves every file where it is. *)
Lemma mkdir_all_frame p : forall n q b,
  lookup q n = Some (File b) ->
  lookup q (fst (mkdir_all p n)) = Some (File b).
Proof.
  induction p as [|x p IH]; intros [b0|w es] q b Hq; cbn [mkdir_all fst];
    try exact Hq.
  destruct q as [|y q]; [discriminate|]. cbn [lookup] in Hq.
  destruct (lookup_entry y es) as [c|] eqn:Ey; [|discriminate].
  destruct (lookup_entry x es) as [c0|] eqn:Ex.
  - specialize (IH c0). destruct (mkdir_all p c0) as [c0' err]. cbn [fst] in *.
    cbn [lookup]. destruct (String.eqb_spec x y) as [->|Hne].
    + rewrite lookup_entry_set_eq. apply IH. congruence.
    + rewrite (lookup_entry_set_ne _ _ _ _ Hne), Ey. exact Hq.
  - destruct w; cbn [fst lookup]; [|now rewrite Ey].
    destruct (mkdir_all p (Dir true [])) as [c' err]. cbn [fst lookup].
    assert (Hne : x <> y) by congruence.
    now rewrite (lookup_entry_set_ne _ _ _ _ Hne), Ey.
Qed.

(** Creating or truncating [d/name] leaves every other file where it is. *)
Lemma create_frame name body d : forall n q b,
  q <> d ++ [name] ->
  lookup q n = Some (File b) ->
  lookup q (fst (at_dir d (create_in name body) n)) = Some (File b).
Proof.
  induction d as [|x d IH]; intros [b0|w es] q b Hne Hq; cbn [at_dir fst];
    try exact Hq.
  - destruct q as [|y q]; [discriminate|]. cbn [lookup app] in *.
    destruct (lookup_entry y es) as [c|] eqn:Ey; [|discriminate].
    destruct (create_in name body w es) as [es' err] eqn:Ec.
    cbn [fst lookup]. unfold create_in in Ec.
    destruct (String.eqb_spec name y) as [->|Hny].
    + rewrite Ey in Ec. destruct c as [b1|w1 es1].
      * destruct q; [congruence|discriminate].
      * injection Ec as <- _. now rewrite Ey.
    + assert (E' : lookup_entry y es' = lookup_entry y es).
      { destruct (lookup_entry name es) as [[b1|w1 es1]|];
          [| |destruct w]; injection Ec as <- _; auto;
          now apply lookup_entry_set_ne. }
      now rewrite E', Ey.
  - destruct q as [|y q]; [discriminate|]. cbn [lookup app] in *.
    destruct (lookup_entry y es) as [c|] eqn:Ey; [|discriminate].
    destruct (lookup_entry x es) as [c0|] eqn:Ex; [|cbn; now rewrite Ey].
    specialize (IH c0).
    destruct (at_dir d (create_in name body) c0) as [c0' err].
    cbn [fst lookup] in *. destruct (String.eqb_spec x y) as [->|Hxy].
    + rewrite lookup_entry_set_eq. apply IH; congruence.
    + rewrite (lookup_entry_set_ne _ _ _ _ Hxy), Ey. exact Hq.
Qed.

Lemma write_file_frame p body n q b :
  q <> p ->
  lookup q n = Some (File b) ->
  lookup q (fst (write_file p body n)) = Some (File b).
Proof.
  intros Hne Hq. unfold write_file. destruct p as [|x0 p0] eqn:Ep; [exact Hq|].
  rewrite <- Ep in *. apply create_frame; [|exact Hq].
  rewrite <- path_split; [exact Hne|]. rewrite Ep. discriminate.
Qed.

Lemma saveAsJSON_frame {json : JSON} body path w d err q b :
  saveAsJSON body path w = (with_disk w d, Returned err) ->
  q <> path ->
  lookup q (disk w) = Some (File b) ->
  lookup q d = Some (File b).
Proof.
  unfold saveAsJSON, bind, syscall. intros Hs Hne Hq.
  pose proof (mkdir_all_frame (dirname path) (disk w) q b Hq) as H1.
  destruct (mkdir_all (dirname path) (disk w)) as [d1 [e|]]; cbn [fst] in H1.
  - cbn in Hs. injection Hs as <- _. exact H1.
  - cbn [disk] in Hs.
    pose proof (write_file_frame path body d1 q b Hne H1) as H2.
    destruct (write_file path body d1) as [d2 e2]. cbn [fst] in H2.
    injection Hs as <- _. exact H2.
Qed.

End FrameFacts.

Module PassFacts.
Import FS FSFacts Aux FSFacts2 SyncFacts UpsertFacts FrameFacts.
Section Pass.

Context {json : JSON}.
Variables (env : Env) (cli : CLI) (c : paprika.Client.t).

#[local] Abbreviation uid_of := paprika.RecipeItem.UID.
#[local] Abbreviation hash_of := paprika.RecipeItem.Hash.


Lemma decision_matches w ref :
  (3 <= String.length (uid_of ref))%nat ->
  fst (decision (recipeFile env (DataDir cli) (uid_of ref)) (hash_of ref)
         (disk w)) = false ->
  stored_hash_matches env cli w ref.
Proof.
  intros Hlen. unfold decision, stored_hash_matches.
  destruct (lookup _ (disk w)) as [[body|wd es]|]; cbn [decode_from read_all fst];
    try discriminate.
  destruct (decode_item body) as [item|] eqn:Ed; [|discriminate].
  destruct (String.eqb_spec (hash_of item) (hash_of ref)); [|discriminate].
  intros _. split; [exact Hlen|]. now exists body, item.
Qed.


Lemma UpsertRecipe_returns_length w w' r ref :
  UpsertRecipe env cli c ref w = (w', Returned r) ->
  (3 <= String.length (uid_of ref))%nat.
Proof.
  intros H. destruct (Nat.le_gt_cases 3 (String.length (uid_of ref)))
    as [Hle|Hgt]; [exact Hle|].
  unfold UpsertRecipe in H. unfold bind at 1 in H.
  rewrite (pathToRecipeJSONFile_panics env _ _ w Hgt) in H. discriminate.
Qed.

Lemma recipeFile_inj u u' :
  recipeFile env (DataDir cli) u = recipeFile env (DataDir cli) u' -> u = u'.
Proof.
  unfold recipeFile. intros H. apply app_inv_head in H.
  cbn [app] in H. congruence.
Qed.

(** A reference that was processed without error has its hash stored. *)
Lemma UpsertRecipe_establishes w w' saved ref :
  faithful c ref ->
  UpsertRecipe env cli c ref w = (w', Returned (saved, None)) ->
  stored_hash_matches env cli w' ref.
Proof.
  intros [Hh Hd] Hu.
  pose proof (UpsertRecipe_returns_length _ _ _ _ Hu) as Hlen.
  rewrite (UpsertRecipe_cases env cli c ref w Hlen) in Hu. cbv zeta in Hu.
  destruct (fst (decision _ _ (disk w))) eqn:Edec; cbn [negb] in Hu.
  - destruct (paprika.Client.Recipe c (uid_of ref)) as [recipe [e|]] eqn:Ef;
      [discriminate|]. cbn [fst] in Hh, Hd.
    destruct (String.eqb_spec (paprika.Recipe.UID recipe) (uid_of ref))
      as [Huid|Huid]; cbn [negb] in Hu; [|discriminate].
    destruct (saveAsJSON_returns (encode_recipe recipe)
                (recipeFile env (DataDir cli) (uid_of ref))
                (with_request w (GET_recipe (uid_of ref))))
      as (d & err & Hs & Hl).
    rewrite Hs in Hu. destruct err as [e|]; [discriminate|].
    injection Hu as <- _. split; [exact Hlen|].
    exists (encode_recipe recipe),
           (paprika.RecipeItem.mk (paprika.Recipe.UID recipe)
                                  (paprika.Recipe.Hash recipe)).
    cbn [with_disk disk]. repeat split; auto.
  - injection Hu as <- _. now apply decision_matches.
Qed.

(** Processing one reference without error keeps the stored hash of
    another. *)
Lemma UpsertRecipe_preserves w w' saved ref ref' :
  faithful c ref -> faithful c ref' ->
  stored_hash_matches env cli w ref ->
  UpsertRecipe env cli c ref' w = (w', Returned (saved, None)) ->
  stored_hash_matches env cli w' ref.
Proof.
  intros Hf Hf' Hm Hu.
  destruct (string_dec (uid_of ref') (uid_of ref)) as [E|Hne].
  - (* the same file: what is stored afterwards matches [ref'], whose hash
       is the hash of [ref] *)
    pose proof (UpsertRecipe_establishes _ _ _ _ Hf' Hu) as Hm'.
    destruct Hf as [Hh _], Hf' as [Hh' _]. rewrite E in Hh'.
    destruct Hm' as (Hl & body & item & H1 & H2 & H3).
    split; [apply Hm|]. exists body, item. rewrite <- E. repeat split; auto.
    congruence.
  - pose proof (UpsertRecipe_returns_length _ _ _ _ Hu) as Hlen.
    rewrite (UpsertRecipe_cases env cli c ref' w Hlen) in Hu. cbv zeta in Hu.
    destruct (fst (decision _ _ (disk w))); cbn [negb] in Hu;
      [|injection Hu as <- _; exact Hm].
    destruct (paprika.Client.Recipe c (uid_of ref')) as [recipe [e|]];
      [discriminate|].
    destruct (negb (paprika.Recipe.UID recipe =? uid_of ref'));
      [discriminate|].
    destruct (saveAsJSON_returns (encode_recipe recipe)
                (recipeFile env (DataDir cli) (uid_of ref'))
                (with_request w (GET_recipe (uid_of ref'))))
      as (d & err & Hs & _).
    rewrite Hs in Hu. destruct err as [e|]; [discriminate|].
    injection Hu as <- _.
    destruct Hm as (Hl & body & item & H1 & H2 & H3).
    split; [exact Hl|]. exists body, item. repeat split; auto.
    cbn [with_disk disk].
    apply (saveAsJSON_frame _ _ _ _ _ _ _ Hs); [|exact H1].
    intros Heq. apply Hne. symmetry. now apply recipeFile_inj.
Qed.

Lemma workItem_cases ref st w w' st' :
  workItem env cli c ref st w = (w', Returned st') ->
  exists saved err,
    UpsertRecipe env cli c ref w = (w', Returned (saved, err)) /\
    fst st' = fst st || negb (is_nil err).
Proof.
  unfold workItem, bind.
  destruct (UpsertRecipe env cli c ref w) as [w1 [[saved err]|cr]];
    [|discriminate].
  intros [= <- <-]. now exists saved, err.
Qed.

Lemma drain_cons ref rest st w :
  drain env cli c (ref :: rest) st w =
  match workItem env cli c ref st w with
  | (w1, Returned st1) => drain env cli c rest st1 w1
  | (w1, Crashed cr) => (w1, Crashed cr)
  end.
Proof. reflexivity. Qed.

Lemma drain_flag_stays queue : forall st w w' st',
  drain env cli c queue st w = (w', Returned st') ->
  fst st = true -> fst st' = true.
Proof.
  induction queue as [|ref rest IH]; intros st w w' st' Hd Hf.
  - injection Hd as <- <-. exact Hf.
  - rewrite drain_cons in Hd.
    destruct (workItem env cli c ref st w) as [w1 [st1|cr]] eqn:Ew;
      [|discriminate].
    apply (IH _ _ _ _ Hd).
    destruct (workItem_cases _ _ _ _ _ Ew) as (saved & err & _ & ->).
    now rewrite Hf.
Qed.

Lemma drain_preserves queue : forall st w w' st' ref,
  faithful c ref -> Forall (faithful c) queue ->
  drain env cli c queue st w = (w', Returned st') -> fst st' = false ->
  stored_hash_matches env cli w ref -> stored_hash_matches env cli w' ref.
Proof.
  induction queue as [|ref' rest IH]; intros st w w' st' ref Hf Hq Hd Hflag Hm.
  - injection Hd as <- <-. exact Hm.
  - inversion Hq as [|? ? Hf' Hrest]; subst. rewrite drain_cons in Hd.
    destruct (workItem env cli c ref' st w) as [w1 [st1|cr]] eqn:Ew;
      [|discriminate].
    destruct (workItem_cases _ _ _ _ _ Ew) as (saved & err & Hu & Hst).
    assert (Hst1 : fst st1 = false).
    { destruct (fst st1) eqn:E; [|reflexivity].
      rewrite (drain_flag_stays _ _ _ _ _ Hd E) in Hflag. discriminate. }
    rewrite Hst1 in Hst. symmetry in Hst. apply orb_false_elim in Hst.
    destruct Hst as [_ Herr]. destruct err; [discriminate|].
    apply (IH _ _ _ _ ref Hf Hrest Hd Hflag).
    exact (UpsertRecipe_preserves _ _ _ _ _ Hf Hf' Hm Hu).
Qed.

(** After a pass without error every reference has its hash stored. *)
Lemma drain_establishes queue : forall st w w' st',
  Forall (faithful c) queue ->
  drain env cli c queue st w = (w', Returned st') -> fst st' = false ->
  Forall (stored_hash_matches env cli w') queue.
Proof.
  induction queue as [|ref rest IH]; intros st w w' st' Hq Hd Hflag;
    [constructor|].
  inversion Hq as [|? ? Hf Hrest]; subst. rewrite drain_cons in Hd.
  destruct (workItem env cli c ref st w) as [w1 [st1|cr]] eqn:Ew;
    [|discriminate].
  destruct (workItem_cases _ _ _ _ _ Ew) as (saved & err & Hu & Hst).
  assert (Hst1 : fst st1 = false).
  { destruct (fst st1) eqn:E; [|reflexivity].
    rewrite (drain_flag_stays _ _ _ _ _ Hd E) in Hflag. discriminate. }
  rewrite Hst1 in Hst. symmetry in Hst. apply orb_false_elim in Hst.
  destruct Hst as [_ Herr]. destruct err; [discriminate|].
  constructor; [|exact (IH _ _ _ _ Hrest Hd Hflag)].
  apply (drain_preserves rest st1 w1 w' st' ref Hf Hrest Hd Hflag).
  exact (UpsertRecipe_establishes _ _ _ _ Hf Hu).
Qed.


End Pass.
End PassFacts.

Module RunFacts.
Import FS FSFacts Aux FSFacts2 SyncFacts UpsertFacts FrameFacts PassFacts.
Section Run.

Context {json : JSON}.
Variables (env : Env) (cmd : SyncCMD) (ctx : Context) (cli : CLI).
Variable pc : paprika.Client.t.

Lemma Run_after_sync k now w w1 st :
  syncPhase env cmd ctx cli pc k w = (w1, Returned st) ->
  Run env cmd ctx cli pc k now w =
  match purgePhase env cmd ctx cli now (fst st) w1 with
  | (w2, Returned true) => (w2, Returned (Some ErrSyncCompletedWithErrors))
  | (w2, Returned false) => (w2, Returned None)
  | (w2, Crashed cr) => (w2, Crashed cr)
  end.
Proof.
  intros Hs. unfold Run. unfold bind at 1. rewrite Hs. unfold bind.
  destruct (purgePhase env cmd ctx cli now (fst st) w1) as [w2 [[|]|cr]];
    reflexivity.
Qed.

Lemma Run_sync_crash k now w w1 cr :
  syncPhase env cmd ctx cli pc k w = (w1, Crashed cr) ->
  Run env cmd ctx cli pc k now w = (w1, Crashed cr).
Proof. intros Hs. unfold Run. unfold bind at 1. now rewrite Hs. Qed.

(** The categories task ends the process when the fetch fails. *)
Lemma categoriesTask_exits st w e :
  IncludeCategories cmd = true ->
  snd (paprika.Client.Categories pc) = Some e ->
  categoriesTask env cmd cli pc st w
  = (with_request w GET_categories, Crashed (Exit 1)).
Proof.
  intros Hc He. unfold categoriesTask. rewrite Hc.
  unfold SaveCategoriesIndex, bind, send.
  destruct (paprika.Client.Categories pc) as [cats err]. cbn [snd] in He.
  subst err. reflexivity.
Qed.

Lemma SaveRecipesIndex_returns w :
  exists w1 r, SaveRecipesIndex env cli pc w = (w1, Returned r).
Proof.
  unfold SaveRecipesIndex. unfold bind at 1. unfold send.
  destruct (paprika.Client.Recipes pc) as [idx [e|]]; [unfold ret; eauto|].
  unfold bind.
  destruct (saveAsJSON_returns (encode_index idx)
              (pathToRecipesIndexFile env (DataDir cli))
              {| disk := disk w; requests := GET_recipes :: requests w |})
    as (d & err & Hs & _).
  rewrite Hs. unfold ret. eauto.
Qed.

Lemma syncPhase_categories_failure k w e :
  IncludeCategories cmd = true ->
  snd (paprika.Client.Categories pc) = Some e ->
  exists w1 cr, syncPhase env cmd ctx cli pc k w = (w1, Crashed cr).
Proof.
  intros Hc He. unfold syncPhase.
  destruct (IncludeRecipes cmd); cbn [negb].
  2:{ rewrite (categoriesTask_exits _ _ _ Hc He). eauto. }
  destruct (DownloadConcurrency cmd <? 0)%Z; [unfold stop; eauto|].
  destruct k as [|k].
  - unfold bind at 1. rewrite (categoriesTask_exits _ _ _ Hc He). eauto.
  - unfold bind at 1. cbn [ret].
    unfold bind at 1.
    destruct (SaveRecipesIndex_returns w) as (w1 & [items err] & ->).
    unfold bind at 1.
    destruct (drain env cli pc _ _ w1) as [w2 [st3|cr]]; [|eauto].
    unfold bind at 1. rewrite (categoriesTask_exits _ _ _ Hc He). eauto.
Qed.

End Run.
End RunFacts.

Module TimeFacts.
Import time Aux.
Open Scope Z_scope.

(** ** Decimal digits *)

Lemma digit_spec d :
  0 <= d <= 9 -> digit_val (digit d) = d /\ isDigit (digit d) = true.
Proof.
  intros H.
  assert (d = 0 \/ d = 1 \/ d = 2 \/ d = 3 \/ d = 4 \/ d = 5 \/ d = 6
          \/ d = 7 \/ d = 8 \/ d = 9) as Hd by lia.
  repeat (destruct Hd as [-> | Hd]; [split; reflexivity|]).
  subst; split; reflexivity.
Qed.

Lemma fold_value cs : forall a,
  fold_left (fun acc c => acc * 10 + digit_val c) cs a
  = a * 10 ^ Z.of_nat (List.length cs) + value cs.
Proof.
  unfold value. induction cs as [|c cs IH]; intros a.
  - cbn. lia.
  - cbn [fold_left List.length]. rewrite IH, (IH (0 * 10 + digit_val c)).
    rewrite Nat2Z.inj_succ, Z.pow_succ_r by lia. ring.
Qed.

Lemma value_app cs ds :
  value (cs ++ ds) = value cs * 10 ^ Z.of_nat (List.length ds) + value ds.
Proof. unfold value at 1. rewrite fold_left_app. apply fold_value. Qed.

Lemma list_ascii_app s1 s2 :
  list_ascii_of_string (s1 ++ s2)
  = (list_ascii_of_string s1 ++ list_ascii_of_string s2)%list.
Proof. induction s1 as [|c s1 IH]; cbn; [reflexivity|now rewrite IH]. Qed.

Lemma length_list_ascii s :
  List.length (list_ascii_of_string s) = String.length s.
Proof. induction s; cbn; auto. Qed.

Lemma string_length_app s1 s2 :
  String.length (s1 ++ s2) = (String.length s1 + String.length s2)%nat.
Proof. induction s1; cbn; auto. Qed.

(** The fixed-width digits of [u]: all digits, [width] of them, worth
    [u mod 10^width]. *)
Lemma fixedDigits_spec width : forall u,
  0 <= u ->
  String.length (fixedDigits width u) = width /\
  forallb isDigit (list_ascii_of_string (fixedDigits width u)) = true /\
  value (list_ascii_of_string (fixedDigits width u))
  = u mod 10 ^ Z.of_nat width.
Proof.
  induction width as [|w IH]; intros u Hu.
  - cbn. now rewrite Z.mod_1_r.
  - cbn [fixedDigits].
    assert (Hq : 0 <= u / 10) by (apply Z.div_pos; lia).
    destruct (IH (u / 10) Hq) as (Hl & Hd & Hv).
    assert (Hm : 0 <= u mod 10 <= 9) by (pose proof (Z.mod_pos_bound u 10); lia).
    destruct (digit_spec _ Hm) as [Hdv Hdd].
    rewrite string_length_app, list_ascii_app, forallb_app, value_app.
    cbn [String.length list_ascii_of_string forallb List.length].
    rewrite Hl, Hd, Hdd, Hv. repeat split; [lia|].
    unfold value. cbn [fold_left]. rewrite Hdv.
    change (10 ^ Z.of_nat 1) with 10.
    rewrite Nat2Z.inj_succ, Z.pow_succ_r by lia.
    rewrite Z.rem_mul_r by lia. lia.
Qed.

Lemma appendInt_fixed x width :
  (0 < width)%nat -> 0 <= x < 10 ^ Z.of_nat width ->
  appendInt x width = fixedDigits width x.
Proof.
  intros Hw Hx. unfold appendInt.
  assert ((x <? 0) = false) as -> by (apply Z.ltb_ge; lia).
  rewrite Z.abs_eq by lia.
  assert ((0 <? Z.of_nat width) = true) as -> by (apply Z.ltb_lt; lia).
  assert ((x <? 10 ^ Z.of_nat width) = true) as -> by (apply Z.ltb_lt; lia).
  reflexivity.
Qed.

Lemma parseUint_fixed width x lo hi :
  0 <= x < 10 ^ Z.of_nat width -> lo <= x <= hi ->
  parseUint (fixedDigits width x) lo hi = Some x.
Proof.
  intros Hx Hr. unfold parseUint.
  destruct (fixedDigits_spec width x ltac:(lia)) as (_ & Hd & Hv).
  rewrite Hd. fold (value (list_ascii_of_string (fixedDigits width x))).
  rewrite Hv, Z.mod_small by lia.
  assert ((lo <=? x) = true) as -> by (apply Z.leb_le; lia).
  assert ((x <=? hi) = true) as -> by (apply Z.leb_le; lia).
  reflexivity.
Qed.

End TimeFacts.

Module CalendarFacts.
Import time Aux TimeFacts.
Open Scope Z_scope.

Lemma all_from_spec p n : forall z,
  all_from n z p = true ->
  forall i, z <= i < z + Z.of_nat n -> p i = true.
Proof.
  induction n as [|n IH]; intros z H i Hi; [lia|].
  cbn [all_from] in H. apply andb_prop in H. destruct H as [H1 H2].
  destruct (Z.eq_dec i z) as [->|Hne]; [exact H1|].
  apply (IH (z + 1) H2). lia.
Qed.

Lemma era_checked : all_from (Z.to_nat 146097) 0 doe_ok = true.
Proof. vm_compute. reflexivity. Qed.

Lemma doe_ok_all doe : 0 <= doe < 146097 -> doe_ok doe = true.
Proof.
  intros H. apply (all_from_spec doe_ok _ 0 era_checked).
  rewrite Z2Nat.id; lia.
Qed.

Lemma isLeap_era y e : isLeap (y + e * 400) = isLeap y.
Proof.
  unfold isLeap.
  replace ((y + e * 400) mod 4) with (y mod 4).
  2:{ replace (y + e * 400) with (y + (e * 100) * 4) by ring.
      now rewrite Z_mod_plus_full. }
  replace ((y + e * 400) mod 100) with (y mod 100).
  2:{ replace (y + e * 400) with (y + (e * 4) * 100) by ring.
      now rewrite Z_mod_plus_full. }
  now rewrite Z_mod_plus_full.
Qed.

Lemma daysIn_era m y e : daysIn m (y + e * 400) = daysIn m y.
Proof. unfold daysIn. now rewrite isLeap_era. Qed.

Lemma civil_from_days_era z :
  civil_from_days z =
  let era := (z + 719468) / 146097 in
  let '(yoe, m, d) := civil_of_doe (z + 719468 - era * 146097) in
  (if m <=? 2 then yoe + era * 400 + 1 else yoe + era * 400, m, d).
Proof. reflexivity. Qed.

(** The civil date of a day number is a valid date, and it is the date of
    that day number. *)
Lemma civil_roundtrip z :
  let '(y, m, d) := civil_from_days z in
  1 <= m <= 12 /\ 1 <= d <= daysIn m y /\ days_from_civil y m d = z.
Proof.
  rewrite civil_from_days_era. cbv zeta.
  set (era := (z + 719468) / 146097).
  set (doe := z + 719468 - era * 146097).
  assert (Hdoe : 0 <= doe < 146097).
  { unfold doe, era. pose proof (Z.mod_pos_bound (z + 719468) 146097).
    rewrite Z.mod_eq in H by lia. lia. }
  pose proof (doe_ok_all doe Hdoe) as Hok. unfold doe_ok in Hok.
  destruct (civil_of_doe doe) as [[yoe m] d].
  repeat (apply andb_prop in Hok; destruct Hok as [Hok ?]).
  apply Z.leb_le in Hok, H2, H0, H1, H3. apply Z.ltb_lt in H4.
  apply Z.eqb_eq in H.
  repeat split; try lia.
  - replace (if m <=? 2 then yoe + era * 400 + 1 else yoe + era * 400)
      with ((if m <=? 2 then yoe + 1 else yoe) + era * 400)
      by (destruct (m <=? 2); ring).
    now rewrite daysIn_era.
  - unfold days_from_civil.
    replace (if m <=? 2
             then (if m <=? 2 then yoe + era * 400 + 1 else yoe + era * 400) - 1
             else (if m <=? 2 then yoe + era * 400 + 1 else yoe + era * 400))
      with (yoe + era * 400) by (destruct (m <=? 2); ring).
    rewrite Z.div_add, Z.div_small by lia. cbn [Z.add].
    replace (yoe + era * 400 - era * 400) with yoe by ring.
    unfold doe_of_civil in H. unfold doe in H. lia.
Qed.

End CalendarFacts.

Module LayoutFacts.
Import time Aux TimeFacts CalendarFacts.
Open Scope Z_scope.

Lemma substring_all s : substring 0 (String.length s) s = s.
Proof. induction s as [|c s IH]; cbn; [reflexivity|now rewrite IH]. Qed.

Lemma substring_short s : forall n,
  (String.length s <= n)%nat -> substring 0 n s = s.
Proof.
  induction s as [|c s IH]; intros [|n] H; cbn in *; try reflexivity; try lia.
  rewrite IH; [reflexivity|lia].
Qed.

(** The parser on a text made of the six fields and a rest. *)
Lemma parse_shape (year month day hour min sec : Z) (rest : string) :
  parseRFC3339
    (fixedDigits 4 year ++ "-" ++ fixedDigits 2 month ++ "-"
     ++ fixedDigits 2 day ++ "T" ++ fixedDigits 2 hour ++ ":"
     ++ fixedDigits 2 min ++ ":" ++ fixedDigits 2 sec ++ rest)%string
  = match parseUint (fixedDigits 4 year) 0 9999,
          parseUint (fixedDigits 2 month) 1 12 with
    | Some y, Some m =>
        match parseUint (fixedDigits 2 day) 1 (daysIn m y),
              parseUint (fixedDigits 2 hour) 0 23,
              parseUint (fixedDigits 2 min) 0 59,
              parseUint (fixedDigits 2 sec) 0 59 with
        | Some d, Some hh, Some mi, Some ss =>
            let '(nsec, rest') := parseFraction rest in
            match parseZone rest' with
            | Some zoneOffset =>
                let t := Date y m d hh mi ss nsec in
                Some {| unixNano := unixNano t - zoneOffset * 1000000000;
                        offset := zoneOffset |}
            | None => None
            end
        | _, _, _, _ => None
        end
    | _, _ => None
    end.
Proof.
  unfold parseRFC3339.
  cbn [fixedDigits String.append String.length Nat.ltb Nat.leb Nat.sub
       substring String.eqb Ascii.eqb Bool.eqb andb].
  replace (substring 0 0 rest) with EmptyString by (now destruct rest).
  now rewrite Nat.sub_0_r, substring_all.
Qed.


(** ** The fractional second *)

Lemma span_digits_app ds zone :
  forallb isDigit (list_ascii_of_string ds) = true ->
  starts_zone zone ->
  span_digits (ds ++ zone) = (ds, zone).
Proof.
  intros Hd Hz. induction ds as [|c ds IH]; cbn in *.
  - destruct zone as [|c z]; [destruct Hz|]. cbn. destruct Hz as [-> _].
    reflexivity.
  - apply andb_prop in Hd. destruct Hd as [-> Hd]. now rewrite IH.
Qed.

Lemma trim_snoc l c :
  trim (l ++ [c]) = if Ascii.eqb c "0" then trim l else l ++ [c].
Proof.
  unfold trim. rewrite rev_app_distr. cbn [rev app trim_zeros_rev].
  destruct (Ascii.eqb c "0"); [reflexivity|].
  cbn [rev]. now rewrite rev_involutive.
Qed.

(** Cutting trailing zeros keeps a prefix made of the same digits and
    scales the value by a power of ten. *)
Lemma trim_spec l :
  forallb isDigit l = true ->
  forallb isDigit (trim l) = true /\
  (List.length (trim l) <= List.length l)%nat /\
  value l
  = value (trim l) * 10 ^ Z.of_nat (List.length l - List.length (trim l)) /\
  (value l <> 0 -> trim l <> []).
Proof.
  induction l as [|c l IH] using rev_ind; intros Hd.
  - cbn. repeat split; auto.
  - rewrite forallb_app in Hd. apply andb_prop in Hd.
    destruct Hd as [Hl Hc]. cbn [forallb] in Hc.
    destruct (IH Hl) as (H1 & H2 & H3 & H4). rewrite trim_snoc.
    destruct (Ascii.eqb_spec c "0") as [->|Hne].
    + rewrite length_app, value_app. cbn [List.length].
      change (value ["0"%char]) with 0. change (10 ^ Z.of_nat 1) with 10.
      repeat split; auto; [lia| |intros Hv; apply H4; lia].
      rewrite H3 at 1.
      replace (List.length l + 1 - List.length (trim l))%nat
        with (S (List.length l - List.length (trim l)))%nat by lia.
      rewrite Nat2Z.inj_succ, Z.pow_succ_r by lia. ring.
    + rewrite forallb_app, Hl. cbn [forallb]. rewrite Hc.
      rewrite Nat.sub_diag. cbn [Z.of_nat]. rewrite Z.pow_0_r.
      repeat split; auto; [lia|]. intros _. now destruct l.
Qed.

End LayoutFacts.

Module RoundTrip.
Import time Aux TimeFacts CalendarFacts LayoutFacts.
Open Scope Z_scope.

Lemma parseFraction_zone zone :
  starts_zone zone -> parseFraction zone = (0, zone).
Proof.
  destruct zone as [|c z]; [intros []|]. cbn [starts_zone]. intros [_ Hc].
  destruct c as [[] [] [] [] [] [] [] []]; try reflexivity.
  now contradiction Hc.
Qed.

Lemma list_ascii_roundtrip l :
  list_ascii_of_string (string_of_list_ascii l) = l.
Proof. apply list_ascii_of_string_of_list_ascii. Qed.

Lemma string_of_list_length l :
  String.length (string_of_list_ascii l) = List.length l.
Proof. induction l; cbn; auto. Qed.

Lemma appendNano_nonzero ns :
  ns <> 0 ->
  appendNano ns
  = String "."
      (string_of_list_ascii (trim (list_ascii_of_string (appendInt ns 9)))).
Proof.
  intros H. unfold appendNano. apply Z.eqb_neq in H. now rewrite H.
Qed.

(** The fraction written for [ns] parses back to [ns]. *)
Lemma fraction_roundtrip ns zone :
  0 <= ns < 1000000000 -> starts_zone zone ->
  parseFraction (appendNano ns ++ zone) = (ns, zone) /\
  (String.length (appendNano ns) <= 10)%nat.
Proof.
  intros Hns Hz. destruct (Z.eq_dec ns 0) as [->|Hne].
  - cbn [appendNano Z.eqb String.append String.length].
    split; [now apply parseFraction_zone|lia].
  - rewrite (appendNano_nonzero ns Hne).
    rewrite (appendInt_fixed ns 9) by (cbn; lia).
    destruct (fixedDigits_spec 9 ns ltac:(lia)) as (Hl & Hd & Hv).
    rewrite Z.mod_small in Hv by (cbn; lia).
    destruct (trim_spec _ Hd) as (Td & Tl & Tv & Tn).
    rewrite length_list_ascii, Hl in Tl, Tv. rewrite Hv in Tv, Tn.
    set (T := trim (list_ascii_of_string (fixedDigits 9 ns))) in *.
    split.
    2:{ cbn [String.length]. rewrite string_of_list_length. lia. }
    destruct T as [|c T'] eqn:ET; [now contradiction (Tn Hne)|].
    rewrite <- ET in *. cbn [String.append].
    assert (Hs : string_of_list_ascii T = String c (string_of_list_ascii T'))
      by now rewrite ET.
    rewrite Hs. cbn [String.append parseFraction].
    assert (Hc : isDigit c = true).
    { rewrite ET in Td. cbn [forallb] in Td. now apply andb_prop in Td. }
    rewrite Hc.
    change (String c (string_of_list_ascii T' ++ zone))
      with (String c (string_of_list_ascii T') ++ zone)%string.
    rewrite <- Hs, span_digits_app; [|now rewrite list_ascii_roundtrip|exact Hz].
    f_equal. unfold parseNanoseconds.
    rewrite substring_short by (rewrite string_of_list_length; lia).
    rewrite list_ascii_roundtrip, string_of_list_length.
    fold (value T). rewrite Tv. f_equal. f_equal. lia.
Qed.

Lemma formatZone_nonzero off :
  off <> 0 ->
  formatZone off =
  String.append (if Z.quot off 60 <? 0 then "-" else "+")
    (String.append (appendInt (Z.abs (Z.quot off 60) / 60) 2)
       (String.append ":" (appendInt (Z.abs (Z.quot off 60) mod 60) 2))).
Proof. intros H. unfold formatZone. apply Z.eqb_neq in H. now rewrite H. Qed.

(** The zone written for an offset of whole minutes parses back to it. *)
Lemma zone_roundtrip off :
  off mod 60 = 0 -> - 86400 < off < 86400 ->
  parseZone (formatZone off) = Some off /\
  starts_zone (formatZone off) /\
  (String.length (formatZone off) <= 6)%nat.
Proof.
  intros Hm Hr. destruct (Z.eq_dec off 0) as [->|Hne].
  - cbn. repeat split; [discriminate|lia].
  - rewrite (formatZone_nonzero off Hne).
    apply Z.mod_divide in Hm; [|lia]. destruct Hm as [q Hq].
    assert (Hquot : Z.quot off 60 = q) by (subst off; apply Z.quot_mul; lia).
    rewrite Hquot.
    assert (Hh : 0 <= Z.abs q / 60 <= 23).
    { split; [apply Z.div_pos; lia|].
      apply Z.lt_succ_r. apply Z.div_lt_upper_bound; lia. }
    assert (Hmm : 0 <= Z.abs q mod 60 <= 59)
      by (pose proof (Z.mod_pos_bound (Z.abs q) 60); lia).
    rewrite !appendInt_fixed by (cbn; lia).
    pose proof (parseUint_fixed 2 (Z.abs q / 60) 0 23 ltac:(cbn; lia) Hh) as P1.
    pose proof (parseUint_fixed 2 (Z.abs q mod 60) 0 59 ltac:(cbn; lia) Hmm)
      as P2.
    pose proof (Z.div_mod (Z.abs q) 60 ltac:(lia)) as Hdm.
    destruct (Z.ltb_spec q 0) as [Hneg|Hpos].
    + cbn [fixedDigits String.append] in *. unfold parseZone.
      cbn [String.eqb Ascii.eqb Bool.eqb andb String.length Nat.eqb negb
           substring].
      rewrite P1, P2. cbn [orb andb]. repeat split; try (cbn; lia).
      * f_equal. lia.
      * discriminate.
    + cbn [fixedDigits String.append] in *. unfold parseZone.
      cbn [String.eqb Ascii.eqb Bool.eqb andb String.length Nat.eqb negb
           substring].
      rewrite P1, P2. cbn [orb andb]. repeat split; try (cbn; lia).
      * f_equal. lia.
      * discriminate.
Qed.

End RoundTrip.

Module RoundTrip2.
Import time Aux TimeFacts CalendarFacts LayoutFacts RoundTrip.
Open Scope Z_scope.

Lemma daysIn_le m y : 1 <= m <= 12 -> daysIn m y <= 31.
Proof.
  intros H.
  assert (m = 1 \/ m = 2 \/ m = 3 \/ m = 4 \/ m = 5 \/ m = 6 \/ m = 7
          \/ m = 8 \/ m = 9 \/ m = 10 \/ m = 11 \/ m = 12) as Hm by lia.
  unfold daysIn.
  repeat (destruct Hm as [-> | Hm];
          [cbn; try destruct (isLeap y); lia|]).
  subst. cbn. lia.
Qed.

(** What [Format] writes for an expressible time parses back to that time,
    and is no longer than the layout. *)
Lemma format_parse t :
  expressible t ->
  parseRFC3339 (formatRFC3339Nano t) = Some t /\
  (String.length (formatRFC3339Nano t) <= String.length RFC3339Nano)%nat.
Proof.
  destruct t as [u off]. unfold expressible. cbn [unixNano offset].
  set (abs := u / 1000000000 + off). intros (Hy & Hm60 & Hoff).
  pose proof (civil_roundtrip (abs / 86400)) as Hc.
  unfold formatRFC3339Nano. cbn [unixNano offset]. fold abs.
  destruct (civil_from_days (abs / 86400)) as [[y m] d] eqn:E.
  cbn [fst] in Hy. destruct Hc as (Hm & Hd & Hdays).
  pose proof (daysIn_le m y Hm) as Hd31.
  set (secs := abs mod 86400).
  assert (Hsecs : 0 <= secs < 86400) by (apply Z.mod_pos_bound; lia).
  assert (Hh : 0 <= secs / 3600 <= 23).
  { split; [apply Z.div_pos; lia|].
    apply Z.lt_succ_r. apply Z.div_lt_upper_bound; lia. }
  assert (Hmi : 0 <= secs mod 3600 / 60 <= 59).
  { pose proof (Z.mod_pos_bound secs 3600 ltac:(lia)).
    split; [apply Z.div_pos; lia|].
    apply Z.lt_succ_r. apply Z.div_lt_upper_bound; lia. }
  assert (Hs : 0 <= secs mod 60 <= 59)
    by (pose proof (Z.mod_pos_bound secs 60 ltac:(lia)); lia).
  set (ns := u mod 1000000000).
  assert (Hns : 0 <= ns < 1000000000) by (apply Z.mod_pos_bound; lia).
  rewrite !appendInt_fixed by (cbn; lia).
  destruct (zone_roundtrip off Hm60 Hoff) as (Pz & Sz & Lz).
  destruct (fraction_roundtrip ns (formatZone off) Hns Sz) as (Pf & Lf).
  split.
  - rewrite parse_shape.
    rewrite (parseUint_fixed 4 y 0 9999) by (cbn; lia).
    rewrite (parseUint_fixed 2 m 1 12) by (cbn; lia).
    cbv beta iota.
    rewrite (parseUint_fixed 2 d 1 (daysIn m y)) by (cbn; lia).
    rewrite (parseUint_fixed 2 (secs / 3600) 0 23) by (cbn; lia).
    rewrite (parseUint_fixed 2 (secs mod 3600 / 60) 0 59) by (cbn; lia).
    rewrite (parseUint_fixed 2 (secs mod 60) 0 59) by (cbn; lia).
    cbv beta iota. rewrite Pf, Pz.
    unfold Date. cbn [unixNano]. rewrite Hdays.
    pose proof (Z.div_mod abs 86400 ltac:(lia)).
    pose proof (Z.div_mod secs 3600 ltac:(lia)).
    pose proof (Z.div_mod (secs mod 3600) 60 ltac:(lia)).
    pose proof (Z.div_mod u 1000000000 ltac:(lia)).
    assert (Hss : secs mod 60 = (secs mod 3600) mod 60).
    { clear. Z.div_mod_to_equations. lia. }
    subst secs ns abs. do 2 f_equal. lia.
  - rewrite !string_length_app.
    destruct (fixedDigits_spec 4 y ltac:(lia)) as (-> & _).
    destruct (fixedDigits_spec 2 m ltac:(lia)) as (-> & _).
    destruct (fixedDigits_spec 2 d ltac:(lia)) as (-> & _).
    destruct (fixedDigits_spec 2 (secs / 3600) ltac:(lia)) as (-> & _).
    destruct (fixedDigits_spec 2 (secs mod 3600 / 60) ltac:(lia)) as (-> & _).
    destruct (fixedDigits_spec 2 (secs mod 60) ltac:(lia)) as (-> & _).
    cbn [String.length RFC3339Nano]. lia.
Qed.

End RoundTrip2.

Module FSFrame.
Import FS FSFacts Aux ListingFacts FSFacts2 Store.

(** What an operation does below [root] it does to the node at [root]. *)
Lemma at_dir_app (root : path) p f : forall n c,
  lookup root n = Some c ->
  lookup root (fst (at_dir (root ++ p) f n)) = Some (fst (at_dir p f c)) /\
  snd (at_dir (root ++ p) f n) = snd (at_dir p f c).
Proof.
  induction root as [|x root IH]; intros n c H; cbn [app lookup] in *.
  - injection H as <-. split; reflexivity.
  - destruct n as [b|w es]; [discriminate|].
    destruct (lookup_entry x es) as [c0|] eqn:E; [|discriminate].
    cbn [at_dir]. rewrite E. destruct (IH c0 c H) as [H1 H2].
    destruct (at_dir (root ++ p) f c0) as [c0' err]. cbn [fst snd lookup] in *.
    now rewrite lookup_entry_set_eq.
Qed.

(** An operation on the directory at [p] leaves a file where it is when it
    leaves the entry on the way to the file alone. *)
Lemma at_dir_frame p f : forall n (q : path) b,
  lookup q n = Some (File b) ->
  (forall w es x rest,
     q = p ++ x :: rest -> lookup p n = Some (Dir w es) ->
     lookup_entry x (fst (f w es)) = lookup_entry x es) ->
  lookup q (fst (at_dir p f n)) = Some (File b).
Proof.
  induction p as [|y p IH]; intros [b0|w es] q b Hq Hf; cbn [at_dir fst];
    try exact Hq.
  - destruct q as [|x rest]; [discriminate|].
    specialize (Hf w es x rest eq_refl eq_refl).
    destruct (f w es) as [es' err]. cbn [fst lookup] in *. now rewrite Hf.
  - destruct q as [|x rest]; [discriminate|]. cbn [lookup] in Hq.
    destruct (lookup_entry x es) as [c|] eqn:Ex; [|discriminate].
    destruct (lookup_entry y es) as [c0|] eqn:Ey;
      [|cbn [fst lookup]; now rewrite Ex].
    specialize (IH c0).
    destruct (at_dir p f c0) as [c0' err] eqn:Ea. cbn [fst lookup] in *.
    destruct (String.eqb_spec y x) as [->|Hne].
    + rewrite lookup_entry_set_eq. assert (c0 = c) as -> by congruence.
      apply IH; [exact Hq|]. intros w0 es0 x0 rest0 -> Hl.
      apply (Hf w0 es0 x0 rest0 eq_refl). cbn [lookup]. now rewrite Ey.
    + rewrite (lookup_entry_set_ne _ _ _ _ Hne), Ex. exact Hq.
Qed.

Lemma at_dir_Dir p f : forall w es,
  exists es', fst (at_dir p f (Dir w es)) = Dir w es'.
Proof.
  destruct p as [|x p]; intros w es; cbn [at_dir].
  - destruct (f w es); cbn [fst]; eauto.
  - destruct (lookup_entry x es) as [c|]; cbn [fst]; [|eauto].
    destruct (at_dir p f c); cbn [fst]; eauto.
Qed.

Lemma forallb_replace (g : string * node -> bool) x c' es :
  forallb g es = true -> g (x, c') = true ->
  forallb g (replace_entry x c' es) = true.
Proof.
  intros H Hg. induction es as [|[n c] es IH]; cbn in *; auto.
  apply andb_prop in H as [H1 H2].
  destruct (n =? x); cbn; [now rewrite Hg|now rewrite H1, IH].
Qed.

Lemma forallb_insert (g : string * node -> bool) x c' es :
  forallb g es = true -> g (x, c') = true ->
  forallb g (insert_entry x c' es) = true.
Proof.
  intros H Hg. induction es as [|[n c] es IH]; cbn in *.
  - now rewrite Hg.
  - apply andb_prop in H as [H1 H2].
    destruct (String.ltb x n); cbn; [now rewrite Hg, H1, H2|].
    now rewrite H1, IH.
Qed.

Lemma forallb_set (g : string * node -> bool) x c' es :
  forallb g es = true -> g (x, c') = true ->
  forallb g (set_entry x c' es) = true.
Proof.
  intros H Hg. unfold set_entry.
  destruct (lookup_entry x es); [now apply forallb_replace|
                                  now apply forallb_insert].
Qed.

Lemma forallb_del (g : string * node -> bool) x es :
  forallb g es = true -> forallb g (del_entry x es) = true.
Proof.
  intros H. unfold del_entry. rewrite forallb_forall in *.
  intros e He. apply filter_In in He. now apply H.
Qed.

(** An operation keeps the levels above [k] clean when what it does to a
    directory less than [k] levels down keeps that directory clean. *)
Lemma at_dir_clean p f : forall k n,
  clean_above k n = true ->
  (forall w es,
     lookup p n = Some (Dir w es) ->
     clean_above (k - List.length p) (Dir w es) = true ->
     clean_above (k - List.length p) (Dir w (fst (f w es))) = true) ->
  clean_above k (fst (at_dir p f n)) = true.
Proof.
  induction p as [|y p IH]; intros k [b0|w es] Hc Hf; cbn [at_dir fst];
    try exact Hc.
  - specialize (Hf w es eq_refl). cbn [List.length] in Hf. rewrite Nat.sub_0_r in Hf.
    specialize (Hf Hc). now destruct (f w es).
  - destruct (lookup_entry y es) as [c|] eqn:Ey; [|exact Hc].
    specialize (IH (pred k) c).
    destruct (at_dir p f c) as [c' err] eqn:Ea. cbn [fst] in *.
    destruct k as [|k]; [reflexivity|]. cbn [clean_above pred] in *.
    apply forallb_set; [exact Hc|]. cbn [fst snd].
    pose proof (lookup_entry_In _ _ _ Ey) as Hin.
    rewrite forallb_forall in Hc. specialize (Hc _ Hin). cbn [fst snd] in Hc.
    destruct c as [b1|w1 es1].
    + destruct p; cbn in Ea; injection Ea as <- _; exact Hc.
    + destruct (at_dir_Dir p f w1 es1) as [es' He]. rewrite Ea in He.
      cbn [fst] in He. subst c'. apply IH; [exact Hc|].
      intros w0 es0 Hl. apply Hf. cbn [lookup]. now rewrite Ey.
Qed.

(** The entries of a directory less than [k] levels down hold no file with
    one of the two names. *)
Lemma clean_above_entries (q : path) : forall k n w es e b,
  clean_above k n = true ->
  lookup q n = Some (Dir w es) ->
  (List.length q < k)%nat ->
  In e es -> snd e = File b ->
  marker_or_recipe (fst e) = false.
Proof.
  induction q as [|x q IH]; intros k n w es e b Hc Hl Hk Hin He;
    cbn [lookup List.length] in *.
  - injection Hl as ->. destruct k as [|k]; [lia|]. cbn [clean_above] in Hc.
    rewrite forallb_forall in Hc. specialize (Hc _ Hin). rewrite He in Hc.
    now apply negb_true_iff in Hc.
  - destruct n as [b0|w0 es0]; [discriminate|].
    destruct (lookup_entry x es0) as [c|] eqn:Ex; [|discriminate].
    destruct k as [|k]; [lia|]. cbn [clean_above] in Hc.
    rewrite forallb_forall in Hc.
    specialize (Hc _ (lookup_entry_In _ _ _ Ex)). cbn [fst snd] in Hc.
    destruct c as [b1|w1 es1].
    + destruct q; discriminate.
    + apply (IH k (Dir w1 es1) w es e b); auto. lia.
Qed.

End FSFrame.

Module PurgeSafety.
Import FS FSFacts Aux ListingFacts WalkFacts PurgeFacts FSFacts2 Store FSFrame.

Lemma remove_snoc (d : path) x n :
  remove (d ++ [x]) n = at_dir d (remove_in x) n.
Proof.
  unfold remove. destruct (d ++ [x]) eqn:E; [now destruct d|].
  rewrite <- E. now rewrite dirname_snoc, basename_snoc.
Qed.

Lemma create_excl_snoc (d : path) x body n :
  create_excl (d ++ [x]) body n = at_dir d (create_excl_in x body) n.
Proof.
  unfold create_excl. destruct (d ++ [x]) eqn:E; [now destruct d|].
  rewrite <- E. now rewrite dirname_snoc, basename_snoc.
Qed.

Lemma remove_all_snoc (d : path) x n :
  fst (remove_all (d ++ [x]) n) = fst (at_dir d (remove_all_in x) n).
Proof.
  unfold remove_all. destruct (d ++ [x]) eqn:E; [now destruct d|].
  rewrite <- E. rewrite dirname_snoc, basename_snoc.
  destruct (lookup d n) as [[b|w es]|] eqn:El; try reflexivity.
  - cbn [fst]. clear E. revert n El.
    induction d as [|y d IH]; intros n El; cbn [lookup] in El.
    + injection El as ->. reflexivity.
    + destruct n as [b0|w es]; [reflexivity|]. cbn [at_dir].
      destruct (lookup_entry y es) as [c|] eqn:Ey; [|reflexivity].
      specialize (IH c El). destruct (at_dir d (remove_all_in x) c) as [c' e].
      cbn [fst] in *. subst c'. unfold set_entry. rewrite Ey.
      now rewrite replace_entry_same.
  - cbn [fst]. clear E. revert n El.
    induction d as [|y d IH]; intros n El; cbn [lookup] in El; [discriminate|].
    destruct n as [b0|w es]; [reflexivity|]. cbn [at_dir].
    destruct (lookup_entry y es) as [c|] eqn:Ey; [|reflexivity].
    specialize (IH c El). destruct (at_dir d (remove_all_in x) c) as [c' e].
    cbn [fst] in *. subst c'. unfold set_entry. rewrite Ey.
    now rewrite replace_entry_same.
Qed.

Section Callback.

Context (env : Env) (cmd : SyncCMD) (ctx : Context) (dataDir : FS.path).
Context (cutoff : time.Time) (nowStamp : string) (idx : list string).

(** Everything the function handed to [filepath.WalkDir] can do to the
    disk: nothing; unlink the marker of an indexed directory; remove a
    directory that is not indexed; create the marker of a directory that is
    not indexed, at the canonical place of its name. *)
Lemma purgeFn_effect path d err w w' r :
  purgeWalkFn env cmd ctx dataDir cutoff nowStamp idx path (Some d) err w
  = (w', r) ->
  w' = w \/
  (IsDir d = false /\ marker_or_recipe (Name d) = true /\
   ((indexed (basename (dirname path)) idx = true /\
     Name d = filenameRecipeDeleteMarker /\
     w' = with_disk w (fst (remove path (disk w)))) \/
    (indexed (basename (dirname path)) idx = false /\
     w' = with_disk w (fst (remove_all (dirname path) (disk w)))) \/
    (indexed (basename (dirname path)) idx = false /\
     w' = with_disk w
            (fst (create_excl
                    ((pathToRecipesDir env dataDir
                      ++ [substring 0 2 (basename (dirname path));
                          substring 0 3 (basename (dirname path));
                          basename (dirname path)])
                     ++ [filenameRecipeDeleteMarker])
                    nowStamp (disk w)))))).
Proof.
  unfold purgeWalkFn. destruct err as [e|]; [intros [= <- _]; now left|].
  destruct (negb (is_nil (ctx_Err ctx))); [intros [= <- _]; now left|].
  destruct (IsDir d) eqn:Ed; [intros [= <- _]; now left|].
  destruct (negb (Name d =? filenameRecipeJSON)
            && negb (Name d =? filenameRecipeDeleteMarker)) eqn:En;
    [intros [= <- _]; now left|].
  assert (Hn : marker_or_recipe (Name d) = true).
  { unfold marker_or_recipe.
    destruct (Name d =? filenameRecipeJSON),
             (Name d =? filenameRecipeDeleteMarker); auto. }
  destruct (indexed (basename (dirname path)) idx) eqn:Ei.
  - destruct (String.eqb_spec (Name d) filenameRecipeDeleteMarker) as [Em|_];
      [|intros [= <- _]; now left].
    unfold bind, syscall, ret.
    destruct (remove path (disk w)) as [d1 [e|]] eqn:Er;
      intros [= <- _]; right; (split; [reflexivity|split; [exact Hn|]]);
      left; (split; [reflexivity|split; [exact Em|reflexivity]]).
  - unfold bind at 1.
    destruct (PurgeAfter cmd =? 0)%Z.
    + unfold ret at 1. unfold bind, syscall, ret. cbn.
      destruct (remove_all (dirname path) (disk w)) as [d1 e1] eqn:Er.
      intros [= <- _]. right. (split; [reflexivity|split; [exact Hn|]]).
      right; left. split; reflexivity.
    + destruct (Name d =? filenameRecipeDeleteMarker) eqn:Em.
      * unfold readTimestampMarker, bind, reads, ret.
        destruct (FS.open path (disk w)) as [f|e]; [|intros [= <- _]; now left].
        destruct (file_Read f _) as [buf|e]; [|intros [= <- _]; now left].
        destruct (time.Parse _ buf) as [t|e]; [|intros [= <- _]; now left].
        destruct (time.After t cutoff); [intros [= <- _]; now left|].
        unfold syscall.
        destruct (remove_all (dirname path) (disk w)) as [d1 e1] eqn:Er.
        intros [= <- _]. right. (split; [reflexivity|split; [exact Hn|]]).
        right; left. split; reflexivity.
      * unfold ret at 1.
        destruct (Name d =? filenameRecipeJSON) eqn:Ej;
          [|intros [= <- _]; now left].
        unfold pathToRecipeDeleteMarkerFile, pathToRecipeDir, slice_to.
        unfold bind, ret, stop.
        destruct (2 <=? _)%nat; [|intros [= <- _]; now left].
        destruct (3 <=? _)%nat; [|intros [= <- _]; now left].
        unfold syscall.
        destruct (create_excl _ nowStamp (disk w)) as [d1 e1] eqn:Ec.
        intros H. right. (split; [reflexivity|split; [exact Hn|]]).
        right; right. split; [reflexivity|]. cbn [fst].
        destruct e1 as [e|]; [destruct (os_IsExist e)|];
          injection H as <- _; reflexivity.
Qed.

End Callback.


(** ** An invariant of a walk *)

Section Invariant.

Variables (I : World -> Prop) (R : path -> DirEntry -> Prop).
Variable fn : WalkDirFunc.

Hypothesis fn_keeps : forall path d err w w' r,
  I w -> R path d -> fn path (Some d) err w = (w', r) -> I w'.

Hypothesis listing_keeps : forall path d w dirs d1,
  I w -> R path d -> read_dir path (disk w) = inl dirs -> In d1 dirs ->
  R (path ++ [Name d1]) d1.

Lemma walkDir_invariant fuel : forall path d w w' r,
  I w -> R path d -> walkDir fuel path d fn w = (w', r) -> I w'.
Proof.
  induction fuel as [|fuel IH]; intros path d w w' r Hi Hr.
  - cbn [walkDir]. unfold stop. now intros [= <- _].
  - rewrite walkDir_S. unfold bind at 1.
    destruct (fn path (Some d) None w) as [w1 [err|cr]] eqn:E1;
      [|intros [= <- _]; exact (fn_keeps _ _ _ _ _ _ Hi Hr E1)].
    pose proof (fn_keeps _ _ _ _ _ _ Hi Hr E1) as Hi1.
    destruct (negb (is_nil err) || negb (IsDir d)).
    { destruct err as [[]|]; unfold ret; intros [= <- _]; exact Hi1. }
    unfold bind, reads.
    destruct (read_dir path (disk w1)) as [dirs|e] eqn:Erd.
    + assert (Hall : forall d1, In d1 dirs -> R (path ++ [Name d1]) d1)
        by (intros d1 Hin; exact (listing_keeps _ _ _ _ _ Hi1 Hr Erd Hin)).
      clear Erd E1 Hi. revert w1 Hi1.
      induction dirs as [|d1 rest IHd]; intros w1 Hi1.
      * cbn. unfold ret. now intros [= <- _].
      * rewrite walkRange_cons.
        destruct (walkDir fuel (path ++ [Name d1]) d1 fn w1)
          as [w2 [err2|cr2]] eqn:E2.
        -- pose proof (IH _ _ _ _ _ Hi1 (Hall d1 (or_introl eq_refl)) E2)
             as Hi2.
           destruct err2 as [e2|].
           ++ destruct e2; intros [= <- _]; exact Hi2.
           ++ exact (IHd (fun d0 H => Hall d0 (or_intror H)) w2 Hi2).
        -- intros [= <- _].
           exact (IH _ _ _ _ _ Hi1 (Hall d1 (or_introl eq_refl)) E2).
    + destruct (fn path (Some d) (Some e) w1) as [w2 [err2|cr2]] eqn:E2;
        pose proof (fn_keeps _ _ _ _ _ _ Hi1 Hr E2) as Hi2.
      * destruct err2 as [[]|]; unfold ret; intros [= <- _]; exact Hi2.
      * intros [= <- _]; exact Hi2.
Qed.

End Invariant.


(** ** The recipe file of an indexed recipe stays *)

Lemma marker_or_recipe_marker :
  marker_or_recipe filenameRecipeDeleteMarker = true.
Proof. reflexivity. Qed.

Lemma lookup_File_nonempty (q : path) n b :
  lookup q n = Some (File b) -> q <> [] -> exists w es, n = Dir w es.
Proof.
  destruct q as [|x q]; [congruence|]. destruct n as [b0|w es]; [discriminate|].
  eauto.
Qed.

Lemma remove_in_other x y w es :
  x <> y -> lookup_entry y (fst (remove_in x w es)) = lookup_entry y es.
Proof.
  intros Hne. unfold remove_in.
  destruct (lookup_entry x es) as [c|]; [|reflexivity].
  destruct (negb w); [reflexivity|].
  destruct c as [b|w1 [|e es1]]; cbn [fst];
    auto using lookup_entry_del_ne.
Qed.

Lemma remove_all_in_other x y w es :
  x <> y -> lookup_entry y (fst (remove_all_in x w es)) = lookup_entry y es.
Proof.
  intros Hne. unfold remove_all_in.
  destruct (lookup_entry x es) as [c|]; [|reflexivity].
  destruct (w && unlinkable (strip c)); cbn [fst];
    auto using lookup_entry_del_ne, lookup_entry_set_ne.
Qed.

Lemma create_excl_in_other x y body w es :
  x <> y ->
  lookup_entry y (fst (create_excl_in x body w es)) = lookup_entry y es.
Proof.
  intros Hne. unfold create_excl_in.
  destruct (lookup_entry x es) as [c|]; [reflexivity|].
  destruct w; cbn [fst]; auto using lookup_entry_set_ne.
Qed.

Lemma remove_all_in_clean1 y w es :
  clean_above 1 (Dir w es) = true ->
  clean_above 1 (Dir w (fst (remove_all_in y w es))) = true.
Proof.
  cbn [clean_above]. intros H. unfold remove_all_in.
  destruct (lookup_entry y es) as [c|] eqn:Ey; [|exact H].
  destruct (w && unlinkable (strip c)); cbn [fst].
  - now apply forallb_del.
  - apply forallb_set; [exact H|]. cbn [fst snd].
    rewrite forallb_forall in H.
    specialize (H _ (lookup_entry_In _ _ _ Ey)). cbn [fst snd] in H.
    destruct c as [b|w1 es1]; [exact H|reflexivity].
Qed.

Lemma basename_app (r q : path) : q <> [] -> basename (r ++ q) = basename q.
Proof.
  intros H. rewrite (path_split q H) at 1.
  now rewrite app_assoc, basename_snoc.
Qed.

Lemma dirname_length (p : path) : (List.length (dirname p) <= List.length p)%nat.
Proof.
  unfold dirname. induction p as [|x [|y p] IH]; cbn [removelast List.length] in *;
    lia.
Qed.

Section Safety.

Context (env : Env) (cmd : SyncCMD) (ctx : Context) (dataDir : FS.path).
Context (cutoff : time.Time) (nowStamp : string) (idx : list string).
Context (uid body : string).

Hypothesis Hidx : indexed uid idx = true.

Let root := pathToRecipesDir env dataDir.
Let frel : path :=
  [substring 0 2 uid; substring 0 3 uid; uid; filenameRecipeJSON].
Let fn := purgeWalkFn env cmd ctx dataDir cutoff nowStamp idx.

Lemma Inv_at_dir p f w :
  Inv root frel body w ->
  (forall w0 es x rest,
     frel = p ++ x :: rest ->
     lookup_entry x (fst (f w0 es)) = lookup_entry x es) ->
  (forall w0 es,
     clean_above (3 - List.length p) (Dir w0 es) = true ->
     clean_above (3 - List.length p) (Dir w0 (fst (f w0 es))) = true) ->
  Inv root frel body (with_disk w (fst (at_dir (root ++ p) f (disk w)))).
Proof.
  intros (n & Hroot & Hclean & Hfile) Hframe Hc.
  destruct (at_dir_app root p f _ _ Hroot) as [H1 _].
  exists (fst (at_dir p f n)). cbn [with_disk disk]. split; [exact H1|]. split.
  - apply at_dir_clean; [exact Hclean|]. intros w0 es _. apply Hc.
  - apply at_dir_frame; [exact Hfile|]. intros w0 es x rest E _.
    now apply (Hframe w0 es x rest).
Qed.

Lemma purgeFn_keeps path d err w w' r :
  Inv root frel body w -> Rel root frel path d ->
  fn path (Some d) err w = (w', r) -> Inv root frel body w'.
Proof.
  intros Hi (q & Hpath & Hq0 & Hbase & Hshard & Hnot) Hfn.
  apply purgeFn_effect in Hfn.
  destruct Hfn as [->|(Hd & Hn & Hcase)]; [exact Hi|].
  assert (Hq : q <> []) by (intros ->; rewrite Hq0 in Hd; congruence).
  assert (Hlen : (3 < List.length q)%nat).
  { destruct (Nat.leb_spec (List.length q) 3) as [Hle|]; [|lia].
    rewrite (Hshard Hle Hd) in Hn. discriminate. }
  specialize (Hbase Hq).
  rewrite (path_split q Hq), app_assoc in Hpath.
  set (q1 := dirname q) in *. set (x := basename q) in *.
  assert (Hlen1 : (3 <= List.length q1)%nat).
  { assert (List.length q = S (List.length q1)).
    { rewrite (path_split q Hq). fold q1 x. rewrite length_app. cbn. lia. }
    lia. }
  subst path. rewrite basename_snoc in Hbase. rewrite dirname_snoc in *.
  clear Hq0 Hshard.
  destruct Hcase as [(Hix & Hm & ->)|[(Hix & ->)|(Hix & ->)]].
  - (* the marker of an indexed directory is unlinked *)
    rewrite remove_snoc. apply Inv_at_dir; [exact Hi| |].
    + intros w0 es x0 rest E. apply remove_in_other.
      destruct q1 as [|a [|a' [|a'' q1]]]; cbn [List.length] in Hlen1; try lia.
      unfold frel in E. cbn [app] in E. injection E as _ _ _ E.
      destruct q1 as [|a3 q1]; [|destruct q1; discriminate].
      cbn [app] in E. injection E as <- _. rewrite Hbase, Hm. discriminate.
    + intros w0 es _.
      replace (3 - List.length q1)%nat with 0%nat by lia. reflexivity.
  - (* a directory that is not indexed is removed *)
    assert (Hq1 : q1 <> []) by (intros E; rewrite E in Hlen1; cbn in Hlen1; lia).
    rewrite (basename_app root q1 Hq1) in Hix.
    rewrite (path_split q1 Hq1), app_assoc, remove_all_snoc.
    set (q0 := dirname q1) in *. set (y := basename q1) in *.
    assert (Hlen0 : List.length q1 = S (List.length q0)).
    { rewrite (path_split q1 Hq1). fold q0 y. rewrite length_app. cbn. lia. }
    apply Inv_at_dir; [exact Hi| |].
    + intros w0 es x0 rest E.
      destruct (String.eqb_spec y x0) as [<-|Hne];
        [exfalso|now apply remove_all_in_other].
      assert (E1 : frel = q1 ++ rest).
      { rewrite (path_split q1 Hq1). fold q0 y. now rewrite <- app_assoc. }
      destruct q1 as [|a [|a' [|a'' q1]]]; cbn [List.length] in Hlen1; try lia.
      unfold frel in E1. cbn [app] in E1. injection E1 as <- <- <- E1.
      destruct q1 as [|a3 q1].
      * unfold y, basename in Hix. cbn [last] in Hix. congruence.
      * destruct q1; [|destruct rest; discriminate].
        cbn [app] in E1. injection E1 as <- _.
        apply Hnot. reflexivity.
    + intros w0 es Hc.
      destruct (3 - List.length q0)%nat as [|[|k]] eqn:Ek; [reflexivity| |lia].
      now apply remove_all_in_clean1.
  - (* the marker of a directory that is not indexed is created *)
    rewrite create_excl_snoc. apply Inv_at_dir; [exact Hi| |].
    + intros w0 es x0 rest E. apply create_excl_in_other.
      unfold frel in E. cbn [app] in E. injection E as _ _ _ <- _.
      discriminate.
    + intros w0 es _. reflexivity.
Qed.

Lemma purge_listing_keeps path d w dirs d1 :
  Inv root frel body w -> Rel root frel path d ->
  read_dir path (disk w) = inl dirs -> In d1 dirs ->
  Rel root frel (path ++ [Name d1]) d1.
Proof.
  intros (n & Hroot & Hclean & Hfile) (q & -> & _ & _ & _ & _) Hrd Hin.
  unfold read_dir in Hrd.
  destruct (lookup (root ++ q) (disk w)) as [[b0|w0 es]|] eqn:El;
    try discriminate.
  injection Hrd as <-. apply (proj1 (In_sort_entries _ _)) in Hin.
  apply (proj1 (in_map_iff _ _ _)) in Hin. destruct Hin as (e & <- & He).
  exists (q ++ [fst e]). cbn [Name IsDir]. rewrite <- app_assoc.
  split; [reflexivity|]. split; [now destruct q|]. split.
  { intros _. now rewrite app_assoc, basename_snoc. }
  split.
  - rewrite length_app. cbn [List.length]. intros Hle Hfile_e.
    rewrite lookup_app, Hroot in El.
    destruct (snd e) as [b1|w1 es1] eqn:Es; [|discriminate].
    apply (clean_above_entries q 3 n w0 es e b1); auto. lia.
  - rewrite app_assoc, dirname_snoc. intros E. rewrite E in El.
    rewrite lookup_app, Hroot, Hfile in El. discriminate.
Qed.

Lemma purge_walk_keeps fuel path d w w' r :
  Inv root frel body w -> Rel root frel path d ->
  walkDir fuel path d fn w = (w', r) -> Inv root frel body w'.
Proof.
  apply (walkDir_invariant (Inv root frel body) (Rel root frel) fn).
  - exact purgeFn_keeps.
  - exact purge_listing_keeps.
Qed.

Lemma purge_WalkDir_keeps w w' r :
  Inv root frel body w -> WalkDir root fn w = (w', r) ->
  Inv root frel body w'.
Proof.
  intros Hi. pose proof Hi as (n & Hroot & Hclean & Hfile).
  unfold WalkDir, bind, reads. rewrite Hroot.
  destruct (lookup_File_nonempty _ _ _ Hfile ltac:(discriminate))
    as (w0 & es & ->).
  cbn [is_dir].
  destruct (walkDir _ root _ fn w) as [w1 [err|cr]] eqn:Ew.
  - assert (Hi1 : Inv root frel body w1).
    { apply (purge_walk_keeps _ _ _ _ _ _ Hi) in Ew; [exact Ew|].
      exists []. rewrite app_nil_r. repeat split; try congruence.
      - cbn [IsDir]. discriminate.
      - intros E. pose proof (dirname_length root) as Hl.
        rewrite E, length_app in Hl. cbn in Hl. lia. }
    destruct err as [[]|]; unfold ret; intros [= <- _]; exact Hi1.
  - intros [= <- _].
    apply (purge_walk_keeps _ _ _ _ _ _ Hi) in Ew; [exact Ew|].
    exists []. rewrite app_nil_r. repeat split; try congruence.
    + cbn [IsDir]. discriminate.
    + intros E. pose proof (dirname_length root) as Hl.
      rewrite E, length_app in Hl. cbn in Hl. lia.
Qed.

End Safety.

End PurgeSafety.

Module PurgeMore.
Import FS FSFacts Aux ListingFacts WalkFacts PurgeFacts FSFacts2 PurgeDirectory.
Import Store FSFrame.

(** The listing of a directory of plain files, cut at the first entry with
    a given name. *)
Lemma listing_first es m :
  all_files es = true ->
  lookup_entry m es <> None ->
  exists pre d post,
    sort_entries (map dirent es) = pre ++ d :: post /\
    Name d = m /\ IsDir d = false /\
    Forall (fun p => IsDir p = false /\ Name p <> m /\
                     lookup_entry (Name p) es <> None) pre.
Proof.
  intros Ha Hm.
  destruct (lookup_entry m es) as [c|] eqn:E; [clear Hm|congruence].
  apply lookup_entry_In in E.
  destruct (sorted_first_named m (sort_entries (map dirent es))
              (sort_entries_sorted _))
    as (pre & d & post & Hl & Hd & Hpre).
  { exists (dirent (m, c)). split; [|reflexivity].
    apply In_sort_entries. now apply in_map. }
  exists pre, d, post. repeat split; auto.
  - apply (listing_files es); auto. rewrite Hl. apply in_or_app. right. now left.
  - rewrite Forall_forall in *. intros p Hp. destruct (Hpre p Hp) as [H1 H2].
    assert (Hin : In p (sort_entries (map dirent es)))
      by (rewrite Hl; apply in_or_app; now left).
    repeat split; auto.
    + now apply (listing_files es).
    + apply (proj1 (In_sort_entries _ _)) in Hin.
      apply (proj1 (in_map_iff _ _ _)) in Hin. destruct Hin as [e [<- He]].
      cbn [dirent Name]. intros Hnone.
      exact (lookup_entry_None _ _ Hnone e He eq_refl).
Qed.

(** Exclusive creation of a file that is not there, in a writable
    directory. *)
Lemma create_excl_new (dir : path) x body n es :
  lookup dir n = Some (Dir true es) ->
  lookup_entry x es = None ->
  create_excl (dir ++ [x]) body n
  = (put dir (Dir true (set_entry x (File body) es)) n, None).
Proof.
  intros Hd Hx. unfold create_excl.
  destruct (dir ++ [x]) eqn:E; [now destruct dir|]. rewrite <- E.
  rewrite dirname_snoc, basename_snoc.
  pose proof (at_dir_put dir (create_excl_in x body) _ _ _ Hd) as H1.
  destruct (at_dir_lookup dir (create_excl_in x body) _ _ _ Hd) as [_ H2].
  assert (Hr : create_excl_in x body true es
               = (set_entry x (File body) es, None)).
  { unfold create_excl_in. now rewrite Hx. }
  rewrite Hr in H1, H2.
  destruct (at_dir dir (create_excl_in x body) n) as [n1 o1].
  cbn [fst snd] in H1, H2. now subst.
Qed.

Lemma all_files_set x body es :
  all_files es = true -> all_files (set_entry x (File body) es) = true.
Proof. intros H. now apply forallb_set. Qed.

(** The parent of a directory that has been replaced. *)
Lemma lookup_put_parent (d : path) x c : forall n w pes c0,
  lookup d n = Some (Dir w pes) ->
  lookup_entry x pes = Some c0 ->
  lookup d (put (d ++ [x]) c n) = Some (Dir w (set_entry x c pes)).
Proof.
  induction d as [|y d IH]; intros n w pes c0 Hd Hx; cbn [app lookup put] in *.
  - injection Hd as ->. now rewrite Hx.
  - destruct n as [b|w0 es0]; [discriminate|].
    destruct (lookup_entry y es0) as [c1|] eqn:Ey; [|discriminate].
    cbn [lookup]. rewrite lookup_entry_set_eq. eauto.
Qed.

Section Callback.

Variables (env : Env) (cmd : SyncCMD) (dataDir : FS.path).
Variables (cutoff : time.Time) (nowStamp : string) (idx : list string).

Let fn := purgeWalkFn env cmd false dataDir cutoff nowStamp idx.

(** The recipe file of a directory that is not indexed, met before any
    marker, when the purge is not immediate: the marker is created at the
    canonical place of the directory's name. *)
Lemma purgeFn_unindexed_json path d w :
  PurgeAfter cmd <> 0%Z ->
  IsDir d = false -> Name d = filenameRecipeJSON ->
  indexed (basename (dirname path)) idx = false ->
  (3 <= String.length (basename (dirname path)))%nat ->
  fn path (Some d) None w =
  let uid := basename (dirname path) in
  let markerPath :=
    (pathToRecipesDir env dataDir
     ++ [substring 0 2 uid; substring 0 3 uid; uid])
    ++ [filenameRecipeDeleteMarker] in
  (with_disk w (fst (create_excl markerPath nowStamp (disk w))),
   Returned (match snd (create_excl markerPath nowStamp (disk w)) with
             | Some e => if os_IsExist e then None else Some e
             | None => Some SkipDir
             end)).
Proof.
  intros H0 H H1 H2 H3. unfold fn, purgeWalkFn. cbn [ctx_Err is_nil negb].
  rewrite H, H1, H2, String.eqb_refl, json_is_not_marker.
  cbn [negb andb]. apply Z.eqb_neq in H0. rewrite H0.
  unfold bind at 1. unfold ret at 1.
  unfold pathToRecipeDeleteMarkerFile, pathToRecipeDir, slice_to.
  assert ((2 <=? String.length (basename (dirname path)))%nat = true) as ->
    by (apply Nat.leb_le; lia).
  assert ((3 <=? String.length (basename (dirname path)))%nat = true) as ->
    by (apply Nat.leb_le; lia).
  unfold bind, ret, syscall, with_disk. cbv zeta.
  destruct (create_excl _ nowStamp (disk w)) as [d1 [e|]]; cbn [fst snd];
    [destruct (os_IsExist e)|]; reflexivity.
Qed.

(** A marker that cannot be read, when the purge is not immediate: the
    error is handed back. *)
Lemma purgeFn_unreadable_marker path d w e :
  PurgeAfter cmd <> 0%Z ->
  IsDir d = false -> Name d = filenameRecipeDeleteMarker ->
  indexed (basename (dirname path)) idx = false ->
  readTimestampMarker path time.RFC3339Nano w = (w, Returned (inr e)) ->
  fn path (Some d) None w = (w, Returned (Some e)).
Proof.
  intros H0 H H1 H2 Hr. unfold fn, purgeWalkFn. cbn [ctx_Err is_nil negb].
  rewrite H, H1, H2, String.eqb_refl, marker_is_not_json.
  cbn [negb andb]. apply Z.eqb_neq in H0. rewrite H0.
  unfold bind at 1. unfold bind at 1. rewrite Hr. reflexivity.
Qed.

End Callback.

Section Directory.

Variables (env : Env) (cmd : SyncCMD) (dataDir : FS.path).
Variables (cutoff : time.Time) (nowStamp : string) (idx : list string).

Let fn := purgeWalkFn env cmd false dataDir cutoff nowStamp idx.

(** The walk in a directory that is not indexed and holds a marker. *)
Lemma purge_marked_walk (w : World) (dir : path) wd es fuel t :
  PurgeAfter cmd <> 0%Z ->
  indexed (basename dir) idx = false ->
  lookup dir (disk w) = Some (Dir wd es) ->
  all_files es = true ->
  lookup_entry filenameRecipeDeleteMarker es <> None ->
  readTimestampMarker (dir ++ [filenameRecipeDeleteMarker]) time.RFC3339Nano w
    = (w, Returned (inl t)) ->
  walkDir (S (S fuel)) dir {| Name := basename dir; IsDir := true |} fn w
  = if time.After t cutoff then (w, Returned None)
    else (with_disk w (fst (remove_all dir (disk w))), Returned None).
Proof.
  intros Hpos Hidx Hdir Hfiles Hmark Hread.
  assert (Hroot : fn dir (Some {| Name := basename dir; IsDir := true |})
                     None w = (w, Returned None))
    by (apply purgeFn_dir; reflexivity).
  rewrite (walkDir_dir _ _ _ _ _ wd es Hroot eq_refl Hdir).
  destruct (listing_cut es Hfiles Hmark)
    as (pre & d & post & -> & Hd & Hf & Hpre).
  rewrite walkRange_inert_prefix.
  2:{ eapply Forall_impl; [|exact Hpre]. intros p (Hp1 & Hp2 & Hp3).
      split; [exact Hp1|]. now apply purgeFn_other. }
  pose proof (purgeFn_unindexed_marker env cmd dataDir cutoff nowStamp idx
                (dir ++ [Name d]) d w t) as Hfn.
  rewrite Hd, dirname_snoc in Hfn.
  specialize (Hfn Hpos Hf eq_refl Hidx Hread).
  destruct (time.After t cutoff);
    eapply walkRange_skip; eauto; rewrite Hd; exact Hfn.
Qed.

(** The walk in a directory that is not indexed and whose marker cannot be
    read. *)
Lemma purge_unreadable_walk (w : World) (dir : path) wd es fuel e :
  PurgeAfter cmd <> 0%Z ->
  indexed (basename dir) idx = false ->
  lookup dir (disk w) = Some (Dir wd es) ->
  all_files es = true ->
  lookup_entry filenameRecipeDeleteMarker es <> None ->
  readTimestampMarker (dir ++ [filenameRecipeDeleteMarker]) time.RFC3339Nano w
    = (w, Returned (inr e)) ->
  e <> SkipDir ->
  walkDir (S (S fuel)) dir {| Name := basename dir; IsDir := true |} fn w
  = (w, Returned (Some e)).
Proof.
  intros Hpos Hidx Hdir Hfiles Hmark Hread Hskip.
  assert (Hroot : fn dir (Some {| Name := basename dir; IsDir := true |})
                     None w = (w, Returned None))
    by (apply purgeFn_dir; reflexivity).
  rewrite (walkDir_dir _ _ _ _ _ wd es Hroot eq_refl Hdir).
  destruct (listing_cut es Hfiles Hmark)
    as (pre & d & post & -> & Hd & Hf & Hpre).
  rewrite walkRange_inert_prefix.
  2:{ eapply Forall_impl; [|exact Hpre]. intros p (Hp1 & Hp2 & Hp3).
      split; [exact Hp1|]. now apply purgeFn_other. }
  eapply walkRange_fail; [exact Hf|exact Hskip|].
  apply purgeFn_unreadable_marker; auto.
  - now rewrite dirname_snoc.
  - now rewrite Hd.
Qed.

(** The walk in a directory that is not indexed and holds a recipe file and
    no marker: the marker is made. *)
Lemma purge_mark_walk (w : World) (uid : string) es fuel :
  let dir := pathToRecipesDir env dataDir
             ++ [substring 0 2 uid; substring 0 3 uid; uid] in
  PurgeAfter cmd <> 0%Z ->
  (3 <= String.length uid)%nat ->
  indexed uid idx = false ->
  lookup dir (disk w) = Some (Dir true es) ->
  all_files es = true ->
  lookup_entry filenameRecipeJSON es <> None ->
  lookup_entry filenameRecipeDeleteMarker es = None ->
  walkDir (S (S fuel)) dir {| Name := basename dir; IsDir := true |} fn w
  = (with_disk w
       (put dir
          (Dir true (set_entry filenameRecipeDeleteMarker (File nowStamp) es))
          (disk w)),
     Returned None).
Proof.
  intros dir Hpos Hlen Hidx Hdir Hfiles Hjson Hmark.
  assert (Hbase : basename dir = uid).
  { unfold dir.
    change [substring 0 2 uid; substring 0 3 uid; uid]
      with ([substring 0 2 uid; substring 0 3 uid] ++ [uid]).
    now rewrite app_assoc, basename_snoc. }
  assert (Hroot : fn dir (Some {| Name := basename dir; IsDir := true |})
                     None w = (w, Returned None))
    by (apply purgeFn_dir; reflexivity).
  rewrite (walkDir_dir _ _ _ _ _ true es Hroot eq_refl Hdir).
  destruct (listing_first es _ Hfiles Hjson)
    as (pre & d & post & -> & Hd & Hf & Hpre).
  rewrite walkRange_inert_prefix.
  2:{ eapply Forall_impl; [|exact Hpre]. intros p (Hp1 & Hp2 & Hp3).
      split; [exact Hp1|]. apply purgeFn_other; auto.
      intros E. rewrite E in Hp3. contradiction. }
  eapply walkRange_skip; [exact Hf|].
  unfold fn. rewrite purgeFn_unindexed_json; auto;
    rewrite ?dirname_snoc, ?Hbase; auto.
  cbv zeta. fold dir.
  now rewrite (create_excl_new dir _ nowStamp (disk w) es Hdir Hmark).
Qed.

(** The walk in a directory that is not indexed, when the purge is
    immediate. *)
Lemma purge_immediate_walk (w : World) (dir : path) wd es fuel :
  PurgeAfter cmd = 0%Z ->
  indexed (basename dir) idx = false ->
  lookup dir (disk w) = Some (Dir wd es) ->
  all_files es = true ->
  lookup_entry filenameRecipeJSON es <> None \/
  lookup_entry filenameRecipeDeleteMarker es <> None ->
  walkDir (S (S fuel)) dir {| Name := basename dir; IsDir := true |} fn w
  = (with_disk w (fst (remove_all dir (disk w))), Returned None).
Proof.
  intros Hzero Hidx Hdir Hfiles Hsome.
  assert (Hroot : fn dir (Some {| Name := basename dir; IsDir := true |})
                     None w = (w, Returned None))
    by (apply purgeFn_dir; reflexivity).
  rewrite (walkDir_dir _ _ _ _ _ wd es Hroot eq_refl Hdir).
  destruct (lookup_entry filenameRecipeDeleteMarker es) as [c|] eqn:Em.
  - destruct (listing_cut es Hfiles) as (pre & d & post & -> & Hd & Hf & Hpre);
      [congruence|].
    rewrite walkRange_inert_prefix.
    2:{ eapply Forall_impl; [|exact Hpre]. intros p (Hp1 & Hp2 & Hp3).
        split; [exact Hp1|]. now apply purgeFn_other. }
    eapply walkRange_skip; [exact Hf|].
    unfold fn. rewrite purgeFn_immediate; auto;
      rewrite ?dirname_snoc; auto.
  - destruct Hsome as [Hjson|Hm]; [|congruence].
    destruct (listing_first es _ Hfiles Hjson)
      as (pre & d & post & -> & Hd & Hf & Hpre).
    rewrite walkRange_inert_prefix.
    2:{ eapply Forall_impl; [|exact Hpre]. intros p (Hp1 & Hp2 & Hp3).
        split; [exact Hp1|]. apply purgeFn_other; auto.
        intros E. rewrite E in Hp3. contradiction. }
    eapply walkRange_skip; [exact Hf|].
    unfold fn. rewrite purgeFn_immediate; auto;
      rewrite ?dirname_snoc; auto.
Qed.

End Directory.

End PurgeMore.

Module PruneMore.
Import FS FSFacts Aux ListingFacts FSFacts2.
Import PruneFacts PruneCorrect PruneCorrect2 PrunePaths.

(** What pruning leaves of a directory that holds a file still holds it. *)
Lemma pruned_not_fileless n : fileless n = false -> fileless (pruned n) = false.
Proof.
  induction n as [b|w es IH] using node_ind2; [reflexivity|].
  intros Hf. rewrite (pruned_Dir _ _ Hf). cbn [fileless] in *.
  induction es as [|[x c] es IHes]; [discriminate|].
  inversion IH as [|? ? Hc Hrest]; subst. cbn [snd] in Hc.
  cbn [forallb snd prune_entries] in *.
  destruct (fileless c) eqn:Ec.
  - cbn [andb] in Hf. now apply IHes.
  - cbn [forallb snd]. now rewrite (Hc eq_refl).
Qed.

Lemma prune_entries_idem es :
  Forall (fun e => pruned (pruned (snd e)) = pruned (snd e)) es ->
  prune_entries (prune_entries es) = prune_entries es.
Proof.
  induction es as [|[x c] es IHes]; [reflexivity|].
  intros H. inversion H as [|? ? Hc Hrest]; subst. cbn [snd] in Hc.
  cbn [prune_entries]. destruct (fileless c) eqn:Ec; [now apply IHes|].
  cbn [prune_entries]. rewrite (pruned_not_fileless _ Ec), Hc.
  now rewrite IHes.
Qed.

(** Pruning what has been pruned changes nothing. *)
Lemma pruned_idem n : pruned (pruned n) = pruned n.
Proof.
  induction n as [b|w es IH] using node_ind2; [reflexivity|].
  destruct (fileless (Dir w es)) eqn:Ef.
  - now rewrite !(pruned_fileless _ Ef).
  - rewrite (pruned_Dir _ _ Ef).
    assert (Ef' : fileless (Dir w (prune_entries es)) = false).
    { rewrite <- (pruned_Dir _ _ Ef). now apply pruned_not_fileless. }
    rewrite (pruned_Dir _ _ Ef'). now rewrite prune_entries_idem.
Qed.

Lemma lookup_entry_prune_inv x es c' :
  lookup_entry x (prune_entries es) = Some c' ->
  exists c, In (x, c) es /\ fileless c = false /\ c' = pruned c.
Proof.
  induction es as [|[y c] es IH]; [discriminate|].
  cbn [prune_entries]. destruct (fileless c) eqn:Ec.
  - intros H. destruct (IH H) as (c0 & Hin & Hf & ->).
    exists c0. repeat split; auto. now right.
  - cbn [lookup_entry]. destruct (String.eqb_spec y x) as [->|Hne].
    + intros [= <-]. exists c. repeat split; auto. now left.
    + intros H. destruct (IH H) as (c0 & Hin & Hf & ->).
      exists c0. repeat split; auto. now right.
Qed.

(** Every directory inside what pruning leaves holds a file. *)
Lemma lookup_pruned_holds (p : path) : forall n d,
  fileless n = false -> p <> [] ->
  lookup p (pruned n) = Some d -> fileless d = false.
Proof.
  induction p as [|x p IH]; intros n d Hf Hp Hl; [congruence|].
  destruct n as [b|w es]; [discriminate|].
  rewrite (pruned_Dir _ _ Hf) in Hl. cbn [lookup] in Hl.
  destruct (lookup_entry x (prune_entries es)) as [c'|] eqn:Ex;
    [|discriminate].
  destruct (lookup_entry_prune_inv _ _ _ Ex) as (c & _ & Hc & ->).
  destruct p as [|y p].
  - cbn [lookup] in Hl. injection Hl as <-. now apply pruned_not_fileless.
  - apply (IH c d Hc); [discriminate|exact Hl].
Qed.

Lemma lookup_prune_entries_holds (p : path) w es d :
  p <> [] ->
  lookup p (Dir w (prune_entries es)) = Some d -> fileless d = false.
Proof.
  intros Hp Hl. destruct p as [|x p]; [congruence|]. cbn [lookup] in Hl.
  destruct (lookup_entry x (prune_entries es)) as [c'|] eqn:Ex;
    [|discriminate].
  destruct (lookup_entry_prune_inv _ _ _ Ex) as (c & _ & Hc & ->).
  destruct p as [|y p].
  - cbn [lookup] in Hl. injection Hl as <-. now apply pruned_not_fileless.
  - apply (lookup_pruned_holds (y :: p) c d Hc); [discriminate|exact Hl].
Qed.

Lemma NoDup_prune_names es :
  NoDup (map fst es) -> NoDup (map fst (prune_entries es)).
Proof.
  induction es as [|[x c] es IH]; [auto|]. cbn [map fst prune_entries].
  intros H. inversion H as [|? ? Hx Hrest]; subst.
  destruct (fileless c); [auto|]. cbn [map fst]. constructor; [|auto].
  intros Hin. apply Hx. now apply prune_entries_names.
Qed.

Lemma unique_names_pruned n : unique_names n = true -> unique_names (pruned n) = true.
Proof.
  induction n as [b|w es IH] using node_ind2; [auto|].
  intros Hu. destruct (fileless (Dir w es)) eqn:Ef;
    [now rewrite (pruned_fileless _ Ef)|].
  rewrite (pruned_Dir _ _ Ef). cbn [unique_names] in *.
  apply andb_prop in Hu as [Hd Hc]. apply andb_true_intro. split.
  - apply distinct_NoDup. apply NoDup_prune_names. now apply distinct_NoDup.
  - clear Hd Ef. induction es as [|[x c] es IHes]; [reflexivity|].
    inversion IH as [|? ? Hc1 Hrest]; subst. cbn [snd] in Hc1.
    cbn [forallb snd] in Hc. apply andb_prop in Hc as [Hc2 Hc3].
    cbn [prune_entries]. destruct (fileless c); [auto|].
    cbn [forallb snd]. rewrite (Hc1 Hc2). cbn [andb]. auto.
Qed.

Lemma unique_names_prune_entries w es :
  unique_names (Dir w es) = true ->
  unique_names (Dir w (prune_entries es)) = true.
Proof.
  cbn [unique_names]. intros Hu. apply andb_prop in Hu as [Hd Hc].
  apply andb_true_intro. split.
  - apply distinct_NoDup. apply NoDup_prune_names. now apply distinct_NoDup.
  - clear Hd. induction es as [|[x c] es IHes]; [reflexivity|].
    cbn [forallb snd] in Hc. apply andb_prop in Hc as [Hc2 Hc3].
    cbn [prune_entries]. destruct (fileless c); [auto|].
    cbn [forallb snd]. rewrite (unique_names_pruned _ Hc2). cbn [andb]. auto.
Qed.

Lemma all_writable_pruned n : all_writable n = true -> all_writable (pruned n) = true.
Proof.
  induction n as [b|w es IH] using node_ind2; [auto|].
  intros Hu. destruct (fileless (Dir w es)) eqn:Ef;
    [now rewrite (pruned_fileless _ Ef)|].
  rewrite (pruned_Dir _ _ Ef). cbn [all_writable] in *.
  apply andb_prop in Hu as [-> Hc]. cbn [andb].
  clear Ef. induction es as [|[x c] es IHes]; [reflexivity|].
  inversion IH as [|? ? Hc1 Hrest]; subst. cbn [snd] in Hc1.
  cbn [forallb snd] in Hc. apply andb_prop in Hc as [Hc2 Hc3].
  cbn [prune_entries]. destruct (fileless c); [auto|].
  cbn [forallb snd]. rewrite (Hc1 Hc2). cbn [andb]. auto.
Qed.

Lemma all_writable_prune_entries w es :
  all_writable (Dir w es) = true ->
  all_writable (Dir w (prune_entries es)) = true.
Proof.
  cbn [all_writable]. intros Hu. apply andb_prop in Hu as [-> Hc].
  cbn [andb]. induction es as [|[x c] es IHes]; [reflexivity|].
  cbn [forallb snd] in Hc. apply andb_prop in Hc as [Hc2 Hc3].
  cbn [prune_entries]. destruct (fileless c); [auto|].
  cbn [forallb snd]. rewrite (all_writable_pruned _ Hc2). cbn [andb]. auto.
Qed.

Lemma prune_entries_twice es :
  prune_entries (prune_entries es) = prune_entries es.
Proof.
  apply prune_entries_idem. rewrite Forall_forall. intros e _.
  apply pruned_idem.
Qed.

(** ** A cancelled context *)

Lemma pruneDir_cancelled dir n :
  pruneDir true dir n = (n, (false, Some ErrCanceled)).
Proof. destruct n; reflexivity. Qed.

Lemma In_lookup_entry x c (es : entries) :
  NoDup (map fst es) -> In (x, c) es -> lookup_entry x es = Some c.
Proof.
  intros Hnd Hin. apply in_split in Hin as (pre & rest & ->).
  apply lookup_entry_mid. rewrite map_app in Hnd. cbn [map fst] in Hnd.
  apply NoDup_remove_2 in Hnd. intros H. apply Hnd. apply in_or_app. now left.
Qed.

Lemma pruneRootRange_cancelled root w todo : forall cur,
  (forall x c, In (x, c) todo -> lookup_entry x cur = Some c) ->
  pruneRootRange true root w todo cur
  = (cur, if existsb (fun e => is_dir (snd e)) todo
          then Some ErrCanceled else None).
Proof.
  induction todo as [|[x c] todo IH]; intros cur Hcur; [reflexivity|].
  cbn [pruneRootRange existsb snd]. destruct (is_dir c) eqn:Ec; cbn [negb orb].
  - rewrite pruneDir_cancelled. unfold set_entry.
    rewrite (Hcur x c (or_introl eq_refl)).
    now rewrite (replace_entry_same _ _ _ (Hcur x c (or_introl eq_refl))).
  - apply IH. intros y c' Hin. apply Hcur. now right.
Qed.

End PruneMore.

Module WalkMore.
Import FS FSFacts Aux ListingFacts WalkFacts PurgeFacts FSFacts2.
Import PruneFacts PruneMore.

Lemma height_entry (es : entries) e :
  In e es ->
  (height (snd e) <= fold_right (fun e h => Nat.max (height (snd e)) h) 0 es)%nat.
Proof.
  induction es as [|e0 es IH]; [easy|]. cbn [fold_right].
  intros [->|Hin]; [lia|]. specialize (IH Hin). lia.
Qed.

(** A subtree is no higher than the tree. *)
Lemma lookup_height (p : path) : forall n c,
  lookup p n = Some c -> (height c <= height n)%nat.
Proof.
  induction p as [|x p IH]; intros n c H; cbn [lookup] in H.
  - injection H as <-. lia.
  - destruct n as [b|w es]; [discriminate|].
    destruct (lookup_entry x es) as [c0|] eqn:Ex; [|discriminate].
    specialize (IH _ _ H).
    pose proof (height_entry es _ (lookup_entry_In _ _ _ Ex)) as Hh.
    cbn [snd height] in *. lia.
Qed.

Section Inert.

Variable fn : WalkDirFunc.
Hypothesis fn_inert : forall path d w, fn path (Some d) None w = (w, Returned None).

Lemma walkRange_all fuel path l w :
  (forall d1, In d1 l ->
     walkDir fuel (path ++ [Name d1]) d1 fn w = (w, Returned None)) ->
  walkRange fuel path fn l w = (w, Returned None).
Proof.
  induction l as [|d1 rest IH]; intros H; [reflexivity|].
  rewrite walkRange_cons, (H d1 (or_introl eq_refl)).
  apply IH. intros d2 Hin. apply H. now right.
Qed.

(** A walk whose function does nothing goes through the whole tree and
    leaves the world as it was. *)
Lemma walkDir_inert fuel : forall path d w n,
  lookup path (disk w) = Some n ->
  IsDir d = is_dir n ->
  unique_names n = true ->
  (height n < fuel)%nat ->
  walkDir fuel path d fn w = (w, Returned None).
Proof.
  induction fuel as [|fuel IH]; intros path d w n Hl Hd Hu Hh; [lia|].
  destruct n as [b|wd es].
  - rewrite walkDir_file by exact Hd. apply fn_inert.
  - rewrite (walkDir_dir _ _ _ _ _ wd es (fn_inert _ _ _) Hd Hl).
    apply walkRange_all. intros d1 Hin.
    apply (proj1 (In_sort_entries _ _)) in Hin.
    apply (proj1 (in_map_iff _ _ _)) in Hin. destruct Hin as ([x c] & <- & He).
    cbn [unique_names] in Hu. apply andb_prop in Hu as [Hnd Hc].
    apply distinct_NoDup in Hnd.
    pose proof (In_lookup_entry _ _ _ Hnd He) as Hx.
    rewrite forallb_forall in Hc. specialize (Hc _ He). cbn [snd] in Hc.
    apply (IH _ _ _ c); auto.
    + cbn [dirent Name fst]. now rewrite (lookup_child _ _ _ _ _ Hl).
    + pose proof (height_entry es _ He) as Hhe. cbn [snd height] in *. lia.
Qed.

End Inert.

End WalkMore.

Module SaveMore.
Import FS FSFacts Aux FSFacts2 SyncFacts UpsertFacts FrameFacts Store.

(** [os.MkdirAll] of the directory of [p] followed by the write to [p]. *)
Lemma saveAsJSON_unfold body (p : path) w :
  saveAsJSON body p w =
  match mkdir_all (dirname p) (disk w) with
  | (d1, Some e) => (with_disk w d1, Returned (Some e))
  | (d1, None) =>
      (with_disk w (fst (write_file p body d1)),
       Returned (snd (write_file p body d1)))
  end.
Proof.
  unfold saveAsJSON, bind, syscall, ret, with_disk.
  destruct (mkdir_all (dirname p) (disk w)) as [d1 [e|]]; [reflexivity|].
  cbn [disk requests]. now destruct (write_file p body d1).
Qed.

Lemma write_file_single x body w es :
  snd (write_file [x] body (Dir w es)) = snd (create_in x body w es).
Proof.
  unfold write_file. change (dirname [x]) with (@nil string).
  change (basename [x]) with x. cbn [at_dir].
  now destruct (create_in x body w es).
Qed.

Lemma write_file_cons x y (p : path) body w es c :
  lookup_entry x es = Some c ->
  snd (write_file (x :: y :: p) body (Dir w es))
  = snd (write_file (y :: p) body c).
Proof.
  intros H. unfold write_file.
  change (dirname (x :: y :: p)) with (x :: dirname (y :: p)).
  change (basename (x :: y :: p)) with (basename (y :: p)).
  cbn [at_dir]. rewrite H.
  now destruct (at_dir (dirname (y :: p)) _ c).
Qed.

Lemma mkdir_all_cons_ok x (dp : path) w es c d1 :
  lookup_entry x es = Some c ->
  mkdir_all (x :: dp) (Dir w es) = (d1, None) ->
  exists c', mkdir_all dp c = (c', None) /\ d1 = Dir w (set_entry x c' es).
Proof.
  intros H. cbn [mkdir_all]. rewrite H.
  destruct (mkdir_all dp c) as [c' err]. intros [= <- ->]. eauto.
Qed.

(** The two steps succeed exactly on the paths [writable_to] accepts. *)
Lemma save_steps_iff body (p : path) : forall n,
  (exists d1, mkdir_all (dirname p) n = (d1, None) /\
              snd (write_file p body d1) = None)
  <-> writable_to p n = true.
Proof.
  induction p as [|x p IH]; intros n.
  - cbn [writable_to]. split; [|discriminate].
    intros (d1 & Hm & Hw). cbn in Hw. discriminate.
  - destruct p as [|y p].
    + (* the file goes into [n] itself *)
      change (dirname [x]) with (@nil string). cbn [mkdir_all].
      destruct n as [b|w es]; cbn [writable_to].
      * split; [|discriminate]. intros (d1 & Hm & _). discriminate.
      * assert (E : snd (create_in x body w es) = None <->
                    match lookup_entry x es with
                    | Some c => negb (is_dir c)
                    | None => w
                    end = true).
        { unfold create_in.
          destruct (lookup_entry x es) as [[b|w' es']|]; cbn [is_dir negb snd];
            [tauto|split; discriminate|].
          destruct w; cbn [snd]; [tauto|split; discriminate]. }
        rewrite <- E. split.
        -- intros (d1 & [= <-] & Hw). now rewrite write_file_single in Hw.
        -- intros Hc. exists (Dir w es). split; [reflexivity|].
           now rewrite write_file_single.
    + change (dirname (x :: y :: p)) with (x :: dirname (y :: p)).
      destruct n as [b|w es]; cbn [writable_to].
      * split; [|discriminate]. intros (d1 & Hm & _). discriminate.
      * destruct (lookup_entry x es) as [c|] eqn:Ex.
        -- rewrite <- (IH c). split.
           ++ intros (d1 & Hm & Hw).
              destruct (mkdir_all_cons_ok _ _ _ _ _ _ Ex Hm) as (c' & Hc & ->).
              exists c'. split; [exact Hc|].
              rewrite <- Hw. symmetry. apply write_file_cons.
              apply lookup_entry_set_eq.
           ++ intros (c' & Hc & Hw).
              exists (Dir w (set_entry x c' es)). split.
              ** cbn [mkdir_all]. now rewrite Ex, Hc.
              ** rewrite <- Hw. apply write_file_cons.
                 apply lookup_entry_set_eq.
        -- destruct w.
           ++ split; [reflexivity|]. intros _.
              destruct (proj2 (IH (Dir true [])) eq_refl) as (c' & Hc & Hw).
              exists (Dir true (set_entry x c' es)). split.
              ** cbn [mkdir_all]. now rewrite Ex, Hc.
              ** rewrite <- Hw. apply write_file_cons.
                 apply lookup_entry_set_eq.
           ++ split; [|discriminate]. intros (d1 & Hm & _).
              cbn [mkdir_all] in Hm. rewrite Ex in Hm. discriminate.
Qed.

(** [saveAsJSON] returns nil exactly when the path can be written to. *)
Lemma saveAsJSON_ok_iff body (p : path) w :
  snd (saveAsJSON body p w) = Returned None
  <-> writable_to p (disk w) = true.
Proof.
  rewrite <- (save_steps_iff body p (disk w)), saveAsJSON_unfold.
  destruct (mkdir_all (dirname p) (disk w)) as [d1 [e|]] eqn:Em; cbn [snd].
  - split; [discriminate|]. intros (d & H & _). discriminate.
  - split.
    + intros [= H]. eauto.
    + intros (d & [= <-] & H). now rewrite H.
Qed.

(** A file that is there can be written to. *)
Lemma writable_to_file (p : path) : forall n b,
  p <> [] -> lookup p n = Some (File b) -> writable_to p n = true.
Proof.
  induction p as [|x p IH]; intros n b Hp H; [congruence|].
  destruct n as [b0|w es]; [discriminate|]. cbn [lookup writable_to] in *.
  destruct (lookup_entry x es) as [c|]; [|discriminate].
  destruct p as [|y p].
  - cbn in H. injection H as ->. reflexivity.
  - apply (IH c b); [discriminate|exact H].
Qed.

(** What [saveAsJSON] does to the files of the disk: on success the file at
    the path holds the body and every other file is as it was; on failure
    every file is as it was. *)
Lemma saveAsJSON_files body (p : path) w w' err :
  saveAsJSON body p w = (w', Returned err) ->
  requests w' = requests w /\
  (forall q b, q <> p -> lookup q (disk w) = Some (File b) ->
               lookup q (disk w') = Some (File b)) /\
  (err = None -> lookup p (disk w') = Some (File body)) /\
  (err <> None -> forall q b, lookup q (disk w) = Some (File b) ->
                              lookup q (disk w') = Some (File b)).
Proof.
  intros Hs.
  destruct (saveAsJSON_returns body p w) as (d & err0 & Hs' & Hok).
  rewrite Hs in Hs'. injection Hs' as -> <-. cbn [with_disk disk requests].
  assert (Hframe : forall q b, q <> p -> lookup q (disk w) = Some (File b) ->
                               lookup q d = Some (File b)).
  { intros q b Hne Hq.
    exact (@saveAsJSON_frame FlatJSON.codec body p w d err q b Hs Hne Hq). }
  split; [reflexivity|]. split; [exact Hframe|]. split; [exact Hok|].
  intros Herr q b Hq.
  destruct (list_eq_dec string_dec q p) as [->|Hne]; [|now apply Hframe].
  destruct p as [|x p].
  - (* the root is a file: nothing below it can be made *)
    cbn [lookup] in *. injection Hq as Hq. rewrite saveAsJSON_unfold in Hs.
    change (dirname []) with (@nil string) in Hs. rewrite Hq in Hs.
    cbn in Hs. injection Hs as <- _. reflexivity.
  - exfalso. apply Herr.
    assert (Hp : x :: p <> []) by discriminate.
    pose proof (proj2 (saveAsJSON_ok_iff body (x :: p) w)
                  (writable_to_file _ _ _ Hp Hq)) as H.
    rewrite Hs in H. cbn [snd] in H. now injection H.
Qed.

End SaveMore.

Module SyncMore.
Import FS FSFacts Aux FSFacts2 SyncFacts UpsertFacts FrameFacts PassFacts RunFacts.
Import Store SaveMore.

Section Pass.

Context {json : JSON}.
Variables (env : Env) (cli : CLI) (c : paprika.Client.t).

#[local] Abbreviation uid_of := paprika.RecipeItem.UID.
#[local] Abbreviation hash_of := paprika.RecipeItem.Hash.

(** A uid too short for [uid[:3]] makes the path functions panic before
    anything is read, fetched or written. *)
Lemma UpsertRecipe_short ref w :
  (String.length (uid_of ref) < 3)%nat ->
  UpsertRecipe env cli c ref w = (w, Crashed Panic).
Proof.
  intros H. unfold UpsertRecipe. unfold bind at 1.
  now rewrite (pathToRecipeJSONFile_panics env _ _ w H).
Qed.

Lemma recipeFile_basename u :
  basename (recipeFile env (DataDir cli) u) = filenameRecipeJSON.
Proof. unfold recipeFile. now rewrite app_assoc, basename_snoc. Qed.

(** A reference processed without error is in the store afterwards. *)
Lemma UpsertRecipe_backs_up w w' saved ref :
  UpsertRecipe env cli c ref w = (w', Returned (saved, None)) ->
  backed_up env cli c w' ref.
Proof.
  intros Hu.
  pose proof (UpsertRecipe_returns_length _ _ _ _ _ _ _ Hu) as Hlen.
  rewrite (UpsertRecipe_cases env cli c ref w Hlen) in Hu. cbv zeta in Hu.
  destruct (fst (decision _ _ (disk w))) eqn:Edec; cbn [negb] in Hu.
  - destruct (paprika.Client.Recipe c (uid_of ref)) as [recipe [e|]] eqn:Ef;
      [discriminate|].
    destruct (negb (paprika.Recipe.UID recipe =? uid_of ref)); [discriminate|].
    destruct (saveAsJSON_returns (encode_recipe recipe)
                (recipeFile env (DataDir cli) (uid_of ref))
                (with_request w (GET_recipe (uid_of ref))))
      as (d & err & Hs & Hl).
    rewrite Hs in Hu. destruct err as [e|]; [discriminate|].
    injection Hu as <- _. split; [exact Hlen|].
    exists (encode_recipe recipe). cbn [with_disk disk]. split; [auto|].
    left. now rewrite Ef.
  - injection Hu as <- _.
    destruct (decision_matches env cli w ref Hlen Edec)
      as (_ & body & item & H1 & H2 & H3).
    split; [exact Hlen|]. exists body. split; [exact H1|]. right. eauto.
Qed.

(** Processing one reference without error keeps another in the store. *)
Lemma UpsertRecipe_keeps_backup w w' saved ref ref' :
  backed_up env cli c w ref ->
  UpsertRecipe env cli c ref' w = (w', Returned (saved, None)) ->
  backed_up env cli c w' ref.
Proof.
  intros Hb Hu.
  pose proof (UpsertRecipe_returns_length _ _ _ _ _ _ _ Hu) as Hlen.
  pose proof Hu as Hu0.
  rewrite (UpsertRecipe_cases env cli c ref' w Hlen) in Hu. cbv zeta in Hu.
  destruct (fst (decision _ _ (disk w))); cbn [negb] in Hu;
    [|injection Hu as <- _; exact Hb].
  destruct (paprika.Client.Recipe c (uid_of ref')) as [recipe [e|]] eqn:Ef;
    [discriminate|].
  destruct (negb (paprika.Recipe.UID recipe =? uid_of ref')); [discriminate|].
  destruct (saveAsJSON_returns (encode_recipe recipe)
              (recipeFile env (DataDir cli) (uid_of ref'))
              (with_request w (GET_recipe (uid_of ref'))))
    as (d & err & Hs & Hl).
  rewrite Hs in Hu. destruct err as [e|]; [discriminate|].
  injection Hu as <- _.
  destruct Hb as (Hl3 & body & H1 & H2). split; [exact Hl3|].
  destruct (string_dec (uid_of ref') (uid_of ref)) as [E|Hne].
  - exists (encode_recipe recipe). cbn [with_disk disk]. rewrite <- E.
    split; [auto|]. left. now rewrite Ef.
  - exists body. split; [|exact H2]. cbn [with_disk disk].
    apply (saveAsJSON_frame _ _ _ _ _ _ _ Hs); [|exact H1].
    intros Heq. apply Hne. symmetry. now apply (recipeFile_inj env cli).
Qed.

Lemma drain_no_error queue ref rest st w w' st' :
  queue = ref :: rest ->
  drain env cli c queue st w = (w', Returned st') -> fst st' = false ->
  exists w1 st1 saved,
    UpsertRecipe env cli c ref w = (w1, Returned (saved, None)) /\
    drain env cli c rest st1 w1 = (w', Returned st').
Proof.
  intros -> Hd Hflag. rewrite drain_cons in Hd.
  destruct (workItem env cli c ref st w) as [w1 [st1|cr]] eqn:Ew;
    [|discriminate].
  destruct (workItem_cases _ _ _ _ _ _ _ _ Ew) as (saved & err & Hu & Hst).
  assert (Hst1 : fst st1 = false).
  { destruct (fst st1) eqn:E; [|reflexivity].
    rewrite (drain_flag_stays _ _ _ _ _ _ _ _ Hd E) in Hflag. discriminate. }
  rewrite Hst1 in Hst. symmetry in Hst. apply orb_false_elim in Hst.
  destruct Hst as [_ Herr]. destruct err; [discriminate|].
  exists w1, st1, saved. split; [exact Hu|exact Hd].
Qed.

Lemma drain_keeps_backup queue : forall st w w' st' ref,
  drain env cli c queue st w = (w', Returned st') -> fst st' = false ->
  backed_up env cli c w ref -> backed_up env cli c w' ref.
Proof.
  induction queue as [|ref' rest IH]; intros st w w' st' ref Hd Hflag Hb.
  - injection Hd as <- <-. exact Hb.
  - destruct (drain_no_error _ _ _ _ _ _ _ eq_refl Hd Hflag)
      as (w1 & st1 & saved & Hu & Hd1).
    apply (IH _ _ _ _ ref Hd1 Hflag).
    exact (UpsertRecipe_keeps_backup _ _ _ _ _ Hb Hu).
Qed.

(** After a pass without error every reference of the queue is in the
    store. *)
Lemma drain_backs_up queue : forall st w w' st',
  drain env cli c queue st w = (w', Returned st') -> fst st' = false ->
  Forall (backed_up env cli c w') queue.
Proof.
  induction queue as [|ref rest IH]; intros st w w' st' Hd Hflag;
    [constructor|].
  destruct (drain_no_error _ _ _ _ _ _ _ eq_refl Hd Hflag)
    as (w1 & st1 & saved & Hu & Hd1).
  constructor; [|exact (IH _ _ _ _ Hd1 Hflag)].
  apply (drain_keeps_backup rest st1 w1 w' st' ref Hd1 Hflag).
  exact (UpsertRecipe_backs_up _ _ _ _ Hu).
Qed.

(** A pass over a queue that holds a uid too short never returns. *)
Lemma drain_short queue : forall st w ref,
  In ref queue -> (String.length (uid_of ref) < 3)%nat ->
  exists w' cr, drain env cli c queue st w = (w', Crashed cr).
Proof.
  induction queue as [|ref' rest IH]; intros st w ref Hin Hlen; [easy|].
  rewrite drain_cons. unfold workItem, bind.
  destruct Hin as [->|Hin].
  - rewrite (UpsertRecipe_short ref w Hlen). eauto.
  - destruct (UpsertRecipe env cli c ref' w) as [w1 [[saved err]|cr]];
      [|eauto].
    unfold ret. eapply IH; eauto.
Qed.

End Pass.

Section Run.

Context {json : JSON}.
Variables (env : Env) (cmd : SyncCMD) (ctx : Context) (cli : CLI).
Variable pc : paprika.Client.t.

Lemma categoriesTask_cases st w w' st' :
  categoriesTask env cmd cli pc st w = (w', Returned st') ->
  (w' = w /\ st' = st) \/
  (exists d err,
     saveAsJSON (encode_categories (fst (paprika.Client.Categories pc)))
       (pathToCategoriesIndexFile env (DataDir cli))
       (with_request w GET_categories)
     = (with_disk (with_request w GET_categories) d, Returned err) /\
     w' = with_disk (with_request w GET_categories) d /\
     st' = (fst st || negb (is_nil err), snd st)).
Proof.
  unfold categoriesTask. destruct (IncludeCategories cmd);
    [|intros [= <- <-]; now left].
  unfold SaveCategoriesIndex, bind, send.
  fold (with_request w GET_categories).
  destruct (paprika.Client.Categories pc) as [cats [e|]]; [discriminate|].
  cbn [fst].
  destruct (saveAsJSON_returns (encode_categories cats)
              (pathToCategoriesIndexFile env (DataDir cli))
              (with_request w GET_categories)) as (d & err & Hs & _).
  rewrite Hs. unfold ret. intros [= <- <-]. right. exists d, err. auto.
Qed.

Lemma categoriesTask_flag st w w' st' :
  categoriesTask env cmd cli pc st w = (w', Returned st') ->
  fst st = true -> fst st' = true.
Proof.
  intros H Hf. destruct (categoriesTask_cases _ _ _ _ H)
    as [[_ ->]|(d & err & _ & _ & ->)]; [exact Hf|].
  cbn [fst]. now rewrite Hf.
Qed.

Lemma categoriesTask_keeps_backup st w w' st' ref :
  basename (pathToCategoriesIndexFile env (DataDir cli)) <> filenameRecipeJSON ->
  categoriesTask env cmd cli pc st w = (w', Returned st') ->
  backed_up env cli pc w ref -> backed_up env cli pc w' ref.
Proof.
  intros Hne H Hb. destruct (categoriesTask_cases _ _ _ _ H)
    as [[-> _]|(d & err & Hs & -> & _)]; [exact Hb|].
  destruct Hb as (Hl3 & body & H1 & H2). split; [exact Hl3|].
  exists body. split; [|exact H2]. cbn [with_disk disk].
  apply (saveAsJSON_frame _ _ _ _ _ _ _ Hs); [|exact H1].
  intros Heq. apply Hne. rewrite <- Heq. apply recipeFile_basename.
Qed.

Lemma SaveRecipesIndex_cases w :
  exists d err,
    SaveRecipesIndex env cli pc w
    = (with_disk (with_request w GET_recipes) d,
       Returned (fst (paprika.Client.Recipes pc), err)) /\
    match snd (paprika.Client.Recipes pc) with
    | Some e => d = disk w /\ err = Some e
    | None =>
        saveAsJSON (encode_index (fst (paprika.Client.Recipes pc)))
          (pathToRecipesIndexFile env (DataDir cli))
          (with_request w GET_recipes)
        = (with_disk (with_request w GET_recipes) d, Returned err)
    end.
Proof.
  unfold SaveRecipesIndex. unfold bind at 1. unfold send.
  fold (with_request w GET_recipes).
  destruct (paprika.Client.Recipes pc) as [idx [e|]]; cbn [fst snd].
  - exists (disk w), (Some e). split; [|auto]. unfold ret.
    now destruct w.
  - unfold bind.
    destruct (saveAsJSON_returns (encode_index idx)
                (pathToRecipesIndexFile env (DataDir cli))
                (with_request w GET_recipes)) as (d & err & Hs & _).
    rewrite Hs. unfold ret. exists d, err. auto.
Qed.

(** What the sync phase is once it has returned, with the recipes branch
    enabled. *)
Lemma syncPhase_returned k w w' st :
  IncludeRecipes cmd = true ->
  syncPhase env cmd ctx cli pc k w = (w', Returned st) ->
  exists w0 st0 w1 err w2 st2 w3 st3,
    let items := fst (paprika.Client.Recipes pc) in
    let taken := if idle cmd ctx then [] else items in
    (match k with
     | O => categoriesTask env cmd cli pc (false, 0%Z) w
     | S _ => (w, Returned (false, 0%Z))
     end) = (w0, Returned st0) /\
    SaveRecipesIndex env cli pc w0 = (w1, Returned (items, err)) /\
    drain env cli pc (firstn (pred k) taken)
      (fst st0 || negb (is_nil err), snd st0) w1 = (w2, Returned st2) /\
    (match k with
     | O => (w2, Returned st2)
     | S _ => categoriesTask env cmd cli pc st2 w2
     end) = (w3, Returned st3) /\
    drain env cli pc (skipn (pred k) taken) st3 w3 = (w', Returned st) /\
    producerBlocks cmd ctx items = false.
Proof.
  intros Hrec. unfold syncPhase. rewrite Hrec. cbn [negb].
  destruct (DownloadConcurrency cmd <? 0)%Z; [discriminate|].
  cbv zeta. unfold bind at 1.
  match goal with
  | |- (let (_, _) := ?m in _) = _ -> _ =>
      destruct m as [w0 [st0|cr]] eqn:E0
  end; cbv beta iota; [|discriminate].
  unfold bind at 1.
  destruct (SaveRecipesIndex_cases w0) as (d & err & Hs & _).
  rewrite Hs. cbv beta iota.
  unfold bind at 1.
  destruct (drain env cli pc _ _ _) as [w2 [st2|cr]] eqn:E2;
    cbv beta iota; [|discriminate].
  unfold bind at 1.
  match goal with
  | |- (let (_, _) := ?m in _) = _ -> _ =>
      destruct m as [w3 [st3|cr]] eqn:E3
  end; cbv beta iota; [|discriminate].
  unfold bind at 1.
  destruct (drain env cli pc _ st3 w3) as [w4 [st4|cr]] eqn:E4;
    cbv beta iota; [|discriminate].
  destruct (producerBlocks cmd ctx _) eqn:Ep; [discriminate|].
  unfold ret. intros [= <- <-].
  exists w0, st0, (with_disk (with_request w0 GET_recipes) d), err,
         w2, st2, w3, st3.
  cbv zeta. repeat split; auto.
  - destruct k; exact E0.
  - destruct k; exact E3.
Qed.

Lemma categoriesTask_total st w :
  exists w' o, categoriesTask env cmd cli pc st w = (w', o).
Proof. destruct (categoriesTask env cmd cli pc st w); eauto. Qed.

(** With the recipes branch enabled and a worker count of zero or less, a
    run that has an index entry to queue never gets past the sync phase. *)
Lemma syncPhase_no_workers k w :
  IncludeRecipes cmd = true ->
  (DownloadConcurrency cmd <= 0)%Z ->
  fst (paprika.Client.Recipes pc) <> [] ->
  exists w' cr, syncPhase env cmd ctx cli pc k w = (w', Crashed cr).
Proof.
  intros Hrec Hdc Hitems. unfold syncPhase. rewrite Hrec. cbn [negb].
  destruct (Z.ltb_spec (DownloadConcurrency cmd) 0); [unfold stop; eauto|].
  assert (Hz : DownloadConcurrency cmd = 0%Z) by lia.
  assert (Hidle : idle cmd ctx = true).
  { unfold idle. rewrite Hz. cbn. apply orb_true_r. }
  cbv zeta. unfold bind at 1.
  match goal with
  | |- exists _ _, (let (_, _) := ?m in _) = _ =>
      destruct m as [w0 [st0|cr]]
  end; cbv beta iota; [|eauto].
  unfold bind at 1.
  destruct (SaveRecipesIndex_cases w0) as (d & err & Hs & _).
  rewrite Hs. cbv beta iota. rewrite Hidle.
  rewrite firstn_nil, skipn_nil. cbn [drain]. unfold bind at 1, ret at 1.
  unfold bind at 1.
  match goal with
  | |- exists _ _, (let (_, _) := ?m in _) = _ =>
      destruct m as [w3 [st3|cr]]
  end; cbv beta iota; [|eauto].
  unfold bind at 1, ret at 1.
  assert (Hb : producerBlocks cmd ctx (fst (paprika.Client.Recipes pc)) = true).
  { unfold producerBlocks. rewrite Hidle, Hz. cbn [andb].
    apply Z.ltb_lt. destruct (fst (paprika.Client.Recipes pc)); [congruence|].
    cbn [List.length]. lia. }
  rewrite Hb. unfold stop. eauto.
Qed.

(** With workers at hand and the context not cancelled, a run whose index
    holds a uid too short never gets past the sync phase. *)
Lemma syncPhase_short k w ref :
  IncludeRecipes cmd = true ->
  ctx = false ->
  (1 <= DownloadConcurrency cmd)%Z ->
  In ref (fst (paprika.Client.Recipes pc)) ->
  (String.length (paprika.RecipeItem.UID ref) < 3)%nat ->
  exists w' cr, syncPhase env cmd ctx cli pc k w = (w', Crashed cr).
Proof.
  intros Hrec Hctx Hdc Hin Hlen. unfold syncPhase. rewrite Hrec. cbn [negb].
  destruct (Z.ltb_spec (DownloadConcurrency cmd) 0); [unfold stop; eauto|].
  assert (Hidle : idle cmd ctx = false).
  { unfold idle. rewrite Hctx. cbn [orb]. apply Z.eqb_neq. lia. }
  cbv zeta. unfold bind at 1.
  match goal with
  | |- exists _ _, (let (_, _) := ?m in _) = _ =>
      destruct m as [w0 [st0|cr]]
  end; cbv beta iota; [|eauto].
  unfold bind at 1.
  destruct (SaveRecipesIndex_cases w0) as (d & err & Hs & _).
  rewrite Hs. cbv beta iota. rewrite Hidle.
  rewrite <- (firstn_skipn (pred k) (fst (paprika.Client.Recipes pc))) in Hin.
  apply in_app_or in Hin. unfold bind at 1.
  destruct Hin as [Hin|Hin].
  - destruct (drain_short env cli pc _
                (fst st0 || negb (is_nil err), snd st0)
                (with_disk (with_request w0 GET_recipes) d) ref Hin Hlen)
      as (w2 & cr & ->). eauto.
  - destruct (drain env cli pc (firstn _ _) _ _) as [w2 [st2|cr]];
      cbv beta iota; [|eauto].
    unfold bind at 1.
    match goal with
    | |- exists _ _, (let (_, _) := ?m in _) = _ =>
        destruct m as [w3 [st3|cr]]
    end; cbv beta iota; [|eauto].
    unfold bind at 1.
    destruct (drain_short env cli pc _ st3 w3 ref Hin Hlen) as (w4 & cr & ->).
    eauto.
Qed.

(** A failed fetch of the index leaves the error flag set at the join. *)
Lemma syncPhase_index_failure k w w' st e :
  IncludeRecipes cmd = true ->
  snd (paprika.Client.Recipes pc) = Some e ->
  syncPhase env cmd ctx cli pc k w = (w', Returned st) ->
  fst st = true.
Proof.
  intros Hrec He Hs.
  destruct (syncPhase_returned k w w' st Hrec Hs)
    as (w0 & st0 & w1 & err & w2 & st2 & w3 & st3 & H).
  cbv zeta in H. destruct H as (_ & Hidx & Hd1 & Hc & Hd2 & _).
  destruct (SaveRecipesIndex_cases w0) as (d & err' & Hidx' & Hm).
  rewrite Hidx in Hidx'. injection Hidx' as _ ->. rewrite He in Hm.
  destruct Hm as [_ ->].
  assert (H2 : fst st2 = true).
  { apply (drain_flag_stays _ _ _ _ _ _ _ _ Hd1). cbn. apply orb_true_r. }
  assert (H3 : fst st3 = true).
  { destruct k as [|k]; [now injection Hc as _ <-|].
    exact (categoriesTask_flag _ _ _ _ Hc H2). }
  exact (drain_flag_stays _ _ _ _ _ _ _ _ Hd2 H3).
Qed.

End Run.

Section Backup.

Context {json : JSON}.
Variables (env : Env) (cmd : SyncCMD) (cli : CLI).
Variable pc : paprika.Client.t.

(** After a sync phase that joined without error every recipe of the index
    is in the store. *)
Lemma syncPhase_backs_up k w w' st :
  IncludeRecipes cmd = true ->
  basename (pathToCategoriesIndexFile env (DataDir cli)) <> filenameRecipeJSON ->
  syncPhase env cmd false cli pc k w = (w', Returned st) ->
  fst st = false ->
  Forall (backed_up env cli pc w') (fst (paprika.Client.Recipes pc)).
Proof.
  intros Hrec Hcat Hs Hflag.
  destruct (syncPhase_returned env cmd false cli pc k w w' st Hrec Hs)
    as (w0 & st0 & w1 & err & w2 & st2 & w3 & st3 & H).
  cbv zeta in H. destruct H as (_ & _ & Hd1 & Hc & Hd2 & Hblock).
  assert (H3 : fst st3 = false).
  { destruct (fst st3) eqn:E; [|reflexivity].
    rewrite (drain_flag_stays _ _ _ _ _ _ _ _ Hd2 E) in Hflag. discriminate. }
  assert (H2 : fst st2 = false).
  { destruct (fst st2) eqn:E; [|reflexivity]. destruct k as [|k].
    - injection Hc as _ <-. congruence.
    - rewrite (categoriesTask_flag _ _ _ _ _ _ _ _ Hc E) in H3. discriminate. }
  unfold idle in Hd1, Hd2. unfold producerBlocks, idle in Hblock.
  cbn [orb] in *.
  destruct (DownloadConcurrency cmd =? 0)%Z eqn:Ez.
  - (* no worker: the index is empty or the producer blocks *)
    apply Z.eqb_eq in Ez. rewrite Ez in Hblock. cbn [andb] in Hblock.
    apply Z.ltb_ge in Hblock.
    destruct (fst (paprika.Client.Recipes pc)); [constructor|].
    cbn [List.length] in Hblock. lia.
  - rewrite Forall_forall. intros ref Hin.
    rewrite <- (firstn_skipn (pred k) (fst (paprika.Client.Recipes pc))) in Hin.
    apply in_app_or in Hin. destruct Hin as [Hin|Hin].
    + pose proof (drain_backs_up _ _ _ _ _ _ _ _ Hd1 H2) as Hb.
      rewrite Forall_forall in Hb. specialize (Hb _ Hin).
      apply (drain_keeps_backup _ _ _ _ _ _ _ _ _ Hd2 Hflag).
      destruct k as [|k]; [now injection Hc as <- _|].
      exact (categoriesTask_keeps_backup _ _ _ _ _ _ _ _ _ Hcat Hc Hb).
    + pose proof (drain_backs_up _ _ _ _ _ _ _ _ Hd2 Hflag) as Hb.
      rewrite Forall_forall in Hb. exact (Hb _ Hin).
Qed.

End Backup.


End SyncMore.

Module MarkerMore.
Import FS FSFacts Aux FSFacts2.
Import time TimeFacts CalendarFacts LayoutFacts RoundTrip RoundTrip2.
Open Scope Z_scope.

Lemma append_assoc (a b c : string) :
  ((a ++ b) ++ c = a ++ (b ++ c))%string.
Proof. induction a as [|x a IH]; cbn; [reflexivity|now rewrite IH]. Qed.

Lemma append_nil_r (a : string) : (a ++ "")%string = a.
Proof. induction a as [|x a IH]; cbn; [reflexivity|now rewrite IH]. Qed.

Lemma substring_app (a b : string) : forall n,
  (String.length a <= n)%nat ->
  substring 0 n (a ++ b)
  = (a ++ substring 0 (n - String.length a) b)%string.
Proof.
  induction a as [|x a IH]; intros n Hn; cbn [String.append String.length].
  - now rewrite Nat.sub_0_r.
  - destruct n as [|n]; [cbn in Hn; lia|]. cbn [substring String.length] in *.
    rewrite IH by lia. reflexivity.
Qed.

Lemma substring_nonempty (b : string) n :
  b <> "" -> (0 < n)%nat -> substring 0 n b <> "".
Proof. destruct b; [congruence|]. destruct n; [lia|]. discriminate. Qed.

Lemma starts_zone_app z j : starts_zone z -> starts_zone (z ++ j).
Proof. destruct z; [intros []|]. exact (fun H => H). Qed.

(** The zone of a formatted time followed by more text is no zone. *)
Lemma parseZone_junk off junk :
  off mod 60 = 0 -> - 86400 < off < 86400 -> junk <> "" ->
  parseZone (formatZone off ++ junk) = None.
Proof.
  intros Hm Hr Hj. destruct (Z.eq_dec off 0) as [->|Hne].
  - change (formatZone 0) with "Z"%string. cbn [String.append].
    unfold parseZone.
    assert ((String "Z" junk =? "Z")%string = false) as ->
      by (destruct junk; [congruence|reflexivity]).
    destruct (negb (String.length (String "Z" junk) =? 6)%nat);
      [reflexivity|].
    destruct (parseUint _ 0 23); [|reflexivity].
    destruct (parseUint _ 0 59); reflexivity.
  - rewrite (formatZone_nonzero off Hne).
    apply Z.mod_divide in Hm; [|lia]. destruct Hm as [q Hq].
    assert (Hquot : Z.quot off 60 = q) by (subst off; apply Z.quot_mul; lia).
    rewrite Hquot.
    assert (Hh : 0 <= Z.abs q / 60 <= 23).
    { split; [apply Z.div_pos; lia|].
      apply Z.lt_succ_r. apply Z.div_lt_upper_bound; lia. }
    assert (Hmm : 0 <= Z.abs q mod 60 <= 59)
      by (pose proof (Z.mod_pos_bound (Z.abs q) 60); lia).
    rewrite !appendInt_fixed by (cbn; lia).
    unfold parseZone.
    assert (Hlen : String.length
                     (String.append
                        (String.append (if (q <? 0)%Z then "-"%string
                                        else "+"%string)
                           (String.append (fixedDigits 2 (Z.abs q / 60))
                              (String.append ":"
                                 (fixedDigits 2 (Z.abs q mod 60)))))
                        junk)
                   = (6 + String.length junk)%nat).
    { rewrite !string_length_app.
      destruct (fixedDigits_spec 2 (Z.abs q / 60) ltac:(lia)) as (-> & _).
      destruct (fixedDigits_spec 2 (Z.abs q mod 60) ltac:(lia)) as (-> & _).
      destruct (q <? 0); cbn; lia. }
    rewrite Hlen.
    assert ((6 + String.length junk =? 6)%nat = false) as ->.
    { apply Nat.eqb_neq. destruct junk; [congruence|]. cbn. lia. }
    cbn [negb]. destruct (q <? 0); reflexivity.
Qed.

(** A formatted time followed by more text does not parse. *)
Lemma format_parse_junk t junk :
  expressible t -> junk <> ""%string ->
  parseRFC3339 (formatRFC3339Nano t ++ junk) = None.
Proof.
  destruct t as [u off]. unfold expressible. cbn [unixNano offset].
  set (abs := u / 1000000000 + off). intros (Hy & Hm60 & Hoff) Hj.
  pose proof (civil_roundtrip (abs / 86400)) as Hc.
  unfold formatRFC3339Nano. cbn [unixNano offset]. fold abs.
  destruct (civil_from_days (abs / 86400)) as [[y m] d] eqn:E.
  cbn [fst] in Hy. destruct Hc as (Hm & Hd & Hdays).
  pose proof (daysIn_le m y Hm) as Hd31.
  set (secs := abs mod 86400).
  assert (Hsecs : 0 <= secs < 86400) by (apply Z.mod_pos_bound; lia).
  assert (Hh : 0 <= secs / 3600 <= 23).
  { split; [apply Z.div_pos; lia|].
    apply Z.lt_succ_r. apply Z.div_lt_upper_bound; lia. }
  assert (Hmi : 0 <= secs mod 3600 / 60 <= 59).
  { pose proof (Z.mod_pos_bound secs 3600 ltac:(lia)).
    split; [apply Z.div_pos; lia|].
    apply Z.lt_succ_r. apply Z.div_lt_upper_bound; lia. }
  assert (Hs : 0 <= secs mod 60 <= 59)
    by (pose proof (Z.mod_pos_bound secs 60 ltac:(lia)); lia).
  set (ns := u mod 1000000000).
  assert (Hns : 0 <= ns < 1000000000) by (apply Z.mod_pos_bound; lia).
  rewrite !appendInt_fixed by (cbn; lia).
  destruct (zone_roundtrip off Hm60 Hoff) as (Pz & Sz & Lz).
  destruct (fraction_roundtrip ns (formatZone off ++ junk) Hns
              (starts_zone_app _ junk Sz)) as (Pf & Lf).
  rewrite !append_assoc. rewrite parse_shape.
  rewrite (parseUint_fixed 4 y 0 9999) by (cbn; lia).
  rewrite (parseUint_fixed 2 m 1 12) by (cbn; lia).
  cbv beta iota.
  rewrite (parseUint_fixed 2 d 1 (daysIn m y)) by (cbn; lia).
  rewrite (parseUint_fixed 2 (secs / 3600) 0 23) by (cbn; lia).
  rewrite (parseUint_fixed 2 (secs mod 3600 / 60) 0 59) by (cbn; lia).
  rewrite (parseUint_fixed 2 (secs mod 60) 0 59) by (cbn; lia).
  cbv beta iota. rewrite Pf.
  now rewrite (parseZone_junk off junk Hm60 Hoff Hj).
Qed.

(** [readTimestampMarker] on a file that is not empty parses what the
    buffer takes of it. *)
Lemma readTimestampMarker_file path w body :
  lookup path (disk w) = Some (File body) -> body <> ""%string ->
  readTimestampMarker path RFC3339Nano w
  = (w, Returned (Parse RFC3339Nano
                    (substring 0 (String.length RFC3339Nano) body))).
Proof.
  intros Hl Hb. unfold readTimestampMarker, bind, reads, FS.open.
  rewrite Hl. unfold file_Read.
  change (String.length RFC3339Nano =? 0)%nat with false.
  destruct (String.eqb_spec body ""); [contradiction|]. reflexivity.
Qed.

Lemma formatRFC3339Nano_nonempty t :
  expressible t -> formatRFC3339Nano t <> ""%string.
Proof.
  intros Ht E. destruct (format_parse t Ht) as [Hp _].
  rewrite E in Hp. discriminate.
Qed.

(** A marker written by [Format] reads back as the time formatted. *)
Lemma readTimestampMarker_roundtrip t path w :
  expressible t ->
  lookup path (disk w) = Some (File (Format t RFC3339Nano)) ->
  readTimestampMarker path RFC3339Nano w = (w, Returned (inl t)).
Proof.
  intros Ht Hl. destruct (format_parse t Ht) as [Hparse Hlen].
  change (Format t RFC3339Nano) with (formatRFC3339Nano t) in Hl.
  rewrite (readTimestampMarker_file _ _ _ Hl (formatRFC3339Nano_nonempty t Ht)).
  rewrite (substring_short _ _ Hlen). unfold Parse.
  now rewrite String.eqb_refl, Hparse.
Qed.

(** A marker that does not begin with a digit is no time. *)
Lemma Parse_undated body :
  body <> ""%string -> Store.undated body = true ->
  Parse RFC3339Nano (substring 0 (String.length RFC3339Nano) body)
  = inr ErrTimeParse.
Proof.
  destruct body as [|c rest]; [congruence|]. intros _ Hu.
  cbn [Store.undated] in Hu. apply negb_true_iff in Hu.
  unfold Parse. rewrite String.eqb_refl.
  change (String.length RFC3339Nano) with 35%nat.
  cbn [substring]. set (s := String c (substring 0 34 rest)).
  unfold parseRFC3339.
  destruct (String.length s <? 19)%nat; [reflexivity|].
  assert (E : parseUint (substring 0 4 s) 0 9999 = None).
  { unfold s. cbn [substring]. unfold parseUint.
    cbn [list_ascii_of_string forallb]. now rewrite Hu. }
  now rewrite E.
Qed.

End MarkerMore.
Module VersionFacts.
Import version.

Lemma BuildVars_eq (b b' : BuildVars) :
  BuildVersion b = BuildVersion b' -> BuildCommit b = BuildCommit b' ->
  BuildDate b = BuildDate b' -> BuildDirty b = BuildDirty b' -> b = b'.
Proof. destruct b, b'. cbn. now intros -> -> -> ->. Qed.

(** A round of the loop changes no variable that is set. *)
Lemma applySetting_keeps b s :
  BuildVersion (applySetting b s) = BuildVersion b /\
  (BuildCommit b <> "" -> BuildCommit (applySetting b s) = BuildCommit b) /\
  (BuildDate b <> "" -> BuildDate (applySetting b s) = BuildDate b) /\
  (BuildDirty b <> "" -> BuildDirty (applySetting b s) = BuildDirty b).
Proof.
  unfold applySetting.
  destruct (Key s =? "vcs.revision");
    [destruct (String.eqb_spec (BuildCommit b) ""); cbn; tauto|].
  destruct (Key s =? "vcs.time");
    [destruct (String.eqb_spec (BuildDate b) ""); cbn; tauto|].
  destruct (Key s =? "vcs.modified");
    [destruct (String.eqb_spec (BuildDirty b) ""); cbn; tauto|].
  tauto.
Qed.

Lemma settings_keep settings : forall b,
  let b' := fold_left applySetting settings b in
  BuildVersion b' = BuildVersion b /\
  (BuildCommit b <> "" -> BuildCommit b' = BuildCommit b) /\
  (BuildDate b <> "" -> BuildDate b' = BuildDate b) /\
  (BuildDirty b <> "" -> BuildDirty b' = BuildDirty b).
Proof.
  induction settings as [|s rest IH]; intros b; cbn [fold_left]; [tauto|].
  destruct (IH (applySetting b s)) as (H1 & H2 & H3 & H4).
  destruct (applySetting_keeps b s) as (K1 & K2 & K3 & K4).
  cbv zeta. repeat split.
  - congruence.
  - intros H. rewrite H2; rewrite (K2 H); auto.
  - intros H. rewrite H3; rewrite (K3 H); auto.
  - intros H. rewrite H4; rewrite (K4 H); auto.
Qed.

(** A setting the loop has gone over has nothing left to give. *)
Lemma settings_stable settings : forall b,
  Forall (fun s => applySetting (fold_left applySetting settings b) s
                   = fold_left applySetting settings b) settings.
Proof.
  induction settings as [|s rest IH]; intros b; [constructor|].
  cbn [fold_left]. constructor; [|apply IH].
  set (b1 := applySetting b s). set (b2 := fold_left applySetting rest b1).
  destruct (settings_keep rest b1) as (H1 & H2 & H3 & H4). fold b2 in H1, H2, H3, H4.
  unfold applySetting.
  destruct (Key s =? "vcs.revision") eqn:Kr.
  { destruct (String.eqb_spec (BuildCommit b2) "") as [E|]; [|reflexivity].
    apply BuildVars_eq; cbn; auto.
    destruct (String.eqb_spec (BuildCommit b1) "") as [E1|N1];
      [|rewrite (H2 N1) in E; contradiction].
    unfold b1, applySetting in E1. rewrite Kr in E1.
    destruct (String.eqb_spec (BuildCommit b) "") as [E0|N0];
      cbn in E1; congruence. }
  destruct (Key s =? "vcs.time") eqn:Kt.
  { destruct (String.eqb_spec (BuildDate b2) "") as [E|]; [|reflexivity].
    apply BuildVars_eq; cbn; auto.
    destruct (String.eqb_spec (BuildDate b1) "") as [E1|N1];
      [|rewrite (H3 N1) in E; contradiction].
    unfold b1, applySetting in E1. rewrite Kr, Kt in E1.
    destruct (String.eqb_spec (BuildDate b) "") as [E0|N0];
      cbn in E1; congruence. }
  destruct (Key s =? "vcs.modified") eqn:Km; [|reflexivity].
  destruct (String.eqb_spec (BuildDirty b2) "") as [E|]; [|reflexivity].
  apply BuildVars_eq; cbn; auto.
  destruct (String.eqb_spec (BuildDirty b1) "") as [E1|N1];
    [|rewrite (H4 N1) in E; contradiction].
  unfold b1, applySetting in E1. rewrite Kr, Kt, Km in E1.
  destruct (String.eqb_spec (BuildDirty b) "") as [E0|N0];
    cbn in E1; congruence.
Qed.

Lemma fold_stable settings b :
  Forall (fun s => applySetting b s = b) settings ->
  fold_left applySetting settings b = b.
Proof.
  induction settings as [|s rest IH]; intros H; [reflexivity|].
  inversion H as [|? ? Hs Hrest]; subst. cbn [fold_left]. rewrite Hs.
  now apply IH.
Qed.

Lemma enrichBuildInfo_idem info b :
  enrichBuildInfo info (enrichBuildInfo info b) = enrichBuildInfo info b.
Proof.
  unfold enrichBuildInfo.
  destruct (negb (BuildVersion b =? "dev") && negb (BuildCommit b =? "")
            && negb (BuildDate b =? "")) eqn:E.
  - now rewrite E.
  - destruct info as [settings|]; [|now rewrite E].
    match goal with |- (if ?c then _ else _) = _ => destruct c end;
      [reflexivity|].
    apply fold_stable. apply settings_stable.
Qed.

End VersionFacts.

Module PruneSafety.
Import FS FSFacts Aux ListingFacts FSFacts2 PruneFacts PruneCorrect.
Import PruneMore Store.

Lemma keeps_files_refl n : keeps_files n n.
Proof. intros p body H. exact H. Qed.

Lemma keeps_files_trans a b c :
  keeps_files a b -> keeps_files b c -> keeps_files a c.
Proof. intros H1 H2 p body H. apply H2, H1, H. Qed.

(** Replacing the subtree at [root] by one that keeps its files keeps the
    files of the whole tree. *)
Lemma keeps_files_put (root : path) n' : forall d n,
  lookup root d = Some n -> keeps_files n n' ->
  keeps_files d (put root n' d).
Proof.
  induction root as [|x r IH]; intros d n Hl Hk; cbn [lookup put] in *.
  - injection Hl as ->. exact Hk.
  - destruct d as [b|w es]; [discriminate|].
    destruct (lookup_entry x es) as [c|] eqn:Ex; [|discriminate].
    intros q body Hq. destruct q as [|y q]; [discriminate|].
    cbn [lookup] in *. destruct (String.eqb_spec x y) as [<-|Hne].
    + rewrite lookup_entry_set_eq. rewrite Ex in Hq.
      exact (IH c n Hl Hk q body Hq).
    + now rewrite (lookup_entry_set_ne _ _ _ _ Hne).
Qed.

(** The entries of a directory, by name. *)
Lemma keeps_files_entries w es w' es' :
  (forall y c, lookup_entry y es = Some c ->
     forall p body, lookup p c = Some (File body) ->
       exists c', lookup_entry y es' = Some c' /\
                  lookup p c' = Some (File body)) ->
  keeps_files (Dir w es) (Dir w' es').
Proof.
  intros H p body Hp. destruct p as [|y p]; [discriminate|].
  cbn [lookup] in *. destruct (lookup_entry y es) as [c|] eqn:Ey;
    [|discriminate].
  destruct (H y c Ey p body Hp) as (c' & -> & Hc'). exact Hc'.
Qed.

Lemma no_file_entries w es :
  (forall y c, lookup_entry y es = Some c -> no_file c) ->
  no_file (Dir w es).
Proof.
  intros H p body Hp. destruct p as [|y p]; [discriminate|].
  cbn [lookup] in Hp. destruct (lookup_entry y es) as [c|] eqn:Ey;
    [|discriminate].
  exact (H y c Ey p body Hp).
Qed.

(** [os.RemoveAll] of an entry without files loses no file. *)
Lemma remove_all_in_safe x w es :
  (forall c, lookup_entry x es = Some c -> no_file c) ->
  keeps_files (Dir w es) (Dir w (fst (remove_all_in x w es))) /\
  (forall y, y <> x ->
     lookup_entry y (fst (remove_all_in x w es)) = lookup_entry y es) /\
  (snd (remove_all_in x w es) = None ->
   lookup_entry x (fst (remove_all_in x w es)) = None).
Proof.
  intros Hx. unfold remove_all_in.
  destruct (lookup_entry x es) as [c|] eqn:Ex.
  2:{ cbn [fst snd]. repeat split; auto. apply keeps_files_refl. }
  specialize (Hx c eq_refl).
  destruct (w && unlinkable (strip c)); cbn [fst snd].
  - repeat split.
    + apply keeps_files_entries. intros y c0 Hy p body Hp.
      destruct (String.eqb_spec x y) as [<-|Hne].
      * rewrite Ex in Hy. injection Hy as <-. destruct (Hx p body Hp).
      * exists c0. now rewrite (lookup_entry_del_ne _ _ _ Hne).
    + intros y Hy. apply lookup_entry_del_ne. congruence.
    + intros _. apply lookup_entry_del_eq.
  - repeat split.
    + apply keeps_files_entries. intros y c0 Hy p body Hp.
      destruct (String.eqb_spec x y) as [<-|Hne].
      * rewrite Ex in Hy. injection Hy as <-. destruct (Hx p body Hp).
      * exists c0. now rewrite (lookup_entry_set_ne _ _ _ _ Hne).
    + intros y Hy. apply lookup_entry_set_ne. congruence.
    + discriminate.
Qed.

Lemma remove_each_safe dir names w : forall cur,
  (forall x c, In x names -> lookup_entry x cur = Some c -> no_file c) ->
  keeps_files (Dir w cur) (Dir w (fst (remove_each false dir names w cur))).
Proof.
  induction names as [|x names IH]; intros cur Hn; cbn [remove_each ctx_Err].
  - apply keeps_files_refl.
  - destruct (remove_all_in_safe x w cur (fun c => Hn x c (or_introl eq_refl)))
      as (Hk & Hother & Hgone).
    destruct (remove_all_in x w cur) as [cur' [e|]]; cbn [fst snd] in *;
      [exact Hk|].
    eapply keeps_files_trans; [exact Hk|]. apply IH.
    intros y c Hy Hl. destruct (String.eqb_spec y x) as [->|Hne].
    + rewrite (Hgone eq_refl) in Hl. discriminate.
    + rewrite (Hother y Hne) in Hl. apply (Hn y c); [now right|exact Hl].
Qed.

Lemma pruneRange_safe dir todo : forall cur h ec,
  Forall (fun e => forall d, safe_result (snd e) (pruneDir false d (snd e)))
    todo ->
  NoDup (map fst todo) ->
  (forall x c, In (x, c) todo -> lookup_entry x cur = Some c) ->
  let r := pruneRange false dir todo cur h ec in
  let cur' := fst (fst (fst r)) in
  (forall y, ~ In y (map fst todo) ->
     lookup_entry y cur' = lookup_entry y cur) /\
  (forall y c, In (y, c) todo ->
     exists c', lookup_entry y cur' = Some c' /\ keeps_files c c') /\
  (snd r = None -> snd (fst (fst r)) = true ->
   h = true /\
   forall y c c', In (y, c) todo -> lookup_entry y cur' = Some c' ->
                  no_file c') /\
  (forall y, In y (snd (fst r)) ->
     In y ec \/
     (In y (map fst todo) /\
      forall c', lookup_entry y cur' = Some c' -> no_file c')).
Proof.
  induction todo as [|[x c] rest IH]; intros cur h ec Hsafe Hnd Hcur.
  - cbn. repeat split; auto; try (intros; contradiction).
  - inversion Hsafe as [|? ? Hc Hrest]; subst. cbn [snd] in Hc.
    cbn [map fst] in Hnd. inversion Hnd as [|? ? Hx Hnd']; subst.
    assert (Hne : forall y c0, In (y, c0) rest -> x <> y).
    { intros y c0 Hin <-. apply Hx.
      change x with (fst (x, c0)). now apply in_map. }
    cbn [pruneRange ctx_Err].
    destruct c as [b|wc ces].
    + (* a file *)
      destruct (IH cur false ec Hrest Hnd')
        as (HD & HF & HC & HE).
      { intros y c0 Hin. apply Hcur. now right. }
      cbv zeta in *.
      set (r := pruneRange false dir rest cur false ec) in *.
      repeat split.
      * intros y Hy. apply HD. cbn [map fst In] in Hy. tauto.
      * intros y c0 [E|Hin].
        -- injection E as <- <-. exists (File b). split;
             [|apply keeps_files_refl].
           rewrite (HD x Hx). apply Hcur. now left.
        -- now apply HF.
      * destruct (HC H H0) as [Hf _]. discriminate.
      * destruct (HC H H0) as [Hf _]. discriminate.
      * intros y Hy. destruct (HE y Hy) as [Hin|[Hin Hno]]; [now left|].
        right. split; [now right|exact Hno].
    + (* a directory *)
      specialize (Hc (dir ++ [x])).
      destruct (pruneDir false (dir ++ [x]) (Dir wc ces)) as [c' [b err]].
      destruct Hc as [Hk Hb]. cbn [fst snd] in Hk, Hb.
      assert (Hcur1 : forall y c0, In (y, c0) rest ->
                lookup_entry y (set_entry x c' cur) = Some c0).
      { intros y c0 Hin. rewrite (lookup_entry_set_ne _ _ _ _ (Hne y c0 Hin)).
        apply Hcur. now right. }
      destruct err as [e|].
      * (* the child failed *)
        cbn [fst snd]. repeat split.
        -- intros y Hy. apply lookup_entry_set_ne. cbn [map fst In] in Hy.
           tauto.
        -- intros y c0 [E|Hin].
           ++ injection E as <- <-. exists c'.
              now rewrite lookup_entry_set_eq.
           ++ exists c0. split; [now apply Hcur1|apply keeps_files_refl].
        -- discriminate.
        -- discriminate.
        -- intros y Hy. now left.
      * destruct b.
        -- (* a fileless child *)
           destruct (IH (set_entry x c' cur) h (ec ++ [x]) Hrest Hnd' Hcur1)
             as (HD & HF & HC & HE).
           cbv zeta in *.
           set (r := pruneRange false dir rest (set_entry x c' cur) h
                       (ec ++ [x])) in *.
           assert (Hx' : lookup_entry x (fst (fst (fst r))) = Some c')
             by (rewrite (HD x Hx); apply lookup_entry_set_eq).
           repeat split.
           ++ intros y Hy. cbn [map fst In] in Hy. rewrite HD by tauto.
              apply lookup_entry_set_ne. tauto.
           ++ intros y c0 [E|Hin].
              ** injection E as <- <-. now exists c'.
              ** now apply HF.
           ++ now destruct (HC H H0).
           ++ intros y c0 c1 [E|Hin] Hl.
              ** injection E as <- <-. rewrite Hx' in Hl.
                 injection Hl as <-. now apply Hb.
              ** destruct (HC H H0) as [_ Hno]. exact (Hno y c0 c1 Hin Hl).
           ++ intros y Hy. destruct (HE y Hy) as [Hin|[Hin Hno]].
              ** apply in_app_or in Hin. destruct Hin as [Hin|[<-|[]]];
                   [now left|].
                 right. split; [now left|].
                 intros c1 Hl. rewrite Hx' in Hl. injection Hl as <-.
                 now apply Hb.
              ** right. split; [now right|exact Hno].
        -- (* a child with files *)
           destruct (IH (set_entry x c' cur) false ec Hrest Hnd' Hcur1)
             as (HD & HF & HC & HE).
           cbv zeta in *.
           set (r := pruneRange false dir rest (set_entry x c' cur) false ec)
             in *.
           assert (Hx' : lookup_entry x (fst (fst (fst r))) = Some c')
             by (rewrite (HD x Hx); apply lookup_entry_set_eq).
           repeat split.
           ++ intros y Hy. cbn [map fst In] in Hy. rewrite HD by tauto.
              apply lookup_entry_set_ne. tauto.
           ++ intros y c0 [E|Hin].
              ** injection E as <- <-. now exists c'.
              ** now apply HF.
           ++ destruct (HC H H0) as [Hf _]. discriminate.
           ++ destruct (HC H H0) as [Hf _]. discriminate.
           ++ intros y Hy. destruct (HE y Hy) as [Hin|[Hin Hno]]; [now left|].
              right. split; [now right|exact Hno].
Qed.

(** [pruneDir] loses no file, and a directory it reports as fileless holds
    none, whatever the permissions. *)
Lemma pruneDir_safe n :
  unique_names n = true ->
  forall dir, safe_result n (pruneDir false dir n).
Proof.
  induction n as [b|w es IH] using node_ind2; intros Hu dir.
  - split; [apply keeps_files_refl|discriminate].
  - cbn [unique_names] in Hu. apply andb_prop in Hu as [Hnd Hc].
    apply distinct_NoDup in Hnd.
    assert (Hsafe : Forall (fun e => forall d,
                       safe_result (snd e) (pruneDir false d (snd e))) es).
    { rewrite Forall_forall in IH. apply Forall_forall. intros e He d.
      apply IH; [exact He|]. rewrite forallb_forall in Hc. now apply Hc. }
    destruct (pruneRange_safe dir es es true [] Hsafe Hnd
                (fun x c Hin => In_lookup_entry x c es Hnd Hin))
      as (HD & HF & HC & HE).
    cbv zeta in *. rewrite pruneDir_Dir.
    destruct (pruneRange false dir es es true []) as [[[cur h] ec] err].
    cbn [fst snd] in *.
    assert (Hk : keeps_files (Dir w es) (Dir w cur)).
    { apply keeps_files_entries. intros y c Hy p body Hp.
      destruct (HF y c (lookup_entry_In _ _ _ Hy)) as (c' & Hl & Hkc).
      exists c'. split; [exact Hl|]. now apply Hkc. }
    destruct err as [e|]; [split; [exact Hk|discriminate]|].
    destruct h; cbn [negb].
    + split; [exact Hk|]. intros _. cbn [fst].
      destruct (HC eq_refl eq_refl) as [_ Hno].
      apply no_file_entries. intros y c' Hy.
      destruct (in_dec string_dec y (map fst es)) as [Hin|Hout].
      * apply (proj1 (in_map_iff _ _ _)) in Hin.
        destruct Hin as ([y0 c] & E & Hin). cbn [fst] in E. subst y0.
        exact (Hno y c c' Hin Hy).
      * rewrite (HD y Hout), (lookup_entry_absent _ _ Hout) in Hy.
        discriminate.
    + assert (Hr : keeps_files (Dir w cur)
                     (Dir w (fst (remove_each false dir ec w cur)))).
      { apply remove_each_safe. intros x c Hx Hl.
        destruct (HE x Hx) as [[]|[_ Hno]]. now apply Hno. }
      destruct (remove_each false dir ec w cur) as [cur' [e|]];
        cbn [fst snd] in *;
        (split; [eapply keeps_files_trans; eauto|discriminate]).
Qed.

Lemma pruneRootRange_safe root w todo : forall cur,
  Forall (fun e => unique_names (snd e) = true) todo ->
  NoDup (map fst todo) ->
  (forall x c, In (x, c) todo -> lookup_entry x cur = Some c) ->
  let cur' := fst (pruneRootRange false root w todo cur) in
  (forall y, ~ In y (map fst todo) ->
     lookup_entry y cur' = lookup_entry y cur) /\
  (forall y c p body, In (y, c) todo -> lookup p c = Some (File body) ->
     exists c', lookup_entry y cur' = Some c' /\
                lookup p c' = Some (File body)).
Proof.
  induction todo as [|[x c] rest IH]; intros cur Hu Hnd Hcur.
  - cbn. split; [auto|]. intros y c p body [].
  - inversion Hu as [|? ? Hc Hrest]; subst. cbn [snd] in Hc.
    cbn [map fst] in Hnd. inversion Hnd as [|? ? Hx Hnd']; subst.
    assert (Hne : forall y c0, In (y, c0) rest -> x <> y).
    { intros y c0 Hin <-. apply Hx.
      change x with (fst (x, c0)). now apply in_map. }
    cbn [pruneRootRange ctx_Err].
    destruct (is_dir c) eqn:Ed; cbn [negb].
    2:{ destruct (IH cur Hrest Hnd') as (HD & HF).
        { intros y c0 Hin. apply Hcur. now right. }
        cbv zeta in *. split.
        - intros y Hy. apply HD. cbn [map fst In] in Hy. tauto.
        - intros y c0 p body [E|Hin] Hp.
          + injection E as <- <-. exists c. split; [|exact Hp].
            rewrite (HD x Hx). apply Hcur. now left.
          + now apply (HF y c0). }
    destruct (pruneDir_safe c Hc (root ++ [x])) as [Hk Hb].
    destruct (pruneDir false (root ++ [x]) c) as [c' [b err]].
    cbn [fst snd] in Hk, Hb.
    assert (Hcur1 : forall y c0, In (y, c0) rest ->
              lookup_entry y (set_entry x c' cur) = Some c0).
    { intros y c0 Hin. rewrite (lookup_entry_set_ne _ _ _ _ (Hne y c0 Hin)).
      apply Hcur. now right. }
    assert (Hstop : forall cur1,
              (forall y, y <> x -> lookup_entry y cur1 = lookup_entry y cur) ->
              (forall p body, lookup p c = Some (File body) ->
                 exists c1, lookup_entry x cur1 = Some c1 /\
                            lookup p c1 = Some (File body)) ->
              (forall y, ~ In y (map fst ((x, c) :: rest)) ->
                 lookup_entry y cur1 = lookup_entry y cur) /\
              (forall y c0 p body, In (y, c0) ((x, c) :: rest) ->
                 lookup p c0 = Some (File body) ->
                 exists c1, lookup_entry y cur1 = Some c1 /\
                            lookup p c1 = Some (File body))).
    { intros cur1 H1 H2. split.
      - intros y Hy. apply H1. cbn [map fst In] in Hy. intros ->. tauto.
      - intros y c0 p body [E|Hin] Hp.
        + injection E as <- <-. now apply H2.
        + exists c0. split; [|exact Hp].
          rewrite (H1 y); [apply Hcur; now right|].
          intros ->. exact (Hne _ _ Hin eq_refl). }
    assert (Hgo : forall cur1,
              (forall y, y <> x -> lookup_entry y cur1 = lookup_entry y cur) ->
              (forall p body, lookup p c = Some (File body) ->
                 exists c1, lookup_entry x cur1 = Some c1 /\
                            lookup p c1 = Some (File body)) ->
              let cur' := fst (pruneRootRange false root w rest cur1) in
              (forall y, ~ In y (map fst ((x, c) :: rest)) ->
                 lookup_entry y cur' = lookup_entry y cur) /\
              (forall y c0 p body, In (y, c0) ((x, c) :: rest) ->
                 lookup p c0 = Some (File body) ->
                 exists c1, lookup_entry y cur' = Some c1 /\
                            lookup p c1 = Some (File body))).
    { intros cur1 H1 H2.
      destruct (IH cur1 Hrest Hnd') as (HD & HF).
      { intros y c0 Hin. rewrite H1; [apply Hcur; now right|].
        intros ->. exact (Hne _ _ Hin eq_refl). }
      cbv zeta in *. split.
      - intros y Hy. cbn [map fst In] in Hy. rewrite HD by tauto.
        apply H1. intros ->. tauto.
      - intros y c0 p body [E|Hin] Hp.
        + injection E as <- <-. rewrite (HD x Hx). now apply H2.
        + now apply (HF y c0). }
    assert (Hset1 : forall y, y <> x ->
              lookup_entry y (set_entry x c' cur) = lookup_entry y cur).
    { intros y Hy. apply lookup_entry_set_ne. congruence. }
    assert (Hset2 : forall p body, lookup p c = Some (File body) ->
              exists c1, lookup_entry x (set_entry x c' cur) = Some c1 /\
                         lookup p c1 = Some (File body)).
    { intros p body Hp. exists c'. rewrite lookup_entry_set_eq.
      split; [reflexivity|now apply Hk]. }
    destruct err as [e|]; [exact (Hstop _ Hset1 Hset2)|].
    destruct b; [|exact (Hgo _ Hset1 Hset2)].
    assert (Hnone : forall p body, lookup p c <> Some (File body)).
    { intros p body Hp. exact (Hb eq_refl p body (Hk p body Hp)). }
    destruct (remove_all_in_safe x w (set_entry x c' cur)) as (_ & Hother & _).
    { intros c1. rewrite lookup_entry_set_eq. intros [= <-]. now apply Hb. }
    destruct (remove_all_in x w (set_entry x c' cur)) as [cur2 [e|]];
      cbn [fst snd] in *.
    + apply Hstop.
      * intros y Hy. rewrite (Hother y Hy). now apply Hset1.
      * intros p body Hp. destruct (Hnone p body Hp).
    + apply Hgo.
      * intros y Hy. rewrite (Hother y Hy). now apply Hset1.
      * intros p body Hp. destruct (Hnone p body Hp).
Qed.

(** The body of [PruneFilelessSubtrees] loses no file of the root. *)
Lemma pruneRoot_safe ctx root n :
  unique_names n = true -> keeps_files n (fst (pruneRoot ctx root n)).
Proof.
  intros Hu. destruct n as [b|w es]; [apply keeps_files_refl|].
  cbn [unique_names] in Hu. apply andb_prop in Hu as [Hnd Hc].
  apply distinct_NoDup in Hnd.
  destruct ctx.
  - change (pruneRoot true root (Dir w es))
      with (let (cur, err) := pruneRootRange true root w es es in
            (Dir w cur, err)).
    rewrite (pruneRootRange_cancelled root w es es
               (fun x c Hin => In_lookup_entry x c es Hnd Hin)).
    apply keeps_files_refl.
  - rewrite pruneRoot_Dir.
    destruct (pruneRootRange_safe root w es es) as (HD & HF); auto.
    { apply Forall_forall. intros e He. rewrite forallb_forall in Hc.
      now apply Hc. }
    { intros x c Hin. now apply In_lookup_entry. }
    cbv zeta in *.
    destruct (pruneRootRange false root w es es) as [cur err].
    cbn [fst] in *. apply keeps_files_entries. intros y c Hy p body Hp.
    exact (HF y c p body (lookup_entry_In _ _ _ Hy) Hp).
Qed.

End PruneSafety.

Module PurgeFrame.
Import FS FSFacts Aux ListingFacts WalkFacts PurgeFacts FSFacts2 Store FSFrame.
Import PurgeSafety.

(** An operation on the entry [x] of the directory at [d] leaves the files
    that are not below [d ++ [x]] where they are. *)
Lemma at_entry_frame (d : path) x f n (q : path) body :
  (forall w es y, x <> y ->
     lookup_entry y (fst (f w es)) = lookup_entry y es) ->
  (forall p, q <> (d ++ [x]) ++ p) ->
  lookup q n = Some (File body) ->
  lookup q (fst (at_dir d f n)) = Some (File body).
Proof.
  intros Hf Hq Hl. apply at_dir_frame; [exact Hl|].
  intros w es y rest E _. apply Hf. intros <-. apply (Hq rest).
  now rewrite <- app_assoc.
Qed.

Lemma dirname_app (r p : path) : p <> [] -> dirname (r ++ p) = r ++ dirname p.
Proof.
  intros H. rewrite (path_split p H) at 1.
  now rewrite app_assoc, dirname_snoc.
Qed.

Lemma remove_frame (t q : path) body n :
  (forall p, q <> t ++ p) ->
  lookup q n = Some (File body) ->
  lookup q (fst (remove t n)) = Some (File body).
Proof.
  intros Hq Hl. destruct (list_eq_dec string_dec t []) as [->|Ht];
    [exact Hl|].
  pose proof (path_split t Ht) as E.
  remember (dirname t) as d. remember (basename t) as x.
  clear Heqd Heqx. subst t. rewrite remove_snoc.
  apply (at_entry_frame d x); auto. intros w es y. apply remove_in_other.
Qed.

Lemma remove_all_frame (t q : path) body n :
  (forall p, q <> t ++ p) ->
  lookup q n = Some (File body) ->
  lookup q (fst (remove_all t n)) = Some (File body).
Proof.
  intros Hq Hl. destruct (list_eq_dec string_dec t []) as [->|Ht];
    [exact Hl|].
  pose proof (path_split t Ht) as E.
  remember (dirname t) as d. remember (basename t) as x.
  clear Heqd Heqx. subst t. rewrite remove_all_snoc.
  apply (at_entry_frame d x); auto. intros w es y. apply remove_all_in_other.
Qed.

Lemma create_excl_frame (t q : path) stamp body n :
  (forall p, q <> t ++ p) ->
  lookup q n = Some (File body) ->
  lookup q (fst (create_excl t stamp n)) = Some (File body).
Proof.
  intros Hq Hl. destruct (list_eq_dec string_dec t []) as [->|Ht];
    [exact Hl|].
  pose proof (path_split t Ht) as E.
  remember (dirname t) as d. remember (basename t) as x.
  clear Heqd Heqx. subst t. rewrite create_excl_snoc.
  apply (at_entry_frame d x); auto. intros w es y. apply create_excl_in_other.
Qed.

Section Frame.

Context (env : Env) (cmd : SyncCMD) (ctx : Context) (dataDir : FS.path).
Context (cutoff : time.Time) (nowStamp : string) (idx : list string).
Context (w0 : World).

Let root := pathToRecipesDir env dataDir.
Let fn := purgeWalkFn env cmd ctx dataDir cutoff nowStamp idx.

Lemma purgeFn_stays path d err w w' r :
  kept_outside root w0 w -> below root path d ->
  fn path (Some d) err w = (w', r) -> kept_outside root w0 w'.
Proof.
  intros [Hreq Hk] (p & -> & Hp) Hfn.
  destruct (purgeFn_effect _ _ _ _ _ _ _ _ _ _ _ _ _ Hfn)
    as [->|(Hd & _ & H)]; [now split|].
  specialize (Hp Hd).
  assert (Hdn : dirname (root ++ p) = root ++ dirname p)
    by now apply dirname_app.
  destruct H as [(_ & _ & ->)|[(_ & ->)|(_ & ->)]];
    (split; [exact Hreq|]); intros q body Hq Hl; cbn [with_disk disk].
  - apply remove_frame; [|now apply Hk].
    intros p0. rewrite <- app_assoc. apply Hq.
  - apply remove_all_frame; [|now apply Hk].
    intros p0. rewrite Hdn, <- app_assoc. apply Hq.
  - apply create_excl_frame; [|now apply Hk].
    intros p0. fold root. rewrite <- !app_assoc. apply Hq.
Qed.

Lemma purge_listing_below path d (w : World) dirs d1 :
  kept_outside root w0 w -> below root path d ->
  read_dir path (disk w) = inl dirs -> In d1 dirs ->
  below root (path ++ [Name d1]) d1.
Proof.
  intros _ (p & -> & _) _ _. exists (p ++ [Name d1]).
  split; [now rewrite app_assoc|]. intros _. now destruct p.
Qed.

Lemma purge_walk_stays fuel path d w w' r :
  kept_outside root w0 w -> below root path d ->
  walkDir fuel path d fn w = (w', r) -> kept_outside root w0 w'.
Proof.
  apply (walkDir_invariant (kept_outside root w0) (below root) fn).
  - exact purgeFn_stays.
  - exact purge_listing_below.
Qed.

Lemma purge_WalkDir_stays w' r :
  (forall b, lookup root (disk w0) <> Some (File b)) ->
  WalkDir root fn w0 = (w', r) -> kept_outside root w0 w'.
Proof.
  intros Hroot. unfold WalkDir, bind, reads.
  assert (H0 : kept_outside root w0 w0) by (split; auto).
  destruct (lookup root (disk w0)) as [n|] eqn:El.
  - assert (Hb : below root root
                   {| Name := basename root; IsDir := is_dir n |}).
    { exists []. rewrite app_nil_r. split; [reflexivity|]. cbn [IsDir].
      destruct n as [b|wd es]; [destruct (Hroot b eq_refl)|discriminate]. }
    destruct (walkDir _ root _ fn w0) as [w1 [err|cr]] eqn:Ew;
      pose proof (purge_walk_stays _ _ _ _ _ _ H0 Hb Ew) as H1.
    + destruct err as [[]|]; unfold ret; intros [= <- _]; exact H1.
    + intros [= <- _]; exact H1.
  - unfold fn, purgeWalkFn, ret. cbn. intros [= <- _]. exact H0.
Qed.

End Frame.

End PurgeFrame.

Module WellFormed.
Import FS FSFacts Aux ListingFacts FSFacts2 PruneFacts PruneMore FSFrame.
Import PurgeSafety.

(** ** Operations keep the names of a directory distinct *)

Lemma map_fst_replace x c es :
  map fst (replace_entry x c es) = map fst es.
Proof.
  induction es as [|[n c0] es IH]; [reflexivity|]. cbn [replace_entry].
  destruct (String.eqb_spec n x) as [->|Hne]; cbn [map fst];
    [reflexivity|now rewrite IH].
Qed.

Lemma In_insert_names x c es y :
  In y (map fst (insert_entry x c es)) <-> y = x \/ In y (map fst es).
Proof.
  induction es as [|[n c0] es IH]; cbn [insert_entry map fst In].
  - intuition.
  - destruct (String.ltb x n); cbn [map fst In]; [intuition|].
    rewrite IH. intuition.
Qed.

Lemma NoDup_insert x c es :
  ~ In x (map fst es) -> NoDup (map fst es) ->
  NoDup (map fst (insert_entry x c es)).
Proof.
  induction es as [|[n c0] es IH]; cbn [insert_entry map fst].
  - intros _ _. constructor; [easy|constructor].
  - intros Hx Hnd. inversion Hnd as [|? ? Hn Hrest]; subst.
    destruct (String.ltb x n); cbn [map fst].
    + constructor; [exact Hx|exact Hnd].
    + constructor.
      * rewrite In_insert_names. cbn [In] in Hx. intros [->|H]; tauto.
      * apply IH; [|exact Hrest]. cbn [In] in Hx. tauto.
Qed.

Lemma lookup_entry_names x es :
  lookup_entry x es = None -> ~ In x (map fst es).
Proof.
  intros H Hin. apply (proj1 (in_map_iff _ _ _)) in Hin.
  destruct Hin as (e & He & Hin). exact (lookup_entry_None _ _ H e Hin He).
Qed.

Lemma NoDup_set x c es :
  NoDup (map fst es) -> NoDup (map fst (set_entry x c es)).
Proof.
  intros H. unfold set_entry. destruct (lookup_entry x es) eqn:E.
  - now rewrite map_fst_replace.
  - apply NoDup_insert; [now apply lookup_entry_names|exact H].
Qed.

Lemma NoDup_filter_names (g : string * node -> bool) es :
  NoDup (map fst es) -> NoDup (map fst (filter g es)).
Proof.
  induction es as [|e es IH]; [auto|]. cbn [map filter].
  intros H. inversion H as [|? ? Hx Hrest]; subst.
  destruct (g e); [|auto]. cbn [map]. constructor; [|auto].
  intros Hin. apply Hx. apply (proj1 (in_map_iff _ _ _)) in Hin.
  destruct Hin as (e' & He & Hin). apply filter_In in Hin.
  rewrite <- He. apply in_map. tauto.
Qed.

Lemma unique_names_Dir w es :
  unique_names (Dir w es) = true <->
  NoDup (map fst es) /\ forallb (fun e => unique_names (snd e)) es = true.
Proof.
  cbn [unique_names]. rewrite andb_true_iff, distinct_NoDup. tauto.
Qed.

Lemma unique_names_perm w w' es :
  unique_names (Dir w es) = true -> unique_names (Dir w' es) = true.
Proof. exact (fun H => H). Qed.

Lemma unique_names_set w x c es :
  unique_names (Dir w es) = true -> unique_names c = true ->
  unique_names (Dir w (set_entry x c es)) = true.
Proof.
  rewrite !unique_names_Dir. intros [Hnd Hc] Hu. split.
  - now apply NoDup_set.
  - now apply forallb_set.
Qed.

Lemma unique_names_del w x es :
  unique_names (Dir w es) = true ->
  unique_names (Dir w (del_entry x es)) = true.
Proof.
  rewrite !unique_names_Dir. intros [Hnd Hc]. split.
  - now apply NoDup_filter_names.
  - now apply forallb_del.
Qed.

Lemma unique_names_entry w x c es :
  unique_names (Dir w es) = true -> lookup_entry x es = Some c ->
  unique_names c = true.
Proof.
  rewrite unique_names_Dir. intros [_ Hc] Hl. rewrite forallb_forall in Hc.
  exact (Hc _ (lookup_entry_In _ _ _ Hl)).
Qed.

Lemma unique_names_lookup (p : path) : forall n c,
  unique_names n = true -> lookup p n = Some c -> unique_names c = true.
Proof.
  induction p as [|x p IH]; intros n c Hu Hl; cbn [lookup] in Hl.
  - now injection Hl as <-.
  - destruct n as [b|w es]; [discriminate|].
    destruct (lookup_entry x es) as [c0|] eqn:Ex; [|discriminate].
    exact (IH c0 c (unique_names_entry _ _ _ _ Hu Ex) Hl).
Qed.

Lemma unique_names_strip n :
  unique_names n = true -> unique_names (strip n) = true.
Proof.
  induction n as [b|w es IH] using node_ind2; [auto|].
  rewrite unique_names_Dir. intros [Hnd Hc]. cbn [strip].
  set (es' := map (fun e => (fst e, strip (snd e))) es).
  assert (Hn' : NoDup (map fst es')).
  { unfold es'. rewrite map_map. cbn [fst]. exact Hnd. }
  assert (Hc' : forallb (fun e => unique_names (snd e)) es' = true).
  { unfold es'. rewrite forallb_forall. intros e He.
    apply (proj1 (in_map_iff _ _ _)) in He. destruct He as (e0 & <- & He0).
    cbn [snd]. rewrite Forall_forall in IH. apply IH; [exact He0|].
    rewrite forallb_forall in Hc. now apply Hc. }
  apply unique_names_Dir. destruct w; [|now split]. split.
  - now apply NoDup_filter_names.
  - rewrite forallb_forall in *. intros e He. apply filter_In in He.
    now apply Hc'.
Qed.

(** An operation on the entries of one directory. *)
Lemma at_dir_unique p f :
  (forall w es, unique_names (Dir w es) = true ->
                unique_names (Dir w (fst (f w es))) = true) ->
  forall n, unique_names n = true ->
            unique_names (fst (at_dir p f n)) = true.
Proof.
  intros Hf. induction p as [|x p IH]; intros [b|w es] Hu; cbn [at_dir fst];
    try exact Hu.
  - specialize (Hf w es Hu). now destruct (f w es).
  - destruct (lookup_entry x es) as [c|] eqn:Ex; [|exact Hu].
    specialize (IH c (unique_names_entry _ _ _ _ Hu Ex)).
    destruct (at_dir p f c) as [c' err]. cbn [fst] in *.
    now apply unique_names_set.
Qed.

Lemma create_in_unique x body w es :
  unique_names (Dir w es) = true ->
  unique_names (Dir w (fst (create_in x body w es))) = true.
Proof.
  intros Hu. unfold create_in.
  destruct (lookup_entry x es) as [[b|w1 es1]|]; cbn [fst]; auto.
  - now apply unique_names_set.
  - destruct w; cbn [fst]; auto. now apply unique_names_set.
Qed.

Lemma create_excl_in_unique x body w es :
  unique_names (Dir w es) = true ->
  unique_names (Dir w (fst (create_excl_in x body w es))) = true.
Proof.
  intros Hu. unfold create_excl_in.
  destruct (lookup_entry x es); cbn [fst]; auto.
  destruct w; cbn [fst]; auto. now apply unique_names_set.
Qed.

Lemma remove_in_unique x w es :
  unique_names (Dir w es) = true ->
  unique_names (Dir w (fst (remove_in x w es))) = true.
Proof.
  intros Hu. unfold remove_in.
  destruct (lookup_entry x es) as [c|]; cbn [fst]; auto.
  destruct (negb w); cbn [fst]; auto.
  destruct c as [b|w1 [|e es1]]; cbn [fst]; auto using unique_names_del.
Qed.

Lemma remove_all_in_unique x w es :
  unique_names (Dir w es) = true ->
  unique_names (Dir w (fst (remove_all_in x w es))) = true.
Proof.
  intros Hu. unfold remove_all_in.
  destruct (lookup_entry x es) as [c|] eqn:Ex; cbn [fst]; auto.
  destruct (w && unlinkable (strip c)); cbn [fst].
  - now apply unique_names_del.
  - apply unique_names_set; [exact Hu|]. apply unique_names_strip.
    exact (unique_names_entry _ _ _ _ Hu Ex).
Qed.

Lemma mkdir_all_unique p : forall n,
  unique_names n = true -> unique_names (fst (mkdir_all p n)) = true.
Proof.
  induction p as [|x p IH]; intros [b|w es] Hu; cbn [mkdir_all fst];
    try exact Hu.
  destruct (lookup_entry x es) as [c|] eqn:Ex.
  - specialize (IH c (unique_names_entry _ _ _ _ Hu Ex)).
    destruct (mkdir_all p c) as [c' err]. cbn [fst] in *.
    now apply unique_names_set.
  - destruct w; [|exact Hu]. specialize (IH (Dir true []) eq_refl).
    destruct (mkdir_all p (Dir true [])) as [c' err]. cbn [fst] in *.
    now apply unique_names_set.
Qed.

Lemma write_file_unique p body n :
  unique_names n = true -> unique_names (fst (write_file p body n)) = true.
Proof.
  intros Hu. unfold write_file. destruct p; [exact Hu|].
  apply at_dir_unique; [|exact Hu]. intros w es. apply create_in_unique.
Qed.

Lemma remove_unique p n :
  unique_names n = true -> unique_names (fst (remove p n)) = true.
Proof.
  intros Hu. unfold remove. destruct p; [exact Hu|].
  apply at_dir_unique; [|exact Hu]. intros w es. apply remove_in_unique.
Qed.

Lemma create_excl_unique p body n :
  unique_names n = true -> unique_names (fst (create_excl p body n)) = true.
Proof.
  intros Hu. unfold create_excl. destruct p; [exact Hu|].
  apply at_dir_unique; [|exact Hu]. intros w es. apply create_excl_in_unique.
Qed.

Lemma remove_all_unique p n :
  unique_names n = true -> unique_names (fst (remove_all p n)) = true.
Proof.
  intros Hu. unfold remove_all. destruct p; [exact Hu|].
  destruct (lookup _ n) as [[b|w es]|]; try exact Hu.
  apply at_dir_unique; [|exact Hu]. intros w0 es0. apply remove_all_in_unique.
Qed.

Lemma saveAsJSON_unique body path w :
  unique_names (disk w) = true ->
  unique_names (disk (fst (saveAsJSON body path w))) = true.
Proof.
  intros Hu. unfold saveAsJSON, bind, syscall.
  pose proof (mkdir_all_unique (dirname path) _ Hu) as H1.
  destruct (mkdir_all (dirname path) (disk w)) as [d1 [e|]];
    cbn [fst disk] in *; [exact H1|].
  pose proof (write_file_unique path body _ H1) as H2.
  destruct (write_file path body d1) as [d2 e2]. exact H2.
Qed.

(** ** Operations make no file but the one they write *)

Lemma mkdir_all_no_new p : forall n (q : path) b,
  lookup q (fst (mkdir_all p n)) = Some (File b) ->
  lookup q n = Some (File b).
Proof.
  induction p as [|x p IH]; intros [b0|w es] q b Hq; cbn [mkdir_all fst] in *;
    try exact Hq.
  destruct (lookup_entry x es) as [c|] eqn:Ex.
  - specialize (IH c). destruct (mkdir_all p c) as [c' err]. cbn [fst] in *.
    destruct q as [|y q]; [discriminate|]. cbn [lookup] in *.
    destruct (String.eqb_spec x y) as [<-|Hne].
    + rewrite lookup_entry_set_eq in Hq. rewrite Ex. now apply IH.
    + now rewrite (lookup_entry_set_ne _ _ _ _ Hne) in Hq.
  - destruct w; [|exact Hq]. specialize (IH (Dir true [])).
    destruct (mkdir_all p (Dir true [])) as [c' err]. cbn [fst] in *.
    destruct q as [|y q]; [discriminate|]. cbn [lookup] in *.
    destruct (String.eqb_spec x y) as [<-|Hne].
    + rewrite lookup_entry_set_eq in Hq. apply IH in Hq.
      destruct q; discriminate.
    + now rewrite (lookup_entry_set_ne _ _ _ _ Hne) in Hq.
Qed.

Lemma create_no_new x body d : forall n (q : path) b,
  lookup q (fst (at_dir d (create_in x body) n)) = Some (File b) ->
  q = d ++ [x] \/ lookup q n = Some (File b).
Proof.
  induction d as [|z d IH]; intros [b0|w es] q b Hq; cbn [at_dir fst] in *;
    try (now right).
  - destruct q as [|y q]; [destruct (create_in x body w es); discriminate|].
    destruct (String.eqb_spec x y) as [<-|Hne].
    + unfold create_in in Hq.
      destruct (lookup_entry x es) as [[b1|w1 es1]|] eqn:Ex; cbn [fst] in Hq;
        try (now right).
      * cbn [lookup] in Hq. rewrite lookup_entry_set_eq in Hq.
        destruct q; [now left|discriminate].
      * destruct w; cbn [fst] in Hq; [|now right].
        cbn [lookup] in Hq. rewrite lookup_entry_set_eq in Hq.
        destruct q; [now left|discriminate].
    + right.
      assert (Ho : lookup_entry y (fst (create_in x body w es))
                   = lookup_entry y es).
      { unfold create_in.
        destruct (lookup_entry x es) as [[b1|w1 es1]|]; cbn [fst]; auto;
          [|destruct w; cbn [fst]; auto];
          now apply lookup_entry_set_ne. }
      destruct (create_in x body w es) as [es' err]. cbn [fst lookup] in *.
      now rewrite Ho in Hq.
  - destruct (lookup_entry z es) as [c|] eqn:Ez; [|now right].
    specialize (IH c). destruct (at_dir d (create_in x body) c) as [c' err].
    cbn [fst] in *. destruct q as [|y q]; [discriminate|]. cbn [lookup] in *.
    destruct (String.eqb_spec z y) as [<-|Hne].
    + rewrite lookup_entry_set_eq in Hq. rewrite Ez.
      destruct (IH q b Hq) as [->|H]; [now left|now right].
    + rewrite (lookup_entry_set_ne _ _ _ _ Hne) in Hq. now right.
Qed.

Lemma write_file_no_new p body n (q : path) b :
  lookup q (fst (write_file p body n)) = Some (File b) ->
  q = p \/ lookup q n = Some (File b).
Proof.
  unfold write_file. destruct p as [|x0 p0] eqn:Ep; [now right|].
  rewrite <- Ep. intros Hq. apply create_no_new in Hq.
  rewrite <- path_split in Hq; [exact Hq|]. rewrite Ep. discriminate.
Qed.

Lemma saveAsJSON_no_new body (path : FS.path) w (q : FS.path) b :
  lookup q (disk (fst (saveAsJSON body path w))) = Some (File b) ->
  q = path \/ lookup q (disk w) = Some (File b).
Proof.
  unfold saveAsJSON, bind, syscall.
  pose proof (mkdir_all_no_new (dirname path) (disk w) q b) as H1.
  destruct (mkdir_all (dirname path) (disk w)) as [d1 [e|]];
    cbn [fst disk] in *; [intros Hq; right; now apply H1|].
  pose proof (write_file_no_new path body d1 q b) as H2.
  destruct (write_file path body d1) as [d2 e2]. cbn [fst disk] in *.
  intros Hq. destruct (H2 Hq) as [->|H]; [now left|right; now apply H1].
Qed.

End WellFormed.

Module SyncInv.
Import FS FSFacts Aux ListingFacts FSFacts2 SyncFacts UpsertFacts FrameFacts.
Import PassFacts RunFacts PruneFacts PruneMore.
Import Store FSFrame SaveMore SyncMore WellFormed.

(** ** The layout, by paths *)

Lemma sharded_tidy root d : sharded root d = true -> tidy root d.
Proof.
  unfold sharded. intros Hs q name body Hq Hn Hl.
  rewrite lookup_app in Hl.
  destruct (lookup root d) as [n|]; [|discriminate].
  rewrite lookup_app in Hl.
  destruct (lookup q n) as [[b|w es]|] eqn:Eq; try discriminate.
  cbn [lookup] in Hl.
  destruct (lookup_entry name es) as [c|] eqn:En; [|discriminate].
  injection Hl as ->.
  pose proof (clean_above_entries q 3 n w es (name, File body) body Hs Eq
                ltac:(lia) (lookup_entry_In _ _ _ En) eq_refl) as H.
  cbn [fst] in H. congruence.
Qed.

Lemma tidy_clean k : forall n,
  unique_names n = true ->
  (forall q name body,
     (List.length q < k)%nat -> marker_or_recipe name = true ->
     lookup (q ++ [name]) n <> Some (File body)) ->
  clean_above k n = true.
Proof.
  induction k as [|k IH]; intros n Hu Ht; [now destruct n|].
  destruct n as [b|w es]; [reflexivity|]. cbn [clean_above].
  apply unique_names_Dir in Hu. destruct Hu as [Hnd Hc].
  rewrite forallb_forall. intros [x c] Hin. cbn [fst snd].
  pose proof (In_lookup_entry x c es Hnd Hin) as Hx.
  destruct c as [b|w1 es1].
  - destruct (marker_or_recipe x) eqn:Em; [|reflexivity].
    exfalso. apply (Ht [] x b); [cbn; lia|exact Em|].
    cbn [app lookup]. now rewrite Hx.
  - apply IH.
    + rewrite forallb_forall in Hc. exact (Hc _ Hin).
    + intros q name body Hq Hn Hl.
      apply (Ht (x :: q) name body); [cbn [List.length]; lia|exact Hn|].
      cbn [app lookup]. now rewrite Hx.
Qed.

Lemma tidy_sharded root d :
  unique_names d = true -> tidy root d -> sharded root d = true.
Proof.
  intros Hu Ht. unfold sharded.
  destruct (lookup root d) as [n|] eqn:Er; [|reflexivity].
  apply tidy_clean; [exact (unique_names_lookup _ _ _ Hu Er)|].
  intros q name body Hq Hn Hl. apply (Ht q name body); [lia|exact Hn|].
  now rewrite lookup_app, Er.
Qed.

Lemma saveAsJSON_tidy root body (path : FS.path) w :
  deep_or_plain root path ->
  tidy root (disk w) -> tidy root (disk (fst (saveAsJSON body path w))).
Proof.
  intros Hp Ht q name b Hq Hn Hl.
  destruct (saveAsJSON_no_new _ _ _ _ _ Hl) as [E|H].
  - exact (Hp q name Hq Hn (eq_sym E)).
  - exact (Ht q name b Hq Hn H).
Qed.

Lemma plain_basename root (path : FS.path) :
  marker_or_recipe (basename path) = false -> deep_or_plain root path.
Proof.
  intros Hb q name _ Hn ->.
  rewrite !app_assoc, basename_snoc in Hb. congruence.
Qed.

(** ** Invariants of the disk through the sync phase *)

Section Keep.

Context {json : JSON}.
Variables (env : Env) (cmd : SyncCMD) (ctx : Context) (cli : CLI).
Variable c : paprika.Client.t.

Variable J : FS.node -> Prop.
Variable P : FS.path -> Prop.

Hypothesis save_J : forall body path w,
  P path -> J (disk w) -> J (disk (fst (saveAsJSON body path w))).

Lemma UpsertRecipe_J ref w w' r :
  P (recipeFile env (DataDir cli) (paprika.RecipeItem.UID ref)) ->
  J (disk w) ->
  UpsertRecipe env cli c ref w = (w', Returned r) -> J (disk w').
Proof.
  intros Hp Hj Hu.
  pose proof (UpsertRecipe_returns_length _ _ _ _ _ _ _ Hu) as Hlen.
  rewrite (UpsertRecipe_cases env cli c ref w Hlen) in Hu. cbv zeta in Hu.
  destruct (negb (fst (decision _ _ (disk w)))); [now injection Hu as <- _|].
  destruct (paprika.Client.Recipe c _) as [recipe [e|]];
    [now injection Hu as <- _|].
  destruct (negb (paprika.Recipe.UID recipe =? _)); [now injection Hu as <- _|].
  pose proof (save_J (encode_recipe recipe) _
                (with_request w (GET_recipe (paprika.RecipeItem.UID ref)))
                Hp Hj) as Hs.
  destruct (saveAsJSON _ _ _) as [w2 [[e|]|cr]]; cbn [fst] in Hs;
    [| |discriminate]; now injection Hu as <- _.
Qed.

Lemma drain_J queue : forall st w w' st',
  (forall ref, In ref queue ->
     P (recipeFile env (DataDir cli) (paprika.RecipeItem.UID ref))) ->
  J (disk w) ->
  drain env cli c queue st w = (w', Returned st') -> J (disk w').
Proof.
  induction queue as [|ref rest IH]; intros st w w' st' Hp Hj Hd.
  - now injection Hd as <- _.
  - rewrite drain_cons in Hd.
    destruct (workItem env cli c ref st w) as [w1 [st1|cr]] eqn:Ew;
      [|discriminate].
    destruct (workItem_cases _ _ _ _ _ _ _ _ Ew) as (saved & err & Hu & _).
    apply (IH st1 w1 w' st'); [intros r Hr; apply Hp; now right| |exact Hd].
    exact (UpsertRecipe_J _ _ _ _ (Hp ref (or_introl eq_refl)) Hj Hu).
Qed.

Lemma categoriesTask_J st w w' st' :
  P (pathToCategoriesIndexFile env (DataDir cli)) ->
  J (disk w) ->
  categoriesTask env cmd cli c st w = (w', Returned st') -> J (disk w').
Proof.
  intros Hp Hj H. destruct (categoriesTask_cases _ _ _ _ _ _ _ _ H)
    as [[-> _]|(d & err & Hs & -> & _)]; [exact Hj|].
  pose proof (save_J (encode_categories (fst (paprika.Client.Categories c))) _
                (with_request w GET_categories) Hp Hj) as H1.
  now rewrite Hs in H1.
Qed.

Lemma SaveRecipesIndex_J w w' r :
  P (pathToRecipesIndexFile env (DataDir cli)) ->
  J (disk w) ->
  SaveRecipesIndex env cli c w = (w', Returned r) -> J (disk w').
Proof.
  intros Hp Hj H. destruct (SaveRecipesIndex_cases env cli c w)
    as (d & err & Hs & Hm).
  rewrite Hs in H. injection H as <- _. cbn [with_disk disk].
  destruct (snd (paprika.Client.Recipes c)).
  - destruct Hm as [-> _]. exact Hj.
  - pose proof (save_J (encode_index (fst (paprika.Client.Recipes c))) _
                  (with_request w GET_recipes) Hp Hj) as H1.
    now rewrite Hm in H1.
Qed.

Lemma syncPhase_J k w w' st :
  IncludeRecipes cmd = true ->
  P (pathToRecipesIndexFile env (DataDir cli)) ->
  P (pathToCategoriesIndexFile env (DataDir cli)) ->
  (forall ref, In ref (fst (paprika.Client.Recipes c)) ->
     P (recipeFile env (DataDir cli) (paprika.RecipeItem.UID ref))) ->
  J (disk w) ->
  syncPhase env cmd ctx cli c k w = (w', Returned st) -> J (disk w').
Proof.
  intros Hrec Hpi Hpc Hpr Hj Hs.
  destruct (syncPhase_returned env cmd ctx cli c k w w' st Hrec Hs)
    as (w0 & st0 & w1 & err & w2 & st2 & w3 & st3 & H).
  cbv zeta in H. destruct H as (H0 & Hidx & Hd1 & Hc & Hd2 & _).
  assert (Hq : forall n ref,
            In ref (firstn n (if idle cmd ctx then []
                              else fst (paprika.Client.Recipes c))) \/
            In ref (skipn n (if idle cmd ctx then []
                             else fst (paprika.Client.Recipes c))) ->
            P (recipeFile env (DataDir cli) (paprika.RecipeItem.UID ref))).
  { intros n ref Hin. apply Hpr.
    assert (Hin' : In ref (if idle cmd ctx then []
                           else fst (paprika.Client.Recipes c))).
    { rewrite <- (firstn_skipn n). apply in_or_app. exact Hin. }
    destruct (idle cmd ctx); [destruct Hin'|exact Hin']. }
  assert (Hj0 : J (disk w0)).
  { destruct k; [exact (categoriesTask_J _ _ _ _ Hpc Hj H0)|].
    now injection H0 as <- _. }
  pose proof (SaveRecipesIndex_J _ _ _ Hpi Hj0 Hidx) as Hj1.
  pose proof (drain_J _ _ _ _ _ (fun r H => Hq _ r (or_introl H)) Hj1 Hd1)
    as Hj2.
  assert (Hj3 : J (disk w3)).
  { destruct k; [now injection Hc as <- _|].
    exact (categoriesTask_J _ _ _ _ Hpc Hj2 Hc). }
  exact (drain_J _ _ _ _ _ (fun r H => Hq _ r (or_intror H)) Hj3 Hd2).
Qed.

End Keep.

Section Index.

Context {json : JSON}.
Variables (env : Env) (cmd : SyncCMD) (ctx : Context) (cli : CLI).
Variable c : paprika.Client.t.

Lemma recipeFile_deep uid :
  deep_or_plain (pathToRecipesDir env (DataDir cli))
    (recipeFile env (DataDir cli) uid).
Proof.
  intros q name Hq _ E. unfold recipeFile in E. apply app_inv_head in E.
  apply (f_equal (@List.length string)) in E.
  rewrite !length_app in E. cbn [List.length] in E. lia.
Qed.

(** The sync phase keeps the names of every directory distinct. *)
Lemma syncPhase_unique k w w' st :
  IncludeRecipes cmd = true ->
  unique_names (disk w) = true ->
  syncPhase env cmd ctx cli c k w = (w', Returned st) ->
  unique_names (disk w') = true.
Proof.
  intros Hrec Hu Hs.
  apply (syncPhase_J env cmd ctx cli c
           (fun d => unique_names d = true) (fun _ => True)
           (fun body path w0 _ H => saveAsJSON_unique body path w0 H)
           k w w' st); auto.
Qed.

(** The sync phase keeps the layout of the recipes directory. *)
Lemma syncPhase_tidy k w w' st :
  IncludeRecipes cmd = true ->
  marker_or_recipe (basename (pathToRecipesIndexFile env (DataDir cli)))
    = false ->
  marker_or_recipe (basename (pathToCategoriesIndexFile env (DataDir cli)))
    = false ->
  tidy (pathToRecipesDir env (DataDir cli)) (disk w) ->
  syncPhase env cmd ctx cli c k w = (w', Returned st) ->
  tidy (pathToRecipesDir env (DataDir cli)) (disk w').
Proof.
  intros Hrec Hi Hc Ht Hs.
  apply (syncPhase_J env cmd ctx cli c
           (tidy (pathToRecipesDir env (DataDir cli)))
           (deep_or_plain (pathToRecipesDir env (DataDir cli)))
           (fun body path w0 Hp H => saveAsJSON_tidy _ body path w0 Hp H)
           k w w' st); auto using plain_basename.
  intros ref _. apply recipeFile_deep.
Qed.

Lemma saveAsJSON_keeps_file q b body (path : FS.path) w :
  path <> q ->
  lookup q (disk w) = Some (File b) ->
  lookup q (disk (fst (saveAsJSON body path w))) = Some (File b).
Proof.
  intros Hne Hl.
  destruct (saveAsJSON_returns body path w) as (d & err & Hs & _).
  rewrite Hs. cbn [fst with_disk disk].
  apply (@saveAsJSON_frame json _ _ _ _ _ _ _ Hs); [congruence|exact Hl].
Qed.

(** After a sync phase that joined without error the index file holds the
    index that was fetched. *)
Lemma syncPhase_index_file k w w' st :
  IncludeRecipes cmd = true ->
  basename (pathToRecipesIndexFile env (DataDir cli)) <> filenameRecipeJSON ->
  pathToCategoriesIndexFile env (DataDir cli)
    <> pathToRecipesIndexFile env (DataDir cli) ->
  syncPhase env cmd ctx cli c k w = (w', Returned st) ->
  fst st = false ->
  lookup (pathToRecipesIndexFile env (DataDir cli)) (disk w')
  = Some (File (encode_index (fst (paprika.Client.Recipes c)))).
Proof.
  intros Hrec Hbase Hne Hs Hflag.
  destruct (syncPhase_returned env cmd ctx cli c k w w' st Hrec Hs)
    as (w0 & st0 & w1 & err & w2 & st2 & w3 & st3 & H).
  cbv zeta in H. destruct H as (H0 & Hidx & Hd1 & Hc & Hd2 & _).
  assert (H3 : fst st3 = false).
  { destruct (fst st3) eqn:E; [|reflexivity].
    rewrite (drain_flag_stays _ _ _ _ _ _ _ _ Hd2 E) in Hflag. discriminate. }
  assert (H2 : fst st2 = false).
  { destruct (fst st2) eqn:E; [|reflexivity]. destruct k as [|k].
    - injection Hc as _ <-. congruence.
    - rewrite (categoriesTask_flag _ _ _ _ _ _ _ _ Hc E) in H3. discriminate. }
  assert (Herr : err = None).
  { destruct (fst st0 || negb (is_nil err)) eqn:E.
    - rewrite (drain_flag_stays _ _ _ _ _ _ _ _ Hd1 eq_refl) in H2.
      discriminate.
    - apply orb_false_elim in E. destruct E as [_ E]. now destruct err. }
  subst err.
  set (J := fun d => lookup (pathToRecipesIndexFile env (DataDir cli)) d
                     = Some (File (encode_index
                                     (fst (paprika.Client.Recipes c))))).
  set (P := fun path : FS.path =>
              path <> pathToRecipesIndexFile env (DataDir cli)).
  assert (HJ : forall body path v,
            P path -> J (disk v) -> J (disk (fst (saveAsJSON body path v)))).
  { intros body path v Hp Hj. now apply saveAsJSON_keeps_file. }
  assert (Hj1 : J (disk w1)).
  { destruct (SaveRecipesIndex_cases env cli c w0) as (d & err & Hs1 & Hm).
    rewrite Hidx in Hs1. injection Hs1 as -> <-. cbn [with_disk disk].
    destruct (snd (paprika.Client.Recipes c)); [now destruct Hm|].
    destruct (saveAsJSON_files _ _ _ _ _ Hm) as (_ & _ & Hfile & _).
    now apply Hfile. }
  assert (Hpr : forall ref : paprika.RecipeItem.t,
            P (recipeFile env (DataDir cli) (paprika.RecipeItem.UID ref))).
  { intros ref E. apply Hbase. rewrite <- E. apply recipeFile_basename. }
  pose proof (drain_J env cli c J P HJ _ _ _ _ _ (fun r _ => Hpr r) Hj1 Hd1)
    as Hj2.
  assert (Hj3 : J (disk w3)).
  { destruct k; [now injection Hc as <- _|].
    exact (categoriesTask_J env cmd cli c J P HJ _ _ _ _ Hne Hj2 Hc). }
  exact (drain_J env cli c J P HJ _ _ _ _ _ (fun r _ => Hpr r) Hj3 Hd2).
Qed.

End Index.

End SyncInv.

Module RunInv.
Import FS FSFacts Aux ListingFacts WalkFacts PurgeFacts FSFacts2.
Import PruneFacts PruneMore SyncFacts RunFacts.
Import Store FSFrame PurgeSafety PruneSafety WellFormed SyncInv.

Section Purge.

Context {json : JSON}.
Variables (env : Env) (cmd : SyncCMD) (ctx : Context) (cli : CLI).
Variable pc : paprika.Client.t.

(** The purge keeps the names of every directory distinct. *)
Lemma purgeFn_unique cutoff nowStamp idx path d err w w' r :
  unique_names (disk w) = true ->
  purgeWalkFn env cmd ctx (DataDir cli) cutoff nowStamp idx path (Some d) err w
  = (w', r) ->
  unique_names (disk w') = true.
Proof.
  intros Hu Hfn.
  destruct (purgeFn_effect _ _ _ _ _ _ _ _ _ _ _ _ _ Hfn)
    as [->|(_ & _ & [(_ & _ & ->)|[(_ & ->)|(_ & ->)]])];
    cbn [with_disk disk];
    auto using remove_unique, remove_all_unique, create_excl_unique.
Qed.

Lemma purge_unique now w :
  unique_names (disk w) = true ->
  unique_names
    (disk (fst (PurgeUnreferencedRecipes env cmd ctx (DataDir cli) now w)))
  = true.
Proof.
  intros Hu. unfold PurgeUnreferencedRecipes, bind, reads, FS.open.
  destruct (lookup (pathToRecipesIndexFile env (DataDir cli)) (disk w))
    as [f|]; [|exact Hu].
  destruct (decode_from decode_index f) as [index|e]; [|exact Hu].
  unfold WalkDir, bind, reads.
  destruct (lookup (pathToRecipesDir env (DataDir cli)) (disk w)) as [n|].
  - match goal with
    | |- context [walkDir ?fuel ?p ?d0 ?fn w] =>
        destruct (walkDir fuel p d0 fn w) as [w1 [err|cr]] eqn:Ew;
        pose proof (walkDir_invariant
                      (fun v => unique_names (disk v) = true)
                      (fun _ _ => True) fn
                      (fun q e1 e2 v v' r Hv _ H =>
                         purgeFn_unique _ _ _ q e1 e2 v v' r Hv H)
                      (fun _ _ _ _ _ _ _ _ _ => I)
                      fuel p d0 w w1 _ Hu I Ew) as H1
    end.
    + destruct err as [[]|]; exact H1.
    + exact H1.
  - exact Hu.
Qed.

(** The purge keeps the recipes of the index on the disk in the store. *)
Lemma purge_keeps_backup now w index ref :
  lookup (pathToRecipesIndexFile env (DataDir cli)) (disk w)
  = Some (File (encode_index index)) ->
  option_map (map paprika.RecipeItem.UID) (decode_index (encode_index index))
  = Some (map paprika.RecipeItem.UID index) ->
  In ref index ->
  sharded (pathToRecipesDir env (DataDir cli)) (disk w) = true ->
  backed_up env cli pc w ref ->
  backed_up env cli pc
    (fst (PurgeUnreferencedRecipes env cmd ctx (DataDir cli) now w)) ref.
Proof.
  intros Hopen Hdec Hin Hsh (Hlen & body & Hfile & Hbody).
  split; [exact Hlen|]. exists body. split; [|exact Hbody].
  set (uid := paprika.RecipeItem.UID ref) in *.
  destruct (decode_index (encode_index index)) as [index'|] eqn:Ed;
    [|discriminate].
  cbn [option_map] in Hdec. injection Hdec as Hdec.
  assert (Hidx : indexed uid (map paprika.RecipeItem.UID index') = true).
  { unfold indexed. apply existsb_exists. exists uid. rewrite Hdec.
    split; [now apply in_map|apply String.eqb_refl]. }
  assert (Hi : Inv (pathToRecipesDir env (DataDir cli))
                 [substring 0 2 uid; substring 0 3 uid; uid; filenameRecipeJSON]
                 body w).
  { unfold recipeFile in Hfile. cbn [app] in Hfile.
    rewrite lookup_app in Hfile. unfold sharded in Hsh.
    destruct (lookup (pathToRecipesDir env (DataDir cli)) (disk w)) as [n|]
      eqn:Er; [|discriminate].
    exists n. auto. }
  unfold PurgeUnreferencedRecipes, bind, reads, FS.open.
  rewrite Hopen. unfold decode_from. cbn [read_all]. rewrite Ed.
  match goal with
  | |- context [WalkDir ?r ?fn w] =>
      destruct (WalkDir r fn w) as [w' res] eqn:Ew
  end.
  cbn [fst].
  destruct (purge_WalkDir_keeps env cmd ctx (DataDir cli) _ _ _ uid body Hidx
              w w' res Hi Ew) as (n & Hroot & _ & Hf).
  unfold recipeFile. cbn [app]. now rewrite lookup_app, Hroot.
Qed.

(** The pruner keeps the store. *)
Lemma prune_keeps_backup root w ref :
  unique_names (disk w) = true ->
  backed_up env cli pc w ref ->
  backed_up env cli pc (fst (PruneFilelessSubtrees ctx root w)) ref.
Proof.
  intros Hu (Hlen & body & Hfile & Hbody).
  split; [exact Hlen|]. exists body. split; [|exact Hbody].
  unfold PruneFilelessSubtrees.
  destruct (lookup root (disk w)) as [n|] eqn:Hroot; [|exact Hfile].
  pose proof (pruneRoot_safe ctx root n (unique_names_lookup _ _ _ Hu Hroot))
    as Hk.
  destruct (pruneRoot ctx root n) as [n' err]. cbn [fst disk] in *.
  exact (keeps_files_put root n' (disk w) n Hroot Hk _ body Hfile).
Qed.

(** The second phase of a run keeps the store. *)
Lemma purgePhase_keeps_backup now flag w index ref :
  lookup (pathToRecipesIndexFile env (DataDir cli)) (disk w)
  = Some (File (encode_index index)) ->
  option_map (map paprika.RecipeItem.UID) (decode_index (encode_index index))
  = Some (map paprika.RecipeItem.UID index) ->
  In ref index ->
  unique_names (disk w) = true ->
  sharded (pathToRecipesDir env (DataDir cli)) (disk w) = true ->
  backed_up env cli pc w ref ->
  backed_up env cli pc (fst (purgePhase env cmd ctx cli now flag w)) ref.
Proof.
  intros Hopen Hdec Hin Hu Hsh Hb. unfold purgePhase.
  destruct (negb flag && (0 <=? PurgeAfter cmd)%Z); [|exact Hb].
  pose proof (purge_keeps_backup now w index ref Hopen Hdec Hin Hsh Hb) as H1.
  pose proof (purge_unique now w Hu) as Hu1.
  unfold bind at 1.
  destruct (PurgeUnreferencedRecipes env cmd ctx (DataDir cli) now w)
    as [w1 [[e|]|cr]]; cbn [fst] in *; try exact H1.
  pose proof (prune_keeps_backup (pathToRecipesDir env (DataDir cli)) w1 ref
                Hu1 H1) as H2.
  unfold bind.
  destruct (PruneFilelessSubtrees ctx _ w1) as [w2 [err|cr]]; exact H2.
Qed.

End Purge.

End RunInv.

Module RequestFacts.
Import FS FSFacts Aux ListingFacts WalkFacts PurgeFacts FSFacts2.
Import SyncFacts UpsertFacts FrameFacts PassFacts RunFacts.
Import Store FSFrame PurgeSafety SaveMore SyncMore.

Lemma sent_refl w : sent w w [].
Proof. reflexivity. Qed.

Lemma sent_trans w1 w2 w3 l1 l2 :
  sent w1 w2 l1 -> sent w2 w3 l2 -> sent w1 w3 (l2 ++ l1).
Proof. unfold sent. intros H1 H2. now rewrite H2, H1, app_assoc. Qed.

Lemma saveAsJSON_requests body (path : FS.path) w :
  requests (fst (saveAsJSON body path w)) = requests w.
Proof.
  destruct (saveAsJSON_returns body path w) as (d & err & Hs & _).
  now rewrite Hs.
Qed.

Section Sync.

Context {json : JSON}.
Variables (env : Env) (cmd : SyncCMD) (ctx : Context) (cli : CLI).
Variable c : paprika.Client.t.

Lemma UpsertRecipe_requests ref w w' r :
  UpsertRecipe env cli c ref w = (w', Returned r) ->
  sent w w' [] \/ sent w w' [GET_recipe (paprika.RecipeItem.UID ref)].
Proof.
  intros Hu.
  pose proof (UpsertRecipe_returns_length _ _ _ _ _ _ _ Hu) as Hlen.
  rewrite (UpsertRecipe_cases env cli c ref w Hlen) in Hu. cbv zeta in Hu.
  destruct (negb (fst (decision _ _ (disk w))));
    [injection Hu as <- _; now left|].
  right. unfold sent.
  destruct (paprika.Client.Recipe c _) as [recipe [e|]];
    [now injection Hu as <- _|].
  destruct (negb (paprika.Recipe.UID recipe =? _)); [now injection Hu as <- _|].
  pose proof (saveAsJSON_requests (encode_recipe recipe)
                (recipeFile env (DataDir cli) (paprika.RecipeItem.UID ref))
                (with_request w (GET_recipe (paprika.RecipeItem.UID ref))))
    as Hs.
  destruct (saveAsJSON _ _ _) as [w2 [[e|]|cr]]; cbn [fst] in Hs;
    [| |discriminate]; injection Hu as <- _; exact Hs.
Qed.

Lemma drain_requests queue : forall st w w' st',
  drain env cli c queue st w = (w', Returned st') ->
  exists l, sent w w' l /\ (List.length l <= List.length queue)%nat /\
            Forall (expected_request queue) l.
Proof.
  induction queue as [|ref rest IH]; intros st w w' st' Hd.
  - injection Hd as <- _. exists []. repeat split; auto.
  - rewrite drain_cons in Hd.
    destruct (workItem env cli c ref st w) as [w1 [st1|cr]] eqn:Ew;
      [|discriminate].
    destruct (workItem_cases _ _ _ _ _ _ _ _ Ew) as (saved & err & Hu & _).
    destruct (IH _ _ _ _ Hd) as (l & Hl & Hlen & Hall).
    assert (Hall' : Forall (expected_request (ref :: rest)) l).
    { eapply Forall_impl; [|exact Hall].
      intros r [H|[H|(r0 & Hin & H)]]; [now left|right; now left|].
      right; right. exists r0. split; [now right|exact H]. }
    destruct (UpsertRecipe_requests _ _ _ _ Hu) as [H1|H1].
    + exists (l ++ []). split; [exact (sent_trans _ _ _ _ _ H1 Hl)|].
      rewrite app_nil_r. cbn [List.length]. split; [lia|exact Hall'].
    + exists (l ++ [GET_recipe (paprika.RecipeItem.UID ref)]).
      split; [exact (sent_trans _ _ _ _ _ H1 Hl)|].
      rewrite length_app. cbn [List.length]. split; [lia|].
      apply Forall_app. split; [exact Hall'|]. constructor; [|constructor].
      right; right. exists ref. split; [now left|reflexivity].
Qed.

Lemma categoriesTask_requests st w w' st' :
  categoriesTask env cmd cli c st w = (w', Returned st') ->
  sent w w' [] \/ sent w w' [GET_categories].
Proof.
  intros H. destruct (categoriesTask_cases _ _ _ _ _ _ _ _ H)
    as [[-> _]|(d & err & _ & -> & _)]; [now left|now right].
Qed.

Lemma expected_sub items items' r :
  (forall ref, In ref items -> In ref items') ->
  expected_request items r -> expected_request items' r.
Proof.
  intros Hsub [H|[H|(r0 & Hin & H)]]; [now left|right; now left|].
  right; right. exists r0. auto.
Qed.

(** The requests of the sync phase. *)
Lemma syncPhase_requests k w w' st :
  syncPhase env cmd ctx cli c k w = (w', Returned st) ->
  exists l, sent w w' l /\
    (List.length l <= 2 + List.length (fst (paprika.Client.Recipes c)))%nat /\
    Forall (expected_request (fst (paprika.Client.Recipes c))) l.
Proof.
  intros Hs. destruct (IncludeRecipes cmd) eqn:Hrec.
  2:{ unfold syncPhase in Hs. rewrite Hrec in Hs. cbn [negb] in Hs.
      destruct (categoriesTask_requests _ _ _ _ Hs) as [H|H];
        eexists; (split; [exact H|]); cbn [List.length]; (split; [lia|]);
        auto. constructor; [right; now left|constructor]. }
  destruct (syncPhase_returned env cmd ctx cli c k w w' st Hrec Hs)
    as (w0 & st0 & w1 & err & w2 & st2 & w3 & st3 & H).
  cbv zeta in H. destruct H as (H0 & Hidx & Hd1 & Hc & Hd2 & _).
  set (items := fst (paprika.Client.Recipes c)) in *.
  set (taken := if idle cmd ctx then [] else items) in *.
  assert (Htaken : forall ref, In ref taken -> In ref items).
  { unfold taken. destruct (idle cmd ctx); [intros ? []|auto]. }
  assert (Hlt : (List.length taken <= List.length items)%nat).
  { unfold taken. destruct (idle cmd ctx); cbn [List.length]; lia. }
  (* the categories task runs once, before or after the index *)
  assert (Hcats : exists la lb,
            sent w w0 la /\ sent w2 w3 lb /\
            (List.length la + List.length lb <= 1)%nat /\
            Forall (expected_request items) (la ++ lb)).
  { destruct k as [|k].
    - injection Hc as <- _.
      destruct (categoriesTask_requests _ _ _ _ H0) as [H|H].
      + exists [], []. repeat split; auto.
      + exists [GET_categories], []. repeat split; auto.
        constructor; [right; now left|constructor].
    - injection H0 as <- _.
      destruct (categoriesTask_requests _ _ _ _ Hc) as [H|H].
      + exists [], []. repeat split; auto.
      + exists [], [GET_categories]. repeat split; auto.
        constructor; [right; now left|constructor]. }
  destruct Hcats as (la & lb & Ha & Hb & Hab & Hfab).
  apply Forall_app in Hfab. destruct Hfab as [Hfa Hfb].
  assert (Hi : sent w0 w1 [GET_recipes]).
  { destruct (SaveRecipesIndex_cases env cli c w0) as (d & e & Hs1 & _).
    rewrite Hidx in Hs1. now injection Hs1 as ->. }
  destruct (drain_requests _ _ _ _ _ Hd1) as (l1 & H1 & Hlen1 & Hf1).
  destruct (drain_requests _ _ _ _ _ Hd2) as (l2 & H2 & Hlen2 & Hf2).
  exists (l2 ++ lb ++ l1 ++ [GET_recipes] ++ la). split.
  - unfold sent in *. rewrite H2, Hb, H1, Hi, Ha.
    now rewrite <- !app_assoc.
  - split.
    + rewrite !length_app. cbn [List.length].
      pose proof (firstn_skipn (pred k) taken) as Hsplit.
      apply (f_equal (@List.length _)) in Hsplit. rewrite length_app in Hsplit.
      lia.
    + repeat (apply Forall_app; split); auto.
      * eapply Forall_impl; [|exact Hf2]. intros r. apply expected_sub.
        intros ref Hin. apply Htaken.
        rewrite <- (firstn_skipn (pred k) taken). apply in_or_app. now right.
      * eapply Forall_impl; [|exact Hf1]. intros r. apply expected_sub.
        intros ref Hin. apply Htaken.
        rewrite <- (firstn_skipn (pred k) taken). apply in_or_app. now left.
      * constructor; [now left|constructor].
Qed.

(** The purge and the pruner send nothing. *)
Lemma purge_requests now w :
  requests (fst (PurgeUnreferencedRecipes env cmd ctx (DataDir cli) now w))
  = requests w.
Proof.
  unfold PurgeUnreferencedRecipes, bind, reads, FS.open.
  destruct (lookup (pathToRecipesIndexFile env (DataDir cli)) (disk w))
    as [f|]; [|reflexivity].
  destruct (decode_from decode_index f) as [index|e]; [|reflexivity].
  unfold WalkDir, bind, reads.
  destruct (lookup (pathToRecipesDir env (DataDir cli)) (disk w)) as [n|];
    [|reflexivity].
  match goal with
  | |- context [walkDir ?fuel ?p ?d0 ?fn w] =>
      destruct (walkDir fuel p d0 fn w) as [w1 [err|cr]] eqn:Ew;
      pose proof (walkDir_invariant
                    (fun v => requests v = requests w)
                    (fun _ _ => True) fn
                    (fun q e1 e2 v v' r Hv _ H =>
                       match purgeFn_effect _ _ _ _ _ _ _ q e1 e2 v v' r H
                       with
                       | or_introl E => eq_trans (f_equal requests E) Hv
                       | or_intror (conj _ (conj _ Hx)) =>
                           match Hx with
                           | or_introl (conj _ (conj _ E)) =>
                               eq_trans (f_equal requests E) Hv
                           | or_intror (or_introl (conj _ E)) =>
                               eq_trans (f_equal requests E) Hv
                           | or_intror (or_intror (conj _ E)) =>
                               eq_trans (f_equal requests E) Hv
                           end
                       end)
                    (fun _ _ _ _ _ _ _ _ _ => I)
                    fuel p d0 w w1 _ eq_refl I Ew) as H1
  end.
  - destruct err as [[]|]; exact H1.
  - exact H1.
Qed.

Lemma prune_requests root w :
  requests (fst (PruneFilelessSubtrees ctx root w)) = requests w.
Proof.
  unfold PruneFilelessSubtrees.
  destruct (lookup root (disk w)); [|reflexivity].
  now destruct (pruneRoot ctx root _).
Qed.

Lemma purgePhase_requests now flag w :
  requests (fst (purgePhase env cmd ctx cli now flag w)) = requests w.
Proof.
  unfold purgePhase.
  destruct (negb flag && (0 <=? PurgeAfter cmd)%Z); [|reflexivity].
  pose proof (purge_requests now w) as H1. unfold bind at 1.
  destruct (PurgeUnreferencedRecipes env cmd ctx (DataDir cli) now w)
    as [w1 [[e|]|cr]]; cbn [fst] in *; try exact H1.
  pose proof (prune_requests (pathToRecipesDir env (DataDir cli)) w1) as H2.
  unfold bind.
  destruct (PruneFilelessSubtrees ctx _ w1) as [w2 [err|cr]];
    unfold ret; cbn [fst] in *; congruence.
Qed.

End Sync.

End RequestFacts.

(* ================================================================== *)
(** * A whole purge pass and one recipe directory *)
(* ================================================================== *)

Module PurgePass.
Import FS FSFacts Aux ListingFacts WalkFacts PurgeFacts FSFacts2 PurgeDirectory.
Import PruneFacts PruneMore Store FSFrame PurgeSafety PurgeMore WalkMore.
Import WellFormed RunInv PurgeFrame.

(** ** Operations on one directory and the nodes elsewhere *)

(** An operation on the directory at [p] leaves the node at [q] as it is
    when [q] is not on the way to [p] and the operation leaves the entry on
    the way to [q] alone. *)
Lemma at_dir_keeps p f : forall n (q : path),
  (forall t, p <> q ++ t) ->
  (forall w es x rest,
     q = p ++ x :: rest ->
     lookup_entry x (fst (f w es)) = lookup_entry x es) ->
  lookup q (fst (at_dir p f n)) = lookup q n.
Proof.
  induction p as [|y p IH]; intros [b0|w es] q Hnp Hf; cbn [at_dir fst];
    try reflexivity.
  - destruct q as [|x rest]; [exfalso; now apply (Hnp [])|].
    specialize (Hf w es x rest eq_refl).
    destruct (f w es) as [es' err]. cbn [fst lookup] in *. now rewrite Hf.
  - destruct (lookup_entry y es) as [c0|] eqn:Ey; [|reflexivity].
    destruct q as [|x rest]; [exfalso; now apply (Hnp (y :: p))|].
    specialize (IH c0 rest).
    destruct (at_dir p f c0) as [c0' err]. cbn [fst lookup] in *.
    destruct (String.eqb_spec y x) as [->|Hne].
    + rewrite lookup_entry_set_eq, Ey. apply IH.
      * intros t E. apply (Hnp t). cbn [app]. now rewrite E.
      * intros w0 es0 x0 rest0 E. apply (Hf w0 es0 x0 rest0).
        cbn [app]. now rewrite E.
    + now rewrite (lookup_entry_set_ne _ _ _ _ Hne).
Qed.

(** An operation on the directory at [p] leaves a directory at [q] a
    directory with the permission it has, when [p] is not on the way to
    [q]. *)
Lemma at_dir_keeps_dir p f : forall n (q : path) wq esq,
  (forall x rest, q <> p ++ x :: rest) ->
  lookup q n = Some (Dir wq esq) ->
  exists es', lookup q (fst (at_dir p f n)) = Some (Dir wq es').
Proof.
  induction p as [|y p IH]; intros [b0|w es] q wq esq Hnp Hq;
    cbn [at_dir fst]; eauto.
  - destruct q as [|x rest]; [|exfalso; now apply (Hnp x rest)].
    injection Hq as -> ->. destruct (f wq esq) as [es' err]. cbn [fst lookup].
    eauto.
  - destruct (lookup_entry y es) as [c0|] eqn:Ey; [|eauto].
    specialize (IH c0).
    destruct (at_dir p f c0) as [c0' err]. cbn [fst] in *.
    destruct q as [|x rest].
    + injection Hq as -> ->. cbn [lookup]. eauto.
    + cbn [lookup] in *.
      destruct (String.eqb_spec y x) as [->|Hne].
      * rewrite lookup_entry_set_eq. rewrite Ey in Hq.
        apply (IH rest wq esq); [|exact Hq].
        intros x0 rest0 E. apply (Hnp x0 rest0). cbn [app]. now rewrite E.
      * rewrite (lookup_entry_set_ne _ _ _ _ Hne). eauto.
Qed.

(** An operation on a directory that is not there changes nothing. *)
Lemma at_dir_fails p f : forall n,
  (forall w es, lookup p n <> Some (Dir w es)) ->
  fst (at_dir p f n) = n.
Proof.
  induction p as [|y p IH]; intros [b0|w es] Hn; cbn [at_dir fst];
    try reflexivity.
  - exfalso. now apply (Hn w es).
  - destruct (lookup_entry y es) as [c0|] eqn:Ey; [|reflexivity].
    specialize (IH c0). cbn [lookup] in Hn. rewrite Ey in Hn.
    specialize (IH Hn). destruct (at_dir p f c0) as [c0' err].
    cbn [fst] in *. subst c0'. unfold set_entry. rewrite Ey.
    now rewrite replace_entry_same.
Qed.

(** An operation that leaves the entries as they are changes nothing. *)
Lemma at_dir_same p (f : bool -> entries -> entries * option error) n w es :
  lookup p n = Some (Dir w es) -> fst (f w es) = es ->
  fst (at_dir p f n) = n.
Proof.
  intros Hl Hf. rewrite (at_dir_put p f n w es Hl), Hf.
  now apply put_same.
Qed.

Lemma lookup_prefix (p : path) x rest : forall n c,
  lookup (p ++ x :: rest) n = Some c ->
  exists w es c0,
    lookup p n = Some (Dir w es) /\ lookup_entry x es = Some c0 /\
    lookup rest c0 = Some c.
Proof.
  intros n c H. rewrite lookup_app in H.
  destruct (lookup p n) as [[b|w es]|]; try discriminate.
  cbn [lookup] in H.
  destruct (lookup_entry x es) as [c0|] eqn:Ex; [|discriminate].
  now exists w, es, c0.
Qed.

(** A subtree at depth [k] is at least [k] lower than the tree. *)
Lemma lookup_depth (p : path) : forall n c,
  lookup p n = Some c -> (List.length p + height c <= height n)%nat.
Proof.
  induction p as [|x p IH]; intros n c H; cbn [lookup List.length] in *.
  - injection H as <-. lia.
  - destruct n as [b|w es]; [discriminate|].
    destruct (lookup_entry x es) as [c0|] eqn:Ex; [|discriminate].
    specialize (IH _ _ H).
    pose proof (height_entry es _ (lookup_entry_In _ _ _ Ex)) as Hh.
    cbn [snd height] in *. lia.
Qed.

(** ** Listings of a directory with distinct names *)

Lemma In_insert_sorted_names d l y :
  In y (map Name (insert_sorted d l)) <-> y = Name d \/ In y (map Name l).
Proof.
  induction l as [|d' l IH]; cbn [insert_sorted map In].
  - intuition.
  - destruct (Name d <=? Name d'); cbn [map In]; [intuition|].
    rewrite IH. intuition.
Qed.

Lemma NoDup_insert_sorted d l :
  ~ In (Name d) (map Name l) -> NoDup (map Name l) ->
  NoDup (map Name (insert_sorted d l)).
Proof.
  induction l as [|d' l IH]; cbn [insert_sorted map].
  - intros _ _. constructor; [easy|constructor].
  - intros Hx Hnd. inversion Hnd as [|? ? Hn Hrest]; subst.
    destruct (Name d <=? Name d'); cbn [map].
    + constructor; [exact Hx|exact Hnd].
    + constructor.
      * rewrite In_insert_sorted_names. cbn [In] in Hx.
        intros [E|H]; [rewrite E in Hx|]; tauto.
      * apply IH; [|exact Hrest]. cbn [In] in Hx. tauto.
Qed.

Lemma In_sort_names l y :
  In y (map Name (sort_entries l)) <-> In y (map Name l).
Proof.
  induction l as [|d l IH]; cbn [sort_entries fold_right map In]; [tauto|].
  fold (sort_entries l). rewrite In_insert_sorted_names, IH.
  intuition.
Qed.

Lemma NoDup_sort_names l :
  NoDup (map Name l) -> NoDup (map Name (sort_entries l)).
Proof.
  induction l as [|d l IH]; cbn [sort_entries fold_right map];
    [auto|].
  fold (sort_entries l). intros H. inversion H as [|? ? Hx Hrest]; subst.
  apply NoDup_insert_sorted; [|auto]. now rewrite In_sort_names.
Qed.

Lemma map_Name_dirent es : map Name (map dirent es) = map fst es.
Proof. rewrite map_map. reflexivity. Qed.

(** The listing of a directory with distinct names, cut at the directory
    [x]: no other entry is called [x]. *)
Lemma listing_at es x c :
  NoDup (map fst es) -> lookup_entry x es = Some c ->
  exists pre post,
    sort_entries (map dirent es)
    = pre ++ {| Name := x; IsDir := is_dir c |} :: post /\
    (forall d1, In d1 (pre ++ post) ->
       Name d1 <> x /\ exists c1, lookup_entry (Name d1) es = Some c1 /\
                                 IsDir d1 = is_dir c1).
Proof.
  intros Hnd Hx.
  assert (Hin : In (dirent (x, c)) (sort_entries (map dirent es))).
  { apply In_sort_entries. apply in_map. now apply lookup_entry_In. }
  apply in_split in Hin as (pre & post & E). exists pre, post.
  split; [exact E|].
  assert (Hn : NoDup (map Name (sort_entries (map dirent es)))).
  { apply NoDup_sort_names. now rewrite map_Name_dirent. }
  rewrite E, map_app in Hn. cbn [map dirent Name fst] in Hn.
  apply NoDup_remove_2 in Hn. intros d1 Hd1. split.
  - intros Eq. apply Hn. rewrite <- Eq, <- map_app. now apply in_map.
  - assert (Hd : In d1 (sort_entries (map dirent es))).
    { rewrite E. apply in_app_or in Hd1. apply in_or_app.
      destruct Hd1; [now left|right; now right]. }
    apply (proj1 (In_sort_entries _ _)) in Hd.
    apply (proj1 (in_map_iff _ _ _)) in Hd. destruct Hd as ([y c1] & <- & He).
    exists c1. cbn [dirent Name IsDir fst snd]. split; [|reflexivity].
    now apply In_lookup_entry.
Qed.

(** ** What a walk returns *)

Lemma walkRange_result fuel path fn : forall l w w' e,
  walkRange fuel path fn l w = (w', Returned (Some e)) -> e <> SkipDir.
Proof.
  induction l as [|d l IH]; intros w w' e; [discriminate|].
  rewrite walkRange_cons.
  destruct (walkDir fuel (path ++ [Name d]) d fn w) as [w1 [[e1|]|cr]];
    [|apply IH|discriminate].
  destruct e1; try discriminate; intros [= _ <-]; discriminate.
Qed.

(** The walk of a directory never returns [SkipDir]. *)
Lemma walkDir_dir_result fuel path d fn w w' e :
  IsDir d = true ->
  walkDir fuel path d fn w = (w', Returned (Some e)) -> e <> SkipDir.
Proof.
  intros Hd. destruct fuel as [|fuel]; [discriminate|].
  rewrite walkDir_S. unfold bind at 1.
  destruct (fn path (Some d) None w) as [w1 [err|cr]]; [|discriminate].
  rewrite Hd. cbn [negb]. rewrite orb_false_r.
  destruct err as [e1|]; cbn [is_nil negb].
  - destruct e1; unfold ret; try discriminate; intros [= _ <-]; discriminate.
  - unfold bind, reads.
    destruct (read_dir path (disk w1)) as [dirs|e1].
    + apply walkRange_result.
    + destruct (fn path (Some d) (Some e1) w1) as [w2 [[e2|]|cr]];
        try discriminate.
      destruct e2; unfold ret; try discriminate; intros [= _ <-];
        discriminate.
Qed.

Section Loop.

Variables (I : World -> Prop) (R : path -> DirEntry -> Prop).
Variable fn : WalkDirFunc.

Hypothesis fn_keeps : forall path d err w w' r,
  I w -> R path d -> fn path (Some d) err w = (w', r) -> I w'.

Hypothesis listing_keeps : forall path d w dirs d1,
  I w -> R path d -> read_dir path (disk w) = inl dirs -> In d1 dirs ->
  R (path ++ [Name d1]) d1.

(** The loop over entries keeps what every walk keeps. *)
Lemma walkRange_invariant fuel path : forall l w w' r,
  I w -> (forall d1, In d1 l -> R (path ++ [Name d1]) d1) ->
  walkRange fuel path fn l w = (w', r) -> I w'.
Proof.
  induction l as [|d l IH]; intros w w' r Hi Hall.
  - cbn. unfold ret. now intros [= <- _].
  - rewrite walkRange_cons.
    destruct (walkDir fuel (path ++ [Name d]) d fn w) as [w1 [err|cr]] eqn:E.
    + pose proof (walkDir_invariant I R fn fn_keeps listing_keeps _ _ _ _ _ _
                    Hi (Hall d (or_introl eq_refl)) E) as Hi1.
      destruct err as [e|].
      * destruct e; intros [= <- _]; exact Hi1.
      * apply (IH _ _ _ Hi1). intros d1 Hd1. apply Hall. now right.
    + intros [= <- _].
      exact (walkDir_invariant I R fn fn_keeps listing_keeps _ _ _ _ _ _
               Hi (Hall d (or_introl eq_refl)) E).
Qed.

(** A loop that ends without error has gone through every entry none of
    which ends the walk of the directory. *)
Lemma walkRange_through fuel path : forall pre rest w w',
  I w ->
  (forall d1, In d1 pre ->
     R (path ++ [Name d1]) d1 /\
     forall v v' e,
       walkDir fuel (path ++ [Name d1]) d1 fn v = (v', Returned (Some e)) ->
       e <> SkipDir) ->
  walkRange fuel path fn (pre ++ rest) w = (w', Returned None) ->
  exists w1, I w1 /\ walkRange fuel path fn rest w1 = (w', Returned None).
Proof.
  induction pre as [|d pre IH]; intros rest w w' Hi Hall; [eauto|].
  cbn [app]. rewrite walkRange_cons.
  destruct (Hall d (or_introl eq_refl)) as [Hr Hskip].
  destruct (walkDir fuel (path ++ [Name d]) d fn w) as [w1 [err|cr]] eqn:E;
    [|discriminate].
  pose proof (walkDir_invariant I R fn fn_keeps listing_keeps _ _ _ _ _ _
                Hi Hr E) as Hi1.
  destruct err as [e|].
  - pose proof (Hskip _ _ _ E) as Hne.
    destruct e; try discriminate. congruence.
  - apply (IH _ _ _ Hi1). intros d1 Hd1. apply Hall. now right.
Qed.

End Loop.

(** ** What the function handed to the walk does *)

Section Effects.

Variables (env : Env) (cmd : SyncCMD) (dataDir : FS.path).
Variables (cutoff : time.Time) (nowStamp : string) (idx : list string).

Let root := pathToRecipesDir env dataDir.
Let fn := purgeWalkFn env cmd false dataDir cutoff nowStamp idx.

(** The effects of the function handed to the walk, as operations on one
    directory two levels or more below the root. *)
Lemma purgeFn_at path d err w w' r :
  Walked root path d ->
  fn path (Some d) err w = (w', r) ->
  w' = w \/
  exists q0 y f,
    w' = with_disk w (fst (at_dir (root ++ q0) f (disk w))) /\
    (2 <= List.length q0)%nat /\
    (forall x w0 es,
       x <> y -> lookup_entry x (fst (f w0 es)) = lookup_entry x es) /\
    (forall w0 es,
       clean_above (3 - List.length q0) (Dir w0 es) = true ->
       clean_above (3 - List.length q0) (Dir w0 (fst (f w0 es))) = true) /\
    ((exists x, path = root ++ q0 ++ [y; x]) \/
     (exists x, path = root ++ q0 ++ [x] /\ (3 <= List.length q0)%nat) \/
     (indexed (basename (dirname path)) idx = false /\
      q0 = [substring 0 2 (basename (dirname path));
            substring 0 3 (basename (dirname path));
            basename (dirname path)] /\
      f = create_excl_in filenameRecipeDeleteMarker nowStamp)).
Proof.
  intros (q & Hpath & Hq0 & Hbase & Hshard) Hfn.
  apply purgeFn_effect in Hfn.
  destruct Hfn as [->|(Hd & Hn & Hcase)]; [now left|]. right.
  assert (Hq : q <> []) by (intros ->; rewrite Hq0 in Hd; congruence).
  assert (Hlen : (3 < List.length q)%nat).
  { destruct (Nat.leb_spec (List.length q) 3) as [Hle|]; [|lia].
    rewrite (Hshard Hle Hd) in Hn. discriminate. }
  rewrite (path_split q Hq), app_assoc in Hpath.
  set (q1 := dirname q) in *. set (x := basename q) in *.
  assert (Hlen1 : (3 <= List.length q1)%nat).
  { assert (List.length q = S (List.length q1)).
    { rewrite (path_split q Hq). fold q1 x. rewrite length_app. cbn. lia. }
    lia. }
  subst path. rewrite dirname_snoc in *.
  destruct Hcase as [(Hix & Hm & ->)|[(Hix & ->)|(Hix & ->)]].
  - (* the marker of an indexed directory is unlinked *)
    exists q1, x, (remove_in x). rewrite remove_snoc.
    split; [reflexivity|]. split; [lia|]. split.
    { intros x0 w0 es Hne. apply remove_in_other. congruence. }
    split.
    { intros w0 es _.
      replace (3 - List.length q1)%nat with 0%nat by lia. reflexivity. }
    right; left. exists x. split; [now rewrite <- app_assoc|exact Hlen1].
  - (* a directory that is not indexed is removed *)
    assert (Hq1 : q1 <> []) by (intros E; rewrite E in Hlen1; cbn in Hlen1; lia).
    rewrite (path_split q1 Hq1), app_assoc, remove_all_snoc.
    set (q0 := dirname q1) in *. set (y := basename q1) in *.
    assert (Hlen0 : List.length q1 = S (List.length q0)).
    { rewrite (path_split q1 Hq1). fold q0 y. rewrite length_app. cbn. lia. }
    exists q0, y, (remove_all_in y).
    split; [reflexivity|]. split; [lia|]. split.
    { intros x0 w0 es Hne. apply remove_all_in_other. congruence. }
    split.
    { intros w0 es Hc.
      destruct (3 - List.length q0)%nat as [|[|k]] eqn:Ek; [reflexivity| |lia].
      now apply remove_all_in_clean1. }
    left. exists x. now rewrite <- !app_assoc.
  - (* the marker of a directory that is not indexed is created *)
    rewrite create_excl_snoc. fold root.
    eexists _, filenameRecipeDeleteMarker, _.
    split; [reflexivity|]. split; [cbn; lia|]. split.
    { intros x0 w0 es Hne. apply create_excl_in_other. congruence. }
    split; [intros w0 es _; reflexivity|].
    right; right. auto.
Qed.

End Effects.

(** ** The purge around one recipe directory *)

Section Around.

Variables (env : Env) (cmd : SyncCMD) (dataDir : FS.path).
Variables (cutoff : time.Time) (nowStamp : string) (idx : list string).
Variables (drel : path) (wp : bool).

Hypothesis Hdrel : List.length drel = 3%nat.

Let root := pathToRecipesDir env dataDir.
Let fn := purgeWalkFn env cmd false dataDir cutoff nowStamp idx.

Lemma Apart_Walked path d : Apart root drel path d -> Walked root path d.
Proof.
  intros (q & Hp & Hq & Hb & Hs & _). exists q. repeat split; auto.
Qed.

(** Every call of the function keeps the names distinct, the layout in
    shards and the directory above the recipe directory a directory. *)
Lemma purgeFn_kept path d err w w' r :
  Kept root drel wp w -> Walked root path d ->
  fn path (Some d) err w = (w', r) -> Kept root drel wp w'.
Proof.
  intros (Hu & (n & Hroot & Hclean) & (pes & Hpar)) Hw Hfn.
  split; [|split].
  - exact (purgeFn_unique env cmd false {| DataDir := dataDir |} cutoff
             nowStamp idx path d err w w' r Hu Hfn).
  - destruct (purgeFn_at env cmd dataDir cutoff nowStamp idx _ _ _ _ _ _ Hw Hfn)
      as [->|(q0 & y & f & -> & Hlen & _ & Hc & _)]; [eauto|].
    destruct (at_dir_app root q0 f _ _ Hroot) as [H1 _].
    exists (fst (at_dir q0 f n)). cbn [with_disk disk]. split; [exact H1|].
    apply at_dir_clean; [exact Hclean|]. intros w0 es _. apply Hc.
  - destruct (purgeFn_at env cmd dataDir cutoff nowStamp idx _ _ _ _ _ _ Hw Hfn)
      as [->|(q0 & y & f & -> & Hlen & _ & _ & _)]; [eauto|].
    cbn [with_disk disk].
    apply (at_dir_keeps_dir _ f _ _ wp pes); [|exact Hpar].
    intros x0 rest E.
    assert (Hd : drel <> []) by (intros E0; rewrite E0 in Hdrel; discriminate).
    rewrite (dirname_app root drel Hd) in E.
    rewrite <- app_assoc in E. apply app_inv_head in E.
    assert (Hl : List.length (dirname drel) = 2%nat).
    { pose proof (f_equal (@List.length _) (path_split drel Hd)) as E1.
      rewrite length_app in E1. cbn [List.length] in E1. lia. }
    rewrite E, length_app in Hl. cbn [List.length] in Hl. lia.
Qed.

Lemma walked_listing path d w dirs d1 :
  Kept root drel wp w -> Walked root path d ->
  read_dir path (disk w) = inl dirs -> In d1 dirs ->
  Walked root (path ++ [Name d1]) d1.
Proof.
  intros (_ & (n & Hroot & Hclean) & _) (q & -> & _) Hrd Hin.
  unfold read_dir in Hrd.
  destruct (lookup (root ++ q) (disk w)) as [[b0|w0 es]|] eqn:El;
    try discriminate.
  injection Hrd as <-. apply (proj1 (In_sort_entries _ _)) in Hin.
  apply (proj1 (in_map_iff _ _ _)) in Hin. destruct Hin as (e & <- & He).
  exists (q ++ [fst e]). cbn [Name IsDir]. rewrite <- app_assoc.
  split; [reflexivity|]. split; [now destruct q|]. split.
  { intros _. now rewrite app_assoc, basename_snoc. }
  rewrite length_app. cbn [List.length]. intros Hle Hfile_e.
  rewrite lookup_app, Hroot in El.
  destruct (snd e) as [b1|w1 es1] eqn:Es; [|discriminate].
  apply (clean_above_entries q 3 n w0 es e b1); auto. lia.
Qed.

Lemma kept_walk fuel path d w w' r :
  Kept root drel wp w -> Walked root path d ->
  walkDir fuel path d fn w = (w', r) -> Kept root drel wp w'.
Proof.
  apply (walkDir_invariant (Kept root drel wp) (Walked root) fn).
  - exact purgeFn_kept.
  - exact walked_listing.
Qed.

(** A call of the function away from the recipe directory leaves what lies
    at the directory as it is. *)
Lemma purgeFn_around s (Hsh : shielded idx drel s) path d err w w' r :
  Around root drel wp s w -> Apart root drel path d ->
  fn path (Some d) err w = (w', r) -> Around root drel wp s w'.
Proof.
  intros [Hk Hs] Ha Hfn. split.
  { exact (purgeFn_kept _ _ _ _ _ _ Hk (Apart_Walked _ _ Ha) Hfn). }
  destruct (purgeFn_at env cmd dataDir cutoff nowStamp idx _ _ _ _ _ _
              (Apart_Walked _ _ Ha) Hfn)
    as [->|(q0 & y & f & -> & Hlen & Hother & _ & Hcase)]; [exact Hs|].
  destruct Ha as (q & Hpath & Hq & _ & _ & Hout & Hup).
  cbn [with_disk disk]. fold root in Hcase |- *.
  destruct Hcase as [[x E]|[[x [E Hl3]]|(Hix & Hq0 & Hf)]].
  - (* a directory is removed *)
    rewrite <- Hs. apply at_dir_keeps.
    + intros t Et. rewrite <- app_assoc in Et. apply app_inv_head in Et.
      rewrite Hpath in E. apply app_inv_head in E.
      apply (Hout (t ++ [y; x])). rewrite E, Et. now rewrite <- app_assoc.
    + intros w0 es x0 rest Et. apply Hother. intros <-.
      rewrite <- app_assoc in Et. apply app_inv_head in Et.
      rewrite Hpath in E. apply app_inv_head in E.
      assert (Hr : rest = []).
      { pose proof (f_equal (@List.length _) Et) as El.
        rewrite Hdrel, length_app in El. cbn [List.length] in El.
        destruct rest; [reflexivity|]. cbn [List.length] in El. lia. }
      subst rest. apply (Hout [x]). rewrite E, Et.
      now rewrite <- app_assoc.
  - (* a marker is unlinked *)
    rewrite <- Hs. apply at_dir_keeps.
    + intros t Et. rewrite <- app_assoc in Et. apply app_inv_head in Et.
      rewrite Hpath in E. apply app_inv_head in E.
      apply (Hout (t ++ [x])). rewrite E, Et. now rewrite <- app_assoc.
    + intros w0 es x0 rest Et.
      rewrite <- app_assoc in Et. apply app_inv_head in Et.
      pose proof (f_equal (@List.length _) Et) as El.
      rewrite Hdrel, length_app in El. cbn [List.length] in El. lia.
  - (* a marker is created at the place of a name *)
    subst f.
    destruct (list_eq_dec string_dec q0 drel) as [Eq|Hne].
    + rewrite Eq.
      assert (Hb : basename drel = basename (dirname path)).
      { rewrite <- Eq, Hq0. reflexivity. }
      destruct Hsh as [->|[Hi|(wd & es & c & -> & Hm)]].
      * rewrite at_dir_fails; [exact Hs|]. intros w0 es. now rewrite Hs.
      * rewrite Hb in Hi. congruence.
      * rewrite (at_dir_same _ _ _ wd es Hs); [exact Hs|].
        unfold create_excl_in. now rewrite Hm.
    + rewrite <- Hs. apply at_dir_keeps.
      * intros t Et. rewrite <- app_assoc in Et. apply app_inv_head in Et.
        pose proof (f_equal (@List.length _) Et) as El.
        rewrite length_app, Hdrel, Hq0 in El. cbn [List.length] in El.
        destruct t; [|cbn [List.length] in El; lia].
        rewrite app_nil_r in Et. contradiction.
      * intros w0 es x0 rest Et.
        rewrite <- app_assoc in Et. apply app_inv_head in Et.
        pose proof (f_equal (@List.length _) Et) as El.
        rewrite Hdrel, length_app, Hq0 in El. cbn [List.length] in El. lia.
Qed.

Lemma apart_listing s path d w dirs d1 :
  Around root drel wp s w -> Apart root drel path d ->
  read_dir path (disk w) = inl dirs -> In d1 dirs ->
  Apart root drel (path ++ [Name d1]) d1.
Proof.
  intros [Hk _] Ha Hrd Hin.
  destruct (walked_listing _ _ _ _ _ Hk (Apart_Walked _ _ Ha) Hrd Hin)
    as (q' & Hp' & _ & Hb' & Hs').
  destruct Ha as (q & -> & Hq & _ & _ & Hout & Hup).
  rewrite <- app_assoc in Hp'. apply app_inv_head in Hp'. subst q'.
  exists (q ++ [Name d1]). rewrite <- app_assoc.
  split; [reflexivity|]. split; [now destruct q|].
  split; [rewrite app_assoc; apply basename_snoc|].
  split; [exact Hs'|]. split.
  - intros t E.
    destruct (list_eq_dec string_dec t []) as [->|Ht].
    + rewrite app_nil_r in E. apply (Hup [Name d1]). now rewrite E.
    + rewrite (path_split t Ht), app_assoc in E.
      apply app_inj_tail in E as [E _]. now apply (Hout (dirname t)).
  - intros t E. apply (Hup (Name d1 :: t)). now rewrite <- app_assoc in E.
Qed.

(** One level of the descent: the walk of a directory on the way to the
    recipe directory, when it ends without error, has walked the next
    directory on the way, and what it did before and after kept what lies
    at the recipe directory. *)
Lemma descend_step q x rest fuel d w w' nD :
  drel = q ++ x :: rest ->
  IsDir d = true -> is_dir nD = true ->
  shielded idx drel (Some nD) ->
  Around root drel wp (Some nD) w ->
  walkDir (S fuel) (root ++ q) d fn w = (w', Returned None) ->
  exists w1 w2,
    Around root drel wp (Some nD) w1 /\
    walkDir fuel (root ++ q ++ [x]) {| Name := x; IsDir := true |} fn w1
    = (w2, Returned None) /\
    (forall s, shielded idx drel s ->
               Around root drel wp s w2 -> Around root drel wp s w').
Proof.
  intros Hd Hdir HnD Hsh Ha Hwalk.
  pose proof Ha as [(Hu & (n & Hroot & Hclean) & _) Hs].
  assert (Hs' := Hs). rewrite Hd, app_assoc in Hs'.
  destruct (lookup_prefix _ _ _ _ _ Hs') as (wq & esq & c0 & Hq & Hx & Hrest).
  assert (Hc0 : is_dir c0 = true).
  { destruct rest as [|z rest]; [now injection Hrest as ->|].
    destruct c0; [discriminate|reflexivity]. }
  assert (Hnd : NoDup (map fst esq)).
  { pose proof (unique_names_lookup _ _ _ Hu Hq) as Hq'.
    now apply unique_names_Dir in Hq'. }
  destruct (listing_at esq x c0 Hnd Hx) as (pre & post & El & Hothers).
  rewrite Hc0 in El.
  assert (Hfn0 : fn (root ++ q) (Some d) None w = (w, Returned None))
    by now apply purgeFn_dir.
  rewrite (walkDir_dir _ _ _ _ _ wq esq Hfn0 Hdir Hq), El in Hwalk.
  assert (Hlenq : (List.length q <= 2)%nat).
  { pose proof (f_equal (@List.length _) Hd) as E.
    rewrite Hdrel, length_app in E. cbn [List.length] in E. lia. }
  assert (Hap : forall d1, In d1 (pre ++ post) ->
                           Apart root drel ((root ++ q) ++ [Name d1]) d1).
  { intros d1 Hd1. destruct (Hothers d1 Hd1) as (Hne & c1 & Hc1 & Hisd).
    exists (q ++ [Name d1]). rewrite <- app_assoc.
    split; [reflexivity|]. split; [now destruct q|].
    split; [rewrite app_assoc; apply basename_snoc|]. split.
    - rewrite length_app. cbn [List.length]. intros _ Hf.
      rewrite lookup_app, Hroot in Hq.
      destruct c1 as [b1|w1 es1]; [|rewrite Hisd in Hf; discriminate].
      apply (clean_above_entries q 3 n wq esq (Name d1, File b1) b1); auto.
      + lia.
      + now apply lookup_entry_In.
    - split; intros t E; rewrite Hd, <- !app_assoc in E;
        apply app_inv_head in E; cbn [app] in E; congruence. }
  destruct (walkRange_through (Around root drel wp (Some nD))
              (Apart root drel) fn
              (purgeFn_around (Some nD) Hsh)
              (apart_listing (Some nD))
              fuel (root ++ q) pre
              ({| Name := x; IsDir := true |} :: post) w w' Ha)
    as (w1 & Ha1 & Hrest1);
    [|exact Hwalk|].
  { intros d1 Hd1.
    assert (Hin : In d1 (pre ++ post)) by (apply in_or_app; now left).
    split; [now apply Hap|]. intros v v' e Hv.
    destruct (IsDir d1) eqn:Ed1.
    - exact (walkDir_dir_result _ _ _ _ _ _ _ Ed1 Hv).
    - destruct fuel as [|fuel]; [discriminate|].
      rewrite walkDir_file in Hv by exact Ed1.
      destruct (Hap d1 Hin) as (q' & Hq' & _ & _ & Hs1 & _).
      rewrite <- app_assoc in Hq'. apply app_inv_head in Hq'. subst q'.
      assert (Hm : marker_or_recipe (Name d1) = false).
      { apply Hs1; [|exact Ed1]. rewrite length_app. cbn [List.length]. lia. }
      unfold marker_or_recipe in Hm. apply orb_false_elim in Hm as [H1 H2].
      apply String.eqb_neq in H1, H2.
      unfold fn in Hv. rewrite (purgeFn_other _ _ _ _ _ _ _ _ _ Ed1 H1 H2) in Hv.
      discriminate. }
  rewrite walkRange_cons in Hrest1. cbn [Name] in Hrest1.
  rewrite <- app_assoc in Hrest1.
  destruct (walkDir fuel (root ++ q ++ [x]) {| Name := x; IsDir := true |}
              fn w1) as [w2 [[e|]|cr]] eqn:Ex; [| |discriminate].
  { pose proof (walkDir_dir_result _ _ {| Name := x; IsDir := true |}
                  _ _ _ _ eq_refl Ex) as Hne.
    destruct e; try discriminate. congruence. }
  exists w1, w2. split; [exact Ha1|]. split; [exact Ex|].
  intros s Hss Ha2.
  apply (walkRange_invariant (Around root drel wp s) (Apart root drel) fn
           (purgeFn_around s Hss) (apart_listing s)
           fuel (root ++ q) post w2 w' (Returned None) Ha2);
    [|exact Hrest1].
  intros d1 Hd1. apply Hap. apply in_or_app. now right.
Qed.

(** The descent from a directory on the way down to the recipe
    directory. *)
Lemma descend rest : forall q x fuel d w w' nD,
  drel = q ++ x :: rest ->
  IsDir d = true -> is_dir nD = true ->
  shielded idx drel (Some nD) ->
  Around root drel wp (Some nD) w ->
  walkDir (S (List.length rest + fuel)) (root ++ q) d fn w
  = (w', Returned None) ->
  exists wa wb,
    Around root drel wp (Some nD) wa /\
    walkDir fuel (root ++ drel) {| Name := basename drel; IsDir := true |}
      fn wa = (wb, Returned None) /\
    (forall s, shielded idx drel s ->
               Around root drel wp s wb -> Around root drel wp s w').
Proof.
  induction rest as [|z rest IH]; intros q x fuel d w w' nD Hd Hdir HnD Hsh Ha
    Hwalk.
  - cbn [List.length Nat.add] in Hwalk.
    destruct (descend_step q x [] fuel d w w' nD Hd Hdir HnD Hsh Ha Hwalk)
      as (w1 & w2 & Ha1 & Hx & Hafter).
    exists w1, w2. split; [exact Ha1|]. split; [|exact Hafter].
    rewrite Hd, basename_snoc. exact Hx.
  - cbn [List.length Nat.add] in Hwalk.
    destruct (descend_step q x (z :: rest) _ d w w' nD Hd Hdir HnD Hsh Ha
                Hwalk) as (w1 & w2 & Ha1 & Hx & Hafter).
    assert (Hd' : drel = (q ++ [x]) ++ z :: rest)
      by (rewrite Hd, <- app_assoc; reflexivity).
    destruct (IH (q ++ [x]) z fuel {| Name := x; IsDir := true |} w1 w2 nD
                Hd' eq_refl HnD Hsh Ha1 Hx)
      as (wa & wb & Haa & HD & Hafter').
    exists wa, wb. split; [exact Haa|]. split; [exact HD|].
    intros s Hss Hb. apply (Hafter s Hss). now apply Hafter'.
Qed.

(** A walk over the recipes root that ends without error has walked the
    recipe directory, and what it did before and after kept what lies
    there. *)
Lemma WalkDir_visits w w' nD :
  is_dir nD = true ->
  shielded idx drel (Some nD) ->
  Around root drel wp (Some nD) w ->
  WalkDir root fn w = (w', Returned None) ->
  exists wa wb fuel,
    Around root drel wp (Some nD) wa /\
    walkDir (S (S fuel)) (root ++ drel)
      {| Name := basename drel; IsDir := true |} fn wa
    = (wb, Returned None) /\
    Kept root drel wp wb /\
    (forall s, shielded idx drel s ->
               Around root drel wp s wb -> Around root drel wp s w').
Proof.
  intros HnD Hsh Ha Hwalk.
  pose proof Ha as [(Hu & (n & Hroot & Hclean) & _) Hs].
  assert (Hex : exists a b u, drel = [a; b; u]).
  { generalize Hdrel. generalize drel.
    intros [|a [|b [|u [|? ?]]]]; try discriminate. eauto. }
  destruct Hex as (a & b & u & Edrel).
  assert (Hn : is_dir n = true).
  { rewrite lookup_app, Hroot, Edrel in Hs.
    destruct n; [discriminate|reflexivity]. }
  pose proof (lookup_depth _ _ _ Hs) as Hh.
  rewrite length_app, Hdrel in Hh.
  assert (HhD : (1 <= height nD)%nat).
  { destruct nD; [discriminate|]. cbn [height]. lia. }
  unfold WalkDir, bind, reads in Hwalk. rewrite Hroot, Hn in Hwalk.
  destruct (walkDir (S (height (disk w))) root
              {| Name := basename root; IsDir := true |} fn w)
    as [w1 [[e|]|cr]] eqn:Ew; [| |discriminate].
  { pose proof (walkDir_dir_result _ _
                  {| Name := basename root; IsDir := true |}
                  _ _ _ _ eq_refl Ew) as Hne.
    destruct e; try discriminate. congruence. }
  injection Hwalk as <-.
  assert (Ef : S (height (disk w))
               = S (List.length [b; u] + S (S (height (disk w) - 4)))).
  { cbn [List.length]. lia. }
  rewrite Ef in Ew. rewrite <- (app_nil_r root) in Ew at 1.
  destruct (descend [b; u] [] a _
              {| Name := basename root; IsDir := true |} w w1 nD Edrel
              eq_refl HnD Hsh Ha Ew)
    as (wa & wb & Haa & HD & Hafter).
  exists wa, wb, (height (disk w) - 4)%nat.
  split; [exact Haa|]. split; [exact HD|]. split; [|exact Hafter].
  apply (kept_walk _ _ _ _ _ _ (proj1 Haa)) in HD; [exact HD|].
  exists drel. split; [reflexivity|]. split; [rewrite Edrel; discriminate|].
  split.
  - intros _. rewrite Edrel.
    change [a; b; u] with ([a; b] ++ [u]).
    now rewrite app_assoc, basename_snoc.
  - cbn [IsDir]. discriminate.
Qed.

End Around.

(** Reading a marker depends on the file only. *)
Lemma readTimestampMarker_same path layout w v r :
  lookup path (disk v) = lookup path (disk w) ->
  readTimestampMarker path layout w = (w, Returned r) ->
  readTimestampMarker path layout v = (v, Returned r).
Proof.
  unfold readTimestampMarker, bind, reads, FS.open. intros ->.
  destruct (lookup path (disk w)) as [f|]; unfold ret.
  - destruct (file_Read f _); intros [= <-]; reflexivity.
  - intros [= <-]. reflexivity.
Qed.

End PurgePass.

(* ================================================================== *)
(** * The error flag and the errors of the sync phase *)
(* ================================================================== *)

Module SyncErrors.
Import FS FSFacts Aux SyncFacts UpsertFacts PassFacts RunFacts.
Import Store SyncMore.

Section Flag.

Context {json : JSON}.
Variables (env : Env) (cmd : SyncCMD) (ctx : Context) (cli : CLI).
Variable pc : paprika.Client.t.

Lemma failed_app l1 l2 : failed (l1 ++ l2) = failed l1 || failed l2.
Proof. destruct l1; reflexivity. Qed.

Lemma failed_errs o : failed (errs o) = negb (is_nil o).
Proof. destruct o; reflexivity. Qed.

Lemma failed_nil l : failed l = false <-> l = [].
Proof. destruct l; cbn [failed]; split; congruence. Qed.

(** The workers set the flag when one of their references fails, and only
    then. *)
Lemma drain_errors queue : forall st w w' st',
  drain env cli pc queue st w = (w', Returned st') ->
  exists l,
    upsert_errors env cli pc queue w = (w', l) /\
    fst st' = fst st || failed l.
Proof.
  induction queue as [|ref rest IH]; intros st w w' st' Hd.
  - injection Hd as <- <-. exists []. cbn. now rewrite orb_false_r.
  - rewrite drain_cons in Hd.
    destruct (workItem env cli pc ref st w) as [w1 [st1|cr]] eqn:Ew;
      [|discriminate].
    destruct (workItem_cases _ _ _ _ _ _ _ _ Ew) as (saved & err & Hu & Hst).
    destruct (IH _ _ _ _ Hd) as (l & Hl & Hf).
    exists (errs err ++ l). cbn [upsert_errors]. rewrite Hu, Hl.
    split; [reflexivity|].
    now rewrite Hf, Hst, failed_app, failed_errs, orb_assoc.
Qed.

(** The categories task sets the flag when the categories are not saved,
    and only then. *)
Lemma categoriesTask_errors st w w' st' :
  categoriesTask env cmd cli pc st w = (w', Returned st') ->
  exists l,
    categories_errors env cmd cli pc w = (w', l) /\
    fst st' = fst st || failed l.
Proof.
  unfold categoriesTask, categories_errors.
  destruct (IncludeCategories cmd).
  - unfold bind.
    destruct (SaveCategoriesIndex env cli pc w) as [w1 [err|cr]];
      [|discriminate].
    unfold ret. intros [= <- <-]. exists (errs err).
    split; [reflexivity|]. cbn [fst]. now rewrite failed_errs.
  - intros [= <- <-]. exists []. cbn. now rewrite orb_false_r.
Qed.

(** At the join the flag is set if and only if a step of the sync phase has
    returned an error. *)
Lemma syncPhase_flag k w w' st :
  syncPhase env cmd ctx cli pc k w = (w', Returned st) ->
  fst st = failed (sync_errors env cmd ctx cli pc k w).
Proof.
  intros Hs. unfold sync_errors.
  destruct (IncludeRecipes cmd) eqn:Hrec; cbn [negb].
  2:{ unfold syncPhase in Hs. rewrite Hrec in Hs. cbn [negb] in Hs.
      destruct (categoriesTask_errors _ _ _ _ Hs) as (l & -> & ->).
      reflexivity. }
  destruct (syncPhase_returned env cmd ctx cli pc k w w' st Hrec Hs)
    as (w0 & st0 & w1 & err & w2 & st2 & w3 & st3 & H).
  cbv zeta in H. destruct H as (H0 & Hidx & Hd1 & Hc & Hd2 & _).
  assert (E0 : exists l0,
            match k with
            | O => categories_errors env cmd cli pc w
            | S _ => (w, [])
            end = (w0, l0) /\ fst st0 = failed l0).
  { destruct k.
    - destruct (categoriesTask_errors _ _ _ _ H0) as (l & Hl & Hf).
      exists l. split; [exact Hl|exact Hf].
    - injection H0 as <- <-. now exists []. }
  destruct E0 as (l0 & -> & Hf0). rewrite Hidx.
  destruct (drain_errors _ _ _ _ _ Hd1) as (l2 & -> & Hf2).
  assert (E3 : exists l3,
            match k with
            | O => (w2, [])
            | S _ => categories_errors env cmd cli pc w2
            end = (w3, l3) /\ fst st3 = fst st2 || failed l3).
  { destruct k.
    - injection Hc as <- <-. exists []. cbn. now rewrite orb_false_r.
    - destruct (categoriesTask_errors _ _ _ _ Hc) as (l & Hl & Hf).
      exists l. split; [exact Hl|exact Hf]. }
  destruct E3 as (l3 & -> & Hf3).
  destruct (drain_errors _ _ _ _ _ Hd2) as (l4 & -> & Hf4).
  rewrite Hf4, Hf3, Hf2. cbn [fst]. rewrite Hf0.
  rewrite !failed_app, failed_errs, !orb_assoc. reflexivity.
Qed.

End Flag.

End SyncErrors.

(* ================================================================== *)
(** * The pruner and the purge only take away *)
(* ================================================================== *)

Module Trim.
Import FS FSFacts Aux ListingFacts FSFacts2 PruneFacts PruneCorrect.
Import PruneMore Store WellFormed.



















End Trim.

(* ================================================================== *)
(** * The layout of the store after the purge and the pruner *)
(* ================================================================== *)

Module RunLayout.
Import FS FSFacts Aux ListingFacts WalkFacts PurgeFacts FSFacts2.
Import PruneFacts PruneMore SyncFacts RunFacts.
Import Store FSFrame PurgeSafety PruneSafety WellFormed SyncInv RunInv.
Import PurgePass Trim.

Section Clean.

Variables (env : Env) (cmd : SyncCMD) (dataDir : FS.path).
Variables (cutoff : time.Time) (nowStamp : string) (idx : list string).

Let root := pathToRecipesDir env dataDir.
Let fn := purgeWalkFn env cmd false dataDir cutoff nowStamp idx.




End Clean.

Section Phase.

Context {json : JSON}.
Variables (env : Env) (cmd : SyncCMD) (cli : CLI).
Variable pc : paprika.Client.t.

#[local] Abbreviation root := (pathToRecipesDir env (DataDir cli)).








End Phase.

End RunLayout.

(* ================================================================== *)
(** * A run after a run *)
(* ================================================================== *)

Module SecondRun.
Import FS FSFacts Aux FSFacts2 SyncFacts UpsertFacts FrameFacts PassFacts.
Import RunFacts Store SyncMore WellFormed SyncInv RunInv RequestFacts.
Import RunLayout.

Section Again.

Context {json : JSON}.
Variables (env : Env) (cmd : SyncCMD) (cli : CLI).
Variable c : paprika.Client.t.

#[local] Abbreviation items := (fst (paprika.Client.Recipes c)).
#[local] Abbreviation indexPath := (pathToRecipesIndexFile env (DataDir cli)).
#[local] Abbreviation categoriesPath :=
  (pathToCategoriesIndexFile env (DataDir cli)).



Section Sync.

Variable w1 : World.

Hypothesis Hrec : IncludeRecipes cmd = true.
Hypothesis Hdc : (DownloadConcurrency cmd <? 0)%Z = false.
Hypothesis Hblock : producerBlocks cmd false items = false.
Hypothesis Hcats :
  IncludeCategories cmd = true -> snd (paprika.Client.Categories c) = None.
Hypothesis Hidx : basename indexPath <> filenameRecipeJSON.
Hypothesis Hcat : basename categoriesPath <> filenameRecipeJSON.
Hypothesis Hmatch : Forall (stored_hash_matches env cli w1) items.








End Sync.



End Again.

End SecondRun.

(* ================================================================== *)
(** * The claims *)
(* ================================================================== *)

Import FS FSFacts Aux ListingFacts WalkFacts PurgeFacts FSFacts2 PurgeDirectory.
Import PruneFacts PruneCorrect PruneCorrect2 PrunePaths.
Import SyncFacts UpsertFacts FrameFacts PassFacts RunFacts.
Import TimeFacts CalendarFacts LayoutFacts RoundTrip RoundTrip2.
Import Store FSFrame PurgeSafety PurgeMore PruneMore WalkMore.
Import SaveMore SyncMore MarkerMore PruneSafety PurgeFrame.
Import WellFormed SyncInv RunInv RequestFacts PurgePass SyncErrors SecondRun.

(** ** C1: the decision of [shouldSaveRecipe] *)

(** C1.  For every path and candidate hash, [shouldSaveRecipe] returns the
    decision table: no file at the path gives (update, exists) =
    (true, false); a file that is there and does not decode gives
    (true, true); a file that decodes with the candidate hash stored gives
    (false, true); a file that decodes with another hash stored gives
    (true, true).  The world is left as it was. *)
Theorem shouldSaveRecipe_table {json : JSON}
    (path : FS.path) (hash : string) (w : World) :
  (FS.lookup path (disk w) = None ->
   shouldSaveRecipe path hash w = (w, Returned (true, false))) /\
  (forall body,
     FS.lookup path (disk w) = Some (FS.File body) ->
     decode_item body = None ->
     shouldSaveRecipe path hash w = (w, Returned (true, true))) /\
  (forall body item,
     FS.lookup path (disk w) = Some (FS.File body) ->
     decode_item body = Some item ->
     paprika.RecipeItem.Hash item = hash ->
     shouldSaveRecipe path hash w = (w, Returned (false, true))) /\
  (forall body item,
     FS.lookup path (disk w) = Some (FS.File body) ->
     decode_item body = Some item ->
     paprika.RecipeItem.Hash item <> hash ->
     shouldSaveRecipe path hash w = (w, Returned (true, true))).
Proof.
  repeat split; intros; rewrite shouldSaveRecipe_decision; unfold decision;
    rewrite ?H; cbn [decode_from FS.read_all]; rewrite ?H0; try reflexivity.
  - subst hash. now rewrite String.eqb_refl.
  - apply String.eqb_neq in H1. now rewrite H1.
Qed.


(** C1 on the disks of the repository's test: no file, a file that is not
    JSON, a stored recipe asked with its hash and with another. *)
Lemma shouldSaveRecipe_table_witness :
  @shouldSaveRecipe FlatJSON.codec (Fixture.recipeFile "abcde") "h1"
    (Fixture.world Fixture.emptyDisk)
  = (Fixture.world Fixture.emptyDisk, Returned (true, false)) /\
  @shouldSaveRecipe FlatJSON.codec (Fixture.recipeFile "abcde") "h2"
    (Fixture.world Fixture.corrupt)
  = (Fixture.world Fixture.corrupt, Returned (true, true)) /\
  @shouldSaveRecipe FlatJSON.codec (Fixture.recipeFile "abcde") "h3"
    (Fixture.world Fixture.stored)
  = (Fixture.world Fixture.stored, Returned (false, true)) /\
  @shouldSaveRecipe FlatJSON.codec (Fixture.recipeFile "abcde") "new"
    (Fixture.world Fixture.stored)
  = (Fixture.world Fixture.stored, Returned (true, true)).
Proof.
  split; [|split; [|split]].
  - apply (proj1 (@shouldSaveRecipe_table FlatJSON.codec
                    (Fixture.recipeFile "abcde") "h1"
                    (Fixture.world Fixture.emptyDisk))).
    reflexivity.
  - apply (proj1 (proj2 (@shouldSaveRecipe_table FlatJSON.codec
                           (Fixture.recipeFile "abcde") "h2"
                           (Fixture.world Fixture.corrupt))) "{not-json");
      reflexivity.
  - apply (proj1 (proj2 (proj2 (@shouldSaveRecipe_table FlatJSON.codec
                                  (Fixture.recipeFile "abcde") "h3"
                                  (Fixture.world Fixture.stored))))
             (FlatJSON.enc_recipe (paprika.Recipe.mk "abcde" "h3" ""))
             (Fixture.item "abcde" "h3"));
      reflexivity.
  - apply (proj2 (proj2 (proj2 (@shouldSaveRecipe_table FlatJSON.codec
                                  (Fixture.recipeFile "abcde") "new"
                                  (Fixture.world Fixture.stored))))
             (FlatJSON.enc_recipe (paprika.Recipe.mk "abcde" "h3" ""))
             (Fixture.item "abcde" "h3"));
      [reflexivity|reflexivity|discriminate].
Defined.

(** ** C2: unchanged recipes are skipped *)




(** ** C3: the cutoff of the purge *)

(** C3, amended.  Take a purge pass with a positive grace period and a
    context that is not cancelled, over a store where no directory holds a
    name twice, every name is one path component and the recipes directory
    is laid out in shards, and in it a recipe directory of plain files, three
    levels down, whose name is not in the index and whose marker reads [t].
    If the pass ends without error, then the directory is as it was when
    [now - t] is less than the grace period, and is gone when [now - t] is
    at least the grace period and the directory and the one above it are
    writable.  So a marker aged the grace period less one tick is kept, and
    one aged the grace period or more is purged. *)
Theorem purge_marked_directory {json : JSON}
    (env : Env) (cmd : SyncCMD) (dataDir : FS.path) (now t : time.Time)
    (w w' : World) (f : FS.node) (index : list paprika.RecipeItem.t)
    (a b uid : string) (wd : bool) (es : FS.entries) :
  let dir := pathToRecipesDir env dataDir ++ [a; b; uid] in
  (0 < PurgeAfter cmd)%Z ->
  FS.lookup (pathToRecipesIndexFile env dataDir) (disk w) = Some f ->
  decode_from decode_index f = inl index ->
  indexed uid (map paprika.RecipeItem.UID index) = false ->
  unique_names (disk w) = true ->
  plain_names (disk w) = true ->
  sharded (pathToRecipesDir env dataDir) (disk w) = true ->
  FS.lookup dir (disk w) = Some (FS.Dir wd es) ->
  all_files es = true ->
  FS.lookup_entry filenameRecipeDeleteMarker es <> None ->
  readTimestampMarker (dir ++ [filenameRecipeDeleteMarker]) time.RFC3339Nano w
    = (w, Returned (inl t)) ->
  PurgeUnreferencedRecipes env cmd false dataDir now w = (w', Returned None) ->
  ((time.Sub now t < PurgeAfter cmd)%Z ->
   FS.lookup dir (disk w') = Some (FS.Dir wd es)) /\
  ((PurgeAfter cmd <= time.Sub now t)%Z ->
   wd = true ->
   (exists pes,
      FS.lookup (FS.dirname dir) (disk w) = Some (FS.Dir true pes)) ->
   FS.lookup dir (disk w') = None).
Proof.
  intros dir Hpos Hopen Hdec Hidx Hu _ Hsh Hdir Hfiles Hmark Hread Hpass.
  set (root := pathToRecipesDir env dataDir) in *.
  set (idx := map paprika.RecipeItem.UID index) in *.
  set (cutoff := time.Add now (time.neg (PurgeAfter cmd))).
  set (fn := purgeWalkFn env cmd false dataDir cutoff
               (time.Format now time.RFC3339Nano) idx).
  assert (Hdn : dirname dir = root ++ [a; b]).
  { unfold dir. change [a; b; uid] with ([a; b] ++ [uid]).
    now rewrite app_assoc, dirname_snoc. }
  assert (Hbn : basename dir = uid).
  { unfold dir. change [a; b; uid] with ([a; b] ++ [uid]).
    now rewrite app_assoc, basename_snoc. }
  assert (Hpar : exists wp pes, lookup (dirname dir) (disk w)
                                = Some (Dir wp pes)).
  { rewrite Hdn. unfold dir in Hdir.
    change [a; b; uid] with ([a; b] ++ [uid]) in Hdir.
    rewrite app_assoc in Hdir.
    destruct (lookup_prefix _ _ _ _ _ Hdir) as (wp & pes & _ & Hp & _).
    eauto. }
  destruct Hpar as (wp & pes & Hpar).
  assert (Ha : Around root [a; b; uid] wp (Some (Dir wd es)) w).
  { split; [|exact Hdir]. split; [exact Hu|]. split; [|eauto].
    unfold sharded in Hsh. fold dir in Hdir. unfold dir in Hdir.
    rewrite lookup_app in Hdir.
    destruct (lookup root (disk w)) as [n|]; [eauto|discriminate]. }
  assert (Hshield : shielded idx [a; b; uid] (Some (Dir wd es))).
  { right; right.
    destruct (lookup_entry filenameRecipeDeleteMarker es) as [c|] eqn:Em;
      [|congruence].
    now exists wd, es, c. }
  assert (Hwalk : WalkDir root fn w = (w', Returned None)).
  { unfold PurgeUnreferencedRecipes, bind, reads, FS.open in Hpass.
    now rewrite Hopen, Hdec in Hpass. }
  destruct (WalkDir_visits env cmd dataDir cutoff _ idx [a; b; uid] wp
              eq_refl w w' (Dir wd es) eq_refl Hshield Ha Hwalk)
    as (wa & wb & fuel & Haa & HD & Hkb & Hafter).
  fold root dir in HD. change (basename [a; b; uid]) with uid in HD.
  pose proof (proj2 Haa) as Hdira. fold dir in Hdira.
  assert (Hreada : readTimestampMarker (dir ++ [filenameRecipeDeleteMarker])
                     time.RFC3339Nano wa = (wa, Returned (inl t))).
  { apply (readTimestampMarker_same _ _ w); [|exact Hread].
    now rewrite (lookup_child _ _ _ _ _ Hdira), (lookup_child _ _ _ _ _ Hdir). }
  pose proof (purge_marked_walk env cmd dataDir cutoff
                (time.Format now time.RFC3339Nano) idx wa dir wd es fuel t
                ltac:(lia) ltac:(now rewrite Hbn) Hdira Hfiles Hmark Hreada)
    as Hwd.
  rewrite Hbn in Hwd. rewrite HD in Hwd.
  unfold cutoff in Hwd. rewrite after_cutoff in Hwd by exact Hpos.
  split.
  - intros Hage.
    assert ((time.Sub now t <? PurgeAfter cmd)%Z = true) as E
      by (apply Z.ltb_lt; lia).
    rewrite E in Hwd. injection Hwd as ->.
    exact (proj2 (Hafter _ Hshield Haa)).
  - intros Hage -> [pes' Hp'].
    assert ((time.Sub now t <? PurgeAfter cmd)%Z = false) as E
      by (apply Z.ltb_ge; lia).
    rewrite E in Hwd. injection Hwd as ->.
    assert (Hwp : wp = true) by congruence. subst wp.
    destruct (proj1 Haa) as (_ & _ & (pesa & Hpara)). fold dir in Hpara.
    assert (Hgone : lookup dir (disk (with_disk wa
                                        (fst (remove_all dir (disk wa)))))
                    = None).
    { cbn [with_disk disk].
      apply (remove_all_files_dir dir (disk wa) es pesa); auto.
      unfold dir. now destruct root. }
    apply (proj2 (Hafter None (or_introl eq_refl) (conj Hkb Hgone))).
Qed.

(** C3 at passes over the disk of the repository's test, one tick on either
    side of the cutoff. *)
Lemma purge_marked_directory_witness :
  (* a marker one tick younger than the grace period: retained *)
  FS.lookup (Fixture.recipeDir "old11")
    (disk (fst (@PurgeUnreferencedRecipes FlatJSON.codec Fixture.noenv
                  (Fixture.sync Fixture.day) false Fixture.dataDir Fixture.now
                  (Fixture.world
                     (Fixture.marked
                        (time.Add Fixture.now (- Fixture.day + 1)%Z))))))
  = FS.lookup (Fixture.recipeDir "old11")
      (Fixture.marked (time.Add Fixture.now (- Fixture.day + 1)%Z)) /\
  (* a marker one tick older than the grace period: deleted *)
  FS.lookup (Fixture.recipeDir "old11")
    (disk (fst (@PurgeUnreferencedRecipes FlatJSON.codec Fixture.noenv
                  (Fixture.sync Fixture.day) false Fixture.dataDir Fixture.now
                  (Fixture.world
                     (Fixture.marked
                        (time.Add Fixture.now (- Fixture.day - 1)%Z))))))
  = None.
Proof.
  split.
  - apply (proj1
      (@purge_marked_directory FlatJSON.codec Fixture.noenv
         (Fixture.sync Fixture.day) Fixture.dataDir Fixture.now
         (time.Add Fixture.now (- Fixture.day + 1)%Z)
         (Fixture.world
            (Fixture.marked (time.Add Fixture.now (- Fixture.day + 1)%Z)))
         _
         (FS.File (FlatJSON.enc_index [Fixture.item "keep1" "h1"]))
         [Fixture.item "keep1" "h1"] "ol" "old" "old11" true
         (Fixture.entries_at (Fixture.recipeDir "old11")
            (Fixture.marked (time.Add Fixture.now (- Fixture.day + 1)%Z)))
         ltac:(vm_compute; reflexivity) ltac:(reflexivity)
         ltac:(reflexivity) ltac:(reflexivity) ltac:(reflexivity)
         ltac:(reflexivity) ltac:(reflexivity) ltac:(reflexivity)
         ltac:(reflexivity) ltac:(vm_compute; discriminate)
         ltac:(vm_compute; reflexivity) ltac:(vm_compute; reflexivity))).
    vm_compute. reflexivity.
  - apply (proj2
      (@purge_marked_directory FlatJSON.codec Fixture.noenv
         (Fixture.sync Fixture.day) Fixture.dataDir Fixture.now
         (time.Add Fixture.now (- Fixture.day - 1)%Z)
         (Fixture.world
            (Fixture.marked (time.Add Fixture.now (- Fixture.day - 1)%Z)))
         _
         (FS.File (FlatJSON.enc_index [Fixture.item "keep1" "h1"]))
         [Fixture.item "keep1" "h1"] "ol" "old" "old11" true
         (Fixture.entries_at (Fixture.recipeDir "old11")
            (Fixture.marked (time.Add Fixture.now (- Fixture.day - 1)%Z)))
         ltac:(vm_compute; reflexivity) ltac:(reflexivity)
         ltac:(reflexivity) ltac:(reflexivity) ltac:(reflexivity)
         ltac:(reflexivity) ltac:(reflexivity) ltac:(reflexivity)
         ltac:(reflexivity) ltac:(vm_compute; discriminate)
         ltac:(vm_compute; reflexivity) ltac:(vm_compute; reflexivity))).
    + vm_compute. discriminate.
    + reflexivity.
    + eexists. vm_compute. reflexivity.
Defined.

(** What C3 says of a marker aged exactly the grace period fails: its age
    does not exceed the grace period, and the pass deletes the directory. *)
Lemma purge_at_exact_grace_deletes :
  time.Sub Fixture.now (time.Add Fixture.now (- Fixture.day)%Z)
  = PurgeAfter (Fixture.sync Fixture.day) /\
  snd (@PurgeUnreferencedRecipes FlatJSON.codec Fixture.noenv
         (Fixture.sync Fixture.day) false Fixture.dataDir Fixture.now
         (Fixture.world
            (Fixture.marked (time.Add Fixture.now (- Fixture.day)%Z))))
  = Returned None /\
  FS.lookup (Fixture.recipeDir "old11")
    (Fixture.marked (time.Add Fixture.now (- Fixture.day)%Z)) <> None /\
  FS.lookup (Fixture.recipeDir "old11")
    (disk (fst (@PurgeUnreferencedRecipes FlatJSON.codec Fixture.noenv
                  (Fixture.sync Fixture.day) false Fixture.dataDir Fixture.now
                  (Fixture.world
                     (Fixture.marked
                        (time.Add Fixture.now (- Fixture.day)%Z))))))
  = None.
Proof.
  repeat split; try (vm_compute; reflexivity). vm_compute. discriminate.
Qed.

(** ** C4: what is written after a fetch *)

(** C4.  When [UpsertRecipe] has decided to fetch and the fetch returns a
    record without error, the record is saved if and only if its uid is the
    uid asked for: with the same uid the result is that of [saveAsJSON]
    (saved = true unless the write fails, and then the file holds the
    record), whatever hash the record carries; with another uid nothing is
    written and the error of the mismatch is returned. *)
Theorem UpsertRecipe_after_fetch {json : JSON}
    (env : Env) (cli : CLI) (c : paprika.Client.t)
    (ref : paprika.RecipeItem.t) (recipe : paprika.Recipe.t) (w : World) :
  let uid := paprika.RecipeItem.UID ref in
  let path := recipeFile env (DataDir cli) uid in
  let w1 := with_request w (GET_recipe uid) in
  (3 <= String.length uid)%nat ->
  fst (decision path (paprika.RecipeItem.Hash ref) (disk w)) = true ->
  paprika.Client.Recipe c uid = (recipe, None) ->
  (paprika.Recipe.UID recipe = uid ->
   exists d err,
     saveAsJSON (encode_recipe recipe) path w1 = (with_disk w1 d, Returned err)
     /\ UpsertRecipe env cli c ref w
        = (with_disk w1 d, Returned (is_nil err, err))
     /\ (err = None -> FS.lookup path d = Some (FS.File (encode_recipe recipe))))
  /\
  (paprika.Recipe.UID recipe <> uid ->
   UpsertRecipe env cli c ref w
   = (w1, Returned (false,
                    Some (ErrUIDMismatch (paprika.Recipe.UID recipe) uid)))).
Proof.
  intros uid path w1 Hlen Hdec Hfetch.
  pose proof (UpsertRecipe_cases env cli c ref w Hlen) as Hc.
  cbv zeta in Hc. fold uid path w1 in Hc. rewrite Hdec, Hfetch in Hc.
  cbn [negb] in Hc. split.
  - intros Huid. rewrite Huid, String.eqb_refl in Hc. cbn [negb] in Hc.
    destruct (saveAsJSON_returns (encode_recipe recipe) path w1)
      as (d & err & Hs & Hl).
    exists d, err. rewrite Hs in Hc. repeat split; auto.
    rewrite Hc. destruct err; reflexivity.
  - intros Huid. apply String.eqb_neq in Huid. rewrite Huid in Hc. exact Hc.
Qed.

(** C4 at the test servers: a record with another hash is written, a record
    with another uid is not. *)
Lemma UpsertRecipe_after_fetch_witness :
  (* the record fetched for [vwxyz] carries its uid and another hash: it is
     written *)
  (exists d,
     @UpsertRecipe FlatJSON.codec Fixture.noenv Fixture.cli Fixture.kitchen
       (Fixture.item "vwxyz" "h2") (Fixture.world Fixture.emptyDisk)
     = ({| disk := d; requests := [GET_recipe "vwxyz"] |},
        Returned (true, None)) /\
     FS.lookup (Fixture.recipeFile "vwxyz") d
     = Some (FS.File (FlatJSON.enc_recipe
                        (paprika.Recipe.mk "vwxyz" "new-hash" "Second")))) /\
  (* the record fetched for [badid] is [other]: nothing is written *)
  @UpsertRecipe FlatJSON.codec Fixture.noenv Fixture.cli Fixture.misrouted
    (Fixture.item "badid" "h1") (Fixture.world Fixture.emptyDisk)
  = ({| disk := Fixture.emptyDisk; requests := [GET_recipe "badid"] |},
     Returned (false, Some (ErrUIDMismatch "other" "badid"))).
Proof.
  split.
  - destruct (proj1
      (@UpsertRecipe_after_fetch FlatJSON.codec Fixture.noenv Fixture.cli
         Fixture.kitchen (Fixture.item "vwxyz" "h2")
         (paprika.Recipe.mk "vwxyz" "new-hash" "Second")
         (Fixture.world Fixture.emptyDisk)
         ltac:(vm_compute; lia) ltac:(reflexivity) ltac:(reflexivity))
      ltac:(reflexivity)) as (d & err & Hs & Hu & Hl).
    assert (err = None) as ->.
    { vm_compute in Hs. now injection Hs. }
    exists d. split; [exact Hu|]. now apply Hl.
  - apply (proj2
      (@UpsertRecipe_after_fetch FlatJSON.codec Fixture.noenv Fixture.cli
         Fixture.misrouted (Fixture.item "badid" "h1")
         (paprika.Recipe.mk "other" "h1" "")
         (Fixture.world Fixture.emptyDisk)
         ltac:(vm_compute; lia) ltac:(reflexivity) ltac:(reflexivity))).
    discriminate.
Defined.

(** ** C5: when the purge runs *)

(** C5.  In every run, [sync_errors] being the errors the steps of its sync
    phase have returned (those of [SaveCategoriesIndex], of
    [SaveRecipesIndex] and of each [UpsertRecipe]): a run whose sync phase
    does not come to its end does not come to the purge; at the end of the
    sync phase the error flag is set if and only if there is such an error;
    when there is none and the grace period is at least zero, the run goes
    on from the world of the sync phase with [PurgeUnreferencedRecipes]
    and, after it, [PruneFilelessSubtrees]; when there is one, or the grace
    period is negative, the run ends in the world of the sync phase, so
    nothing is deleted and no marker is made. *)
Theorem Run_purge_gate {json : JSON}
    (env : Env) (cmd : SyncCMD) (ctx : Context) (cli : CLI)
    (pc : paprika.Client.t) (k : nat) (now : time.Time)
    (w w1 : World) (o : outcome shared) :
  let errors := sync_errors env cmd ctx cli pc k w in
  syncPhase env cmd ctx cli pc k w = (w1, o) ->
  match o with
  | Crashed cr => Run env cmd ctx cli pc k now w = (w1, Crashed cr)
  | Returned st =>
      (fst st = true <-> errors <> []) /\
      (errors = [] /\ (0 <= PurgeAfter cmd)%Z ->
       Run env cmd ctx cli pc k now w =
       match PurgeUnreferencedRecipes env cmd ctx (DataDir cli) now w1 with
       | (w2, Returned None) =>
           match
             PruneFilelessSubtrees ctx (pathToRecipesDir env (DataDir cli)) w2
           with
           | (w3, Returned None) => (w3, Returned None)
           | (w3, Returned (Some _)) =>
               (w3, Returned (Some ErrSyncCompletedWithErrors))
           | (w3, Crashed cr) => (w3, Crashed cr)
           end
       | (w2, Returned (Some _)) =>
           (w2, Returned (Some ErrSyncCompletedWithErrors))
       | (w2, Crashed cr) => (w2, Crashed cr)
       end) /\
      (errors <> [] \/ (PurgeAfter cmd < 0)%Z ->
       Run env cmd ctx cli pc k now w =
       (w1, Returned (match errors with
                      | [] => None
                      | _ :: _ => Some ErrSyncCompletedWithErrors
                      end)))
  end.
Proof.
  intros errors Hs. destruct o as [st|cr].
  2:{ exact (Run_sync_crash env cmd ctx cli pc k now w w1 cr Hs). }
  pose proof (syncPhase_flag env cmd ctx cli pc k w w1 st Hs) as Hflag.
  fold errors in Hflag.
  rewrite (Run_after_sync env cmd ctx cli pc k now w w1 st Hs).
  unfold purgePhase. rewrite Hflag. split; [|split].
  - destruct errors; cbn [failed]; split; congruence.
  - intros [-> Hp]. cbn [failed]. apply Z.leb_le in Hp. rewrite Hp.
    cbn [negb andb]. unfold bind at 1.
    destruct (PurgeUnreferencedRecipes env cmd ctx (DataDir cli) now w1)
      as [w2 [[e|]|cr]]; try reflexivity.
    unfold bind, ret.
    destruct (PruneFilelessSubtrees ctx _ w2) as [w3 [[e|]|cr]]; reflexivity.
  - intros Hgate.
    assert (E : negb (failed errors) && (0 <=? PurgeAfter cmd)%Z = false).
    { destruct Hgate as [Hne | Hn].
      - destruct errors; [congruence|reflexivity].
      - apply Z.leb_gt in Hn. rewrite Hn. apply andb_false_r. }
    rewrite E. unfold ret. destruct errors; reflexivity.
Qed.

(** C5 on a disk with a stale recipe. *)
Lemma Run_purge_gate_witness :
  (* no error and a grace period of a day: the stale recipe is purged *)
  FS.lookup (Fixture.recipeDir "old11")
    (disk (fst (@Run FlatJSON.codec Fixture.noenv (Fixture.sync Fixture.day)
                  false Fixture.cli Fixture.kitchen 0 Fixture.now
                  (Fixture.world Fixture.stale)))) = None /\
  (* the server answers with the record of another uid: the run ends where
     the sync phase ended, the stale recipe in its place *)
  @sync_errors FlatJSON.codec Fixture.noenv (Fixture.sync Fixture.day) false
    Fixture.cli Fixture.misrouted 0 (Fixture.world Fixture.stale)
  = [ErrUIDMismatch "other" "badid"] /\
  @Run FlatJSON.codec Fixture.noenv (Fixture.sync Fixture.day) false
    Fixture.cli Fixture.misrouted 0 Fixture.now (Fixture.world Fixture.stale)
  = (fst (@syncPhase FlatJSON.codec Fixture.noenv (Fixture.sync Fixture.day)
            false Fixture.cli Fixture.misrouted 0
            (Fixture.world Fixture.stale)),
     Returned (Some ErrSyncCompletedWithErrors)) /\
  (* a negative grace period: the same, without error *)
  @Run FlatJSON.codec Fixture.noenv (Fixture.sync (-1)%Z) false
    Fixture.cli Fixture.kitchen 0 Fixture.now (Fixture.world Fixture.stale)
  = (fst (@syncPhase FlatJSON.codec Fixture.noenv (Fixture.sync (-1)%Z)
            false Fixture.cli Fixture.kitchen 0
            (Fixture.world Fixture.stale)),
     Returned None).
Proof.
  split; [|split; [|split]].
  - assert (Hs : @syncPhase FlatJSON.codec Fixture.noenv
                   (Fixture.sync Fixture.day) false Fixture.cli
                   Fixture.kitchen 0 (Fixture.world Fixture.stale)
                 = (fst (@syncPhase FlatJSON.codec Fixture.noenv
                           (Fixture.sync Fixture.day) false Fixture.cli
                           Fixture.kitchen 0 (Fixture.world Fixture.stale)),
                    Returned (false, 2%Z)))
      by (vm_compute; reflexivity).
    assert (Hg : @sync_errors FlatJSON.codec Fixture.noenv
                   (Fixture.sync Fixture.day) false Fixture.cli
                   Fixture.kitchen 0 (Fixture.world Fixture.stale) = [] /\
                 (0 <= PurgeAfter (Fixture.sync Fixture.day))%Z)
      by (split; [vm_compute; reflexivity | vm_compute; discriminate]).
    pose proof (proj1 (proj2 (Run_purge_gate _ _ _ _ _ _ Fixture.now _ _ _ Hs))
                  Hg) as H.
    rewrite H. vm_compute. reflexivity.
  - vm_compute. reflexivity.
  - assert (Hs : @syncPhase FlatJSON.codec Fixture.noenv
                   (Fixture.sync Fixture.day) false Fixture.cli
                   Fixture.misrouted 0 (Fixture.world Fixture.stale)
                 = (fst (@syncPhase FlatJSON.codec Fixture.noenv
                           (Fixture.sync Fixture.day) false Fixture.cli
                           Fixture.misrouted 0 (Fixture.world Fixture.stale)),
                    Returned (true, 0%Z)))
      by (vm_compute; reflexivity).
    assert (He : @sync_errors FlatJSON.codec Fixture.noenv
                   (Fixture.sync Fixture.day) false Fixture.cli
                   Fixture.misrouted 0 (Fixture.world Fixture.stale)
                 = [ErrUIDMismatch "other" "badid"])
      by (vm_compute; reflexivity).
    pose proof (proj2 (proj2 (Run_purge_gate _ _ _ _ _ _ Fixture.now _ _ _ Hs)))
      as H.
    cbv zeta in H. rewrite He in H. apply H. left. discriminate.
  - assert (Hs : @syncPhase FlatJSON.codec Fixture.noenv
                   (Fixture.sync (-1)%Z) false Fixture.cli
                   Fixture.kitchen 0 (Fixture.world Fixture.stale)
                 = (fst (@syncPhase FlatJSON.codec Fixture.noenv
                           (Fixture.sync (-1)%Z) false Fixture.cli
                           Fixture.kitchen 0 (Fixture.world Fixture.stale)),
                    Returned (false, 2%Z)))
      by (vm_compute; reflexivity).
    assert (He : @sync_errors FlatJSON.codec Fixture.noenv
                   (Fixture.sync (-1)%Z) false Fixture.cli
                   Fixture.kitchen 0 (Fixture.world Fixture.stale) = [])
      by (vm_compute; reflexivity).
    pose proof (proj2 (proj2 (Run_purge_gate _ _ _ _ _ _ Fixture.now _ _ _ Hs)))
      as H.
    cbv zeta in H. rewrite He in H. apply H. right. reflexivity.
Defined.

(** ** C6: a recipe that is back in the index *)

(** C6, amended.  Take a purge pass with a context that is not cancelled,
    over a store where no directory holds a name twice, every name is one
    path component and the recipes directory is laid out in shards, and in
    it a writable recipe directory of plain files, three levels down, whose
    name is in the index.  If the pass ends without error, the directory
    holds no marker afterwards and its other entries (the recipe file among
    them) are as they were: nothing else was done to the directory in the
    pass. *)
Theorem purge_indexed_directory {json : JSON}
    (env : Env) (cmd : SyncCMD) (dataDir : FS.path) (now : time.Time)
    (w w' : World) (f : FS.node) (index : list paprika.RecipeItem.t)
    (a b uid : string) (es : FS.entries) :
  let dir := pathToRecipesDir env dataDir ++ [a; b; uid] in
  FS.lookup (pathToRecipesIndexFile env dataDir) (disk w) = Some f ->
  decode_from decode_index f = inl index ->
  indexed uid (map paprika.RecipeItem.UID index) = true ->
  unique_names (disk w) = true ->
  plain_names (disk w) = true ->
  sharded (pathToRecipesDir env dataDir) (disk w) = true ->
  FS.lookup dir (disk w) = Some (FS.Dir true es) ->
  all_files es = true ->
  PurgeUnreferencedRecipes env cmd false dataDir now w = (w', Returned None) ->
  FS.lookup dir (disk w')
  = Some (FS.Dir true (FS.del_entry filenameRecipeDeleteMarker es)) /\
  FS.lookup (dir ++ [filenameRecipeDeleteMarker]) (disk w') = None /\
  (forall x, x <> filenameRecipeDeleteMarker ->
     FS.lookup (dir ++ [x]) (disk w') = FS.lookup (dir ++ [x]) (disk w)).
Proof.
  intros dir Hopen Hdec Hidx Hu _ Hsh Hdir Hfiles Hpass.
  set (root := pathToRecipesDir env dataDir) in *.
  set (idx := map paprika.RecipeItem.UID index) in *.
  set (cutoff := time.Add now (time.neg (PurgeAfter cmd))).
  assert (Hdn : dirname dir = root ++ [a; b]).
  { unfold dir. change [a; b; uid] with ([a; b] ++ [uid]).
    now rewrite app_assoc, dirname_snoc. }
  assert (Hbn : basename dir = uid).
  { unfold dir. change [a; b; uid] with ([a; b] ++ [uid]).
    now rewrite app_assoc, basename_snoc. }
  assert (Hpar : exists wp pes, lookup (dirname dir) (disk w)
                                = Some (Dir wp pes)).
  { rewrite Hdn. unfold dir in Hdir.
    change [a; b; uid] with ([a; b] ++ [uid]) in Hdir.
    rewrite app_assoc in Hdir.
    destruct (lookup_prefix _ _ _ _ _ Hdir) as (wp & pes & _ & Hp & _).
    eauto. }
  destruct Hpar as (wp & pes & Hpar).
  assert (Ha : Around root [a; b; uid] wp (Some (Dir true es)) w).
  { split; [|exact Hdir]. split; [exact Hu|]. split; [|eauto].
    unfold sharded in Hsh. fold dir in Hdir. unfold dir in Hdir.
    rewrite lookup_app in Hdir.
    destruct (lookup root (disk w)) as [n|]; [eauto|discriminate]. }
  assert (Hshield : forall s, shielded idx [a; b; uid] s).
  { intros s. right; left. exact Hidx. }
  assert (Hwalk : WalkDir root
                    (purgeWalkFn env cmd false dataDir cutoff
                       (time.Format now time.RFC3339Nano) idx) w
                  = (w', Returned None)).
  { unfold PurgeUnreferencedRecipes, bind, reads, FS.open in Hpass.
    now rewrite Hopen, Hdec in Hpass. }
  destruct (WalkDir_visits env cmd dataDir cutoff _ idx [a; b; uid] wp
              eq_refl w w' (Dir true es) eq_refl (Hshield _) Ha Hwalk)
    as (wa & wb & fuel & Haa & HD & Hkb & Hafter).
  fold root dir in HD. change (basename [a; b; uid]) with uid in HD.
  pose proof (proj2 Haa) as Hdira. fold dir in Hdira.
  pose proof (purge_indexed_walk env cmd dataDir cutoff
                (time.Format now time.RFC3339Nano) idx wa dir es fuel
                ltac:(now rewrite Hbn) Hdira Hfiles) as Hwd.
  rewrite Hbn in Hwd. rewrite HD in Hwd. injection Hwd as ->.
  assert (Hput : lookup dir
                   (disk (with_disk wa
                            (put dir
                               (Dir true
                                  (del_entry filenameRecipeDeleteMarker es))
                               (disk wa))))
                 = Some (Dir true (del_entry filenameRecipeDeleteMarker es))).
  { cbn [with_disk disk]. exact (lookup_put_same _ _ _ _ Hdira). }
  pose proof (proj2 (Hafter _ (Hshield _) (conj Hkb Hput))) as Hend.
  fold dir in Hend. split; [exact Hend|]. split.
  - rewrite (lookup_child _ _ _ _ _ Hend). apply lookup_entry_del_eq.
  - intros x Hx.
    rewrite (lookup_child _ _ _ _ _ Hend), (lookup_child _ _ _ _ _ Hdir).
    apply lookup_entry_del_ne. congruence.
Qed.

(** C6 at a pass over the disk of the repository's test. *)
Lemma purge_indexed_directory_witness :
  FS.lookup (Fixture.recipeDir "keepm" ++ [filenameRecipeDeleteMarker])
    (disk (fst (@PurgeUnreferencedRecipes FlatJSON.codec Fixture.noenv
                  (Fixture.sync Fixture.day) false Fixture.dataDir Fixture.now
                  (Fixture.world Fixture.reappeared)))) = None /\
  FS.lookup (Fixture.recipeFile "keepm")
    (disk (fst (@PurgeUnreferencedRecipes FlatJSON.codec Fixture.noenv
                  (Fixture.sync Fixture.day) false Fixture.dataDir Fixture.now
                  (Fixture.world Fixture.reappeared))))
  = FS.lookup (Fixture.recipeFile "keepm") Fixture.reappeared.
Proof.
  pose proof
    (@purge_indexed_directory FlatJSON.codec Fixture.noenv
       (Fixture.sync Fixture.day) Fixture.dataDir Fixture.now
       (Fixture.world Fixture.reappeared) _
       (FS.File (FlatJSON.enc_index [Fixture.item "keepm" "h1"]))
       [Fixture.item "keepm" "h1"] "ke" "kee" "keepm"
       (Fixture.entries_at (Fixture.recipeDir "keepm") Fixture.reappeared)
       ltac:(reflexivity) ltac:(reflexivity) ltac:(reflexivity)
       ltac:(reflexivity) ltac:(reflexivity) ltac:(reflexivity)
       ltac:(reflexivity) ltac:(reflexivity)
       ltac:(vm_compute; reflexivity))
    as (_ & Hgone & Hkept).
  split; [exact Hgone|].
  apply (Hkept filenameRecipeJSON). discriminate.
Defined.

(** What C6 says of every purge pass fails for a pass that is stopped before
    it reaches the directory: the marker of [aaaaa], a recipe that is not in
    the index, holds no time, the pass ends there with the error of
    [time.Parse], and the marker of [keepm], a recipe of the index, is
    still in its directory. *)
Lemma stopped_purge_leaves_marker :
  FS.lookup (pathToRecipesIndexFile Fixture.noenv Fixture.dataDir)
    Cases.blocked
  = Some (FS.File (FlatJSON.enc_index [Fixture.item "keepm" "h1"])) /\
  FS.lookup (Fixture.recipeDir "keepm" ++ [filenameRecipeDeleteMarker])
    Cases.blocked <> None /\
  snd (@PurgeUnreferencedRecipes FlatJSON.codec Fixture.noenv
         (Fixture.sync Fixture.day) false Fixture.dataDir Fixture.now
         (Fixture.world Cases.blocked))
  = Returned (Some ErrTimeParse) /\
  FS.lookup (Fixture.recipeDir "keepm" ++ [filenameRecipeDeleteMarker])
    (disk (fst (@PurgeUnreferencedRecipes FlatJSON.codec Fixture.noenv
                  (Fixture.sync Fixture.day) false Fixture.dataDir Fixture.now
                  (Fixture.world Cases.blocked))))
  = FS.lookup (Fixture.recipeDir "keepm" ++ [filenameRecipeDeleteMarker])
      Cases.blocked.
Proof.
  repeat split; try (vm_compute; reflexivity). vm_compute. discriminate.
Qed.

(** ** C7: pruning *)

(** C7.  On a well-formed tree whose directories are writable, with a
    context that is not cancelled, [PruneFilelessSubtrees] ends without
    error; the root is still there; a directory below the root is gone if
    and only if the subtree at it is fileless; and every file is where it
    was. *)
Theorem PruneFilelessSubtrees_spec
    (root : FS.path) (w : World) (es : FS.entries) :
  FS.lookup root (disk w) = Some (FS.Dir true es) ->
  unique_names (FS.Dir true es) = true ->
  all_writable (FS.Dir true es) = true ->
  let r := PruneFilelessSubtrees false root w in
  snd r = Returned None /\
  (exists es', FS.lookup root (disk (fst r)) = Some (FS.Dir true es')) /\
  (forall p d, p <> [] ->
     FS.lookup (root ++ p) (disk w) = Some d -> FS.is_dir d = true ->
     (FS.lookup (root ++ p) (disk (fst r)) = None <-> fileless d = true)) /\
  (forall p b,
     FS.lookup (root ++ p) (disk w) = Some (FS.File b) ->
     FS.lookup (root ++ p) (disk (fst r)) = Some (FS.File b)).
Proof.
  intros Hroot Hu Hw r.
  assert (Hr : r = (with_disk w (put root (Dir true (prune_entries es))
                                   (disk w)), Returned None)).
  { unfold r, PruneFilelessSubtrees. rewrite Hroot.
    now rewrite (pruneRoot_spec root es Hu Hw). }
  rewrite Hr. cbn [fst snd with_disk disk].
  pose proof (lookup_put_same root (Dir true (prune_entries es)) (disk w)
                _ Hroot) as Hput.
  assert (Hbelow : forall p d, p <> [] ->
            lookup (root ++ p) (disk w) = Some d ->
            lookup (root ++ p)
              (put root (Dir true (prune_entries es)) (disk w))
            = if fileless d then None else Some (pruned d)).
  { intros p d Hp Hl. rewrite lookup_app, Hroot in Hl.
    rewrite lookup_app, Hput. now apply lookup_pruned_below. }
  repeat split.
  - eauto.
  - intros Hnone. rewrite (Hbelow p d H H0) in Hnone.
    destruct (fileless d); [reflexivity|discriminate].
  - intros Hf. now rewrite (Hbelow p d H H0), Hf.
  - intros p b Hl. destruct p as [|x p].
    + rewrite app_nil_r in Hl. congruence.
    + now rewrite (Hbelow (x :: p) (File b) ltac:(discriminate) Hl).
Qed.

(** C7 on the tree of the repository's test. *)
Lemma PruneFilelessSubtrees_spec_witness :
  (exists es,
     FS.lookup ["data"]
       (disk (fst (PruneFilelessSubtrees false ["data"]
                     (Fixture.world Fixture.scaffold))))
     = Some (FS.Dir true es)) /\
  FS.lookup ["data"; "remove"]
    (disk (fst (PruneFilelessSubtrees false ["data"]
                  (Fixture.world Fixture.scaffold)))) = None /\
  FS.lookup ["data"; "keep"; "child"; "file.txt"]
    (disk (fst (PruneFilelessSubtrees false ["data"]
                  (Fixture.world Fixture.scaffold))))
  = Some (FS.File "data").
Proof.
  pose proof
    (PruneFilelessSubtrees_spec ["data"] (Fixture.world Fixture.scaffold)
       (Fixture.entries_at ["data"] Fixture.scaffold)
       ltac:(reflexivity) ltac:(reflexivity) ltac:(reflexivity))
    as (_ & Hroot & Hdirs & Hfiles).
  split; [exact Hroot|]. split.
  - apply (proj2 (Hdirs ["remove"]
                    (FS.Dir true [("empty", FS.Dir true
                                    [("nested", FS.Dir true [])])])
                    ltac:(discriminate) ltac:(reflexivity) ltac:(reflexivity))).
    reflexivity.
  - apply (Hfiles ["keep"; "child"; "file.txt"] "data"). reflexivity.
Defined.

(** ** C8: an error of os.RemoveAll in the purge *)

(** C8, the code at a directory it cannot remove.  The recipe [old11] is
    not in the index, the purge is immediate, and the directory of [old11]
    does not let its entries be removed: [os.RemoveAll] fails with EACCES,
    yet [PurgeUnreferencedRecipes] returns nil, the run returns nil, and the
    recipe is still on the disk. *)
Theorem purge_swallows_remove_error :
  snd (FS.remove_all (Fixture.recipeDir "old11") Fixture.locked)
  = Some EACCES /\
  @PurgeUnreferencedRecipes FlatJSON.codec Fixture.noenv (Fixture.sync 0%Z)
    false Fixture.dataDir Fixture.now (Fixture.world Fixture.locked)
  = (Fixture.world Fixture.locked, Returned None) /\
  snd (@Run FlatJSON.codec Fixture.noenv (Fixture.sync 0%Z) false Fixture.cli
         Fixture.bare 0 Fixture.now (Fixture.world Fixture.locked))
  = Returned None /\
  FS.lookup (Fixture.recipeFile "old11")
    (disk (fst (@Run FlatJSON.codec Fixture.noenv (Fixture.sync 0%Z) false
                  Fixture.cli Fixture.bare 0 Fixture.now
                  (Fixture.world Fixture.locked))))
  = FS.lookup (Fixture.recipeFile "old11") Fixture.locked.
Proof. repeat split; vm_compute; reflexivity. Qed.

(** ** C9: a failure of the categories fetch *)

(** C9, the code when the categories fetch fails.  With the categories
    branch enabled and a categories call that returns an error, no run
    returns, whatever the schedule: the process stops (by the exit of
    [log.Fatal] unless the recipes branch has stopped it before). *)
Theorem categories_failure_ends_process {json : JSON}
    (env : Env) (cmd : SyncCMD) (ctx : Context) (cli : CLI)
    (pc : paprika.Client.t) (k : nat) (now : time.Time) (w : World)
    (e : error) :
  IncludeCategories cmd = true ->
  snd (paprika.Client.Categories pc) = Some e ->
  exists w1 cr, Run env cmd ctx cli pc k now w = (w1, Crashed cr).
Proof.
  intros Hc He.
  destruct (syncPhase_categories_failure env cmd ctx cli pc k w e Hc He)
    as (w1 & cr & Hs).
  exists w1, cr. now apply Run_sync_crash.
Qed.

(** C9 at a server without categories: scheduled first, the categories
    task exits before any recipe work. *)
Lemma categories_failure_ends_process_witness :
  @Run FlatJSON.codec Fixture.noenv (Fixture.sync (-1)%Z) false Fixture.cli
    Fixture.pantry_without_categories 0 Fixture.now
    (Fixture.world Fixture.emptyDisk)
  = ({| disk := Fixture.emptyDisk; requests := [GET_categories] |},
     Crashed (Exit 1)) /\
  exists w1 cr,
    @Run FlatJSON.codec Fixture.noenv (Fixture.sync (-1)%Z) false Fixture.cli
      Fixture.pantry_without_categories 3 Fixture.now
      (Fixture.world Fixture.emptyDisk) = (w1, Crashed cr).
Proof.
  split; [vm_compute; reflexivity|].
  apply (@categories_failure_ends_process FlatJSON.codec Fixture.noenv
           (Fixture.sync (-1)%Z) false Fixture.cli
           Fixture.pantry_without_categories 3 Fixture.now
           (Fixture.world Fixture.emptyDisk)
           (ErrAPI "500 Internal Server Error"));
    reflexivity.
Defined.

(** ** C10: marker timestamps *)

Import time.

(** C10.  For every time [t] the RFC3339 layout can express, the text
    [t.Format(time.RFC3339Nano)] is no longer than the layout, and a marker
    file with that text as its body is read back by [readTimestampMarker]
    as a time equal to [t] (with the offset of [t]). *)
Theorem marker_timestamp_roundtrip
    (t : time.Time) (path : FS.path) (w : World) :
  expressible t ->
  FS.lookup path (disk w)
  = Some (FS.File (time.Format t time.RFC3339Nano)) ->
  (String.length (time.Format t time.RFC3339Nano)
   <= String.length time.RFC3339Nano)%nat /\
  exists t',
    readTimestampMarker path time.RFC3339Nano w = (w, Returned (inl t')) /\
    time.Equal t' t = true /\ time.offset t' = time.offset t.
Proof.
  intros Ht Hfile. destruct (format_parse t Ht) as [Hparse Hlen].
  change (time.Format t time.RFC3339Nano) with (formatRFC3339Nano t) in *.
  split; [exact Hlen|]. exists t.
  split; [|split; [apply Z.eqb_refl|reflexivity]].
  unfold readTimestampMarker, bind, reads, FS.open. rewrite Hfile.
  unfold file_Read.
  change (String.length RFC3339Nano =? 0)%nat with false.
  destruct (String.eqb_spec (formatRFC3339Nano t) "") as [E|_].
  { rewrite E in Hparse. discriminate Hparse. }
  rewrite (substring_short _ _ Hlen). unfold Parse.
  rewrite String.eqb_refl, Hparse. reflexivity.
Qed.

(** C10 at the time of the repository's test. *)
Lemma marker_timestamp_roundtrip_witness :
  (String.length (time.Format (time.Date 2023 5 6 7 8 9 0) time.RFC3339Nano)
   <= String.length time.RFC3339Nano)%nat /\
  exists t',
    readTimestampMarker
      (Fixture.recipeDir "old11" ++ [filenameRecipeDeleteMarker])
      time.RFC3339Nano
      (Fixture.world (Fixture.marked (time.Date 2023 5 6 7 8 9 0)))
    = (Fixture.world (Fixture.marked (time.Date 2023 5 6 7 8 9 0)),
       Returned (inl t')) /\
    time.Equal t' (time.Date 2023 5 6 7 8 9 0) = true /\
    time.offset t' = time.offset (time.Date 2023 5 6 7 8 9 0).
Proof.
  apply (marker_timestamp_roundtrip (time.Date 2023 5 6 7 8 9 0)
           (Fixture.recipeDir "old11" ++ [filenameRecipeDeleteMarker])
           (Fixture.world (Fixture.marked (time.Date 2023 5 6 7 8 9 0)))).
  - vm_compute. intuition discriminate.
  - reflexivity.
Defined.
(* ================================================================== *)
(** * Further properties of the code *)
(* ================================================================== *)

Import Store FSFrame PurgeSafety PurgeMore PruneMore WalkMore.
Import SaveMore SyncMore MarkerMore VersionFacts PruneSafety PurgeFrame.
Import WellFormed SyncInv RunInv RequestFacts.

(** ** saveAsJSON *)

(** X1.  [saveAsJSON] returns nil exactly when the path can be written to:
    every component on the way that exists is a directory, the first one
    missing lies in a directory that takes new entries, and at the path
    there is a file or, in a directory that takes new entries, nothing.  In
    every other case it returns an error (it never panics). *)
Theorem saveAsJSON_succeeds_iff
    (body : string) (path : FS.path) (w : World) :
  (exists w' err, saveAsJSON body path w = (w', Returned err)) /\
  (snd (saveAsJSON body path w) = Returned None
   <-> writable_to path (disk w) = true).
Proof.
  split.
  - destruct (saveAsJSON_returns body path w) as (d & err & H & _). eauto.
  - apply saveAsJSON_ok_iff.
Qed.

(** X2.  What [saveAsJSON] does to the files of the disk.  When it returns
    nil the file at the path holds the text written, whatever was there
    before, and every other file is as it was; when it returns an error
    every file is as it was (directories may have been made).  No request
    is sent. *)
Theorem saveAsJSON_keeps_other_files
    (body : string) (path : FS.path) (w w' : World) (err : option error) :
  saveAsJSON body path w = (w', Returned err) ->
  requests w' = requests w /\
  (forall q b, q <> path -> FS.lookup q (disk w) = Some (FS.File b) ->
               FS.lookup q (disk w') = Some (FS.File b)) /\
  (err = None -> FS.lookup path (disk w') = Some (FS.File body)) /\
  (err <> None ->
   forall q b, FS.lookup q (disk w) = Some (FS.File b) ->
               FS.lookup q (disk w') = Some (FS.File b)).
Proof. apply saveAsJSON_files. Qed.

(** X2 on the disk of the repository's test: a file written into a
    directory that is not there yet, beside a stored recipe. *)
Lemma saveAsJSON_keeps_other_files_witness :
  FS.lookup ["data"; "nested"; "file.json"]
    (disk (fst (saveAsJSON "{}" ["data"; "nested"; "file.json"]
                  (Fixture.world Fixture.stored))))
  = Some (FS.File "{}") /\
  FS.lookup (Fixture.recipeFile "abcde")
    (disk (fst (saveAsJSON "{}" ["data"; "nested"; "file.json"]
                  (Fixture.world Fixture.stored))))
  = FS.lookup (Fixture.recipeFile "abcde") Fixture.stored.
Proof.
  assert (Hs : saveAsJSON "{}" ["data"; "nested"; "file.json"]
                 (Fixture.world Fixture.stored)
               = (fst (saveAsJSON "{}"
                         ["data"; "nested"; "file.json"]
                         (Fixture.world Fixture.stored)), Returned None))
    by (vm_compute; reflexivity).
  destruct (saveAsJSON_keeps_other_files _ _ _ _ _ Hs) as (_ & Hothers & Hfile & _).
  split; [now apply Hfile|].
  apply (Hothers (Fixture.recipeFile "abcde")
           (FlatJSON.enc_recipe (paprika.Recipe.mk "abcde" "h3" ""))).
  - discriminate.
  - reflexivity.
Defined.

(** ** The index files *)

(** X3.  [SaveRecipesIndex] sends one request for the index and returns the
    list the client returned.  When the client reports an error nothing is
    written and that error is returned; when it reports none the result is
    the result of saving the list at the index path: nil only if the file
    then holds the encoded list. *)
Theorem SaveRecipesIndex_contract {json : JSON}
    (env : Env) (cli : CLI) (c : paprika.Client.t) (w : World) :
  exists d err,
    SaveRecipesIndex env cli c w
    = ({| disk := d; requests := GET_recipes :: requests w |},
       Returned (fst (paprika.Client.Recipes c), err)) /\
    (forall e, snd (paprika.Client.Recipes c) = Some e ->
               d = disk w /\ err = Some e) /\
    (err = None ->
     snd (paprika.Client.Recipes c) = None /\
     FS.lookup (pathToRecipesIndexFile env (DataDir cli)) d
     = Some (FS.File (encode_index (fst (paprika.Client.Recipes c))))).
Proof.
  destruct (SaveRecipesIndex_cases env cli c w) as (d & err & Hs & Hm).
  exists d, err. split; [exact Hs|].
  destruct (snd (paprika.Client.Recipes c)) as [e0|].
  - destruct Hm as [-> ->]. split; [now intros e [= <-]|discriminate].
  - split; [discriminate|]. intros ->. split; [reflexivity|].
    destruct (saveAsJSON_files _ _ _ _ _ Hm) as (_ & _ & Hfile & _).
    now apply Hfile.
Qed.

(** X4.  When the categories call succeeds, [SaveCategoriesIndex] sends one
    request and returns what saving the list at the categories path
    returns, nil only if the file then holds the encoded list; a failure to
    write comes back as an error and does not end the process. *)
Theorem SaveCategoriesIndex_contract {json : JSON}
    (env : Env) (cli : CLI) (c : paprika.Client.t) (w : World) :
  snd (paprika.Client.Categories c) = None ->
  exists d err,
    SaveCategoriesIndex env cli c w
    = ({| disk := d; requests := GET_categories :: requests w |},
       Returned err) /\
    (err = None ->
     FS.lookup (pathToCategoriesIndexFile env (DataDir cli)) d
     = Some (FS.File (encode_categories (fst (paprika.Client.Categories c)))))
    /\
    (forall q b, q <> pathToCategoriesIndexFile env (DataDir cli) ->
                 FS.lookup q (disk w) = Some (FS.File b) ->
                 FS.lookup q d = Some (FS.File b)).
Proof.
  intros Hok. unfold SaveCategoriesIndex, bind, send.
  destruct (paprika.Client.Categories c) as [cats err0]. cbn [fst snd] in *.
  subst err0.
  destruct (saveAsJSON_returns (encode_categories cats)
              (pathToCategoriesIndexFile env (DataDir cli))
              {| disk := disk w; requests := GET_categories :: requests w |})
    as (d & err & Hs & Hfile).
  exists d, err. rewrite Hs. split; [reflexivity|]. split; [exact Hfile|].
  destruct (saveAsJSON_files _ _ _ _ _ Hs) as (_ & Hothers & _).
  exact Hothers.
Qed.

(** X4 at the kitchen: the categories file is written, the stored recipe
    is as it was. *)
Lemma SaveCategoriesIndex_contract_witness :
  exists d err,
    @SaveCategoriesIndex FlatJSON.codec Fixture.noenv Fixture.cli
      Fixture.kitchen (Fixture.world Fixture.stored)
    = ({| disk := d; requests := [GET_categories] |}, Returned err) /\
    (err = None ->
     FS.lookup ["data"; "categories-index.json"] d
     = Some (FS.File (FlatJSON.enc_categories
                        [paprika.Category.mk "cat1" "Lunch"]))) /\
    (forall q b, q <> ["data"; "categories-index.json"] ->
                 FS.lookup q Fixture.stored = Some (FS.File b) ->
                 FS.lookup q d = Some (FS.File b)).
Proof.
  apply (@SaveCategoriesIndex_contract FlatJSON.codec Fixture.noenv
           Fixture.cli Fixture.kitchen (Fixture.world Fixture.stored)).
  reflexivity.
Defined.

(** ** UpsertRecipe *)

(** X5.  The results of [UpsertRecipe] for a uid of three bytes or more.
    It always returns.  It sends at most the one request for the record of
    the uid, and the only file it can change is the recipe file of the uid.
    It returns saved = true only with a nil error, after that request, with
    the file holding the fetched record, whose uid is the uid asked for.
    It returns (false, nil) only without any request or write, the file
    holding a record with the hash of the reference.  When it returns an
    error every file is as it was. *)
Theorem UpsertRecipe_contract {json : JSON}
    (env : Env) (cli : CLI) (c : paprika.Client.t)
    (ref : paprika.RecipeItem.t) (w : World) :
  let uid := paprika.RecipeItem.UID ref in
  let path := recipeFile env (DataDir cli) uid in
  (3 <= String.length uid)%nat ->
  exists w' saved err,
    UpsertRecipe env cli c ref w = (w', Returned (saved, err)) /\
    (requests w' = requests w \/
     requests w' = GET_recipe uid :: requests w) /\
    (forall q b, q <> path -> FS.lookup q (disk w) = Some (FS.File b) ->
                 FS.lookup q (disk w') = Some (FS.File b)) /\
    (saved = true ->
     err = None /\
     requests w' = GET_recipe uid :: requests w /\
     paprika.Recipe.UID (fst (paprika.Client.Recipe c uid)) = uid /\
     FS.lookup path (disk w')
     = Some (FS.File (encode_recipe (fst (paprika.Client.Recipe c uid))))) /\
    (saved = false -> err = None ->
     w' = w /\ stored_hash_matches env cli w ref) /\
    (err <> None ->
     saved = false /\
     forall q b, FS.lookup q (disk w) = Some (FS.File b) ->
                 FS.lookup q (disk w') = Some (FS.File b)).
Proof.
  intros uid path Hlen.
  rewrite (UpsertRecipe_cases env cli c ref w Hlen). cbv zeta.
  fold uid path.
  destruct (fst (decision path (paprika.RecipeItem.Hash ref) (disk w)))
    eqn:Edec; cbn [negb].
  2:{ exists w, false, None. split; [reflexivity|].
      repeat split; auto; try discriminate; try congruence.
      now apply decision_matches. }
  destruct (paprika.Client.Recipe c uid) as [recipe [e|]] eqn:Ef; cbn [fst].
  { exists (with_request w (GET_recipe uid)), false, (Some e).
    split; [reflexivity|]. cbn [with_request disk requests].
    repeat split; auto; try discriminate. }
  destruct (String.eqb_spec (paprika.Recipe.UID recipe) uid) as [Huid|Huid];
    cbn [negb].
  2:{ exists (with_request w (GET_recipe uid)), false,
             (Some (ErrUIDMismatch (paprika.Recipe.UID recipe) uid)).
      split; [reflexivity|]. cbn [with_request disk requests].
      repeat split; auto; try discriminate. }
  destruct (saveAsJSON_returns (encode_recipe recipe) path
              (with_request w (GET_recipe uid))) as (d & err & Hs & _).
  destruct (saveAsJSON_files _ _ _ _ _ Hs) as (Hreq & Hothers & Hfile & Hfail).
  rewrite Hs. cbn [with_disk with_request disk requests] in *.
  destruct err as [e|].
  - exists (with_disk (with_request w (GET_recipe uid)) d), false, (Some e).
    split; [reflexivity|]. cbn [with_disk with_request disk requests].
    repeat split; auto; try discriminate; try (apply Hfail; discriminate).
  - exists (with_disk (with_request w (GET_recipe uid)) d), true, None.
    split; [reflexivity|]. cbn [with_disk with_request disk requests].
    repeat split; auto; try discriminate; congruence.
Qed.

(** X5 at the test servers: a new recipe is fetched and saved, a stored one
    is skipped. *)
Lemma UpsertRecipe_contract_witness :
  (exists w' saved err,
     @UpsertRecipe FlatJSON.codec Fixture.noenv Fixture.cli Fixture.kitchen
       (Fixture.item "abcde" "h1") (Fixture.world Fixture.emptyDisk)
     = (w', Returned (saved, err)) /\
     requests w' = [GET_recipe "abcde"] /\ saved = true) /\
  @UpsertRecipe FlatJSON.codec Fixture.noenv Fixture.cli Fixture.kitchen
    (Fixture.item "abcde" "h3") (Fixture.world Fixture.stored)
  = (Fixture.world Fixture.stored, Returned (false, None)).
Proof.
  split.
  - destruct (@UpsertRecipe_contract FlatJSON.codec Fixture.noenv Fixture.cli
                Fixture.kitchen (Fixture.item "abcde" "h1")
                (Fixture.world Fixture.emptyDisk) ltac:(vm_compute; lia))
      as (w' & saved & err & Hu & _).
    exists w', saved, err. split; [exact Hu|].
    vm_compute in Hu. injection Hu as <- <- _. split; reflexivity.
  - destruct (@UpsertRecipe_contract FlatJSON.codec Fixture.noenv Fixture.cli
                Fixture.kitchen (Fixture.item "abcde" "h3")
                (Fixture.world Fixture.stored) ltac:(vm_compute; lia))
      as (w' & saved & err & Hu & _ & _ & _ & Hskip & _).
    assert (Hv := Hu). vm_compute in Hv.
    injection Hv as _ <- <-.
    destruct (Hskip eq_refl eq_refl) as [-> _]. exact Hu.
Defined.

(** ** SyncCMD.Run *)

(** X6.  A reference whose uid is shorter than three bytes makes
    [UpsertRecipe] panic at [uid[:3]] (at [uid[:2]] when shorter still)
    before anything is read, fetched or written.  So a run with the recipes
    branch enabled, at least one worker and an uncancelled context never
    returns when the index it fetched holds such a uid, whatever the
    schedule. *)
Theorem short_uid_stops_the_run {json : JSON}
    (env : Env) (cmd : SyncCMD) (cli : CLI) (pc : paprika.Client.t)
    (k : nat) (now : time.Time) (w : World) (ref : paprika.RecipeItem.t) :
  IncludeRecipes cmd = true ->
  (1 <= DownloadConcurrency cmd)%Z ->
  In ref (fst (paprika.Client.Recipes pc)) ->
  (String.length (paprika.RecipeItem.UID ref) < 3)%nat ->
  (forall w0, UpsertRecipe env cli pc ref w0 = (w0, Crashed Panic)) /\
  exists w' cr, Run env cmd false cli pc k now w = (w', Crashed cr).
Proof.
  intros Hrec Hdc Hin Hlen. split.
  - intros w0. now apply UpsertRecipe_short.
  - destruct (syncPhase_short env cmd false cli pc k w ref Hrec eq_refl Hdc
                Hin Hlen) as (w' & cr & Hs).
    exists w', cr. now apply Run_sync_crash.
Qed.

(** X6 at a server whose index holds the uid [ab]. *)
Lemma short_uid_stops_the_run_witness :
  (forall w0,
     @UpsertRecipe FlatJSON.codec Fixture.noenv Fixture.cli Cases.terse
       (Fixture.item "ab" "h2") w0 = (w0, Crashed Panic)) /\
  exists w' cr,
    @Run FlatJSON.codec Fixture.noenv (Fixture.sync (-1)) false Fixture.cli
      Cases.terse 0 Fixture.now (Fixture.world Fixture.emptyDisk)
    = (w', Crashed cr).
Proof.
  apply (@short_uid_stops_the_run FlatJSON.codec).
  - reflexivity.
  - vm_compute. discriminate.
  - right. left. reflexivity.
  - vm_compute. lia.
Defined.

(** X7.  [Run] relies on the worker count having passed
    [NumWorkers.Validate]: with the recipes branch enabled, a count that
    [Validate] rejects and an index that is not empty, no run returns (a
    negative count panics in [make]; with zero the producer blocks on its
    first send and nothing ever receives). *)
Theorem rejected_worker_count_stops_the_run {json : JSON}
    (env : Env) (cmd : SyncCMD) (ctx : Context) (cli : CLI)
    (pc : paprika.Client.t) (k : nat) (now : time.Time) (w : World) :
  IncludeRecipes cmd = true ->
  NumWorkers_Validate (DownloadConcurrency cmd) <> None ->
  fst (paprika.Client.Recipes pc) <> [] ->
  exists w' cr, Run env cmd ctx cli pc k now w = (w', Crashed cr).
Proof.
  intros Hrec Hval Hitems.
  assert (Hdc : (DownloadConcurrency cmd <= 0)%Z).
  { unfold NumWorkers_Validate in Hval.
    destruct (Z.leb_spec (DownloadConcurrency cmd) 0); [lia|congruence]. }
  destruct (syncPhase_no_workers env cmd ctx cli pc k w Hrec Hdc Hitems)
    as (w' & cr & Hs).
  exists w', cr. now apply Run_sync_crash.
Qed.

(** X7 with no worker at all and the two recipes of the pantry. *)
Lemma rejected_worker_count_stops_the_run_witness :
  exists w' cr,
    @Run FlatJSON.codec Fixture.noenv (Cases.sync_with 0) false Fixture.cli
      Fixture.pantry 0 Fixture.now (Fixture.world Fixture.emptyDisk)
    = (w', Crashed cr).
Proof.
  apply (@rejected_worker_count_stops_the_run FlatJSON.codec).
  - reflexivity.
  - vm_compute. discriminate.
  - vm_compute. discriminate.
Defined.

(** X8.  With the recipes branch enabled, a run whose fetch of the index
    fails and that returns, returns the error of a sync completed with
    errors, in the world the sync phase left: the purge and the pruner do
    not run. *)
Theorem failed_index_fetch_fails_the_run {json : JSON}
    (env : Env) (cmd : SyncCMD) (ctx : Context) (cli : CLI)
    (pc : paprika.Client.t) (k : nat) (now : time.Time) (w w' : World)
    (e : error) (r : option error) :
  IncludeRecipes cmd = true ->
  snd (paprika.Client.Recipes pc) = Some e ->
  Run env cmd ctx cli pc k now w = (w', Returned r) ->
  r = Some ErrSyncCompletedWithErrors /\
  exists st, syncPhase env cmd ctx cli pc k w = (w', Returned st).
Proof.
  intros Hrec He Hrun.
  destruct (syncPhase env cmd ctx cli pc k w) as [w1 [st|cr]] eqn:Hs.
  2:{ rewrite (Run_sync_crash env cmd ctx cli pc k now w w1 cr Hs) in Hrun.
      discriminate. }
  pose proof (syncPhase_index_failure env cmd ctx cli pc k w w1 st e Hrec He Hs)
    as Hflag.
  rewrite (Run_after_sync env cmd ctx cli pc k now w w1 st Hs) in Hrun.
  unfold purgePhase in Hrun. rewrite Hflag in Hrun. cbn in Hrun.
  injection Hrun as <- <-. eauto.
Qed.

(** X8 at a server that cannot be reached. *)
Lemma failed_index_fetch_fails_the_run_witness :
  Some ErrSyncCompletedWithErrors = Some ErrSyncCompletedWithErrors /\
  exists st,
    @syncPhase FlatJSON.codec Fixture.noenv (Cases.sync_with 10) false
      Fixture.cli Cases.offline 0 (Fixture.world Fixture.emptyDisk)
    = ({| disk := Fixture.emptyDisk; requests := [GET_recipes] |},
       Returned st).
Proof.
  assert (Hrun : @Run FlatJSON.codec Fixture.noenv (Cases.sync_with 10) false
                   Fixture.cli Cases.offline 0 Fixture.now
                   (Fixture.world Fixture.emptyDisk)
                 = ({| disk := Fixture.emptyDisk; requests := [GET_recipes] |},
                    Returned (Some ErrSyncCompletedWithErrors)))
    by (vm_compute; reflexivity).
  exact (@failed_index_fetch_fails_the_run FlatJSON.codec Fixture.noenv
           (Cases.sync_with 10) false Fixture.cli Cases.offline 0 Fixture.now
           (Fixture.world Fixture.emptyDisk) _
           (ErrAPI "connection refused") _ eq_refl eq_refl Hrun).
Defined.

(** X9.  A run with the recipes branch enabled, the purge disabled and the
    context not cancelled that returns nil leaves every recipe of the index
    it fetched in the store: the recipe file of each uid is there and holds
    the record the server has for the uid or a record with the hash of the
    index entry.  (The categories file is taken not to be named like a
    recipe file.) *)
Theorem successful_sync_stores_every_recipe {json : JSON}
    (env : Env) (cmd : SyncCMD) (cli : CLI) (pc : paprika.Client.t)
    (k : nat) (now : time.Time) (w w' : World) :
  IncludeRecipes cmd = true ->
  (PurgeAfter cmd < 0)%Z ->
  FS.basename (pathToCategoriesIndexFile env (DataDir cli))
    <> filenameRecipeJSON ->
  Run env cmd false cli pc k now w = (w', Returned None) ->
  Forall (backed_up env cli pc w') (fst (paprika.Client.Recipes pc)).
Proof.
  intros Hrec Hpurge Hcat Hrun.
  destruct (syncPhase env cmd false cli pc k w) as [w1 [st|cr]] eqn:Hs.
  2:{ rewrite (Run_sync_crash env cmd false cli pc k now w w1 cr Hs) in Hrun.
      discriminate. }
  rewrite (Run_after_sync env cmd false cli pc k now w w1 st Hs) in Hrun.
  unfold purgePhase in Hrun.
  assert ((0 <=? PurgeAfter cmd)%Z = false) as E by (apply Z.leb_gt; lia).
  rewrite E, andb_false_r in Hrun. unfold ret in Hrun.
  destruct (fst st) eqn:Hflag; [discriminate|]. injection Hrun as <-.
  exact (syncPhase_backs_up env cmd cli pc k w w1 st Hrec Hcat Hs Hflag).
Qed.

(** X9 at the pantry, on an empty data directory. *)
Lemma successful_sync_stores_every_recipe_witness :
  Forall
    (@backed_up FlatJSON.codec Fixture.noenv Fixture.cli Fixture.pantry
       (fst (@Run FlatJSON.codec Fixture.noenv (Fixture.sync (-1)) false
               Fixture.cli Fixture.pantry 0 Fixture.now
               (Fixture.world Fixture.emptyDisk))))
    (fst (paprika.Client.Recipes Fixture.pantry)).
Proof.
  assert (Hrun : @Run FlatJSON.codec Fixture.noenv (Fixture.sync (-1)) false
                   Fixture.cli Fixture.pantry 0 Fixture.now
                   (Fixture.world Fixture.emptyDisk)
                 = (fst (@Run FlatJSON.codec Fixture.noenv (Fixture.sync (-1))
                           false Fixture.cli Fixture.pantry 0 Fixture.now
                           (Fixture.world Fixture.emptyDisk)),
                    Returned None))
    by (vm_compute; reflexivity).
  apply (@successful_sync_stores_every_recipe FlatJSON.codec Fixture.noenv
           (Fixture.sync (-1)) Fixture.cli Fixture.pantry 0 Fixture.now
           (Fixture.world Fixture.emptyDisk) _ eq_refl).
  - vm_compute. reflexivity.
  - vm_compute. discriminate.
  - exact Hrun.
Defined.

(** X10.  The purge needs the index file, and only the recipes branch
    writes it: a run with both branches disabled and the purge enabled, on
    a disk without an index file (or with one that does not decode),
    changes and fetches nothing and returns the error of a sync completed
    with errors. *)
Theorem purge_without_index_fails_the_run {json : JSON}
    (env : Env) (cmd : SyncCMD) (ctx : Context) (cli : CLI)
    (pc : paprika.Client.t) (k : nat) (now : time.Time) (w : World) :
  IncludeRecipes cmd = false ->
  IncludeCategories cmd = false ->
  (0 <= PurgeAfter cmd)%Z ->
  (FS.lookup (pathToRecipesIndexFile env (DataDir cli)) (disk w) = None \/
   exists f e,
     FS.lookup (pathToRecipesIndexFile env (DataDir cli)) (disk w) = Some f /\
     decode_from decode_index f = inr e) ->
  Run env cmd ctx cli pc k now w
  = (w, Returned (Some ErrSyncCompletedWithErrors)).
Proof.
  intros Hrec Hcat Hpurge Hidx.
  assert (Hs : syncPhase env cmd ctx cli pc k w = (w, Returned (false, 0%Z))).
  { unfold syncPhase, categoriesTask. now rewrite Hrec, Hcat. }
  rewrite (Run_after_sync env cmd ctx cli pc k now w w _ Hs).
  unfold purgePhase. cbn [fst negb andb].
  apply Z.leb_le in Hpurge. rewrite Hpurge.
  unfold bind at 1. unfold PurgeUnreferencedRecipes, bind, reads, FS.open, ret.
  destruct Hidx as [->|(f & e & -> & ->)]; reflexivity.
Qed.

(** X10 on an empty data directory. *)
Lemma purge_without_index_fails_the_run_witness :
  @Run FlatJSON.codec Fixture.noenv (Cases.purge_only 0) false Fixture.cli
    Fixture.pantry 0 Fixture.now (Fixture.world Fixture.emptyDisk)
  = (Fixture.world Fixture.emptyDisk,
     Returned (Some ErrSyncCompletedWithErrors)).
Proof.
  apply (@purge_without_index_fails_the_run FlatJSON.codec).
  - reflexivity.
  - reflexivity.
  - vm_compute. discriminate.
  - left. vm_compute. reflexivity.
Defined.

(** ** PurgeUnreferencedRecipes *)

(** X11.  The purge never touches the recipe file of a recipe of the index
    whose uid is one path component.  When the index file decodes to an
    index that holds the uid, the uid holds no separator and does not begin
    with two periods (so the directory of the recipe is named by the uid),
    and no file named like a recipe file or a marker lies above the third
    level of the recipes directory, the recipe file of the uid holds after
    [PurgeUnreferencedRecipes] what it held before, whatever the grace
    period, the context, the markers present and the outcome of the pass. *)
Theorem purge_keeps_indexed_recipes {json : JSON}
    (env : Env) (cmd : SyncCMD) (ctx : Context) (dataDir : FS.path)
    (now : time.Time) (w : World) (f : FS.node)
    (index : list paprika.RecipeItem.t) (uid body : string) :
  FS.lookup (pathToRecipesIndexFile env dataDir) (disk w) = Some f ->
  decode_from decode_index f = inl index ->
  In uid (map paprika.RecipeItem.UID index) ->
  plain_uid uid = true ->
  sharded (pathToRecipesDir env dataDir) (disk w) = true ->
  FS.lookup (recipeFile env dataDir uid) (disk w) = Some (FS.File body) ->
  FS.lookup (recipeFile env dataDir uid)
    (disk (fst (PurgeUnreferencedRecipes env cmd ctx dataDir now w)))
  = Some (FS.File body).
Proof.
  intros Hopen Hdec Hin _ Hsh Hfile.
  assert (Hidx : indexed uid (map paprika.RecipeItem.UID index) = true).
  { unfold indexed. apply existsb_exists. exists uid. split; [exact Hin|].
    apply String.eqb_refl. }
  assert (Hi : Inv (pathToRecipesDir env dataDir)
                 [substring 0 2 uid; substring 0 3 uid; uid; filenameRecipeJSON]
                 body w).
  { unfold recipeFile in Hfile. cbn [app] in Hfile.
    rewrite lookup_app in Hfile. unfold sharded in Hsh.
    destruct (lookup (pathToRecipesDir env dataDir) (disk w)) as [n|] eqn:Er;
      [|discriminate].
    exists n. auto. }
  assert (Hout : forall w', Inv (pathToRecipesDir env dataDir)
                   [substring 0 2 uid; substring 0 3 uid; uid;
                    filenameRecipeJSON] body w' ->
                 lookup (recipeFile env dataDir uid) (disk w')
                 = Some (File body)).
  { intros w' (n & Hroot & _ & Hf). unfold recipeFile. cbn [app].
    now rewrite lookup_app, Hroot. }
  unfold PurgeUnreferencedRecipes, bind, reads, FS.open.
  rewrite Hopen, Hdec.
  match goal with
  | |- context [WalkDir ?r ?fn w] =>
      destruct (WalkDir r fn w) as [w' res] eqn:Ew
  end.
  cbn [fst]. apply Hout.
  exact (purge_WalkDir_keeps env cmd ctx dataDir _ _ _ uid body Hidx w w' res
           Hi Ew).
Qed.

(** X11 on the disk of the repository's test, with an immediate purge. *)
Lemma purge_keeps_indexed_recipes_witness :
  FS.lookup (recipeFile Fixture.noenv Fixture.dataDir "keepm")
    (disk (fst (@PurgeUnreferencedRecipes FlatJSON.codec Fixture.noenv
                  (Fixture.sync 0%Z) false Fixture.dataDir Fixture.now
                  (Fixture.world Fixture.reappeared))))
  = Some (FS.File
            (FlatJSON.enc_recipe (paprika.Recipe.mk "keepm" "h1" ""))).
Proof.
  apply (@purge_keeps_indexed_recipes FlatJSON.codec Fixture.noenv
           (Fixture.sync 0%Z) false Fixture.dataDir Fixture.now
           (Fixture.world Fixture.reappeared)
           (FS.File (FlatJSON.enc_index [Fixture.item "keepm" "h1"]))
           [Fixture.item "keepm" "h1"] "keepm").
  - vm_compute. reflexivity.
  - vm_compute. reflexivity.
  - left. reflexivity.
  - reflexivity.
  - vm_compute. reflexivity.
  - vm_compute. reflexivity.
Defined.

(** X12.  A cancelled context does not make the purge fail: the function
    handed to the walk returns the nil error it was given, so the walk goes
    through the whole tree without reading a marker or changing anything
    and [PurgeUnreferencedRecipes] returns nil (not the error of the
    context), when the index file decodes and the recipes directory is
    there. *)
Theorem cancelled_purge_changes_nothing {json : JSON}
    (env : Env) (cmd : SyncCMD) (dataDir : FS.path) (now : time.Time)
    (w : World) (f n : FS.node) (index : list paprika.RecipeItem.t) :
  FS.lookup (pathToRecipesIndexFile env dataDir) (disk w) = Some f ->
  decode_from decode_index f = inl index ->
  FS.lookup (pathToRecipesDir env dataDir) (disk w) = Some n ->
  unique_names n = true ->
  PurgeUnreferencedRecipes env cmd true dataDir now w = (w, Returned None).
Proof.
  intros Hopen Hdec Hroot Hu.
  unfold PurgeUnreferencedRecipes, bind, reads, FS.open.
  rewrite Hopen, Hdec. unfold WalkDir, bind, reads. rewrite Hroot.
  rewrite (walkDir_inert _ (fun _ _ _ => eq_refl) (S (height (disk w)))
             (pathToRecipesDir env dataDir)
             {| Name := basename (pathToRecipesDir env dataDir);
                IsDir := is_dir n |} w n Hroot eq_refl Hu).
  - reflexivity.
  - pose proof (lookup_height _ _ _ Hroot). lia.
Qed.

(** X12 on a disk with a recipe marked two days ago. *)
Lemma cancelled_purge_changes_nothing_witness :
  @PurgeUnreferencedRecipes FlatJSON.codec Fixture.noenv
    (Fixture.sync Fixture.day) true Fixture.dataDir Fixture.now
    (Fixture.world Fixture.stale)
  = (Fixture.world Fixture.stale, Returned None).
Proof.
  apply (@cancelled_purge_changes_nothing FlatJSON.codec Fixture.noenv
           (Fixture.sync Fixture.day) Fixture.dataDir Fixture.now
           (Fixture.world Fixture.stale)
           (FS.File (FlatJSON.enc_index [Fixture.item "keep1" "h1"]))
           (FS.Dir true (Fixture.entries_at ["data"; "recipes"] Fixture.stale))
           [Fixture.item "keep1" "h1"]).
  - vm_compute. reflexivity.
  - vm_compute. reflexivity.
  - vm_compute. reflexivity.
  - vm_compute. reflexivity.
Defined.

(** X13.  The purge needs the recipes directory: when the index file
    decodes and there is nothing at the path of the recipes directory, the
    walk hands the error of [os.Lstat] to the function, which returns it,
    and [PurgeUnreferencedRecipes] returns ENOENT and changes nothing. *)
Theorem purge_without_recipes_directory {json : JSON}
    (env : Env) (cmd : SyncCMD) (ctx : Context) (dataDir : FS.path)
    (now : time.Time) (w : World) (f : FS.node)
    (index : list paprika.RecipeItem.t) :
  FS.lookup (pathToRecipesIndexFile env dataDir) (disk w) = Some f ->
  decode_from decode_index f = inl index ->
  FS.lookup (pathToRecipesDir env dataDir) (disk w) = None ->
  PurgeUnreferencedRecipes env cmd ctx dataDir now w
  = (w, Returned (Some ENOENT)).
Proof.
  intros Hopen Hdec Hroot.
  unfold PurgeUnreferencedRecipes, bind, reads, FS.open.
  rewrite Hopen, Hdec. unfold WalkDir, bind, reads. rewrite Hroot.
  reflexivity.
Qed.

(** X13 after the index of an account without recipes has been saved to a
    new data directory; the run of such an account with the purge enabled
    ends with the error of a sync completed with errors. *)
Lemma purge_without_recipes_directory_witness :
  @PurgeUnreferencedRecipes FlatJSON.codec Fixture.noenv (Fixture.sync 0%Z)
    false Fixture.dataDir Fixture.now
    (Fixture.world (Fixture.index_of [] Fixture.emptyDisk))
  = (Fixture.world (Fixture.index_of [] Fixture.emptyDisk),
     Returned (Some ENOENT)) /\
  snd (@Run FlatJSON.codec Fixture.noenv (Fixture.sync 0%Z) false Fixture.cli
         Fixture.bare 0 Fixture.now (Fixture.world Fixture.emptyDisk))
  = Returned (Some ErrSyncCompletedWithErrors).
Proof.
  split.
  - apply (@purge_without_recipes_directory FlatJSON.codec Fixture.noenv
             (Fixture.sync 0%Z) false Fixture.dataDir Fixture.now
             (Fixture.world (Fixture.index_of [] Fixture.emptyDisk))
             (FS.File (FlatJSON.enc_index [])) []).
    + vm_compute. reflexivity.
    + vm_compute. reflexivity.
    + vm_compute. reflexivity.
  - vm_compute. reflexivity.
Defined.

(** X14.  In a purge pass with a grace period that is not zero and a
    context that is not cancelled, the walk over the writable directory of
    a recipe that is not in the index, holding plain files with a recipe
    file and no marker among them, ends without error and creates the
    marker: the marker holds the time of the pass in the RFC3339Nano
    layout, and the other entries of the directory are as they were. *)
Theorem purge_marks_unindexed_recipe
    (env : Env) (cmd : SyncCMD) (dataDir : FS.path) (now : time.Time)
    (idx : list string) (w : World) (uid : string) (es : FS.entries)
    (fuel : nat) :
  let dir := pathToRecipesDir env dataDir
             ++ [substring 0 2 uid; substring 0 3 uid; uid] in
  PurgeAfter cmd <> 0%Z ->
  (3 <= String.length uid)%nat ->
  indexed uid idx = false ->
  FS.lookup dir (disk w) = Some (FS.Dir true es) ->
  all_files es = true ->
  FS.lookup_entry filenameRecipeJSON es <> None ->
  FS.lookup_entry filenameRecipeDeleteMarker es = None ->
  let r :=
    walkDir (S (S fuel)) dir
      {| FS.Name := FS.basename dir; FS.IsDir := true |}
      (purgeWalkFn env cmd false dataDir
         (time.Add now (time.neg (PurgeAfter cmd)))
         (time.Format now time.RFC3339Nano) idx) w in
  snd r = Returned None /\
  requests (fst r) = requests w /\
  FS.lookup (dir ++ [filenameRecipeDeleteMarker]) (disk (fst r))
  = Some (FS.File (time.Format now time.RFC3339Nano)) /\
  (forall x, x <> filenameRecipeDeleteMarker ->
     FS.lookup (dir ++ [x]) (disk (fst r)) = FS.lookup (dir ++ [x]) (disk w)).
Proof.
  intros dir Hpos Hlen Hidx Hdir Hfiles Hjson Hmark r.
  pose proof (purge_mark_walk env cmd dataDir
                (time.Add now (time.neg (PurgeAfter cmd)))
                (time.Format now time.RFC3339Nano) idx w uid es fuel
                Hpos Hlen Hidx Hdir Hfiles Hjson Hmark) as Hr.
  fold dir in Hr. fold r in Hr. rewrite Hr. cbn [fst snd with_disk disk requests].
  pose proof (lookup_put_same dir
                (Dir true (set_entry filenameRecipeDeleteMarker
                             (File (time.Format now time.RFC3339Nano)) es))
                (disk w) _ Hdir) as Hput.
  repeat split.
  - rewrite (lookup_child _ _ _ _ _ Hput). apply lookup_entry_set_eq.
  - intros x Hx.
    rewrite (lookup_child _ _ _ _ _ Hput), (lookup_child _ _ _ _ _ Hdir).
    apply lookup_entry_set_ne. congruence.
Qed.

(** X14 at the recipe [abcde], stored and gone from the index. *)
Lemma purge_marks_unindexed_recipe_witness :
  FS.lookup (Fixture.recipeDir "abcde" ++ [filenameRecipeDeleteMarker])
    (disk (fst (walkDir 2 (Fixture.recipeDir "abcde")
                  {| FS.Name := "abcde"; FS.IsDir := true |}
                  (purgeWalkFn Fixture.noenv (Fixture.sync Fixture.day) false
                     Fixture.dataDir
                     (time.Add Fixture.now (time.neg Fixture.day))
                     (time.Format Fixture.now time.RFC3339Nano) [])
                  (Fixture.world Fixture.stored))))
  = Some (FS.File "2024-01-02T15:04:05Z").
Proof.
  pose proof
    (purge_marks_unindexed_recipe Fixture.noenv (Fixture.sync Fixture.day)
       Fixture.dataDir Fixture.now [] (Fixture.world Fixture.stored) "abcde"
       (Fixture.entries_at (Fixture.recipeDir "abcde") Fixture.stored) 0
       ltac:(vm_compute; discriminate) ltac:(vm_compute; lia)
       ltac:(reflexivity) ltac:(reflexivity) ltac:(reflexivity)
       ltac:(vm_compute; discriminate) ltac:(reflexivity))
    as (_ & _ & Hm & _).
  exact Hm.
Defined.

(** X15.  The walks of two purges over one recipe directory.  The walk of
    a purge at [now] over the recipe directory of X14 marks it; the walk of
    a later purge at [now2] over the same directory, the recipe still out
    of the index, reads the marker back as [now], and removes the directory
    if [now2 - now] is at least the grace period (the directory is gone
    when its parent is writable) and changes nothing if it is less.  The
    time [now] is one the layout can express. *)
Theorem marked_recipe_is_purged_after_grace
    (env : Env) (cmd : SyncCMD) (dataDir : FS.path) (now now2 : time.Time)
    (idx idx2 : list string) (w : World) (uid : string) (es : FS.entries)
    (fuel fuel2 : nat) :
  let dir := pathToRecipesDir env dataDir
             ++ [substring 0 2 uid; substring 0 3 uid; uid] in
  (0 < PurgeAfter cmd)%Z ->
  expressible now ->
  (3 <= String.length uid)%nat ->
  indexed uid idx = false ->
  indexed uid idx2 = false ->
  FS.lookup dir (disk w) = Some (FS.Dir true es) ->
  all_files es = true ->
  FS.lookup_entry filenameRecipeJSON es <> None ->
  FS.lookup_entry filenameRecipeDeleteMarker es = None ->
  let walk (t : time.Time) (ix : list string) (f : nat) :=
    walkDir (S (S f)) dir
      {| FS.Name := FS.basename dir; FS.IsDir := true |}
      (purgeWalkFn env cmd false dataDir
         (time.Add t (time.neg (PurgeAfter cmd)))
         (time.Format t time.RFC3339Nano) ix) in
  let w1 := fst (walk now idx fuel w) in
  let r2 := walk now2 idx2 fuel2 w1 in
  readTimestampMarker (dir ++ [filenameRecipeDeleteMarker]) time.RFC3339Nano w1
    = (w1, Returned (inl now)) /\
  snd r2 = Returned None /\
  ((time.Sub now2 now < PurgeAfter cmd)%Z -> fst r2 = w1) /\
  ((PurgeAfter cmd <= time.Sub now2 now)%Z ->
   (exists pes,
      FS.lookup (FS.dirname dir) (disk w) = Some (FS.Dir true pes)) ->
   FS.lookup dir (disk (fst r2)) = None).
Proof.
  intros dir Hpos Hnow Hlen Hidx Hidx2 Hdir Hfiles Hjson Hmark walk w1 r2.
  assert (Hne : PurgeAfter cmd <> 0%Z) by lia.
  set (stamp := time.Format now time.RFC3339Nano).
  set (es1 := set_entry filenameRecipeDeleteMarker (File stamp) es).
  assert (Hw1 : w1 = with_disk w (put dir (Dir true es1) (disk w))).
  { unfold w1, walk.
    now rewrite (purge_mark_walk env cmd dataDir _ _ idx w uid es fuel
                   Hne Hlen Hidx Hdir Hfiles Hjson Hmark). }
  assert (Hdir1 : lookup dir (disk w1) = Some (Dir true es1)).
  { rewrite Hw1. cbn [with_disk disk]. exact (lookup_put_same _ _ _ _ Hdir). }
  assert (Hfiles1 : all_files es1 = true) by now apply all_files_set.
  assert (Hmark1 : lookup_entry filenameRecipeDeleteMarker es1 <> None).
  { unfold es1. rewrite lookup_entry_set_eq. discriminate. }
  assert (Hbase : indexed (basename dir) idx2 = false).
  { unfold dir.
    change [substring 0 2 uid; substring 0 3 uid; uid]
      with ([substring 0 2 uid; substring 0 3 uid] ++ [uid]).
    now rewrite app_assoc, basename_snoc. }
  assert (Hread : readTimestampMarker (dir ++ [filenameRecipeDeleteMarker])
                    time.RFC3339Nano w1 = (w1, Returned (inl now))).
  { apply readTimestampMarker_roundtrip; [exact Hnow|].
    rewrite (lookup_child _ _ _ _ _ Hdir1). unfold es1.
    now rewrite lookup_entry_set_eq. }
  pose proof (purge_marked_walk env cmd dataDir
                (time.Add now2 (time.neg (PurgeAfter cmd)))
                (time.Format now2 time.RFC3339Nano) idx2 w1 dir true es1 fuel2
                now Hne Hbase Hdir1 Hfiles1 Hmark1 Hread) as Hr2.
  fold (walk now2 idx2 fuel2) in Hr2. fold r2 in Hr2.
  rewrite after_cutoff in Hr2 by exact Hpos.
  split; [exact Hread|].
  destruct (Z.ltb_spec (time.Sub now2 now) (PurgeAfter cmd)) as [Hlt|Hge];
    rewrite Hr2; cbn [fst snd with_disk disk].
  - repeat split; auto. intros; lia.
  - repeat split; auto; [intros; lia|].
    intros _ [pes Hp].
    assert (Hdn : dirname dir
                  = pathToRecipesDir env dataDir
                    ++ [substring 0 2 uid; substring 0 3 uid]).
    { unfold dir.
      change [substring 0 2 uid; substring 0 3 uid; uid]
        with ([substring 0 2 uid; substring 0 3 uid] ++ [uid]).
      now rewrite app_assoc, dirname_snoc. }
    assert (Hd' : dir = dirname dir ++ [uid]).
    { rewrite Hdn. unfold dir. now rewrite <- app_assoc. }
    assert (Hu : lookup_entry uid pes = Some (Dir true es)).
    { rewrite <- (lookup_child _ uid _ _ _ Hp), <- Hd'. exact Hdir. }
    assert (Hp1 : lookup (dirname dir) (disk w1)
                  = Some (Dir true (set_entry uid (Dir true es1) pes))).
    { rewrite Hw1. cbn [with_disk disk]. rewrite Hd' at 2.
      exact (lookup_put_parent _ _ _ _ _ _ _ Hp Hu). }
    apply (remove_all_files_dir dir (disk w1) es1
             (set_entry uid (Dir true es1) pes)); auto.
    unfold dir. now destruct (pathToRecipesDir env dataDir).
Qed.

(** X15 at the directory of the recipe [abcde]: marked, kept by the walk
    of a purge an hour later and deleted by the walk of a purge a day
    later. *)
Lemma marked_recipe_is_purged_after_grace_witness :
  fst (walkDir 2 (Fixture.recipeDir "abcde")
         {| FS.Name := "abcde"; FS.IsDir := true |}
         (purgeWalkFn Fixture.noenv (Fixture.sync Fixture.day) false
            Fixture.dataDir
            (time.Add (time.Add Fixture.now time.Hour)
               (time.neg Fixture.day))
            (time.Format (time.Add Fixture.now time.Hour) time.RFC3339Nano)
            [])
         (fst (walkDir 2 (Fixture.recipeDir "abcde")
                 {| FS.Name := "abcde"; FS.IsDir := true |}
                 (purgeWalkFn Fixture.noenv (Fixture.sync Fixture.day) false
                    Fixture.dataDir
                    (time.Add Fixture.now (time.neg Fixture.day))
                    (time.Format Fixture.now time.RFC3339Nano) [])
                 (Fixture.world Fixture.stored))))
  = fst (walkDir 2 (Fixture.recipeDir "abcde")
           {| FS.Name := "abcde"; FS.IsDir := true |}
           (purgeWalkFn Fixture.noenv (Fixture.sync Fixture.day) false
              Fixture.dataDir
              (time.Add Fixture.now (time.neg Fixture.day))
              (time.Format Fixture.now time.RFC3339Nano) [])
           (Fixture.world Fixture.stored)) /\
  FS.lookup (Fixture.recipeDir "abcde")
    (disk
       (fst (walkDir 2 (Fixture.recipeDir "abcde")
               {| FS.Name := "abcde"; FS.IsDir := true |}
               (purgeWalkFn Fixture.noenv (Fixture.sync Fixture.day) false
                  Fixture.dataDir
                  (time.Add (time.Add Fixture.now Fixture.day)
                     (time.neg Fixture.day))
                  (time.Format (time.Add Fixture.now Fixture.day)
                     time.RFC3339Nano) [])
               (fst (walkDir 2 (Fixture.recipeDir "abcde")
                       {| FS.Name := "abcde"; FS.IsDir := true |}
                       (purgeWalkFn Fixture.noenv (Fixture.sync Fixture.day)
                          false Fixture.dataDir
                          (time.Add Fixture.now (time.neg Fixture.day))
                          (time.Format Fixture.now time.RFC3339Nano) [])
                       (Fixture.world Fixture.stored))))))
  = None.
Proof.
  assert (Hday : (0 < PurgeAfter (Fixture.sync Fixture.day))%Z)
    by (vm_compute; reflexivity).
  assert (Hnow : expressible Fixture.now) by (vm_compute; intuition congruence).
  assert (Hlen : (3 <= String.length "abcde")%nat) by (vm_compute; lia).
  assert (Hjson : lookup_entry filenameRecipeJSON
                    (Fixture.entries_at (Fixture.recipeDir "abcde")
                       Fixture.stored) <> None)
    by (vm_compute; discriminate).
  split.
  - pose proof
      (marked_recipe_is_purged_after_grace Fixture.noenv
         (Fixture.sync Fixture.day) Fixture.dataDir Fixture.now
         (time.Add Fixture.now time.Hour) [] [] (Fixture.world Fixture.stored)
         "abcde"
         (Fixture.entries_at (Fixture.recipeDir "abcde") Fixture.stored) 0 0
         Hday Hnow Hlen eq_refl eq_refl eq_refl eq_refl Hjson eq_refl)
      as (_ & _ & Hkeep & _).
    apply Hkeep. vm_compute. reflexivity.
  - pose proof
      (marked_recipe_is_purged_after_grace Fixture.noenv
         (Fixture.sync Fixture.day) Fixture.dataDir Fixture.now
         (time.Add Fixture.now Fixture.day) [] []
         (Fixture.world Fixture.stored) "abcde"
         (Fixture.entries_at (Fixture.recipeDir "abcde") Fixture.stored) 0 0
         Hday Hnow Hlen eq_refl eq_refl eq_refl eq_refl Hjson eq_refl)
      as (_ & _ & _ & Hgone).
    apply Hgone.
    + vm_compute. discriminate.
    + eexists. vm_compute. reflexivity.
Defined.

(** X16.  With a grace period of zero and a context that is not cancelled,
    the walk over the directory of a recipe that is not in the index,
    holding plain files with a recipe file or a marker among them, removes
    the directory at once, whatever a marker holds: no marker is read or
    written.  The walk ends without error, and the directory is gone when
    it and its parent are writable. *)
Theorem immediate_purge_removes_directory
    (env : Env) (cmd : SyncCMD) (dataDir : FS.path)
    (cutoff : time.Time) (nowStamp : string) (idx : list string) (w : World)
    (dir : FS.path) (wd : bool) (es : FS.entries) (fuel : nat) :
  PurgeAfter cmd = 0%Z ->
  indexed (FS.basename dir) idx = false ->
  FS.lookup dir (disk w) = Some (FS.Dir wd es) ->
  all_files es = true ->
  FS.lookup_entry filenameRecipeJSON es <> None \/
  FS.lookup_entry filenameRecipeDeleteMarker es <> None ->
  let r :=
    walkDir (S (S fuel)) dir
      {| FS.Name := FS.basename dir; FS.IsDir := true |}
      (purgeWalkFn env cmd false dataDir cutoff nowStamp idx) w in
  r = (with_disk w (fst (FS.remove_all dir (disk w))), Returned None) /\
  (wd = true -> dir <> [] ->
   (exists pes,
      FS.lookup (FS.dirname dir) (disk w) = Some (FS.Dir true pes)) ->
   FS.lookup dir (disk (fst r)) = None).
Proof.
  intros Hzero Hidx Hdir Hfiles Hsome r.
  pose proof (purge_immediate_walk env cmd dataDir cutoff nowStamp idx w dir
                wd es fuel Hzero Hidx Hdir Hfiles Hsome) as Hr.
  fold r in Hr. split; [exact Hr|].
  intros -> Hne [pes Hp]. rewrite Hr. cbn [fst with_disk disk].
  now apply (remove_all_files_dir dir (disk w) es pes).
Qed.

(** X16 at the recipe [old11] with a marker of one hour. *)
Lemma immediate_purge_removes_directory_witness :
  FS.lookup (Fixture.recipeDir "old11")
    (disk (fst (walkDir 2 (Fixture.recipeDir "old11")
                  {| FS.Name := "old11"; FS.IsDir := true |}
                  (purgeWalkFn Fixture.noenv (Fixture.sync 0%Z) false
                     Fixture.dataDir Fixture.now
                     (time.Format Fixture.now time.RFC3339Nano) ["keep1"])
                  (Fixture.world
                     (Fixture.marked
                        (time.Add Fixture.now (- time.Hour)%Z))))))
  = None.
Proof.
  apply (proj2
    (immediate_purge_removes_directory Fixture.noenv (Fixture.sync 0%Z)
       Fixture.dataDir Fixture.now
       (time.Format Fixture.now time.RFC3339Nano) ["keep1"]
       (Fixture.world (Fixture.marked (time.Add Fixture.now (- time.Hour)%Z)))
       (Fixture.recipeDir "old11") true
       (Fixture.entries_at (Fixture.recipeDir "old11")
          (Fixture.marked (time.Add Fixture.now (- time.Hour)%Z)))
       0
       ltac:(reflexivity) ltac:(reflexivity) ltac:(reflexivity)
       ltac:(reflexivity) ltac:(left; vm_compute; discriminate))).
  - reflexivity.
  - discriminate.
  - eexists. vm_compute. reflexivity.
Defined.

(** X17.  A marker that holds no time stops the purge.  With a grace
    period that is not zero and a context that is not cancelled, the walk
    over the directory of a recipe that is not in the index, holding plain
    files and a marker that is empty or does not begin with a decimal
    digit, changes nothing and returns the error of the read ([io.EOF] for
    an empty marker, the error of [time.Parse] otherwise), which ends the
    walk. *)
Theorem unreadable_marker_stops_the_purge
    (env : Env) (cmd : SyncCMD) (dataDir : FS.path)
    (cutoff : time.Time) (nowStamp : string) (idx : list string) (w : World)
    (dir : FS.path) (wd : bool) (es : FS.entries) (fuel : nat)
    (body : string) :
  PurgeAfter cmd <> 0%Z ->
  indexed (FS.basename dir) idx = false ->
  FS.lookup dir (disk w) = Some (FS.Dir wd es) ->
  all_files es = true ->
  FS.lookup_entry filenameRecipeDeleteMarker es = Some (FS.File body) ->
  undated body = true ->
  walkDir (S (S fuel)) dir
    {| FS.Name := FS.basename dir; FS.IsDir := true |}
    (purgeWalkFn env cmd false dataDir cutoff nowStamp idx) w
  = (w, Returned (Some (if (body =? "")%string then EOF else ErrTimeParse))).
Proof.
  intros Hpos Hidx Hdir Hfiles Hm Hund.
  assert (Hl : lookup (dir ++ [filenameRecipeDeleteMarker]) (disk w)
               = Some (File body))
    by now rewrite (lookup_child _ _ _ _ _ Hdir).
  apply (purge_unreadable_walk env cmd dataDir cutoff nowStamp idx w dir wd es
           fuel); auto; try congruence.
  - destruct (String.eqb_spec body "") as [->|Hb].
    + unfold readTimestampMarker, bind, reads, FS.open. now rewrite Hl.
    + rewrite (readTimestampMarker_file _ _ _ Hl Hb).
      now rewrite (Parse_undated _ Hb Hund).
  - destruct (body =? "")%string; discriminate.
Qed.

(** X17 at a marker that holds a note. *)
Lemma unreadable_marker_stops_the_purge_witness :
  walkDir 2 (Fixture.recipeDir "old11")
    {| FS.Name := "old11"; FS.IsDir := true |}
    (purgeWalkFn Fixture.noenv (Fixture.sync Fixture.day) false
       Fixture.dataDir (time.Add Fixture.now (time.neg Fixture.day))
       (time.Format Fixture.now time.RFC3339Nano) ["keep1"])
    (Fixture.world Cases.smudged)
  = (Fixture.world Cases.smudged, Returned (Some ErrTimeParse)).
Proof.
  apply (unreadable_marker_stops_the_purge Fixture.noenv
           (Fixture.sync Fixture.day) Fixture.dataDir
           (time.Add Fixture.now (time.neg Fixture.day))
           (time.Format Fixture.now time.RFC3339Nano) ["keep1"]
           (Fixture.world Cases.smudged) (Fixture.recipeDir "old11") true
           (Fixture.entries_at (Fixture.recipeDir "old11") Cases.smudged)
           0 "purge me").
  - vm_compute. discriminate.
  - reflexivity.
  - reflexivity.
  - reflexivity.
  - reflexivity.
  - reflexivity.
Defined.

(** ** readTimestampMarker *)

(** X18.  [readTimestampMarker] reads no more than the length of the
    layout, 35 bytes.  Of a marker that holds a formatted time followed by
    more text (a line end, say), the text is left out and the time read
    back when the formatted time fills the 35 bytes; when it is shorter,
    the buffer takes some of the text and the read fails with the error of
    [time.Parse]. *)
Theorem marker_with_trailing_text
    (t : time.Time) (junk : string) (path : FS.path) (w : World) :
  expressible t ->
  junk <> ""%string ->
  FS.lookup path (disk w)
  = Some (FS.File (time.Format t time.RFC3339Nano ++ junk)%string) ->
  readTimestampMarker path time.RFC3339Nano w
  = (w, Returned
          (if (String.length (time.Format t time.RFC3339Nano)
               =? String.length time.RFC3339Nano)%nat
           then inl t else inr ErrTimeParse)).
Proof.
  intros Ht Hj Hl.
  change (time.Format t time.RFC3339Nano) with (formatRFC3339Nano t) in *.
  destruct (format_parse t Ht) as [Hparse Hlen].
  assert (Hb : (formatRFC3339Nano t ++ junk)%string <> ""%string).
  { pose proof (formatRFC3339Nano_nonempty t Ht) as Hne.
    destruct (formatRFC3339Nano t); [congruence|discriminate]. }
  rewrite (readTimestampMarker_file _ _ _ Hl Hb).
  rewrite (substring_app _ _ _ Hlen). unfold time.Parse.
  rewrite String.eqb_refl.
  destruct (Nat.eqb_spec (String.length (formatRFC3339Nano t))
              (String.length time.RFC3339Nano)) as [E|E].
  - rewrite E, Nat.sub_diag.
    assert (substring 0 0 junk = ""%string) as -> by now destruct junk.
    now rewrite append_nil_r, Hparse.
  - rewrite format_parse_junk; auto.
    apply substring_nonempty; [exact Hj|lia].
Qed.

(** X18 at two markers that end in a line feed: the time of the
    repository's test, and the same time with nine digits of fraction in a
    zone one hour east. *)
Lemma marker_with_trailing_text_witness :
  readTimestampMarker ["marker"] time.RFC3339Nano
    (Fixture.world
       (FS.Dir true [("marker", FS.File Cases.stamp_and_line_feed)]))
  = (Fixture.world
       (FS.Dir true [("marker", FS.File Cases.stamp_and_line_feed)]),
     Returned (inr ErrTimeParse)) /\
  readTimestampMarker ["marker"] time.RFC3339Nano
    (Fixture.world
       (FS.Dir true [("marker", FS.File Cases.long_stamp_and_line_feed)]))
  = (Fixture.world
       (FS.Dir true [("marker", FS.File Cases.long_stamp_and_line_feed)]),
     Returned (inl Cases.precise)).
Proof.
  assert (H1 : expressible Fixture.now) by (vm_compute; intuition congruence).
  assert (H2 : expressible Cases.precise)
    by (vm_compute; intuition congruence).
  split.
  - exact (marker_with_trailing_text Fixture.now Cases.line_feed ["marker"]
             (Fixture.world
                (FS.Dir true [("marker", FS.File Cases.stamp_and_line_feed)]))
             H1 ltac:(discriminate) eq_refl).
  - exact (marker_with_trailing_text Cases.precise Cases.line_feed ["marker"]
             (Fixture.world
                (FS.Dir true
                   [("marker", FS.File Cases.long_stamp_and_line_feed)]))
             H2 ltac:(discriminate) eq_refl).
Defined.

(** ** PruneFilelessSubtrees *)

(** X19.  Pruning is idempotent: on a well-formed tree whose directories
    are writable, with a context that is not cancelled, a second
    [PruneFilelessSubtrees] of the same root ends without error and leaves
    the world as the first left it. *)
Theorem PruneFilelessSubtrees_idempotent
    (root : FS.path) (w : World) (es : FS.entries) :
  FS.lookup root (disk w) = Some (FS.Dir true es) ->
  unique_names (FS.Dir true es) = true ->
  all_writable (FS.Dir true es) = true ->
  let w1 := fst (PruneFilelessSubtrees false root w) in
  PruneFilelessSubtrees false root w1 = (w1, Returned None).
Proof.
  intros Hroot Hu Hw w1.
  assert (Hw1 : w1 = with_disk w (put root (Dir true (prune_entries es))
                                    (disk w))).
  { unfold w1, PruneFilelessSubtrees. rewrite Hroot.
    now rewrite (pruneRoot_spec root es Hu Hw). }
  assert (Hroot1 : lookup root (disk w1) = Some (Dir true (prune_entries es))).
  { rewrite Hw1. cbn [with_disk disk]. exact (lookup_put_same _ _ _ _ Hroot). }
  unfold PruneFilelessSubtrees. rewrite Hroot1.
  rewrite (pruneRoot_spec root (prune_entries es)
             (unique_names_prune_entries _ _ Hu)
             (all_writable_prune_entries _ _ Hw)).
  rewrite prune_entries_twice, (put_same _ _ _ Hroot1).
  now destruct w1.
Qed.

(** X19 on the tree of the repository's test. *)
Lemma PruneFilelessSubtrees_idempotent_witness :
  PruneFilelessSubtrees false ["data"]
    (fst (PruneFilelessSubtrees false ["data"]
            (Fixture.world Fixture.scaffold)))
  = (fst (PruneFilelessSubtrees false ["data"]
            (Fixture.world Fixture.scaffold)),
     Returned None).
Proof.
  exact (PruneFilelessSubtrees_idempotent ["data"]
           (Fixture.world Fixture.scaffold)
           (Fixture.entries_at ["data"] Fixture.scaffold)
           eq_refl eq_refl eq_refl).
Defined.

(** X20.  After [PruneFilelessSubtrees] on a well-formed tree whose
    directories are writable, with a context that is not cancelled, no
    fileless directory is left below the root: whatever is at a path below
    the root is a file or a directory with a file somewhere in it. *)
Theorem PruneFilelessSubtrees_leaves_no_fileless_directory
    (root : FS.path) (w : World) (es : FS.entries) (p : FS.path)
    (d : FS.node) :
  FS.lookup root (disk w) = Some (FS.Dir true es) ->
  unique_names (FS.Dir true es) = true ->
  all_writable (FS.Dir true es) = true ->
  p <> [] ->
  FS.lookup (root ++ p) (disk (fst (PruneFilelessSubtrees false root w)))
  = Some d ->
  fileless d = false.
Proof.
  intros Hroot Hu Hw Hp.
  unfold PruneFilelessSubtrees. rewrite Hroot.
  rewrite (pruneRoot_spec root es Hu Hw). cbn [fst disk].
  rewrite lookup_app, (lookup_put_same _ _ _ _ Hroot).
  apply lookup_prune_entries_holds. exact Hp.
Qed.

(** X20 on the tree of the repository's test: the directory [keep] stays
    and is not fileless. *)
Lemma PruneFilelessSubtrees_leaves_no_fileless_directory_witness :
  fileless
    (FS.Dir true [("child", FS.Dir true [("file.txt", FS.File "data")])])
  = false.
Proof.
  exact (PruneFilelessSubtrees_leaves_no_fileless_directory ["data"]
           (Fixture.world Fixture.scaffold)
           (Fixture.entries_at ["data"] Fixture.scaffold) ["keep"]
           (FS.Dir true [("child", FS.Dir true [("file.txt", FS.File "data")])])
           eq_refl eq_refl eq_refl ltac:(discriminate) eq_refl).
Defined.

(** X21.  With a cancelled context [PruneFilelessSubtrees] removes
    nothing.  It returns the error of the context when the root holds a
    directory, and nil when the root holds files only: the context is not
    looked at before the first directory. *)
Theorem cancelled_prune_changes_nothing
    (root : FS.path) (w : World) (wd : bool) (es : FS.entries) :
  FS.lookup root (disk w) = Some (FS.Dir wd es) ->
  distinct (map fst es) = true ->
  PruneFilelessSubtrees true root w
  = (w, Returned (if existsb (fun e => FS.is_dir (snd e)) es
                  then Some ErrCanceled else None)).
Proof.
  intros Hroot Hd. apply distinct_NoDup in Hd.
  unfold PruneFilelessSubtrees. rewrite Hroot.
  change (pruneRoot true root (Dir wd es))
    with (let (cur, err) := pruneRootRange true root wd es es in
          (Dir wd cur, err)).
  rewrite (pruneRootRange_cancelled root wd es es
             (fun x c Hin => In_lookup_entry x c es Hd Hin)).
  rewrite (put_same _ _ _ Hroot). now destruct w.
Qed.

(** X21 on the tree of the repository's test, and on a directory of plain
    files. *)
Lemma cancelled_prune_changes_nothing_witness :
  PruneFilelessSubtrees true ["data"] (Fixture.world Fixture.scaffold)
  = (Fixture.world Fixture.scaffold, Returned (Some ErrCanceled)) /\
  PruneFilelessSubtrees true (Fixture.recipeDir "abcde")
    (Fixture.world Fixture.stored)
  = (Fixture.world Fixture.stored, Returned None).
Proof.
  split.
  - exact (cancelled_prune_changes_nothing ["data"]
             (Fixture.world Fixture.scaffold) true
             (Fixture.entries_at ["data"] Fixture.scaffold) eq_refl eq_refl).
  - exact (cancelled_prune_changes_nothing (Fixture.recipeDir "abcde")
             (Fixture.world Fixture.stored) true
             (Fixture.entries_at (Fixture.recipeDir "abcde") Fixture.stored)
             eq_refl eq_refl).
Defined.

(** ** cmd/version.go *)

(** X22.  [enrichBuildInfo] never overrides a value given with
    [-ldflags]: whatever the build information holds, the version is left
    as it is, and so is each of the commit, the date and the dirty flag
    that is not empty. *)
Theorem enrichBuildInfo_keeps_ldflags
    (info : version.BuildInfo) (b : version.BuildVars) :
  let b' := version.enrichBuildInfo info b in
  version.BuildVersion b' = version.BuildVersion b /\
  (version.BuildCommit b <> ""%string ->
   version.BuildCommit b' = version.BuildCommit b) /\
  (version.BuildDate b <> ""%string ->
   version.BuildDate b' = version.BuildDate b) /\
  (version.BuildDirty b <> ""%string ->
   version.BuildDirty b' = version.BuildDirty b).
Proof.
  unfold version.enrichBuildInfo.
  destruct (negb (version.BuildVersion b =? "dev")
            && negb (version.BuildCommit b =? "")
            && negb (version.BuildDate b =? ""))%string; [cbv zeta; tauto|].
  destruct info as [settings|]; [|cbv zeta; tauto].
  apply settings_keep.
Qed.

(** X23.  [versionStringFull] can be called again: a second call, on the
    variables the first call left, returns the same text and leaves the
    variables as they are. *)
Theorem versionStringFull_repeatable
    (info : version.BuildInfo) (b : version.BuildVars) :
  version.versionStringFull info (fst (version.versionStringFull info b))
  = version.versionStringFull info b.
Proof.
  unfold version.versionStringFull. cbn [fst].
  now rewrite enrichBuildInfo_idem.
Qed.

(** X24.  A build whose version, commit and date were all given with
    [-ldflags] never looks at the build information: the text of
    [versionStringFull] is the one it gives without any, so the dirty mark
    is shown only if the flag itself was given as [true]. *)
Theorem release_build_ignores_build_info
    (info : version.BuildInfo) (b : version.BuildVars) :
  version.BuildVersion b <> "dev"%string ->
  version.BuildCommit b <> ""%string ->
  version.BuildDate b <> ""%string ->
  version.versionStringFull info b
  = (b, (version.BuildVersion b ++ " (" ++ version.BuildCommit b ++ ", "
         ++ version.BuildDate b ++ ")"
         ++ (if (version.BuildDirty b =? "true")%string
             then " [dirty]" else ""))%string).
Proof.
  intros Hv Hc Hd.
  apply String.eqb_neq in Hv, Hc, Hd.
  assert (He : version.enrichBuildInfo info b = b).
  { unfold version.enrichBuildInfo. now rewrite Hv, Hc, Hd. }
  unfold version.versionStringFull. rewrite He. cbv zeta.
  rewrite Hc, Hd.
  cbn [negb app List.length Nat.ltb Nat.leb String.concat].
  f_equal.
  destruct (version.BuildDirty b =? "true")%string;
    rewrite ?append_assoc, ?append_nil_r; reflexivity.
Qed.

(** X24 at a release built from a tree with changes. *)
Lemma release_build_ignores_build_info_witness :
  version.versionStringFull
    (Some [version.Build_BuildSetting "vcs.modified" "true"])
    (version.Build_BuildVars "v1.2.3" "abc1234" "2025-09-22T15:05:00Z" "")
  = (version.Build_BuildVars "v1.2.3" "abc1234" "2025-09-22T15:05:00Z" "",
     "v1.2.3 (abc1234, 2025-09-22T15:05:00Z)"%string).
Proof.
  exact (release_build_ignores_build_info
           (Some [version.Build_BuildSetting "vcs.modified" "true"])
           (version.Build_BuildVars "v1.2.3" "abc1234"
              "2025-09-22T15:05:00Z" "")
           ltac:(discriminate) ltac:(discriminate) ltac:(discriminate)).
Defined.

(** ** What the pruner and the purge never do *)

(** X25.  [PruneFilelessSubtrees] never deletes a file.  Whatever the
    context, the permissions of the directories and the point at which it
    stops, every file of the disk is where it was and holds what it held
    when the function is done (the tree at the root has no name twice in a
    directory); no request is sent. *)
Theorem PruneFilelessSubtrees_never_deletes_a_file
    (ctx : Context) (root : FS.path) (w : World) (q : FS.path)
    (body : string) :
  (forall n, FS.lookup root (disk w) = Some n -> unique_names n = true) ->
  FS.lookup q (disk w) = Some (FS.File body) ->
  FS.lookup q (disk (fst (PruneFilelessSubtrees ctx root w)))
  = Some (FS.File body) /\
  requests (fst (PruneFilelessSubtrees ctx root w)) = requests w.
Proof.
  intros Hu Hq. unfold PruneFilelessSubtrees.
  destruct (lookup root (disk w)) as [n|] eqn:Hroot; [|now split].
  pose proof (pruneRoot_safe ctx root n (Hu n eq_refl)) as Hk.
  destruct (pruneRoot ctx root n) as [n' err]. cbn [fst disk requests] in *.
  split; [|reflexivity].
  exact (keeps_files_put root n' (disk w) n Hroot Hk q body Hq).
Qed.

(** X25 on the tree of the repository's test, with a data directory that
    does not let its entries be removed: the pruning fails, the file is
    there. *)
Lemma PruneFilelessSubtrees_never_deletes_a_file_witness :
  snd (PruneFilelessSubtrees false ["data"] (Fixture.world Cases.guarded))
  = Returned (Some (ErrWrap "remove" ["data"; "remove"] EACCES)) /\
  FS.lookup ["data"; "keep"; "child"; "file.txt"]
    (disk (fst (PruneFilelessSubtrees false ["data"]
                  (Fixture.world Cases.guarded))))
  = Some (FS.File "data").
Proof.
  split; [vm_compute; reflexivity|].
  apply (PruneFilelessSubtrees_never_deletes_a_file false ["data"]
           (Fixture.world Cases.guarded)
           ["data"; "keep"; "child"; "file.txt"] "data").
  - intros n Hn. vm_compute in Hn. injection Hn as <-. reflexivity.
  - reflexivity.
Defined.

(** X26.  The purge stays inside the recipes directory.  When the path of
    the recipes directory does not lead to a file, every file that is not
    below that path is where it was and holds what it held after
    [PurgeUnreferencedRecipes], whatever the grace period, the context and
    the outcome of the pass: the index files, and anything else beside the
    recipes directory, are never removed or written.  No request is
    sent. *)
Theorem purge_stays_inside_recipes_directory {json : JSON}
    (env : Env) (cmd : SyncCMD) (ctx : Context) (dataDir : FS.path)
    (now : time.Time) (w : World) (q : FS.path) (body : string) :
  (forall b,
     FS.lookup (pathToRecipesDir env dataDir) (disk w) <> Some (FS.File b)) ->
  (forall p, q <> pathToRecipesDir env dataDir ++ p) ->
  FS.lookup q (disk w) = Some (FS.File body) ->
  FS.lookup q
    (disk (fst (PurgeUnreferencedRecipes env cmd ctx dataDir now w)))
  = Some (FS.File body) /\
  requests (fst (PurgeUnreferencedRecipes env cmd ctx dataDir now w))
  = requests w.
Proof.
  intros Hroot Hq Hl.
  assert (Hk : kept_outside (pathToRecipesDir env dataDir) w
                 (fst (PurgeUnreferencedRecipes env cmd ctx dataDir now w))).
  { unfold PurgeUnreferencedRecipes, bind, reads, FS.open.
    destruct (lookup (pathToRecipesIndexFile env dataDir) (disk w)) as [f|];
      [|now split].
    destruct (decode_from decode_index f) as [index|e]; [|now split].
    match goal with
    | |- context [WalkDir ?r ?fn w] =>
        destruct (WalkDir r fn w) as [w' res] eqn:Ew
    end.
    cbn [fst].
    exact (purge_WalkDir_stays env cmd ctx dataDir _ _ _ w w' res Hroot Ew). }
  destruct Hk as [Hreq Hfiles]. split; [|exact Hreq].
  now apply Hfiles.
Qed.

(** X26 at the index file, in an immediate purge that removes a recipe. *)
Lemma purge_stays_inside_recipes_directory_witness :
  FS.lookup (Fixture.recipeDir "old11")
    (disk (fst (@PurgeUnreferencedRecipes FlatJSON.codec Fixture.noenv
                  (Fixture.sync 0%Z) false Fixture.dataDir Fixture.now
                  (Fixture.world Fixture.stale))))
  = None /\
  FS.lookup ["data"; "recipes-index.json"]
    (disk (fst (@PurgeUnreferencedRecipes FlatJSON.codec Fixture.noenv
                  (Fixture.sync 0%Z) false Fixture.dataDir Fixture.now
                  (Fixture.world Fixture.stale))))
  = Some (FS.File (FlatJSON.enc_index [Fixture.item "keep1" "h1"])).
Proof.
  split; [vm_compute; reflexivity|].
  apply (@purge_stays_inside_recipes_directory FlatJSON.codec Fixture.noenv
           (Fixture.sync 0%Z) false Fixture.dataDir Fixture.now
           (Fixture.world Fixture.stale) ["data"; "recipes-index.json"]
           (FlatJSON.enc_index [Fixture.item "keep1" "h1"])).
  - intros b. vm_compute. discriminate.
  - intros p. vm_compute. discriminate.
  - vm_compute. reflexivity.
Defined.

(** ** A whole run *)

(** X27.  What a run that returns nil has done, purge and pruning
    included.  With the recipes branch enabled and the context not
    cancelled, on a disk where no directory holds a name twice and the
    recipes directory is laid out in shards, a run that returns nil leaves
    every recipe of the index it fetched in the store, when every uid of
    that index is one path component (no separator, no two periods at its
    start): after the sync, the purge and the pruning, the recipe file of
    each uid is there and holds the record the server has for the uid or a
    record with the hash of the index entry.  The two index files are taken
    to be two files not named like a recipe file or a marker, and the codec
    to read the uids of the index back from what it wrote. *)
Theorem successful_run_stores_every_recipe {json : JSON}
    (env : Env) (cmd : SyncCMD) (cli : CLI) (pc : paprika.Client.t)
    (k : nat) (now : time.Time) (w w' : World) :
  IncludeRecipes cmd = true ->
  unique_names (disk w) = true ->
  sharded (pathToRecipesDir env (DataDir cli)) (disk w) = true ->
  marker_or_recipe (FS.basename (pathToRecipesIndexFile env (DataDir cli)))
  = false ->
  marker_or_recipe (FS.basename (pathToCategoriesIndexFile env (DataDir cli)))
  = false ->
  pathToCategoriesIndexFile env (DataDir cli)
    <> pathToRecipesIndexFile env (DataDir cli) ->
  option_map (map paprika.RecipeItem.UID)
    (decode_index (encode_index (fst (paprika.Client.Recipes pc))))
  = Some (map paprika.RecipeItem.UID (fst (paprika.Client.Recipes pc))) ->
  Forall (fun ref => plain_uid (paprika.RecipeItem.UID ref) = true)
    (fst (paprika.Client.Recipes pc)) ->
  Run env cmd false cli pc k now w = (w', Returned None) ->
  Forall (backed_up env cli pc w') (fst (paprika.Client.Recipes pc)).
Proof.
  intros Hrec Hu Hsh Hidx Hcat Hne Hdec _ Hrun.
  assert (Hidx' : FS.basename (pathToRecipesIndexFile env (DataDir cli))
                  <> filenameRecipeJSON).
  { intros E. rewrite E in Hidx. discriminate. }
  assert (Hcat' : FS.basename (pathToCategoriesIndexFile env (DataDir cli))
                  <> filenameRecipeJSON).
  { intros E. rewrite E in Hcat. discriminate. }
  destruct (syncPhase env cmd false cli pc k w) as [w1 [st|cr]] eqn:Hs.
  2:{ rewrite (Run_sync_crash env cmd false cli pc k now w w1 cr Hs) in Hrun.
      discriminate. }
  rewrite (Run_after_sync env cmd false cli pc k now w w1 st Hs) in Hrun.
  assert (Hflag : fst st = false).
  { destruct (fst st) eqn:E; [|reflexivity].
    unfold purgePhase in Hrun. cbn in Hrun. discriminate. }
  pose proof (syncPhase_backs_up env cmd cli pc k w w1 st Hrec Hcat' Hs Hflag)
    as Hb1.
  pose proof (syncPhase_unique env cmd false cli pc k w w1 st Hrec Hu Hs)
    as Hu1.
  pose proof (syncPhase_tidy env cmd false cli pc k w w1 st Hrec Hidx Hcat
                (sharded_tidy _ _ Hsh) Hs) as Ht1.
  pose proof (tidy_sharded _ _ Hu1 Ht1) as Hsh1.
  pose proof (syncPhase_index_file env cmd false cli pc k w w1 st Hrec Hidx'
                Hne Hs Hflag) as Hfile1.
  assert (Hw' : w' = fst (purgePhase env cmd false cli now (fst st) w1)).
  { destruct (purgePhase env cmd false cli now (fst st) w1)
      as [w2 [[|]|cr]]; cbn [fst]; congruence. }
  rewrite Hw'. rewrite Forall_forall in *. intros ref Hin.
  exact (purgePhase_keeps_backup env cmd false cli pc now (fst st) w1 _ ref
           Hfile1 Hdec Hin Hu1 Hsh1 (Hb1 ref Hin)).
Qed.

(** X27 at the pantry, on a disk with a recipe marked two days ago that the
    run purges. *)
Lemma successful_run_stores_every_recipe_witness :
  FS.lookup (Fixture.recipeDir "old11")
    (disk (fst (@Run FlatJSON.codec Fixture.noenv (Fixture.sync Fixture.day)
                  false Fixture.cli Fixture.pantry 0 Fixture.now
                  (Fixture.world Fixture.stale)))) = None /\
  Forall
    (@backed_up FlatJSON.codec Fixture.noenv Fixture.cli Fixture.pantry
       (fst (@Run FlatJSON.codec Fixture.noenv (Fixture.sync Fixture.day)
               false Fixture.cli Fixture.pantry 0 Fixture.now
               (Fixture.world Fixture.stale))))
    (fst (paprika.Client.Recipes Fixture.pantry)).
Proof.
  assert (Hrun : @Run FlatJSON.codec Fixture.noenv (Fixture.sync Fixture.day)
                   false Fixture.cli Fixture.pantry 0 Fixture.now
                   (Fixture.world Fixture.stale)
                 = (fst (@Run FlatJSON.codec Fixture.noenv
                           (Fixture.sync Fixture.day) false Fixture.cli
                           Fixture.pantry 0 Fixture.now
                           (Fixture.world Fixture.stale)),
                    Returned None))
    by (vm_compute; reflexivity).
  split; [vm_compute; reflexivity|].
  apply (@successful_run_stores_every_recipe FlatJSON.codec Fixture.noenv
           (Fixture.sync Fixture.day) Fixture.cli Fixture.pantry 0 Fixture.now
           (Fixture.world Fixture.stale) _ eq_refl).
  - vm_compute. reflexivity.
  - vm_compute. reflexivity.
  - vm_compute. reflexivity.
  - vm_compute. reflexivity.
  - vm_compute. discriminate.
  - vm_compute. reflexivity.
  - repeat constructor.
  - exact Hrun.
Defined.

(** X28.  A run with the purge disabled that returns has changed no file
    but its own: every file that is neither one of the two index files nor
    the recipe file of a uid of the fetched index is where it was and holds
    what it held, whatever the context, the schedule and the result. *)
Theorem run_without_purge_keeps_other_files {json : JSON}
    (env : Env) (cmd : SyncCMD) (ctx : Context) (cli : CLI)
    (pc : paprika.Client.t) (k : nat) (now : time.Time) (w w' : World)
    (r : option error) (q : FS.path) (b : string) :
  (PurgeAfter cmd < 0)%Z ->
  q <> pathToRecipesIndexFile env (DataDir cli) ->
  q <> pathToCategoriesIndexFile env (DataDir cli) ->
  (forall ref, In ref (fst (paprika.Client.Recipes pc)) ->
     q <> recipeFile env (DataDir cli) (paprika.RecipeItem.UID ref)) ->
  FS.lookup q (disk w) = Some (FS.File b) ->
  Run env cmd ctx cli pc k now w = (w', Returned r) ->
  FS.lookup q (disk w') = Some (FS.File b).
Proof.
  intros Hpurge Hqi Hqc Hqr Hl Hrun.
  destruct (syncPhase env cmd ctx cli pc k w) as [w1 [st|cr]] eqn:Hs.
  2:{ rewrite (Run_sync_crash env cmd ctx cli pc k now w w1 cr Hs) in Hrun.
      discriminate. }
  rewrite (Run_after_sync env cmd ctx cli pc k now w w1 st Hs) in Hrun.
  unfold purgePhase in Hrun.
  assert ((0 <=? PurgeAfter cmd)%Z = false) as E by (apply Z.leb_gt; lia).
  rewrite E, andb_false_r in Hrun. unfold ret in Hrun.
  assert (w' = w1) as -> by (destruct (fst st); congruence).
  set (J := fun d => FS.lookup q d = Some (FS.File b)).
  set (P := fun path : FS.path => path <> q).
  assert (HJ : forall body path v,
            P path -> J (disk v) -> J (disk (fst (saveAsJSON body path v)))).
  { intros body path v Hp Hj. now apply saveAsJSON_keeps_file. }
  destruct (IncludeRecipes cmd) eqn:Hrec.
  - apply (syncPhase_J env cmd ctx cli pc J P HJ k w w1 st Hrec); unfold P;
      auto.
    intros ref Hin E1. exact (Hqr ref Hin (eq_sym E1)).
  - unfold syncPhase in Hs. rewrite Hrec in Hs. cbn [negb] in Hs.
    apply (categoriesTask_J env cmd cli pc J P HJ (false, 0%Z) w w1 st);
      unfold P; auto.
Qed.

(** X28 at the kitchen: the stored recipe of another uid stays as it
    is. *)
Lemma run_without_purge_keeps_other_files_witness :
  FS.lookup (Fixture.recipeFile "old11")
    (disk (fst (@Run FlatJSON.codec Fixture.noenv (Fixture.sync (-1)) false
                  Fixture.cli Fixture.kitchen 0 Fixture.now
                  (Fixture.world Fixture.stale))))
  = Some (FS.File (FlatJSON.enc_recipe (paprika.Recipe.mk "old11" "old" ""))).
Proof.
  assert (Hrun : @Run FlatJSON.codec Fixture.noenv (Fixture.sync (-1)) false
                   Fixture.cli Fixture.kitchen 0 Fixture.now
                   (Fixture.world Fixture.stale)
                 = (fst (@Run FlatJSON.codec Fixture.noenv (Fixture.sync (-1))
                           false Fixture.cli Fixture.kitchen 0 Fixture.now
                           (Fixture.world Fixture.stale)),
                    Returned None))
    by (vm_compute; reflexivity).
  apply (@run_without_purge_keeps_other_files FlatJSON.codec Fixture.noenv
           (Fixture.sync (-1)) false Fixture.cli Fixture.kitchen 0 Fixture.now
           (Fixture.world Fixture.stale) _ None).
  - vm_compute. reflexivity.
  - vm_compute. discriminate.
  - vm_compute. discriminate.
  - intros ref [<-|[<-|[]]]; vm_compute; discriminate.
  - vm_compute. reflexivity.
  - exact Hrun.
Defined.

(** X29.  The requests of a run that returns.  It has sent at most one
    request for each entry of the index it fetched and two more, and each
    of them is the request for the index, the request for the categories,
    or the request for the record of a uid of the index: no record is asked
    for that the index does not name, and the purge and the pruner send
    nothing. *)
Theorem run_sends_expected_requests {json : JSON}
    (env : Env) (cmd : SyncCMD) (ctx : Context) (cli : CLI)
    (pc : paprika.Client.t) (k : nat) (now : time.Time) (w w' : World)
    (r : option error) :
  Run env cmd ctx cli pc k now w = (w', Returned r) ->
  exists l,
    requests w' = l ++ requests w /\
    (List.length l <= 2 + List.length (fst (paprika.Client.Recipes pc)))%nat /\
    Forall (expected_request (fst (paprika.Client.Recipes pc))) l.
Proof.
  intros Hrun.
  destruct (syncPhase env cmd ctx cli pc k w) as [w1 [st|cr]] eqn:Hs.
  2:{ rewrite (Run_sync_crash env cmd ctx cli pc k now w w1 cr Hs) in Hrun.
      discriminate. }
  rewrite (Run_after_sync env cmd ctx cli pc k now w w1 st Hs) in Hrun.
  pose proof (purgePhase_requests env cmd ctx cli now (fst st) w1) as Hp.
  destruct (syncPhase_requests env cmd ctx cli pc k w w1 st Hs)
    as (l & Hl & Hlen & Hall).
  exists l. split; [|now split].
  unfold sent in Hl. rewrite <- Hl, <- Hp.
  destruct (purgePhase env cmd ctx cli now (fst st) w1) as [w2 [[|]|cr]];
    cbn [fst]; congruence.
Qed.

(** X29 at the kitchen, on an empty data directory. *)
Lemma run_sends_expected_requests_witness :
  exists l,
    requests
      (fst (@Run FlatJSON.codec Fixture.noenv (Fixture.sync (-1)) false
              Fixture.cli Fixture.kitchen 0 Fixture.now
              (Fixture.world Fixture.emptyDisk)))
    = l ++ [] /\
    (List.length l <= 2 + 2)%nat /\
    Forall (expected_request (fst (paprika.Client.Recipes Fixture.kitchen))) l.
Proof.
  assert (Hrun : @Run FlatJSON.codec Fixture.noenv (Fixture.sync (-1)) false
                   Fixture.cli Fixture.kitchen 0 Fixture.now
                   (Fixture.world Fixture.emptyDisk)
                 = (fst (@Run FlatJSON.codec Fixture.noenv (Fixture.sync (-1))
                           false Fixture.cli Fixture.kitchen 0 Fixture.now
                           (Fixture.world Fixture.emptyDisk)),
                    Returned None))
    by (vm_compute; reflexivity).
  exact (@run_sends_expected_requests FlatJSON.codec Fixture.noenv
           (Fixture.sync (-1)) false Fixture.cli Fixture.kitchen 0 Fixture.now
           (Fixture.world Fixture.emptyDisk) _ None Hrun).
Defined.
